(* ===== verification/_CoqProject ===== *)
-Q . S2P
Prelude.v
PyData.v
ModelOptions.v
ScalingRules.v
WorkerDeployments.v
AutoScaler.v
Groups.v
ModelRegistry.v
Analysis.v
TaskController.v
Files.v
SubTasks.v
QueueStatus.v
V1Results.v
IniConf.v
OidcUsers.v
Portfolios.v
FileConversion.v
LookupChunks.v
TaskLogs.v
WorkerTasks.v
JsNumber.v
JsData.v
Color.v
Css.v
StyleNames.v
CssBraces.v
Theme.v
RedocLayout.v
RedocMarkdown.v
RedocSchema.v
RedocOperation.v
RedocShell.v
RedocStyles.v
JsonPointer.v
OpenApi.v
SpecParser.v
MenuStore.v
StyleSheet.v
AllOf.v
AllOfEnds.v
MenuBuilder.v
Operation.v
Options.v
Parameters.v
Patterns.v
Sampler.v
SamplerEnds.v
SchemaModel.v
MediaTypes.v
