(* ===== verification/Prelude.v ===== *)
(** * Oasis Platform: a verification library

    The Oasis Platform runs catastrophe models. Users upload portfolios and start
    analyses over a REST API (Django, under src/src/server/oasisapi); the analyses
    run as Celery tasks on model workers (src/src/model_execution_worker), in one
    piece (run mode V1) or split into sub-tasks (run mode V2); in a cluster, the
    worker controller (src/kubernetes/worker-controller) starts and stops the
    workers with the length of the queues. This library models the parts of that
    program that keep state and decide: which requests an analysis accepts, what
    is sent and recorded, how sub-tasks are split, counted and reported on, which
    models exist and with which options, who may see and change what, and how many
    workers run. That part of the source is Python. The JavaScript of the repository
    is the viewer of the API documentation, Redoc with the libraries it is bundled
    with (src/docs/source/_static/redoc/redoc.standalone.js): it reads an OpenAPI
    document, resolves its references and merges its schemas, keeps a menu and a
    search, and renders styled components. This library models what the viewer
    computes. Names of definitions are those of the source; in the bundle they are
    often one or two letters, and the comment says what they stand for.

    ** The files

    - [Prelude]: this file. Results with Python's exceptions ([result], [exn]), the
      state monad [M] of code that mutates and raises, its Hoare triples ([hoare],
      [preserves], the tactic [keep]), record update, rounding up.
    - [PyData]: JSON values and the Python operations on them that raise ([py_item],
      [py_get_or], [py_int], truth values), strings ([lower], [split], [join]).
    - [ModelOptions]: analysis_models/models.py ([ModelScalingOptions],
      [ModelChunkingOptions]), their serializers' validation and the two endpoints
      of analysis_models/v2_api that read and write them.
    - [ScalingRules]: worker-controller autoscaler_rules.py, with a specification of
      the number of workers ([desired], [settings_error]).
    - [WorkerDeployments]: worker_deployments.py and the watcher of
      cluster_client.py; objects live in a store and the cache holds references, as
      the autoscaler keeps and mutates them across suspensions.
    - [AutoScaler]: autoscaler.py and the requests of oasis_client.py. The state has
      the event loop: pending timers, created tasks, and in [inbox] what the other
      coroutines do at each [await], so that every theorem is about every
      interleaving.
    - [Groups]: permissions/group_auth.py.
    - [ModelRegistry]: [AnalysisModel] with its soft deletion and its post-save
      handler, the settings file of a model (files/v1_api/views.py), the creation
      endpoint, and the registration tasks of both API versions.
    - [Analysis]: analyses/models.py, class [Analysis]: validation, starting,
      cancelling, copying, and [run_combine]; the endpoints of analyses/v2_api that
      call them. The state has the broker's messages and, in [others], what other
      processes do to the table at each message that is sent.
    - [TaskController]: analyses/v2_api/task_controller.py: the chunk counts, the
      chain of tasks and chords, the records of the sub-tasks and their task ids.
    - [Files]: the names under which worker files are stored (files/models.py,
      analyses/v2_api/utils.py), with the parts of [urllib.parse] they use.
    - [SubTasks]: analyses/v2_api/tasks.py from [cancel_subtasks] on: every task that
      records what workers report is a message on a database; [deliver_all] delivers
      any messages in any order.
    - [QueueStatus]: the queue-status message the server sends to the worker
      controller (queues/utils.py, queues/consumers.py, the analysis serializer of
      the websocket), joined with the reading of it in [AutoScaler]; and the two ways
      a worker reports the progress of a run (queues/views.py, queues/consumers.py).
    - [V1Results]: analyses/v1_api/tasks.py, the tasks that record the results of the
      workers of the v1 API, and their failure handler. Files are rows of their own
      whose deletion cascades.
    - [IniConf]: conf/iniconf.py: how an option is read from the variables of the
      environment and the file, with the references of [configparser].
    - [OidcUsers]: oidc/generic_auth.py: the account that a login of the identity
      provider ends in, its groups and roles. [moment]s are what other requests do
      between the statements of a login.
    - [Portfolios]: portfolios/models.py, its views and its tasks: the files of
      portfolios, the jobs that validate, run and transform them, their reports, and
      what goes with a mapping file that is deleted.
    - [FileConversion]: the conversion of a file by a mapping (files/models.py, the
      viewsets and tasks of files; v1 and v2 are the same): requests, the task with its
      retries, workers that are lost, and what deletes or writes the rows meanwhile.
    - [LookupChunks]: model_execution_worker/distributed_tasks.py: the exposure split
      into chunks by subject, stored and loaded. numpy is a class with laws
      ([numpy], [numpy_laws]) and a plain implementation of it.
    - [TaskLogs]: model_execution_worker/utils.py: the loggers that the tasks of one
      process share, and the file each task writes.
    - [WorkerTasks]: what a worker tells the server besides results
      (distributed_tasks.py, celery_error_handler.py): the ids of a chain, tasks that
      fail and tasks that are delivered twice; [SubTasks] reads what is sent.

    The viewer:

    - [JsNumber], [JsData]: JavaScript's numbers (the floats of 64 bits, printed and
      read as JavaScript does) and values with the operations that raise.
    - [Color]: the colour library: the notations it reads, and darken, lighten,
      desaturate, transparentize and readable colours.
    - [Css]: templates of styles and how they are flattened to text with the
      properties of a component; media queries, the hook for extensions.
    - [StyleNames], [StyleSheet]: the hash that names components, the numbers of
      identifiers, and the one list of rules that holds the rules of every component.
    - [CssBraces]: the depth of braces, and lemmas for templates that keep it.
    - [Theme]: the default theme, whose functions read other entries; the theme of
      the page merged into it; the getters run one from another.
    - [RedocLayout], [RedocMarkdown], [RedocSchema], [RedocOperation],
      [RedocShell]: the styled components in the order of the bundle, each with its
      template. [RedocStyles]: the theorems about all of them.
    - [JsonPointer], [OpenApi], [SpecParser]: pointers into the document; status
      codes, constraints and other parts of it; references with the detection of
      circular ones and oneOf inside allOf. [AllOf], [AllOfEnds]: the members of an
      allOf merged into one schema, and that this ends.
    - [MenuStore], [MenuBuilder], [Operation]: the menu with its activation and
      scrolling, and how it is built of headings, tags, operations and schemas; the
      parameters and responses of an operation, and the search box.
    - [Options], [Parameters]: what the options of a page become; how the example of a
      parameter is written.
    - [Patterns], [Sampler], [SamplerEnds]: a text for a pattern; the sample of a
      schema, with the references in use and the schemas above; that sampling ends.
    - [SchemaModel], [MediaTypes]: the model of a schema with its fields, items,
      alternatives and variants; bodies and responses with their media types and
      examples, which use the sampler.

    [Analysis], [TaskController] and [SubTasks] share the records of an analysis and
    of a sub-task; [ModelRegistry] and [Analysis] use [Groups] and [ModelOptions];
    [AutoScaler] uses [ScalingRules] and [WorkerDeployments], whose options are the
    ones [ModelOptions] stores; [QueueStatus] joins the server's side of the message
    to the controller's; [SubTasks] and [V1Results] store files as [Files] does.
    [Theme] computes its colours with [Color]; the styles of [Css] read the theme and
    are named by [StyleNames]; [SpecParser] follows references with [JsonPointer],
    [AllOf] and [MenuBuilder] dereference with [SpecParser], and the store of
    [MenuStore] keeps the menu that [MenuBuilder] builds. [OidcUsers] and [Portfolios] ask
    [Groups] who may do what; [WorkerTasks] sends what [SubTasks] delivers;
    [SchemaModel] and [Sampler] merge with [AllOf], and [MediaTypes] joins them.

    ** What the theorems show

    - Starting, cancelling and copying an analysis ([Analysis]): a start whose checks
      fail changes nothing, one whose checks pass sends the one right message, and what
      is stored when the broker fails on it is stated too; requests that do not fit the
      status they read are refused; a validated event set can be counted. What the code
      does where it goes wrong is stated as well: the last save of a start loses what a
      worker stored meanwhile, two requests at once both start, and a copy of an
      analysis with options of its own fails.
    - Dispatch ([TaskController]): the numbers of chunks are within bounds, the slugs
      of a chain are unique, and each sub-task's record gets the id of its own task
      although ids arrive in reverse, nested order.
    - Reports ([SubTasks]): the status of a sub-task is a state machine; finished
      records stay finished, keys stay unique, cancelled analyses stay cancelled
      but for the two V2 messages that do overwrite it, the failure handler waits for
      logs and then stores them all. The results of the v1 workers ([V1Results])
      never delete an analysis with its old files, and always leave a final status.
    - Queue status ([QueueStatus]): the controller reads exactly the analyses the
      server lists; a queue with waiting work is counted, unless another model has its
      name; progress reports add up in any interleaving if those over the websocket have
      an increment, and do not where they have none or a stale row is saved.
    - Workers ([AutoScaler], [WorkerDeployments], [ScalingRules]): an invariant of all
      reachable states under interleaving, the total limit, that a wanted deployment
      is not shut down, that an unwanted one is, and the rules' bounds and
      monotonicity.
    - Models ([ModelRegistry], [ModelOptions], [Groups]): registered models are
      available, saving attaches options, stored options stay well formed, and
      permissions agree between lists and writes.
    - Users ([OidcUsers]): a login ends in the account of its own identity, whatever
      happens meanwhile, or changes nothing; roles and groups are those of the
      claims; other accounts lose nothing.
    - Portfolios ([Portfolios]): a portfolio goes only with a request to delete it, or
      with a mapping file that converted one of its files; no two fields share a file; a
      validation without errors marks the files attached at its end, which are not always
      those that were sent, as after a transformation.
    - Files ([FileConversion]): no two conversions of a file at a time as long as
      requests, messages and validations for it do not read its row while another
      has read and not stored it; that there are two where they do; the state and the
      result each conversion leaves, and the states no conversion ever leaves.
    - Workers' tasks ([LookupChunks], [TaskLogs], [WorkerTasks]): chunks partition the
      exposure by subject and evenly, a stored chunk is the one that splitting gives;
      loggers are what the open tasks ask for, and a record reaches the file of its
      own thread, of no other, and the handlers loggers had before; all ids of a chain are found, and the log of a failed sub-task
      reaches its record on the server.
    - Configuration ([IniConf]): the order of the places of an option, values that are
      read back, spans of time, and whole sections that agree with single options.

    - Styles ([RedocStyles], [Theme], [StyleSheet]): with any properties and theme
      without braces, and any hook, the styles of all components but five are closed
      blocks, four do close a brace they never opened; with the default theme none
      fails to render. Making a theme ends whatever its functions read, since the
      runs of getters are limited. The one list of rules stands for the groups one
      after the other, and the numbers of identifiers are unique.
    - Documents ([JsonPointer], [SpecParser], [OpenApi]): tokens survive pointers;
      dereferencing ends on every chain of references that ends, marks what is on the
      stack as circular, and does not end on a ring; moving oneOf out of allOf keeps
      the meaning of a schema, but for what stands beside it; merging allOf ends
      and, without oneOf and circles, loses no property and no required name; ranges are displayed
      as accepted when each bound is given once; fields keep their order.
    - Menu and search ([MenuBuilder], [MenuStore], [Operation]): every operation, of
      paths and of webhooks, is in the menu in the item of each of its tags; on the menu of any
      document, after any clicks, scrolling and addresses there is at most one active item
      and what is above it is expanded, while it may be folded itself by a click; the search for the item on
      top of the window ends at the right one; Enter opens what is highlighted when
      the results are sorted and known.
    - Samples and models of schemas ([Patterns], [Sampler], [SamplerEnds],
      [SchemaModel], [MediaTypes]): sampling ends on every document
      whose references do, and leaves the references in use as they were; a pattern of
      characters with quantifiers gives the least text that it matches; texts have the lengths
      asked for; every property is a field with the model of
      its schema, variants follow the mapping and are the models of what it refers to, and
      circular schemas are cut off.

    ** Conventions

    - A definition that mutates runs in [M S]; what it did before it raised stays
      done. Exceptions keep their class and the literal part of their message; the
      interpolated values are left out.
    - Integers are unbounded, as in Python; [math.ceil] of a float quotient is exact
      below 2^53, which the modelled counts do not reach.
    - Strings are byte strings; case is changed for ASCII letters; lengths are in
      bytes. Times are integers.
    - The ORM is modelled at the level of rows: unique constraints are checked, keys
      come from a counter, a save writes the columns the call names. A key that a
      failed insert would have used up is not skipped.
    - Code outside the repository is a parameter: the answers of the HTTP API and of
      the cluster, the broker's ids ([send], [dispatch]), the storage ([remote],
      [text_of], [json_of]), the parsing of Django REST framework
      ([to_internal_value]). Each hypothesis about one is discharged by a concrete
      function in a witness.
    - A message of [SubTasks] or [V1Results] is delivered as a whole; two tasks whose
      database statements interleave are not modelled there. [Analysis] does model
      that, at the points where a message is sent, and [QueueStatus] between the read
      and the write of a progress report.
    - In [FileConversion] reading a row and storing it are two events, for requests, for
      the start of a task and for validations, with any others between; a conversion
      lasts from its start to its end, and stores the row as it read it. That no two run at a
      time is proved for histories that keep the reads of a file apart ([apart]).
    - A login of [OidcUsers] interleaves with others at each of its statements; a
      request or report of [Portfolios] is one step.
    - The Python part needs fuel twice. [ModelRegistry.save_within] is the recursion
      of a save through its post-save handler; depth two is enough, since the second
      save finds both options attached ([ModelRegistry.save_deeper]).
      [WorkerTasks.collect] looks at one task a round; one round more than the tasks
      of a chain weigh is enough ([WorkerTasks.collect_ends]). The references of
      [IniConf] are followed ten levels deep, as the parser does.
    - The answers of the internal worker are functions in [Portfolios]; numpy and the
      store of chunks have laws in [LookupChunks], discharged for concrete ones.
    - In the viewer: [Theme.fuel_of_theme] is one more than the 1000 runs of getters
      the code allows ([Theme.resolve_ends]); [StyleNames.ko] has 12 rounds, 52 each,
      for a hash of 32 bits ([StyleNames.ko_loop_fuel]); [StyleSheet.grow_fuel]
      doublings reach the limit 2^31; [StyleSheet.first_free] tries one number more
      than are taken ([StyleSheet.io_registers]); [MenuStore.rounds] is one more than
      the items ([MenuStore.scroll_ends]). [SpecParser.deref] takes its fuel as an
      argument, since the code may not end ([SpecParser.deref_ends],
      [SpecParser.deref_ring]), and so does [AllOf.mergeAllOf]
      ([AllOfEnds.merge_ends]), and [MenuBuilder.add_paths], which follows references.
      [Sampler.Jc] and [SchemaModel.Tc] take theirs as arguments too
      ([SamplerEnds.sampling_ends], [SchemaModel.recursion_stops]); the loop of
      [Patterns.loop] needs one round more than the pattern has characters.
    - JavaScript: objects have their own keys only, in the order of insertion (a key
      that looks like an index is not moved to the front); strings are their bytes,
      and case and space are those of ASCII. The hook for extensions returns data or
      throws. [Math.pow] is a parameter of [Theme], for luminance; the markdown
      parser, the slugify library and [localeCompare] are parameters of
      [MenuBuilder], the expansion of URI templates is one of [Parameters]. Objects that
      YAML aliases share are copies in [SchemaModel]; the nodes of [Sampler] carry
      their places in the document, since the code compares objects.

    ** What is not modelled

    URLs, serializers that only rename, paginated lists, the content of files, the
    model run itself (the oasislmf package), the tokens of the identity provider,
    Django's settings and migrations, charts and scripts; of portfolios and workers
    what [Portfolios] and [WorkerTasks] say. Of the viewer: the CSS preprocessor
    (stylis) and the style elements of the page, React and the tree it renders,
    MobX, markdown, highlighting, the index of the search (lunr). Left out of
    the Python part, since they move files and call the operating system, or repeat
    what is modelled: the directories and parameters of the worker's tasks and the
    merging of tables (distributed_tasks.py, pandas), the tasks of the v1 worker
    (tasks.py), the storage of the workers (common/filestore, S3 and Azure), and the
    release notes tool. The statements of two requests for one portfolio are not
    interleaved. *)

From Stdlib Require Export Ascii String ZArith Lia.
From stdpp Require Export base list option gmap fin_maps strings pretty.


(** ** Results: Python code that returns a value or raises *)

Section exceptions.
(** The payload of a Django REST framework [ValidationError]: a dict of field
  names to lists of messages, or a plain list of messages. *)
Inductive detail :=
| DetailDict (errors : gmap string (list string))
| DetailList (msgs : list string).

(** The exceptions the modelled code raises, or relies on being raised. *)
Inductive exn :=
| ValueError (msg : string)
| TypeError
| KeyError (key : string)
| AttributeError
| ZeroDivisionError
| IndexError
| ValidationError (d : detail)
| PermissionDenied (msg : string)
| ObjectDoesNotExist
| IntegrityError
| RetryTask
| OtherError (msg : string).
End exceptions.

Inductive result (A : Type) :=
  | Ok (a : A)
  | Raise (e : exn).
Arguments Ok {A} _.
Arguments Raise {A} _.

#[export] Instance result_ret : MRet result := @Ok.
#[export] Instance result_bind : MBind result := λ A B f m,
  match m with Ok a => f a | Raise e => Raise e end.
#[export] Instance result_fmap : FMap result := λ A B f m,
  match m with Ok a => Ok (f a) | Raise e => Raise e end.

Definition is_ok {A} (r : result A) : bool :=
  match r with Ok _ => true | Raise _ => false end.

Lemma Ok_inj {A} (x y : A) : Ok x = Ok y → x = y.
Proof. by intros [= ->]. Qed.

Lemma bind_Ok {A B} (m : result A) (f : A → result B) b :
  m ≫= f = Ok b ↔ ∃ a, m = Ok a ∧ f a = Ok b.
Proof. destruct m; cbn; naive_solver. Qed.

Lemma bind_Raise {A B} (m : result A) (f : A → result B) e :
  m ≫= f = Raise e ↔ m = Raise e ∨ ∃ a, m = Ok a ∧ f a = Raise e.
Proof. destruct m; cbn; naive_solver. Qed.

Lemma fmap_Ok {A B} (m : result A) (f : A → B) b :
  f <$> m = Ok b ↔ ∃ a, m = Ok a ∧ f a = b.
Proof. destruct m; cbn; naive_solver. Qed.

(** ** Stateful Python code

    [M S A] is code over a state [S] that returns an [A] or raises; what it did
    to the state before raising stays done, as in the source. *)

Definition M (S A : Type) : Type := S → result A * S.

#[export] Instance M_ret {S} : MRet (M S) := λ A a s, (Ok a, s).
#[export] Instance M_bind {S} : MBind (M S) := λ A B f m s,
  match m s with
  | (Ok a, s') => f a s'
  | (Raise e, s') => (Raise e, s')
  end.

Section monad.
Context {S : Type}.
Definition raise {A} (e : exn) : M S A := λ s, (Raise e, s).
Definition get_state : M S S := λ s, (Ok s, s).
Definition modify (f : S → S) : M S unit := λ s, (Ok tt, f s).
Definition lift {A} (r : result A) : M S A := λ s, (r, s).
(** [try: m except e: h] *)
Definition try_except {A} (m : M S A) (h : exn → M S A) : M S A := λ s,
  match m s with
  | (Ok a, s') => (Ok a, s')
  | (Raise e, s') => h e s'
  end.
(** [for x in l: f x] *)
Fixpoint for_each {A} (l : list A) (f : A → M S unit) : M S unit :=
  match l with
  | [] => mret tt
  | x :: l => f x ≫= λ _, for_each l f
  end.
(** [for x in l: acc = f acc x] *)
Fixpoint fold_m {A B} (f : B → A → M S B) (l : list A) (b : B) : M S B :=
  match l with
  | [] => mret b
  | x :: l => f b x ≫= fold_m f l
  end.
(** The state a run ends in, whatever its outcome. *)
Definition exec {A} (m : M S A) (s : S) : S := (m s).2.
End monad.

Declare Scope oasis_scope.
Delimit Scope oasis_scope with oasis.
Notation "m ;; k" := (mbind (λ _, k) m)
  (at level 100, right associativity) : oasis_scope.
Open Scope oasis_scope.

(** What the first step of a sequence does to the state. *)
Lemma get_bind {S A} (f : S → M S A) s : (get_state ≫= f) s = f s s.
Proof. done. Qed.
Lemma modify_bind {S A} (g : S → S) (f : unit → M S A) s : (modify g ≫= f) s = f tt (g s).
Proof. done. Qed.
Lemma lift_bind {S A B} (r : result A) (f : A → M S B) s :
  (lift r ≫= f) s = match r with Ok a => f a s | Raise e => (Raise e, s) end.
Proof. by destruct r. Qed.
Lemma bind_step {S A B} (m : M S A) (f : A → M S B) s a s' : m s = (Ok a, s') → (m ≫= f) s = f a s'.
Proof. intros H. unfold mbind, M_bind. by rewrite H. Qed.
Lemma bind_raise {S A B} (m : M S A) (f : A → M S B) s e s' : m s = (Raise e, s') → (m ≫= f) s = (Raise e, s').
Proof. intros H. unfold mbind, M_bind. by rewrite H. Qed.

(** ** Hoare triples

    [hoare P m Q E]: from a state in [P], [m] returns a value and a state in
    [Q], or raises in a state in [E]. [preserves P m]: whatever happens, [P] is
    kept. *)

Section hoare.
Context {S : Type}.
Implicit Types P : S → Prop.

Definition hoare {A} P (m : M S A) (Q : A → S → Prop) (E : S → Prop) : Prop :=
  ∀ s, P s → match m s with (Ok a, s') => Q a s' | (Raise _, s') => E s' end.

Definition preserves {A} P (m : M S A) : Prop := hoare P m (λ _, P) P.

Lemma hoare_weaken {A} P P' (m : M S A) (Q Q' : A → S → Prop) (E E' : S → Prop) :
  hoare P' m Q' E' → (∀ s, P s → P' s) → (∀ a s, Q' a s → Q a s) → (∀ s, E' s → E s) →
  hoare P m Q E.
Proof. intros H HP HQ HE s Hs. specialize (H s (HP s Hs)). destruct (m s) as [[]]; auto. Qed.

Lemma hoare_ret {A} P (a : A) (Q : A → S → Prop) E :
  (∀ s, P s → Q a s) → hoare P (mret a) Q E.
Proof. intros H s Hs. cbn. auto. Qed.

Lemma hoare_raise {A} P e (Q : A → S → Prop) (E : S → Prop) :
  (∀ s, P s → E s) → hoare P (raise e) Q E.
Proof. intros H s Hs. cbn. auto. Qed.

Lemma hoare_bind {A B} P (m : M S A) (f : A → M S B) R Q E :
  hoare P m R E → (∀ a, hoare (R a) (f a) Q E) → hoare P (m ≫= f) Q E.
Proof.
  intros Hm Hf s Hs. unfold mbind, M_bind. specialize (Hm s Hs).
  destruct (m s) as [[a|e] s']; [|done]. by apply Hf.
Qed.

Lemma hoare_lift {A} P (r : result A) (Q : A → S → Prop) (E : S → Prop) :
  (∀ a s, r = Ok a → P s → Q a s) → (∀ s, P s → E s) → hoare P (lift r) Q E.
Proof. intros HQ HE s Hs. unfold lift. destruct r; auto. Qed.

Lemma hoare_modify P (f : S → S) (Q : unit → S → Prop) E :
  (∀ s, P s → Q tt (f s)) → hoare P (modify f) Q E.
Proof. intros H s Hs. cbn. auto. Qed.

Lemma hoare_get P (Q : S → S → Prop) E :
  (∀ s, P s → Q s s) → hoare P get_state Q E.
Proof. intros H s Hs. cbn. auto. Qed.

(** The precondition may depend on the state the run starts in. *)
Lemma hoare_start {A} P (m : M S A) Q E :
  (∀ s0, P s0 → hoare (λ s, s = s0) m Q E) → hoare P m Q E.
Proof. intros H s Hs. by apply (H s Hs). Qed.

Lemma hoare_fold {A B} (I : B → S → Prop) (f : B → A → M S B) (l : list A) b E :
  (∀ b x, x ∈ l → hoare (I b) (f b x) I E) → (∀ b s, I b s → E s) →
  hoare (I b) (fold_m f l b) I E.
Proof.
  revert b. induction l as [|x l IH]; intros b Hf HE; cbn.
  - by apply hoare_ret.
  - eapply hoare_bind; [apply Hf; left|]. intros b'. apply IH; [|done]. intros. apply Hf. by right.
Qed.

Lemma hoare_for_each {A} (I : S → Prop) (f : A → M S unit) (l : list A) :
  (∀ x, x ∈ l → preserves I (f x)) → preserves I (for_each l f).
Proof.
  induction l as [|x l IH]; intros Hf; cbn.
  - by apply hoare_ret.
  - eapply hoare_bind; [apply Hf; left|]. intros []. apply IH. intros. apply Hf. by right.
Qed.

Lemma preserves_exec {A} P (m : M S A) s : preserves P m → P s → P (exec m s).
Proof. intros H Hs. unfold exec. specialize (H s Hs). by destruct (m s) as [[]]. Qed.

Lemma preserves_ret {A} P (a : A) : preserves P (mret a).
Proof. by apply hoare_ret. Qed.
Lemma preserves_raise {A} P e : preserves P (raise e : M S A).
Proof. by apply hoare_raise. Qed.
Lemma preserves_lift {A} P (r : result A) : preserves P (lift r).
Proof. apply hoare_lift; auto. Qed.
Lemma preserves_get P : preserves P get_state.
Proof. apply hoare_get; auto. Qed.
Lemma preserves_modify P f : (∀ s, P s → P (f s)) → preserves P (modify f).
Proof. intros. by apply hoare_modify. Qed.
Lemma preserves_bind {A B} P (m : M S A) (f : A → M S B) :
  preserves P m → (∀ a, preserves P (f a)) → preserves P (m ≫= f).
Proof. intros. by eapply hoare_bind. Qed.
Lemma preserves_if {A} P (b : bool) (m n : M S A) :
  preserves P m → preserves P n → preserves P (if b then m else n).
Proof. by destruct b. Qed.
Lemma preserves_try {A} P (m : M S A) (h : exn → M S A) :
  preserves P m → (∀ e, preserves P (h e)) → preserves P (try_except m h).
Proof.
  intros Hm Hh s Hs. unfold try_except. specialize (Hm s Hs).
  destruct (m s) as [[a|e] s']; [done|]. by apply Hh.
Qed.
Lemma preserves_fold {A B} P (f : B → A → M S B) (l : list A) b :
  (∀ b x, preserves P (f b x)) → preserves P (fold_m f l b).
Proof. intros Hf. apply (hoare_fold (λ _, P)); [intros; apply Hf|auto]. Qed.
End hoare.

Create HintDb preserves.
#[export] Hint Resolve preserves_ret preserves_raise preserves_lift preserves_get preserves_bind
  preserves_if preserves_try preserves_fold : preserves.

(** ** Record update

    [r <| field := v |>] is [r] with one field replaced. A record type declares
    once how it is rebuilt from its fields ([Settable]); the setter of a field is
    the rebuilt record with that field abstracted. *)

Class Settable (R : Type) := rebuild : R → R.
Class Setter {R T : Type} (field : R → T) := setter : (T → T) → R → R.
#[global] Arguments setter {R T} field {_} _ _ /.

Ltac derive_setter :=
  match goal with
  | |- @Setter ?R ?T ?field =>
      let f := fresh "f" in let r := fresh "r" in
      change ((T → T) → R → R); intros f r;
      let inst := constr:(_ : Settable R) in
      let body := eval hnf in (inst r) in
      let body := eval pattern (field r) in body in
      match body with ?g _ => let body' := eval cbv beta in (g (f (field r))) in exact body' end
  end.
#[export] Hint Extern 1 (Setter _) => derive_setter : typeclass_instances.

Notation "r <| field := v |>" := (setter field (λ _, v) r)
  (at level 12, field at level 200, v at level 200, left associativity) : oasis_scope.

(** ** Integers *)

(** [math.ceil(a / b)]. *)
Definition ceil_div (a b : Z) : Z := - ((- a) / b).

Lemma ceil_div_spec a b : (0 < b)%Z → (b * (ceil_div a b - 1) < a ≤ b * ceil_div a b)%Z.
Proof.
  intros Hb. unfold ceil_div.
  pose proof (Z.div_mod (- a) b ltac:(lia)).
  pose proof (Z.mod_pos_bound (- a) b Hb). nia.
Qed.

Lemma ceil_div_mono a a' b : (0 < b)%Z → (a ≤ a')%Z → (ceil_div a b ≤ ceil_div a' b)%Z.
Proof.
  intros Hb Ha. unfold ceil_div.
  pose proof (Z.div_le_mono (- a') (- a) b Hb ltac:(lia)). lia.
Qed.

Lemma ceil_div_pos a b : (0 < b)%Z → (0 < a)%Z → (0 < ceil_div a b)%Z.
Proof. intros Hb Ha. pose proof (ceil_div_spec a b Hb). nia. Qed.

Lemma ceil_div_nonneg a b : (0 < b)%Z → (0 ≤ a)%Z → (0 ≤ ceil_div a b)%Z.
Proof. intros Hb Ha. pose proof (ceil_div_spec a b Hb). nia. Qed.

(** ** Lists *)

Lemma list_filter_ext {A} (P Q : A → Prop) `{∀ x, Decision (P x), ∀ x, Decision (Q x)} (l : list A) :
  (∀ x, x ∈ l → (P x ↔ Q x)) → filter P l = filter Q l.
Proof.
  induction l as [|x l IH]; intros HPQ; [done|]. rewrite !filter_cons.
  rewrite IH by (intros; apply HPQ; by right). pose proof (HPQ x ltac:(left)).
  repeat case_decide; tauto || done.
Qed.

(** ** Automation *)

Create HintDb oasis.
#[export] Hint Resolve ceil_div_pos ceil_div_nonneg ceil_div_mono : oasis.

(** Split on the scrutinee of the first [match] of a hypothesis or of the goal. *)
Ltac split_match_in H :=
  match type of H with
  | context [match ?x with _ => _ end] => destruct x eqn:?; simplify_eq/=
  end.
Ltac split_match :=
  match goal with
  | |- context [match ?x with _ => _ end] => destruct x eqn:?; simplify_eq/=
  end.
(** Reduce the monads' operations. *)
Ltac run := unfold mbind, mret, fmap, M_bind, M_ret, result_bind, result_ret, result_fmap,
                   raise, lift, modify, get_state in *; cbn in *.
(** Prove [preserves P m] along the structure of [m]: the steps by the hints, the
    rest by the rules for sequences, conditionals and cases. *)
Ltac keep :=
  repeat first
    [ solve [auto 3 with preserves]
    | apply preserves_bind; [|intros ?]
    | apply preserves_if
    | apply preserves_try; [|intros ?]
    | match goal with |- preserves _ (match ?x with _ => _ end) => destruct x end ].
