(* ===== verification/PyData.v ===== *)
(** * Python data: decoded JSON values, [int()], [str.lower], [str.split]

    The values the services exchange are decoded JSON documents (websocket
    messages, scaling settings, analysis and model settings). [json] is that
    data, [truthy] is Python's truth test, [py_get] is [dict.get], [py_int] is
    [int()]. Strings are sequences of bytes; the case mapping is the one of
    ASCII. *)

From S2P Require Import Prelude.
Local Open Scope Z_scope.
#[global] Arguments String.append !_ _ / : simpl nomatch.

(** ** Strings *)

Definition char_code (c : ascii) : N := Ascii.N_of_ascii c.

Definition lower_char (c : ascii) : ascii :=
  if ((65 <=? char_code c) && (char_code c <=? 90))%N
  then Ascii.ascii_of_N (char_code c + 32) else c.

Definition upper_char (c : ascii) : ascii :=
  if ((97 <=? char_code c) && (char_code c <=? 122))%N
  then Ascii.ascii_of_N (char_code c - 32) else c.

Fixpoint map_string (f : ascii → ascii) (s : string) : string :=
  match s with
  | EmptyString => EmptyString
  | String c s => String (f c) (map_string f s)
  end.

(** [str.lower] and [str.upper]. *)
Definition lower : string → string := map_string lower_char.
Definition upper : string → string := map_string upper_char.

(** [sep] occurs in [s]. *)
Fixpoint has_char (sep : ascii) (s : string) : bool :=
  match s with
  | EmptyString => false
  | String c s => bool_decide (c = sep) || has_char sep s
  end.

(** [s.split(sep)] for a one-character separator: one part more than there are
    separators. *)
Fixpoint split_on (sep : ascii) (s : string) : list string :=
  match s with
  | EmptyString => [EmptyString]
  | String c s =>
      if bool_decide (c = sep) then EmptyString :: split_on sep s
      else match split_on sep s with
           | [] => [String c EmptyString]
           | w :: ws => String c w :: ws
           end
  end.

(** [sep.join(l)]. *)
Fixpoint join (sep : string) (l : list string) : string :=
  match l with
  | [] => EmptyString
  | [w] => w
  | w :: l => w +:+ sep +:+ join sep l
  end.

Fixpoint string_rev_app (s acc : string) : string :=
  match s with
  | EmptyString => acc
  | String c s => string_rev_app s (String c acc)
  end.
Definition string_rev (s : string) : string := string_rev_app s EmptyString.

Fixpoint string_drop (n : nat) (s : string) : string :=
  match n, s with
  | S n, String _ s => string_drop n s
  | _, _ => s
  end.

(** [s[:-n]] for [n > 0]: all but the last [n] characters. *)
Definition drop_last (n : nat) (s : string) : string :=
  string_rev (string_drop n (string_rev s)).

(** A double quote, as a one-character string. *)
Definition dq : string := String (Ascii.ascii_of_nat 34) EmptyString.
(** A text in double quotes. *)
Definition quoted (s : string) : string := dq +:+ s +:+ dq.

(** ** Lemmas on strings *)

Lemma string_length_app s t : String.length (s +:+ t) = (String.length s + String.length t)%nat.
Proof. induction s; cbn; [done|]. by f_equal. Qed.
Lemma lower_char_idemp c : lower_char (lower_char c) = lower_char c.
Proof. destruct c as [[] [] [] [] [] [] [] []]; reflexivity. Qed.

Lemma lower_idemp s : lower (lower s) = lower s.
Proof.
  unfold lower. induction s as [|c s IH]; cbn; [done|].
  by rewrite lower_char_idemp, IH.
Qed.

Lemma map_string_app f s t : map_string f (s +:+ t) = map_string f s +:+ map_string f t.
Proof. induction s as [|c s IH]; cbn; [done|]. by rewrite IH. Qed.

Lemma lower_app s t : lower (s +:+ t) = lower s +:+ lower t.
Proof. apply map_string_app. Qed.

Lemma lower_char_dash c : lower_char c = "-"%char ↔ c = "-"%char.
Proof. destruct c as [[] [] [] [] [] [] [] []]; split; intros H; vm_compute in H;
  first [discriminate H | reflexivity]. Qed.

Lemma has_char_lower s : has_char "-" (lower s) = has_char "-" s.
Proof.
  unfold lower. induction s as [|c s IH]; [done|].
  cbn [map_string has_char]. rewrite IH. f_equal.
  apply bool_decide_ext, lower_char_dash.
Qed.

Lemma has_char_app c s t : has_char c (s +:+ t) = has_char c s || has_char c t.
Proof. induction s as [|d s IH]; cbn; [done|]. by rewrite IH, orb_assoc. Qed.

Lemma string_app_assoc (s t u : string) : (s +:+ t) +:+ u = s +:+ t +:+ u.
Proof. induction s as [|c s IH]; cbn; [done|]. by rewrite IH. Qed.

Lemma string_app_nil_r (s : string) : s +:+ EmptyString = s.
Proof. induction s as [|c s IH]; cbn; [done|]. by rewrite IH. Qed.

Lemma split_on_nodash sep s : has_char sep s = false → split_on sep s = [s].
Proof.
  induction s as [|c s IH]; cbn; [done|].
  intros [Hc Hs]%orb_false_iff. rewrite Hc, (IH Hs). done.
Qed.

Lemma split_on_app sep s t :
  has_char sep s = false →
  split_on sep (s +:+ String sep t) = s :: split_on sep t.
Proof.
  induction s as [|c s IH]; cbn.
  - intros _. by rewrite bool_decide_eq_true_2.
  - intros [Hc Hs]%orb_false_iff. by rewrite Hc, (IH Hs).
Qed.

(** Splitting undoes joining. *)
Lemma split_on_join sep l :
  l ≠ [] → Forall (λ s, has_char sep s = false) l → split_on sep (join (String sep EmptyString) l) = l.
Proof.
  intros Hl H. induction H as [|s l Hs H IH]; [done|]. cbn. destruct l as [|t l]; [by apply split_on_nodash|].
  rewrite (split_on_app sep s (join (String sep EmptyString) (t :: l)) Hs). by rewrite IH.
Qed.

(** The number of parts is one more than the number of separators. *)
Fixpoint count_char (sep : ascii) (s : string) : nat :=
  match s with
  | EmptyString => 0
  | String c s => (if bool_decide (c = sep) then 1 else 0) + count_char sep s
  end.

Lemma length_split_on sep s : length (split_on sep s) = S (count_char sep s).
Proof.
  induction s as [|c s IH]; cbn; [done|].
  case_bool_decide; cbn; [by rewrite IH|].
  destruct (split_on sep s); cbn in *; lia.
Qed.

Lemma count_char_app sep s t : count_char sep (s +:+ t) = (count_char sep s + count_char sep t)%nat.
Proof. induction s as [|c s IH]; cbn; [done|]. rewrite IH. lia. Qed.

Lemma count_char_pos sep s : has_char sep s = true → (0 < count_char sep s)%nat.
Proof.
  induction s as [|c s IH]; cbn; [done|].
  case_bool_decide; cbn; [lia|]. intros Hs. specialize (IH Hs). lia.
Qed.

Lemma count_char_lower s : count_char "-" (lower s) = count_char "-" s.
Proof.
  unfold lower. induction s as [|c s IH]; [done|].
  cbn [map_string count_char]. rewrite IH. f_equal.
  repeat case_bool_decide; try done; exfalso;
    [|]; rewrite lower_char_dash in *; done.
Qed.

(** ** [int(s)] of a string: white space, a sign, digits with single underscores *)

Definition is_space (c : ascii) : bool :=
  ((9 <=? char_code c) && (char_code c <=? 13) || (char_code c =? 32)
   || ((28 <=? char_code c) && (char_code c <=? 31)))%N.
Definition digit_value (c : ascii) : option Z :=
  if ((48 <=? char_code c) && (char_code c <=? 57))%N
  then Some (Z.of_N (char_code c) - 48) else None.

Fixpoint strip_left (s : string) : string :=
  match s with
  | String c t => if is_space c then strip_left t else s
  | EmptyString => EmptyString
  end.
Definition strip (s : string) : string :=
  string_rev (strip_left (string_rev (strip_left s))).

(** [digits prev acc s]: [prev] says that the last character was a digit, so
    that an underscore or the end of the literal may follow. *)
Fixpoint digits (prev : bool) (acc : Z) (s : string) : option Z :=
  match s with
  | EmptyString => if prev then Some acc else None
  | String c t =>
      if bool_decide (c = "_"%char) then (if prev then digits false acc t else None)
      else match digit_value c with
           | Some d => digits true (10 * acc + d) t
           | None => None
           end
  end.

Definition int_of_string (s : string) : option Z :=
  match strip s with
  | String "-" t => Z.opp <$> digits false 0 t
  | String "+" t => digits false 0 t
  | t => digits false 0 t
  end.

(** ** Decoded JSON

    The keys of an object are distinct, as those of a Python dict are. The
    numbers the platform's documents carry are integers. *)

#[warnings="-register-all"]
Inductive json :=
  | JNull
  | JBool (b : bool)
  | JInt (n : Z)
  | JStr (s : string)
  | JList (l : list json)
  | JObj (kvs : list (string * json)).

Fixpoint assoc {A} (k : string) (kvs : list (string * A)) : option A :=
  match kvs with
  | [] => None
  | (k', v) :: kvs => if String.eqb k k' then Some v else assoc k kvs
  end.

(** Python's truth value. *)
Definition truthy (j : json) : bool :=
  match j with
  | JNull => false
  | JBool b => b
  | JInt n => negb (n =? 0)
  | JStr s => negb (String.eqb s EmptyString)
  | JList l => negb (bool_decide (length l = 0%nat))
  | JObj kvs => negb (bool_decide (length kvs = 0%nat))
  end.

(** [j.get(k)]: only a dict has the method. *)
Definition py_get (j : json) (k : string) : result (option json) :=
  match j with
  | JObj kvs => Ok (assoc k kvs)
  | _ => Raise AttributeError
  end.

(** [j.get(k, d)]. *)
Definition py_get_or (j : json) (k : string) (d : json) : result json :=
  (λ v, default d v) <$> py_get j k.

(** [j[k]]. *)
Definition py_item (j : json) (k : string) : result json :=
  match j with
  | JObj kvs => match assoc k kvs with Some v => Ok v | None => Raise (KeyError k) end
  | _ => Raise TypeError
  end.

(** [int(j)]. *)
Definition py_int (j : json) : result Z :=
  match j with
  | JInt n => Ok n
  | JBool b => Ok (if b then 1 else 0)
  | JStr s => match int_of_string s with
              | Some n => Ok n
              | None => Raise (ValueError "invalid literal for int() with base 10")
              end
  | _ => Raise TypeError
  end.

(** An operand of a comparison with an integer: numbers only. *)
Definition py_num (j : json) : result Z :=
  match j with
  | JInt n => Ok n
  | JBool b => Ok (if b then 1 else 0)
  | _ => Raise TypeError
  end.

(** [for x in j] over a list. *)
Definition py_list (j : json) : result (list json) :=
  match j with
  | JList l => Ok l
  | _ => Raise TypeError
  end.

Fixpoint chars (s : string) : list json :=
  match s with EmptyString => [] | String c s => JStr (String c EmptyString) :: chars s end.

(** [for x in j] over any value. *)
Definition py_iter (j : json) : result (list json) :=
  match j with
  | JList l => Ok l
  | JObj kvs => Ok ((λ kv, JStr kv.1) <$> kvs)
  | JStr s => Ok (chars s)
  | _ => Raise TypeError
  end.

(** [len(j)]. *)
Definition py_len (j : json) : result Z := (λ l, Z.of_nat (length l)) <$> py_iter j.

(** [a == b]: a boolean equals the integer it stands for, and the order of the
    keys of an object does not matter. *)
Fixpoint py_eq (a b : json) {struct a} : bool :=
  match a, b with
  | JNull, JNull => true
  | JBool x, JBool y => Bool.eqb x y
  | JBool x, JInt n | JInt n, JBool x => (if x : bool then 1 else 0) =? n
  | JInt m, JInt n => m =? n
  | JStr s, JStr t => String.eqb s t
  | JList l, JList m =>
      (fix go l m := match l, m with
                     | [], [] => true
                     | x :: l, y :: m => py_eq x y && go l m
                     | _, _ => false
                     end) l m
  | JObj k, JObj k' =>
      (length k =? length k')%nat
      && (fix go k := match k with
                      | [] => true
                      | (n, v) :: k => match assoc n k' with Some w => py_eq v w && go k | None => false end
                      end) k
  | _, _ => false
  end.

(** [k in j]. *)
Definition py_in (k : string) (j : json) : result bool :=
  match j with
  | JObj kvs => Ok (match assoc k kvs with Some _ => true | None => false end)
  | JList l => Ok (existsb (py_eq (JStr k)) l)
  | JStr s => Ok (match String.index 0 k s with Some _ => true | None => false end)
  | _ => Raise TypeError
  end.

(** A value used as a key of a dict. *)
Definition py_hashable (j : json) : result json :=
  match j with JList _ | JObj _ => Raise TypeError | _ => Ok j end.

(** A string key or method receiver ([j.lower()], a dict key, [str] data). *)
Definition py_str (j : json) : result string :=
  match j with
  | JStr s => Ok s
  | _ => Raise AttributeError
  end.

Lemma py_int_num j n : py_num j = Ok n → py_int j = Ok n.
Proof. by destruct j. Qed.

Lemma truthy_int n : truthy (JInt n) = true ↔ n ≠ 0.
Proof. cbn. rewrite negb_true_iff, Z.eqb_neq. done. Qed.

Example int_of_string_ex :
  int_of_string " -1_024 " = Some (-1024) ∧ int_of_string "12" = Some 12
  ∧ int_of_string "1__2" = None ∧ int_of_string EmptyString = None.
Proof. vm_compute. auto. Qed.
Example split_ex : split_on "-" "oasis-piwind-1-v2" = ["oasis"; "piwind"; "1"; "v2"]%string.
Proof. reflexivity. Qed.
Example drop_last_ex : drop_last 3 "oasis-piwind-1-v2" = "oasis-piwind-1"%string.
Proof. reflexivity. Qed.
