(* ===== verification/ModelOptions.v ===== *)
(** * Scaling and chunking options of a model

    [ModelScalingOptions] and [ModelChunkingOptions] of
    analysis_models/models.py, the validation their serializers run
    (analysis_models/v2_api/serializers.py), the endpoints that store them
    (analysis_models/v2_api/viewsets.py) and [verify_model_scaling]
    (analyses/v2_api/utils.py).

    The field conversion Django REST framework does before [validate] is not
    code of the repository: the endpoints take it as [to_internal_value]. *)

From S2P Require Import Prelude PyData.
Local Open Scope Z_scope.

(** ** Data *)

Inductive scaling_type := FIXED_WORKERS | QUEUE_LOAD | DYNAMIC_TASKS.
Inductive chunking_type := FIXED_CHUNKS | DYNAMIC_CHUNKS.

#[export] Instance scaling_type_eq_dec : EqDecision scaling_type.
Proof. solve_decision. Defined.
#[export] Instance chunking_type_eq_dec : EqDecision chunking_type.
Proof. solve_decision. Defined.

(** The database value of a scaling strategy. *)
Definition scaling_name (t : scaling_type) : string :=
  match t with
  | FIXED_WORKERS => "FIXED_WORKERS"
  | QUEUE_LOAD => "QUEUE_LOAD"
  | DYNAMIC_TASKS => "DYNAMIC_TASKS"
  end.

Record ModelScalingOptions := {
  scaling_strategy : scaling_type;
  worker_count_fixed : Z;
  worker_count_max : Z;
  worker_count_min : Z;
  chunks_per_worker : Z;
}.

Definition default_scaling_options : ModelScalingOptions := {|
  scaling_strategy := FIXED_WORKERS;
  worker_count_fixed := 1;
  worker_count_max := 10;
  worker_count_min := 0;
  chunks_per_worker := 10;
|}.

Record ModelChunkingOptions := {
  lookup_strategy : chunking_type;
  loss_strategy : chunking_type;
  dynamic_locations_per_lookup : Z;
  dynamic_events_per_analysis : Z;
  dynamic_chunks_max : Z;
  fixed_analysis_chunks : option Z;
  fixed_lookup_chunks : option Z;
}.

Definition default_chunking_options : ModelChunkingOptions := {|
  lookup_strategy := FIXED_CHUNKS;
  loss_strategy := FIXED_CHUNKS;
  dynamic_locations_per_lookup := 10000;
  dynamic_events_per_analysis := 1;
  dynamic_chunks_max := 200;
  fixed_analysis_chunks := Some 1;
  fixed_lookup_chunks := Some 1;
|}.

(** The rows the database can hold: positive integer columns, and the order of
    the two worker bounds the serializer enforces. *)
Definition scaling_wf (o : ModelScalingOptions) : Prop :=
  0 ≤ worker_count_fixed o ∧ 0 ≤ worker_count_min o ∧ 0 ≤ chunks_per_worker o
  ∧ worker_count_min o ≤ worker_count_max o.

Definition opt_pos (o : option Z) : Prop := ∀ n, o = Some n → 1 ≤ n.
Definition chunking_wf (o : ModelChunkingOptions) : Prop :=
  1 ≤ dynamic_locations_per_lookup o ∧ 1 ≤ dynamic_events_per_analysis o
  ∧ 1 ≤ dynamic_chunks_max o
  ∧ opt_pos (fixed_analysis_chunks o) ∧ opt_pos (fixed_lookup_chunks o).

(** ** Serializer validation *)

(** [isinstance(value, int)]: a JSON integer, or a boolean. *)
Definition as_int (j : json) : option Z :=
  match j with
  | JInt n => Some n
  | JBool b => Some (if b then 1 else 0)
  | _ => None
  end.

(** The ordering comparison [a > b] of two scalars; comparing other values is
    a [TypeError]. *)
Definition py_gt (a b : json) : result bool :=
  match a, b with
  | JStr s, JStr t => Ok (bool_decide (String.compare s t = Gt))
  | _, _ =>
      match as_int a, as_int b with
      | Some m, Some n => Ok (n <? m)
      | _, _ => Raise TypeError
      end
  end.

Definition errors_t : Type := gmap string string.
Definition validation_error (errors : errors_t) : exn :=
  ValidationError (DetailDict ((λ m, [m]) <$> errors)).

(** The loop body over [non_neg_fields]: [least] is the smallest value the
    field may have, [msg] the message below it. It returns the validated
    attribute, if the field is given, and the errors. *)
Definition check_field (initial : json) (least : Z) (msg : string)
    (k : string) (errors : errors_t) : result (option Z * errors_t) :=
  value ← py_get initial k;
  match value with
  | None | Some JNull => Ok (None, errors)
  | Some v =>
      match as_int v with
      | None => Ok (None, <[k := "Value is not type int"%string]> errors)
      | Some n => if n <? least then Ok (None, <[k := msg]> errors)
                  else Ok (Some n, errors)
      end
  end.

(** *** ModelScalingConfigSerializer *)

Record ScalingAttrs := {
  sa_strategy : option scaling_type;
  sa_fixed : option Z;
  sa_max : option Z;
  sa_min : option Z;
  sa_chunks : option Z;
}.

(** The checks on [worker_count_min] and [worker_count_max]. *)
Definition check_min_max (initial : json) (current : ModelScalingOptions)
    (errors : errors_t) : result errors_t :=
  given_min ← py_get initial "worker_count_min";
  given_max ← py_get initial "worker_count_max";
  let wrk_min := default (JInt (worker_count_min current)) given_min in
  let wrk_max := default (JInt (worker_count_max current)) given_max in
  errors ← (match given_min with
    | Some _ => gt ← py_gt wrk_min wrk_max;
        Ok (if gt : bool then <["worker_count_min" := "must be less than worker_count_max"]> errors else errors)
    | None => Ok errors
    end : result errors_t);
  match given_max with
  | Some _ => lt ← py_gt wrk_min wrk_max;
      Ok (if lt : bool then <["worker_count_max" := "must be greater than worker_count_min"]> errors else errors)
  | None => Ok errors
  end.

Definition scaling_validate (version : option string) (initial : json)
    (current : ModelScalingOptions) (attrs : ScalingAttrs) : result ScalingAttrs :=
  let dynamic_in_v1 := match version with
    | Some v => bool_decide (lower v = "v1") && bool_decide (sa_strategy attrs = Some DYNAMIC_TASKS)
    | None => false
    end in
  let errors : errors_t := if dynamic_in_v1
    then {[ "scaling_strategy" := "DYNAMIC_TASKS is not allowed in v1."]} else ∅ in
  let check := check_field initial 0 "Value is less than zero." in
  '(fixed, errors) ← check "worker_count_fixed" errors;
  '(max, errors) ← check "worker_count_max" errors;
  '(min, errors) ← check "worker_count_min" errors;
  '(chunks, errors) ← check "chunks_per_worker" errors;
  errors ← check_min_max initial current errors;
  if bool_decide (errors = ∅) then
    let keep (v a : option Z) := match v with Some _ => v | None => a end in
    Ok {| sa_strategy := sa_strategy attrs;
          sa_fixed := keep fixed (sa_fixed attrs);
          sa_max := keep max (sa_max attrs);
          sa_min := keep min (sa_min attrs);
          sa_chunks := keep chunks (sa_chunks attrs) |}
  else Raise (validation_error errors).

(** [serializer.save()] on an existing row: the validated attributes replace
    the columns, the others stay. *)
Definition update_scaling (o : ModelScalingOptions) (a : ScalingAttrs) : ModelScalingOptions := {|
  scaling_strategy := default (scaling_strategy o) (sa_strategy a);
  worker_count_fixed := default (worker_count_fixed o) (sa_fixed a);
  worker_count_max := default (worker_count_max o) (sa_max a);
  worker_count_min := default (worker_count_min o) (sa_min a);
  chunks_per_worker := default (chunks_per_worker o) (sa_chunks a);
|}.

(** *** ModelChunkingConfigSerializer *)

(** The attributes DRF validated. The two fixed counts are nullable, so a given
    value may be [None]. *)
Record ChunkingAttrs := {
  ca_lookup : option chunking_type;
  ca_loss : option chunking_type;
  ca_locations : option Z;
  ca_events : option Z;
  ca_max : option Z;
  ca_fixed_analysis : option (option Z);
  ca_fixed_lookup : option (option Z);
}.

Definition chunking_validate (initial : json) (attrs : ChunkingAttrs) : result ChunkingAttrs :=
  let check := check_field initial 1 "Value is less than one." in
  '(locations, errors) ← check "dynamic_locations_per_lookup" (∅ : errors_t);
  '(events, errors) ← check "dynamic_events_per_analysis" errors;
  '(max, errors) ← check "dynamic_chunks_max" errors;
  '(analysis, errors) ← check "fixed_analysis_chunks" errors;
  '(lookup, errors) ← check "fixed_lookup_chunks" errors;
  if bool_decide (errors = ∅) then
    let keep (v a : option Z) := match v with Some _ => v | None => a end in
    let keep_null (v : option Z) a := match v with Some n => Some (Some n) | None => a end in
    Ok {| ca_lookup := ca_lookup attrs;
          ca_loss := ca_loss attrs;
          ca_locations := keep locations (ca_locations attrs);
          ca_events := keep events (ca_events attrs);
          ca_max := keep max (ca_max attrs);
          ca_fixed_analysis := keep_null analysis (ca_fixed_analysis attrs);
          ca_fixed_lookup := keep_null lookup (ca_fixed_lookup attrs) |}
  else Raise (validation_error errors).

Definition update_chunking (o : ModelChunkingOptions) (a : ChunkingAttrs) : ModelChunkingOptions := {|
  lookup_strategy := default (lookup_strategy o) (ca_lookup a);
  loss_strategy := default (loss_strategy o) (ca_loss a);
  dynamic_locations_per_lookup := default (dynamic_locations_per_lookup o) (ca_locations a);
  dynamic_events_per_analysis := default (dynamic_events_per_analysis o) (ca_events a);
  dynamic_chunks_max := default (dynamic_chunks_max o) (ca_max a);
  fixed_analysis_chunks := default (fixed_analysis_chunks o) (ca_fixed_analysis a);
  fixed_lookup_chunks := default (fixed_lookup_chunks o) (ca_fixed_lookup a);
|}.

(** ** The endpoints *)

(** The columns of a model row the endpoints read; the options rows are
    referenced by their own primary keys. *)
Record ModelRow := {
  row_run_mode : option string;
  row_deleted : bool;
  row_scaling : Z;
  row_chunking : Z;
}.

Record OptionsDb := {
  models : gmap Z ModelRow;
  scaling_rows : gmap Z ModelScalingOptions;
  chunking_rows : gmap Z ModelChunkingOptions;
}.

(** [AnalysisModel.objects.get(id=pk)]: soft-deleted models are filtered out. *)
Definition get_model (db : OptionsDb) (pk : Z) : result ModelRow :=
  match models db !! pk with
  | Some r => if row_deleted r then Raise ObjectDoesNotExist else Ok r
  | None => Raise ObjectDoesNotExist
  end.

Definition get_row {A} (t : gmap Z A) (pk : Z) : result A :=
  match t !! pk with Some o => Ok o | None => Raise ObjectDoesNotExist end.

Lemma get_model_inv db pk r : get_model db pk = Ok r → models db !! pk = Some r ∧ row_deleted r = false.
Proof. unfold get_model. intros H. repeat (case_match; simplify_eq). done. Qed.

Lemma get_row_inv {A} (t : gmap Z A) pk o : get_row t pk = Ok o → t !! pk = Some o.
Proof. unfold get_row. intros H. case_match; by simplify_eq. Qed.

Definition set_scaling (db : OptionsDb) (pk : Z) (o : ModelScalingOptions) : OptionsDb :=
  {| models := models db; scaling_rows := <[pk := o]> (scaling_rows db);
     chunking_rows := chunking_rows db |}.
Definition set_chunking (db : OptionsDb) (pk : Z) (o : ModelChunkingOptions) : OptionsDb :=
  {| models := models db; scaling_rows := scaling_rows db;
     chunking_rows := <[pk := o]> (chunking_rows db) |}.

(** POST /models/<pk>/scaling_configuration. The stored values the bounds are
    compared with come from [ModelScalingOptions.objects.get(id=m_id)] where
    [m_id] is the [pk] of the URL: the key of the model, not the one of its
    options. *)
Definition post_scaling (to_internal_value : json → result ScalingAttrs)
    (pk : Z) (data : json) (db : OptionsDb) : result OptionsDb :=
  row ← get_model db pk;
  instance ← get_row (scaling_rows db) (row_scaling row);
  attrs ← to_internal_value data;
  let current := default default_scaling_options (scaling_rows db !! pk) in
  attrs ← scaling_validate (row_run_mode row) data current attrs;
  Ok (set_scaling db (row_scaling row) (update_scaling instance attrs)).

(** POST /models/<pk>/chunking_configuration. *)
Definition post_chunking (to_internal_value : json → result ChunkingAttrs)
    (pk : Z) (data : json) (db : OptionsDb) : result OptionsDb :=
  row ← get_model db pk;
  instance ← get_row (chunking_rows db) (row_chunking row);
  attrs ← to_internal_value data;
  attrs ← chunking_validate data attrs;
  Ok (set_chunking db (row_chunking row) (update_chunking instance attrs)).

(** [verify_model_scaling] of analyses/v2_api/utils.py; [None] options are a
    model without scaling options. *)
Definition verify_model_scaling (run_mode : option string)
    (scaling : option ModelScalingOptions) : result unit :=
  match run_mode, scaling with
  | Some mode, Some o =>
      if bool_decide (mode ≠ EmptyString) && bool_decide (lower mode = "v1")
         && bool_decide (scaling_strategy o ∉ [QUEUE_LOAD; FIXED_WORKERS])
      then Raise (ValidationError (DetailList ["Model has invalid scaling setting"%string]))
      else Ok tt
  | _, _ => Ok tt
  end.

(** ** Properties of the validation *)

(** What the endpoints rely on of DRF's field conversion: a field the request
    does not give is not among the attributes, and a null is refused for a
    column that is not nullable. *)
Definition drf_scaling (to_internal_value : json → result ScalingAttrs) : Prop :=
  ∀ kvs a, to_internal_value (JObj kvs) = Ok a →
    (∀ k, k ∈ ["worker_count_fixed"; "worker_count_max"; "worker_count_min"; "chunks_per_worker"]%string →
       assoc k kvs ≠ Some JNull)
    ∧ (assoc "worker_count_fixed" kvs = None → sa_fixed a = None)
    ∧ (assoc "worker_count_max" kvs = None → sa_max a = None)
    ∧ (assoc "worker_count_min" kvs = None → sa_min a = None)
    ∧ (assoc "chunks_per_worker" kvs = None → sa_chunks a = None).

Definition drf_chunking (to_internal_value : json → result ChunkingAttrs) : Prop :=
  ∀ kvs a, to_internal_value (JObj kvs) = Ok a →
    (∀ k, k ∈ ["dynamic_locations_per_lookup"; "dynamic_events_per_analysis"; "dynamic_chunks_max"]%string →
       assoc k kvs ≠ Some JNull)
    ∧ (assoc "dynamic_locations_per_lookup" kvs = None → ca_locations a = None)
    ∧ (assoc "dynamic_events_per_analysis" kvs = None → ca_events a = None)
    ∧ (assoc "dynamic_chunks_max" kvs = None → ca_max a = None)
    ∧ (assoc "fixed_analysis_chunks" kvs = None → ca_fixed_analysis a = None)
    ∧ (assoc "fixed_lookup_chunks" kvs = None → ca_fixed_lookup a = None)
    ∧ (assoc "fixed_analysis_chunks" kvs = Some JNull → ca_fixed_analysis a = Some None)
    ∧ (assoc "fixed_lookup_chunks" kvs = Some JNull → ca_fixed_lookup a = Some None).

(** The cases of a field check: absent or null leaves everything as it was, an
    integer that is large enough is returned, anything else is an error. *)
Lemma check_field_inv kvs least msg k errors v errors' :
  check_field (JObj kvs) least msg k errors = Ok (v, errors') →
  ((assoc k kvs = None ∨ assoc k kvs = Some JNull) ∧ v = None ∧ errors' = errors)
  ∨ (∃ j n, assoc k kvs = Some j ∧ as_int j = Some n ∧ least ≤ n ∧ v = Some n ∧ errors' = errors)
  ∨ (∃ m, errors' = <[k := m]> errors).
Proof.
  unfold check_field. run. destruct (assoc k kvs) as [j|]; [|intros [=]; subst; auto].
  assert (∀ j, (if as_int j is Some n then if n <? least then Ok (None, <[k:=msg]> errors)
    else Ok (Some n, errors) else Ok (None, <[k:="Value is not type int"%string]> errors)) = Ok (v, errors') →
    (∃ n, as_int j = Some n ∧ least ≤ n ∧ v = Some n ∧ errors' = errors) ∨ (∃ m, errors' = <[k:=m]> errors)) as Hv.
  { intros j' H. destruct (as_int j') as [n|] eqn:E; [destruct (n <? least) eqn:?|]; simplify_eq;
      eauto. left. apply Z.ltb_ge in Heqb. eauto 6. }
  intros H. destruct j; [simplify_eq; eauto|..];
    (match type of H with context [as_int ?x] => destruct (Hv x H) as [(?&?&?&?&?)|?]; eauto 9 end).
Qed.

(** Errors are only ever added. *)
Lemma check_field_empty initial least msg k errors v :
  check_field initial least msg k errors = Ok (v, ∅) → errors = ∅.
Proof.
  destruct initial; try discriminate. intros H. apply check_field_inv in H.
  destruct H as [(_ & _ & H)|[(? & ? & _ & _ & _ & _ & H)|[? H]]]; try done.
  by apply symmetry, insert_non_empty in H.
Qed.

(** What an accepted field is: not given (or null) and left to DRF, or an
    integer that is at least [least]. *)
Definition accepted (kvs : list (string * json)) (least : Z) (k : string) (old new : option Z) : Prop :=
  ((assoc k kvs = None ∨ assoc k kvs = Some JNull) ∧ new = old)
  ∨ (∃ j n, assoc k kvs = Some j ∧ as_int j = Some n ∧ least ≤ n ∧ new = Some n).

#[local] Arguments check_field : simpl never.
#[local] Arguments check_min_max : simpl never.

Lemma check_field_accepted kvs least msg k v old :
  check_field (JObj kvs) least msg k ∅ = Ok (v, ∅) →
  accepted kvs least k old (match v with Some _ => v | None => old end).
Proof.
  intros H. apply check_field_inv in H as [(? & -> & _)|[(j & n & ? & ? & ? & -> & _)|[? H]]].
  - by left.
  - right. eauto 7.
  - by apply symmetry, insert_non_empty in H.
Qed.

(** Run a chain of field checks that ended without errors. *)
Ltac accepted_fields :=
  repeat match goal with
  | H : match check_field ?i ?l ?m ?k ?e with _ => _ end = _ |- _ =>
      destruct (check_field i l m k e) as [[? ?]|?] eqn:?; [cbn in H|discriminate H]
  end.

Ltac no_errors :=
  repeat match goal with
  | H : check_field _ _ _ _ ?e = Ok (_, ∅) |- _ =>
      pose proof (check_field_empty _ _ _ _ _ _ H); subst e
  end.

Lemma check_min_max_inv kvs current errors :
  check_min_max (JObj kvs) current errors = Ok ∅ →
  errors = ∅ ∧
  (is_Some (assoc "worker_count_min" kvs) ∨ is_Some (assoc "worker_count_max" kvs) →
   py_gt (default (JInt (worker_count_min current)) (assoc "worker_count_min" kvs))
         (default (JInt (worker_count_max current)) (assoc "worker_count_max" kvs)) = Ok false).
Proof.
  unfold check_min_max. run.
  generalize (py_gt (default (JInt (worker_count_min current)) (assoc "worker_count_min" kvs))
         (default (JInt (worker_count_max current)) (assoc "worker_count_max" kvs))).
  intros [[]|]; destruct (assoc "worker_count_min" kvs), (assoc "worker_count_max" kvs); cbn;
    intros H; simplify_eq;
    solve [ split; [done|by intros [[? ?]|[? ?]]]
          | exfalso; match goal with H : <[_ := _]> _ = _ |- _ => by apply insert_non_empty in H end ].
Qed.

Lemma scaling_validate_inv version kvs current attrs a :
  scaling_validate version (JObj kvs) current attrs = Ok a →
  accepted kvs 0 "worker_count_fixed" (sa_fixed attrs) (sa_fixed a)
  ∧ accepted kvs 0 "worker_count_max" (sa_max attrs) (sa_max a)
  ∧ accepted kvs 0 "worker_count_min" (sa_min attrs) (sa_min a)
  ∧ accepted kvs 0 "chunks_per_worker" (sa_chunks attrs) (sa_chunks a)
  ∧ (is_Some (assoc "worker_count_min" kvs) ∨ is_Some (assoc "worker_count_max" kvs) →
     py_gt (default (JInt (worker_count_min current)) (assoc "worker_count_min" kvs))
           (default (JInt (worker_count_max current)) (assoc "worker_count_max" kvs)) = Ok false).
Proof.
  unfold scaling_validate. intros H.
  run.
  match type of H with context [check_field _ 0 _ "worker_count_fixed" ?E] => generalize dependent E end.
  intros E0 H. accepted_fields.
  destruct (check_min_max _ _ _) as [E|] eqn:HE; [|discriminate]. cbn in H.
  case_bool_decide; [|discriminate]. subst E.
  apply check_min_max_inv in HE as [-> Hgt]. no_errors. simplify_eq/=.
  eauto 10 using check_field_accepted.
Qed.

Lemma chunking_validate_inv kvs attrs a :
  chunking_validate (JObj kvs) attrs = Ok a →
  accepted kvs 1 "dynamic_locations_per_lookup" (ca_locations attrs) (ca_locations a)
  ∧ accepted kvs 1 "dynamic_events_per_analysis" (ca_events attrs) (ca_events a)
  ∧ accepted kvs 1 "dynamic_chunks_max" (ca_max attrs) (ca_max a)
  ∧ (∃ v, accepted kvs 1 "fixed_analysis_chunks" None v
       ∧ ca_fixed_analysis a = match v with Some n => Some (Some n) | None => ca_fixed_analysis attrs end)
  ∧ (∃ v, accepted kvs 1 "fixed_lookup_chunks" None v
       ∧ ca_fixed_lookup a = match v with Some n => Some (Some n) | None => ca_fixed_lookup attrs end).
Proof.
  unfold chunking_validate. intros H. run. accepted_fields.
  case_bool_decide; [|discriminate]. subst. no_errors. simplify_eq/=.
  repeat match goal with H : check_field _ _ _ _ ∅ = Ok (?v, ∅) |- _ =>
    pose proof (check_field_accepted _ _ _ _ _ None H); revert H end.
  intros. split_and!; eauto using check_field_accepted.
  - eexists; split; [eassumption|by destruct o2].
  - eexists; split; [eassumption|by destruct o3].
Qed.

(** ** The stored options stay well-formed *)

Definition options_wf (db : OptionsDb) : Prop :=
  map_Forall (λ _, scaling_wf) (scaling_rows db)
  ∧ map_Forall (λ _, chunking_wf) (chunking_rows db).

(** The value a column has after an accepted update. *)
Lemma accepted_value kvs least k old new cur :
  accepted kvs least k old new →
  (assoc k kvs = None → old = None) → assoc k kvs ≠ Some JNull → least ≤ cur →
  least ≤ default cur new.
Proof. intros [[[H|H] ->]|(?&?&?&?&?&->)] Hold Hn Hc; cbn; [by rewrite Hold|done|done]. Qed.

(** The operand of the bounds check is the value the column gets. *)
Lemma accepted_operand kvs least k old new cur :
  accepted kvs least k old new →
  (assoc k kvs = None → old = None) → assoc k kvs ≠ Some JNull →
  as_int (default (JInt cur) (assoc k kvs)) = Some (default cur new).
Proof.
  intros [[[H|H] ->]|(?&?&H&?&?&->)] Hold Hn; cbn; [|done|].
  - by rewrite H, Hold.
  - by rewrite H.
Qed.

(** The same for a nullable column. *)
Lemma accepted_null kvs k old cur v :
  accepted kvs 1 k None v →
  (assoc k kvs = None → old = None) → (assoc k kvs = Some JNull → old = Some None) →
  opt_pos cur →
  opt_pos (default cur (match v with Some n => Some (Some n) | None => old end)).
Proof.
  intros [[[H|H] ->]|(?&n&?&?&?&->)] Ho1 Ho2 Hc; cbn.
  - by rewrite Ho1.
  - by rewrite Ho2.
  - by intros ? [= <-].
Qed.

Lemma py_gt_ints a b m n : as_int a = Some m → as_int b = Some n → py_gt a b = Ok false → m ≤ n.
Proof.
  intros Ha Hb Hgt. apply Z.ltb_ge. enough (Ok (n <? m) = Ok false) by congruence.
  rewrite <- Hgt. destruct a, b; simplify_eq/=; done.
Qed.

Lemma scaling_validate_wf TI version kvs attrs a o :
  drf_scaling TI → TI (JObj kvs) = Ok attrs → scaling_wf o →
  scaling_validate version (JObj kvs) o attrs = Ok a →
  scaling_wf (update_scaling o a).
Proof.
  intros HTI Hattrs (?&?&?&?) (Hf&Hmx&Hmn&Hc&Hgt)%scaling_validate_inv.
  destruct (HTI _ _ Hattrs) as (Hnull&?&?&?&?).
  unfold scaling_wf, update_scaling; cbn. split_and!.
  1-3: eapply accepted_value; [eassumption|done|apply Hnull; set_solver|done].
  assert (assoc "worker_count_min" kvs ≠ Some JNull) as Hn1 by (apply Hnull; set_solver).
  assert (assoc "worker_count_max" kvs ≠ Some JNull) as Hn2 by (apply Hnull; set_solver).
  pose proof (accepted_operand _ _ _ _ _ (worker_count_min o) Hmn ltac:(done) Hn1) as E1.
  pose proof (accepted_operand _ _ _ _ _ (worker_count_max o) Hmx ltac:(done) Hn2) as E2.
  destruct (decide (is_Some (assoc "worker_count_min" kvs) ∨ is_Some (assoc "worker_count_max" kvs))) as [Hg|Hg].
  - eapply py_gt_ints; [exact E1|exact E2|by apply Hgt].
  - destruct (assoc "worker_count_min" kvs); [exfalso; eauto|].
    destruct (assoc "worker_count_max" kvs); [exfalso; eauto|]. cbn in E1, E2. simplify_eq. congruence.
Qed.

Lemma chunking_validate_wf TI kvs attrs a o :
  drf_chunking TI → TI (JObj kvs) = Ok attrs → chunking_wf o →
  chunking_validate (JObj kvs) attrs = Ok a →
  chunking_wf (update_chunking o a).
Proof.
  intros HTI Hattrs (?&?&?&?&?) (Hl&He&Hm&(v1&Ha&E1)&(v2&Hk&E2))%chunking_validate_inv.
  destruct (HTI _ _ Hattrs) as (Hnull&?&?&?&?&?&?&?).
  unfold chunking_wf, update_chunking; cbn. split_and!.
  1-3: eapply accepted_value; [eassumption|done|apply Hnull; set_solver|done].
  - rewrite E1. by eapply accepted_null.
  - rewrite E2. by eapply accepted_null.
Qed.

(** A field conversion with the documented behaviour, to run the endpoints on
    concrete requests. *)
Definition not_null (kvs : list (string * json)) (k : string) : bool :=
  match assoc k kvs with Some JNull => false | _ => true end.

Definition strategy_of (j : json) : option scaling_type :=
  match j with
  | JStr "FIXED_WORKERS" => Some FIXED_WORKERS
  | JStr "QUEUE_LOAD" => Some QUEUE_LOAD
  | JStr "DYNAMIC_TASKS" => Some DYNAMIC_TASKS
  | _ => None
  end.

Definition plain_to_internal_value (data : json) : result ScalingAttrs :=
  match data with
  | JObj kvs =>
      if not_null kvs "worker_count_fixed" && not_null kvs "worker_count_max"
         && not_null kvs "worker_count_min" && not_null kvs "chunks_per_worker"
      then Ok {| sa_strategy := assoc "scaling_strategy" kvs ≫= strategy_of;
                 sa_fixed := assoc "worker_count_fixed" kvs ≫= as_int;
                 sa_max := assoc "worker_count_max" kvs ≫= as_int;
                 sa_min := assoc "worker_count_min" kvs ≫= as_int;
                 sa_chunks := assoc "chunks_per_worker" kvs ≫= as_int |}
      else Raise (ValidationError (DetailList ["This field may not be null."%string]))
  | _ => Raise (ValidationError (DetailList ["Invalid data."%string]))
  end.

Lemma plain_drf : drf_scaling plain_to_internal_value.
Proof.
  intros kvs a H. cbn in H. case_match eqn:E; [|done]. simplify_eq.
  apply andb_true_iff in E as [[[E1 E2]%andb_true_iff E3]%andb_true_iff E4].
  unfold not_null in *. split_and!; cbn; try (by intros ->).
  intros k Hk Hn. set_unfold in Hk. destruct Hk as [->|[->|[->|[->|[]]]]];
    repeat (case_match; simplify_eq).
Qed.

(** C40: an accepted update of a model's scaling options, whatever the request,
    leaves every stored row with non-negative counts and with
    [worker_count_min <= worker_count_max], provided the options row of the
    model has the model's own primary key. *)
Theorem post_scaling_preserves_wf TI pk kvs db db' :
  drf_scaling TI →
  (∀ row, models db !! pk = Some row → row_scaling row = pk) →
  options_wf db →
  post_scaling TI pk (JObj kvs) db = Ok db' →
  options_wf db'.
Proof.
  intros HTI Hpk [Hs Hc] H.
  apply bind_Ok in H as (row & Hrow & H). apply get_model_inv in Hrow as [Hrow _].
  apply bind_Ok in H as (o & Ho & H). apply get_row_inv in Ho.
  apply bind_Ok in H as (attrs & Hattrs & H).
  apply bind_Ok in H as (a & Ha & [= <-]).
  rewrite (Hpk _ Hrow) in *. rewrite Ho in Ha.
  split; [|done]. apply map_Forall_insert_2; [|done].
  eapply scaling_validate_wf; eauto.
Qed.

Definition model_7 : ModelRow :=
  {| row_run_mode := Some "V2"%string; row_deleted := false; row_scaling := 7; row_chunking := 7 |}.
Definition db_7 : OptionsDb :=
  {| models := {[7 := model_7]}; scaling_rows := {[7 := default_scaling_options]};
     chunking_rows := {[7 := default_chunking_options]} |}.

Lemma db_7_wf : options_wf db_7.
Proof.
  split; apply map_Forall_singleton; unfold scaling_wf, chunking_wf, opt_pos; cbn;
    split_and!; try lia; intros; simplify_eq; lia.
Qed.

Lemma post_scaling_preserves_wf_witness :
  ∃ db', post_scaling plain_to_internal_value 7
    (JObj [("worker_count_min"%string, JInt 2)]) db_7 = Ok db' ∧ options_wf db'.
Proof.
  eexists. split; [vm_compute; reflexivity|].
  apply (post_scaling_preserves_wf plain_to_internal_value 7
           [("worker_count_min"%string, JInt 2)] db_7).
  - exact plain_drf.
  - intros row Hrow. vm_compute in Hrow. by simplify_eq.
  - exact db_7_wf.
  - vm_compute. reflexivity.
Defined.

(** A model whose options row has another key: the bounds are compared with
    those of row 8, and the stored minimum ends above the stored maximum. *)
Definition db_8 : OptionsDb :=
  {| models := {[8 := {| row_run_mode := Some "V2"%string; row_deleted := false;
                         row_scaling := 5; row_chunking := 5 |}]};
     scaling_rows := {[5 := default_scaling_options;
                       8 := {| scaling_strategy := QUEUE_LOAD; worker_count_fixed := 1;
                               worker_count_max := 50; worker_count_min := 0;
                               chunks_per_worker := 1 |}]};
     chunking_rows := ∅ |}.

(** Without that coincidence of keys the invariant is lost. There is a
    well-formed database and a request the endpoint accepts after which the
    minimum worker count of the model exceeds its maximum. *)
Theorem post_scaling_wrong_row :
  options_wf db_8 ∧
  ∃ db' o, post_scaling plain_to_internal_value 8 (JObj [("worker_count_min"%string, JInt 20)]) db_8 = Ok db'
    ∧ scaling_rows db' !! 5 = Some o ∧ worker_count_max o < worker_count_min o.
Proof.
  split.
  - split; [|apply map_Forall_empty].
    apply map_Forall_insert_2; [|apply map_Forall_singleton];
      unfold scaling_wf; cbn; lia.
  - do 2 eexists. split_and!; [vm_compute; reflexivity..|]. cbn. lia.
Qed.
