(* ===== verification/ScalingRules.v ===== *)
(** * The scaling rules of the worker controller

    [get_desired_worker_count] and [get_req_setting] of
    kubernetes/worker-controller/src/autoscaler_rules.py, and a specification of
    the number of workers each strategy promises, over the typed options the
    API stores.

    [math.ceil(int(tasks) / int(chunks))] goes through a float; the quotient is
    exact enough for its ceiling to be [ceil_div] below 2^53 tasks. *)

From S2P Require Import Prelude PyData ModelOptions.
Local Open Scope Z_scope.

(** [ModelState] of kubernetes/worker-controller/src/models.py. *)
Record ModelState := { tasks : Z; analyses : Z; priority : Z }.

(** A settings value equal to a string literal. *)
Definition is_str (j : json) (s : string) : bool :=
  match j with JStr t => bool_decide (t = s) | _ => false end.

Definition get_req_setting (autoscaling_setting : json) (name : string) : result json :=
  value ← py_get_or autoscaling_setting name JNull;
  if truthy value then Ok value else Raise (ValueError "Missing required attribute").

Definition get_desired_worker_count (autoscaling_setting : json) (model_state : ModelState)
    (never_shutdown_fixed_workers : bool) : result Z :=
  strategy ← py_get_or autoscaling_setting "scaling_strategy" JNull;
  worker_count_min ← (py_get_or autoscaling_setting "worker_count_min" (JInt 0) ≫= py_int);
  let analysis_in_progress := (0 <? tasks model_state) || (0 <? analyses model_state) in
  if negb (truthy strategy) then Raise (ValueError "No valid auto scaling configuration for model")
  else
    worker_count_max ← (if is_str strategy "QUEUE_LOAD" || is_str strategy "DYNAMIC_TASKS"
                        then get_req_setting autoscaling_setting "worker_count_max"
                        else Ok JNull);
    if is_str strategy "FIXED_WORKERS" && never_shutdown_fixed_workers then
      count ← (get_req_setting autoscaling_setting "worker_count_fixed" ≫= py_int);
      Ok (Z.max count worker_count_min)
    else if negb analysis_in_progress then Ok worker_count_min
    else if is_str strategy "FIXED_WORKERS" then
      count ← (get_req_setting autoscaling_setting "worker_count_fixed" ≫= py_int);
      Ok (Z.max count worker_count_min)
    else if is_str strategy "QUEUE_LOAD" then
      limit ← py_num worker_count_max;
      Ok (Z.max (Z.min (analyses model_state) limit) worker_count_min)
    else if is_str strategy "DYNAMIC_TASKS" then
      chunks_per_worker ← (py_get_or autoscaling_setting "chunks_per_worker" JNull ≫= py_int);
      if chunks_per_worker =? 0 then Raise ZeroDivisionError
      else
        let workers := ceil_div (tasks model_state) chunks_per_worker in
        limit ← py_num worker_count_max;
        Ok (Z.max (Z.min workers limit) worker_count_min)
    else Raise (ValueError "Unsupported scaling strategy").

(** ** Specification *)

(** The options as the API serves them ([ModelScalingConfigSerializer]). *)
Definition encode_options (o : ModelScalingOptions) : json :=
  JObj [("scaling_strategy"%string, JStr (scaling_name (scaling_strategy o)));
        ("worker_count_fixed"%string, JInt (worker_count_fixed o));
        ("worker_count_max"%string, JInt (worker_count_max o));
        ("worker_count_min"%string, JInt (worker_count_min o));
        ("chunks_per_worker"%string, JInt (chunks_per_worker o))].

Definition in_progress (s : ModelState) : bool := (0 <? tasks s) || (0 <? analyses s).

(** The workers a strategy asks for while there is work, before the minimum. *)
Definition demand (o : ModelScalingOptions) (s : ModelState) : Z :=
  match scaling_strategy o with
  | FIXED_WORKERS => worker_count_fixed o
  | QUEUE_LOAD => Z.min (analyses s) (worker_count_max o)
  | DYNAMIC_TASKS => Z.min (ceil_div (tasks s) (chunks_per_worker o)) (worker_count_max o)
  end.

(** The promise: idle models get the minimum (debug mode keeps fixed workers
    up), busy ones what the strategy asks for, never less than the minimum. *)
Definition busy (o : ModelScalingOptions) (s : ModelState) (keep_fixed : bool) : bool :=
  in_progress s || (keep_fixed && bool_decide (scaling_strategy o = FIXED_WORKERS)).

Definition desired (o : ModelScalingOptions) (s : ModelState) (keep_fixed : bool) : Z :=
  if busy o s keep_fixed then Z.max (demand o s) (worker_count_min o)
  else worker_count_min o.

(** A count of zero counts as a missing setting, and the number of chunks per
    worker is a divisor. *)
Definition settings_error (o : ModelScalingOptions) (s : ModelState) (keep_fixed : bool) : option exn :=
  let missing := ValueError "Missing required attribute" in
  match scaling_strategy o with
  | FIXED_WORKERS => if busy o s keep_fixed && (worker_count_fixed o =? 0) then Some missing else None
  | QUEUE_LOAD => if worker_count_max o =? 0 then Some missing else None
  | DYNAMIC_TASKS =>
      if worker_count_max o =? 0 then Some missing
      else if busy o s keep_fixed && (chunks_per_worker o =? 0) then Some ZeroDivisionError
      else None
  end.

Lemma get_desired_worker_count_eq o s keep_fixed :
  get_desired_worker_count (encode_options o) s keep_fixed =
  match settings_error o s keep_fixed with
  | Some e => Raise e
  | None => Ok (desired o s keep_fixed)
  end.
Proof.
  unfold get_desired_worker_count, desired, settings_error, demand, busy, in_progress, get_req_setting.
  destruct o as [strategy f mx mn c]; cbn.
  destruct strategy, keep_fixed, (0 <? tasks s), (0 <? analyses s); cbn;
    destruct (f =? 0), (mx =? 0), (c =? 0); reflexivity.
Qed.

(** C39: for every stored options row, model state and mode the rules compute
    the specified worker count, or raise the specified error. *)
Theorem desired_worker_count_refines o s keep_fixed :
  get_desired_worker_count (encode_options o) s keep_fixed =
  match settings_error o s keep_fixed with
  | Some e => Raise e
  | None => Ok (desired o s keep_fixed)
  end.
Proof. exact (get_desired_worker_count_eq o s keep_fixed). Qed.

Lemma desired_nonneg o s keep_fixed : scaling_wf o → 0 ≤ desired o s keep_fixed.
Proof. intros (?&?&?&?). unfold desired. case_match; lia. Qed.

(** With stored options (whose bounds are ordered) and a strategy that has
    a maximum, the rules never ask for fewer workers than the configured minimum
    nor for more than the configured maximum. *)
Theorem desired_worker_count_bounds o s keep_fixed n :
  scaling_wf o →
  scaling_strategy o ≠ FIXED_WORKERS →
  get_desired_worker_count (encode_options o) s keep_fixed = Ok n →
  worker_count_min o ≤ n ≤ worker_count_max o.
Proof.
  rewrite get_desired_worker_count_eq. intros (?&?&?&?) Hs Hd.
  case_match; simplify_eq. unfold desired, demand.
  destruct (scaling_strategy o); [done|..]; case_match; lia.
Qed.

Definition dynamic_options : ModelScalingOptions :=
  {| scaling_strategy := DYNAMIC_TASKS; worker_count_fixed := 1;
     worker_count_max := 15; worker_count_min := 1; chunks_per_worker := 4 |}.

Lemma desired_worker_count_bounds_witness : 1 ≤ 3 ≤ 15.
Proof.
  apply (desired_worker_count_bounds dynamic_options {| tasks := 12; analyses := 2; priority := 4 |} false 3).
  - unfold scaling_wf; cbn; lia.
  - discriminate.
  - vm_compute. reflexivity.
Defined.

(** More work never asks for fewer workers. *)
Theorem desired_worker_count_monotone o s s' keep_fixed n n' :
  scaling_wf o →
  tasks s ≤ tasks s' → analyses s ≤ analyses s' →
  0 ≤ worker_count_max o →
  get_desired_worker_count (encode_options o) s keep_fixed = Ok n →
  get_desired_worker_count (encode_options o) s' keep_fixed = Ok n' →
  n ≤ n'.
Proof.
  rewrite !get_desired_worker_count_eq. intros (?&?&Hc&?) Ht Ha Hm Hd Hd'.
  destruct (settings_error o s keep_fixed) eqn:E; [done|].
  destruct (settings_error o s' keep_fixed) eqn:E'; [done|]. simplify_eq.
  unfold desired. destruct (busy o s keep_fixed) eqn:B.
  - assert (busy o s' keep_fixed = true) as B'.
    { unfold busy, in_progress in *. destruct (keep_fixed && _); [by rewrite orb_true_r|].
      rewrite orb_false_r in *. apply orb_true_iff in B. apply orb_true_iff.
      rewrite !Z.ltb_lt in *. lia. }
    rewrite B'. enough (demand o s ≤ demand o s') by lia.
    unfold demand, settings_error in *. destruct (scaling_strategy o); [done|lia|].
    rewrite B in E.
    destruct (worker_count_max o =? 0); [done|]. destruct (Z.eqb_spec (chunks_per_worker o) 0); [done|].
    enough (ceil_div (tasks s) (chunks_per_worker o) ≤ ceil_div (tasks s') (chunks_per_worker o)) by lia.
    apply ceil_div_mono; lia.
  - case_match; lia.
Qed.

Lemma desired_worker_count_monotone_witness : 3 ≤ 6.
Proof.
  apply (desired_worker_count_monotone dynamic_options {| tasks := 12; analyses := 2; priority := 4 |}
           {| tasks := 22; analyses := 3; priority := 1 |} false);
    try (vm_compute; reflexivity); try (unfold scaling_wf; cbn; lia); cbn; lia.
Defined.
