(* ===== verification/WorkerDeployments.v ===== *)
(** * The worker controller's cache of worker deployments

    kubernetes/worker-controller/src/worker_deployments.py and the deployment
    watcher of cluster_client.py that feeds it. A [WorkerDeployment] is a mutable
    object that the cache's list and the scaling pass share, so the model has a
    store of objects and passes references. The cluster's API is outside: the
    events it sends are the inputs of [update_deployment]. *)

From S2P Require Import Prelude PyData.
Local Open Scope Z_scope.

(** ** State *)

Record WorkerDeployment := {
  wd_name : string;
  supplier_id : string;
  model_id : string;
  model_version_id : string;
  api_version : option string;
  oasis_model_id : option Z;
  replicas : option Z;
  auto_scaling : json;
}.

(** [WorkerDeployment(name, supplier_id, model_id, model_version_id, api_version)]. *)
Definition new_deployment (name s m v : string) (api : option string) : WorkerDeployment :=
  {| wd_name := name; supplier_id := s; model_id := m; model_version_id := v;
     api_version := api; oasis_model_id := None; replicas := None; auto_scaling := JNull |}.

Definition set_replicas_of (wd : WorkerDeployment) (n : option Z) : WorkerDeployment :=
  {| wd_name := wd_name wd; supplier_id := supplier_id wd; model_id := model_id wd;
     model_version_id := model_version_id wd; api_version := api_version wd;
     oasis_model_id := oasis_model_id wd; replicas := n; auto_scaling := auto_scaling wd |}.
Definition set_oasis_model_id (wd : WorkerDeployment) (i : option Z) : WorkerDeployment :=
  {| wd_name := wd_name wd; supplier_id := supplier_id wd; model_id := model_id wd;
     model_version_id := model_version_id wd; api_version := api_version wd;
     oasis_model_id := i; replicas := replicas wd; auto_scaling := auto_scaling wd |}.
Definition set_auto_scaling (wd : WorkerDeployment) (a : json) : WorkerDeployment :=
  {| wd_name := wd_name wd; supplier_id := supplier_id wd; model_id := model_id wd;
     model_version_id := model_version_id wd; api_version := api_version wd;
     oasis_model_id := oasis_model_id wd; replicas := replicas wd; auto_scaling := a |}.

(** A reference to a deployment object. *)
Definition ref : Type := nat.

Record WorkerDeployments := {
  worker_deployments : list ref;
  objects : gmap ref WorkerDeployment;
  next_ref : ref;
}.

Definition no_deployments : WorkerDeployments :=
  {| worker_deployments := []; objects := ∅; next_ref := 0%nat |}.

(** Field assignment through a reference. *)
Definition assign (d : WorkerDeployments) (r : ref) (f : WorkerDeployment → WorkerDeployment) : WorkerDeployments :=
  {| worker_deployments := worker_deployments d; objects := alter f r (objects d); next_ref := next_ref d |}.

(** ** Operations *)

Definition dash_join (l : list string) : string := join "-" l.

Definition id_string (wd : WorkerDeployment) : string :=
  match api_version wd with
  | None => lower (dash_join [supplier_id wd; model_id wd; model_version_id wd])
  | Some api => lower (dash_join [supplier_id wd; model_id wd; model_version_id wd; api])
  end.

Definition same (a b : string) : bool := String.eqb (lower a) (lower b).

(** The list of comparisons is built before [all] looks at it, so a deployment
    without an API version raises, whatever its other fields. *)
Definition matches (s m v : string) (api : option string) (wd : WorkerDeployment) : result bool :=
  let ids := same (supplier_id wd) s && same (model_id wd) m && same (model_version_id wd) v in
  match api with
  | Some a =>
      match api_version wd with
      | Some a' => Ok (ids && same a' a)
      | None => Raise AttributeError
      end
  | None => Ok ids
  end.

Fixpoint find_deployment (objs : gmap ref WorkerDeployment) (test : WorkerDeployment → result bool)
    (refs : list ref) : result (option ref) :=
  match refs with
  | [] => Ok None
  | r :: refs =>
      match objs !! r with
      | Some wd => b ← test wd; if b : bool then Ok (Some r) else find_deployment objs test refs
      | None => find_deployment objs test refs
      end
  end.

Definition get_worker_deployment (d : WorkerDeployments) (s m v : string) (api : option string) : result (option ref) :=
  find_deployment (objects d) (matches s m v api) (worker_deployments d).

Definition get_worker_deployment_by_name_id (d : WorkerDeployments) (name_id : string) : result (option ref) :=
  match split_on "-" name_id with
  | [s; m; v] => get_worker_deployment d s m v None
  | [s; m; v; a] => get_worker_deployment d s m v (Some a)
  | _ => Ok None
  end.

Definition update_worker (d : WorkerDeployments) (name s m v api : string) (n : option Z) : result WorkerDeployments :=
  found ← get_worker_deployment d s m v (Some api);
  match found with
  | Some r => Ok (assign d r (λ wd, set_replicas_of wd n))
  | None =>
      let wd := new_deployment name s m v (Some api) in
      Ok {| worker_deployments := worker_deployments d ++ [next_ref d];
            objects := <[next_ref d := set_replicas_of wd n]> (objects d);
            next_ref := S (next_ref d) |}
  end.

Definition named (d : WorkerDeployments) (name : string) (r : ref) : bool :=
  match objects d !! r with Some wd => String.eqb (wd_name wd) name | None => false end.

(** A new list without the deployments of that name; the objects live on. *)
Definition delete_worker (d : WorkerDeployments) (name : string) : WorkerDeployments :=
  {| worker_deployments := List.filter (λ r, negb (named d name r)) (worker_deployments d);
     objects := objects d; next_ref := next_ref d |}.

(** A deployment as the cluster reports it. *)
Record Deployment := {
  dep_name : string;
  dep_replicas : option Z;
  dep_labels : gmap string string;
}.

Definition label (dep : Deployment) (k : string) : string :=
  default EmptyString (dep_labels dep !! k).

(** [DeploymentWatcher.update_deployment]. *)
Definition update_deployment (d : WorkerDeployments) (dep : Deployment) (type : option string) : result WorkerDeployments :=
  if bool_decide (type = Some "DELETED"%string) then Ok (delete_worker d (dep_name dep))
  else update_worker d (dep_name dep) (label dep "oasislmf/supplier-id") (label dep "oasislmf/model-id")
         (label dep "oasislmf/model-version-id") (label dep "oasislmf/api-version") (dep_replicas dep).

(** [DeploymentWatcher.load_deployments]. *)
Fixpoint load_deployments (d : WorkerDeployments) (deps : list Deployment) : result WorkerDeployments :=
  match deps with
  | [] => Ok d
  | dep :: deps => d ← update_deployment d dep None; load_deployments d deps
  end.

(** ** The cache invariant *)

(** What identifies a deployment, up to case. *)
Definition identity (wd : WorkerDeployment) : string * string * string * option string :=
  (lower (supplier_id wd), lower (model_id wd), lower (model_version_id wd), lower <$> api_version wd).

(** [d] caches the object [wd] under reference [r]. *)
Definition cached (d : WorkerDeployments) (r : ref) (wd : WorkerDeployment) : Prop :=
  r ∈ worker_deployments d ∧ objects d !! r = Some wd.

Record cache_ok (d : WorkerDeployments) : Prop := {
  ok_nodup : NoDup (worker_deployments d);
  ok_objects : ∀ r, r ∈ worker_deployments d → ∃ wd, objects d !! r = Some wd ∧ is_Some (api_version wd);
  ok_fresh : ∀ r, is_Some (objects d !! r) → (r < next_ref d)%nat;
  ok_unique : ∀ r1 r2 wd1 wd2, cached d r1 wd1 → cached d r2 wd2 →
    identity wd1 = identity wd2 → r1 = r2;
}.

Lemma no_deployments_ok : cache_ok no_deployments.
Proof.
  split; cbn; [constructor|..]; intros; try set_solver.
  - rewrite lookup_empty in *. by destruct H.
  - destruct H. set_solver.
Qed.

Lemma same_spec a b : same a b = true ↔ lower a = lower b.
Proof. apply String.eqb_eq. Qed.

Lemma matches_some s m v a wd :
  is_Some (api_version wd) →
  matches s m v (Some a) wd =
    Ok (bool_decide (identity wd = (lower s, lower m, lower v, Some (lower a)))).
Proof.
  intros [b Hb]. unfold matches, identity. rewrite Hb. cbn. f_equal.
  apply eq_true_iff_eq. rewrite bool_decide_eq_true, !andb_true_iff, !same_spec.
  split; [intros [[[-> ->] ->] ->]; done|intros [= -> -> -> ->]; done].
Qed.

(** The search returns the first reference whose test holds. *)
Lemma find_deployment_spec objs test refs (p : WorkerDeployment → bool) :
  (∀ r, r ∈ refs → ∃ wd, objs !! r = Some wd ∧ test wd = Ok (p wd)) →
  ∃ o, find_deployment objs test refs = Ok o ∧
    match o with
    | Some r => r ∈ refs ∧ ∃ wd, objs !! r = Some wd ∧ p wd = true
    | None => ∀ r wd, r ∈ refs → objs !! r = Some wd → p wd = false
    end.
Proof.
  induction refs as [|r refs IH]; intros Ht; cbn.
  - exists None. split; [done|]. set_solver.
  - destruct (Ht r ltac:(left)) as (wd & Hr & Hwd). rewrite Hr, Hwd. cbn.
    destruct (p wd) eqn:Hp.
    + exists (Some r). split; [done|]. split; [left|eauto].
    + destruct IH as (o & -> & Ho); [intros; apply Ht; by right|].
      exists o. split; [done|]. destruct o as [r'|].
      * destruct Ho. split; [by right|done].
      * intros r' wd' [->|?]%elem_of_cons ?; [congruence|eauto].
Qed.

(** Looking up a full identity never raises, and finds it exactly when a cached
    deployment has it. *)
Lemma get_worker_deployment_spec d s m v a :
  cache_ok d →
  ∃ o, get_worker_deployment d s m v (Some a) = Ok o ∧
    match o with
    | Some r => ∃ wd, cached d r wd ∧ identity wd = (lower s, lower m, lower v, Some (lower a))
    | None => ∀ r wd, cached d r wd → identity wd ≠ (lower s, lower m, lower v, Some (lower a))
    end.
Proof.
  intros Hd. edestruct (find_deployment_spec (objects d) (matches s m v (Some a)) (worker_deployments d))
    as (o & Ho & Hspec).
  { intros r Hr. destruct (ok_objects _ Hd _ Hr) as (wd & ? & ?). eexists; split; [done|].
    by apply matches_some. }
  exists o. split; [done|]. destruct o as [r|].
  - destruct Hspec as (? & wd & ? & ?%bool_decide_eq_true). by exists wd.
  - intros r wd [Hr Hwd] E. specialize (Hspec r wd Hr Hwd). by rewrite bool_decide_eq_false in Hspec.
Qed.

(** ** The operations preserve the invariant *)

(** An assignment that keeps the identity. *)
Lemma assign_ok d r f :
  (∀ wd, identity (f wd) = identity wd) → (∀ wd, api_version (f wd) = api_version wd) →
  cache_ok d → cache_ok (assign d r f).
Proof.
  intros Hf Ha [H1 H2 H3 H4]. split; cbn.
  - done.
  - intros r' (wd & Hwd & ?)%H2. rewrite lookup_alter, Hwd.
    case_decide; [subst r; exists (f wd); rewrite Hwd; split; [done|by rewrite Ha]|by exists wd].
  - intros r'. rewrite lookup_alter. case_decide; [|apply H3]. rewrite fmap_is_Some. subst. apply H3.
  - assert (∀ r' wd', cached (assign d r f) r' wd' → ∃ wd, cached d r' wd ∧ identity wd' = identity wd) as Hc.
    { intros r' wd' [Hr' Hwd']. cbn in *. rewrite lookup_alter in Hwd'. case_decide; [|by exists wd'].
      subst. destruct (objects d !! r') as [wd|] eqn:E; [|done]. simplify_eq/=.
      exists wd. by split. }
    intros r1 r2 wd1 wd2 (wd1' & ? & E1)%Hc (wd2' & ? & E2)%Hc ?. eapply H4; [done..|congruence].
Qed.

Lemma set_replicas_assign_ok d r n : cache_ok d → cache_ok (assign d r (λ wd, set_replicas_of wd n)).
Proof. by apply assign_ok. Qed.
Lemma set_oasis_model_id_assign_ok d r i : cache_ok d → cache_ok (assign d r (λ wd, set_oasis_model_id wd i)).
Proof. by apply assign_ok. Qed.
Lemma set_auto_scaling_assign_ok d r a : cache_ok d → cache_ok (assign d r (λ wd, set_auto_scaling wd a)).
Proof. by apply assign_ok. Qed.
#[export] Hint Resolve set_replicas_assign_ok set_oasis_model_id_assign_ok set_auto_scaling_assign_ok : oasis.

Lemma delete_worker_ok d name : cache_ok d → cache_ok (delete_worker d name).
Proof.
  intros [H1 H2 H3 H4].
  assert (∀ r, r ∈ worker_deployments (delete_worker d name) → r ∈ worker_deployments d) as Hsub.
  { intros r. cbn. rewrite !list_elem_of_In, filter_In. tauto. }
  split.
  - cbn. rewrite NoDup_ListNoDup in *. by apply List.NoDup_filter.
  - intros r ?%Hsub. by apply H2.
  - apply H3.
  - intros r1 r2 wd1 wd2 [?%Hsub ?] [?%Hsub ?]. by apply H4.
Qed.

(** [update_worker] never raises, keeps the invariant, and afterwards the
    deployment is cached with the reported number of replicas. *)
Lemma update_worker_ok d name s m v a n :
  cache_ok d →
  ∃ d' r wd, update_worker d name s m v a n = Ok d' ∧ cache_ok d'
    ∧ cached d' r wd ∧ replicas wd = n
    ∧ identity wd = (lower s, lower m, lower v, Some (lower a)).
Proof.
  intros Hd. unfold update_worker.
  destruct (get_worker_deployment_spec d s m v a Hd) as (o & -> & Ho). cbn.
  destruct o as [r|].
  - destruct Ho as (wd & [? Hwd] & ?). do 3 eexists. split; [done|]. split; [eauto with oasis|].
    split; [split; [done|cbn; rewrite lookup_alter_eq, Hwd; reflexivity]|by split].
  - destruct Hd as [H1 H2 H3 H4].
    assert (Hfresh : next_ref d ∉ worker_deployments d).
    { intros (wd & Hwd & _)%H2. specialize (H3 (next_ref d) ltac:(eauto)). lia. }
    eexists _, (next_ref d), _. split; [done|]. split.
    + split; cbn.
      * apply NoDup_app. split_and!; [done|set_solver|apply NoDup_singleton].
      * intros r [Hr| ->%list_elem_of_singleton]%elem_of_app.
        -- rewrite lookup_insert_ne by congruence. by apply H2.
        -- rewrite lookup_insert_eq. eauto.
      * intros r. rewrite lookup_insert. case_decide; [lia|]. intros Hr. specialize (H3 _ Hr). lia.
      * assert (∀ r wd, cached {| worker_deployments := worker_deployments d ++ [next_ref d];
            objects := <[next_ref d := set_replicas_of (new_deployment name s m v (Some a)) n]> (objects d);
            next_ref := S (next_ref d) |} r wd →
          (r = next_ref d ∧ identity wd = (lower s, lower m, lower v, Some (lower a))) ∨ cached d r wd) as Hc.
        { intros r wd [Hr Hwd]. cbn in *. rewrite lookup_insert in Hwd.
          case_decide; [left; by simplify_eq|right]. split; [set_solver|done]. }
        intros r1 r2 wd1 wd2 [[-> E1]|C1]%Hc [[-> E2]|C2]%Hc E; [done| | |by eapply H4].
        -- exfalso. apply (Ho _ _ C2). congruence.
        -- exfalso. apply (Ho _ _ C1). congruence.
    + split; [split; cbn; [set_solver|apply lookup_insert_eq]|by split].
Qed.

Lemma update_deployment_ok d dep type :
  cache_ok d → ∃ d', update_deployment d dep type = Ok d' ∧ cache_ok d'.
Proof.
  intros Hd. unfold update_deployment. case_bool_decide.
  - eauto using delete_worker_ok.
  - edestruct update_worker_ok as (d' & ? & ? & ? & ? & _); eauto.
Qed.

(** The deployments the watcher loads at start, then the events it receives
    ([DeploymentWatcher.watch]). *)
Fixpoint watch (d : WorkerDeployments) (events : list (Deployment * string)) : result WorkerDeployments :=
  match events with
  | [] => Ok d
  | (dep, type) :: events => d ← update_deployment d dep (Some type); watch d events
  end.

Lemma load_deployments_ok d deps :
  cache_ok d → ∃ d', load_deployments d deps = Ok d' ∧ cache_ok d'.
Proof.
  revert d. induction deps as [|dep deps IH]; intros d Hd; cbn; [eauto|].
  destruct (update_deployment_ok d dep None Hd) as (d' & -> & Hd'). cbn. auto.
Qed.

(** Whatever deployments the cluster lists at start and whatever events it
    sends, with whatever labels, the watcher never raises and the cache never
    holds two deployments with the same case-insensitive identity. *)
Theorem watch_keeps_cache_ok deps events :
  ∃ d0 d, load_deployments no_deployments deps = Ok d0 ∧ watch d0 events = Ok d ∧ cache_ok d.
Proof.
  destruct (load_deployments_ok _ deps no_deployments_ok) as (d0 & E0 & H0).
  exists d0. enough (∃ d, watch d0 events = Ok d ∧ cache_ok d) by naive_solver.
  clear E0. revert d0 H0. induction events as [|[dep type] events IH]; intros d Hd; cbn; [eauto|].
  destruct (update_deployment_ok d dep (Some type) Hd) as (d' & -> & Hd'). cbn. auto.
Qed.

(** ** Looking deployments up by the queue's name *)

Definition no_dash (s : string) : bool := negb (has_char "-" s).

Lemma no_dash_false s : no_dash s = true ↔ has_char "-" (lower s) = false.
Proof. unfold no_dash. rewrite has_char_lower. apply negb_true_iff. Qed.

Lemma id_string_api wd a :
  api_version wd = Some a →
  id_string wd = lower (supplier_id wd) +:+ String "-" (lower (model_id wd) +:+ String "-"
                   (lower (model_version_id wd) +:+ String "-" (lower a))).
Proof. intros Ha. unfold id_string, dash_join. rewrite Ha. cbn [join]. by rewrite !lower_app. Qed.

(** The id splits back into its parts when no part contains a dash, and into
    five or more parts otherwise. *)
Lemma split_id_string wd a :
  api_version wd = Some a →
  if no_dash (supplier_id wd) && no_dash (model_id wd) && no_dash (model_version_id wd) && no_dash a
  then split_on "-" (id_string wd) = [lower (supplier_id wd); lower (model_id wd); lower (model_version_id wd); lower a]
  else (5 ≤ length (split_on "-" (id_string wd)))%nat.
Proof.
  intros Ha. rewrite (id_string_api _ _ Ha). case_match eqn:E.
  - rewrite !andb_true_iff in E. destruct E as [[[E1 E2] E3] E4]. rewrite !no_dash_false in *.
    by rewrite !split_on_app, split_on_nodash by done.
  - rewrite length_split_on, count_char_app. cbn [count_char].
    rewrite count_char_app. cbn [count_char]. rewrite count_char_app. cbn [count_char].
    rewrite !count_char_lower. rewrite (bool_decide_eq_true_2 (_ = _)) by done.
    unfold no_dash in E. rewrite !andb_false_iff, !negb_false_iff in E.
    destruct E as [[[E|E]|E]|E]; apply count_char_pos in E; lia.
Qed.

(** The round trip between a deployment's name id and the cache. A cached
    deployment is found again under its own [id_string] exactly when none of
    its four parts contains a dash; with a dash (a version such as 1.0-rc1) the
    lookup returns nothing, and never raises. *)
Theorem name_id_roundtrip d r wd a :
  cache_ok d → cached d r wd → api_version wd = Some a →
  get_worker_deployment_by_name_id d (id_string wd) =
    Ok (if no_dash (supplier_id wd) && no_dash (model_id wd) && no_dash (model_version_id wd) && no_dash a
        then Some r else None).
Proof.
  intros Hd Hr Ha. pose proof (split_id_string wd a Ha) as Hs.
  unfold get_worker_deployment_by_name_id. case_match.
  - rewrite Hs.
    edestruct (get_worker_deployment_spec d) as (o & -> & Ho); [done|]. rewrite !lower_idemp in Ho.
    assert (identity wd = (lower (supplier_id wd), lower (model_id wd), lower (model_version_id wd), Some (lower a)))
      as E by (unfold identity; by rewrite Ha).
    destruct o as [r'|]; [|by destruct (Ho r wd)].
    destruct Ho as (wd' & Hwd' & E'). do 2 f_equal. eapply ok_unique; [done..|congruence].
  - destruct (split_on "-" (id_string wd)) as [|?[|?[|?[|?[|??]]]]]; cbn in Hs; try lia; done.
Qed.

Definition piwind_labels (version : string) : gmap string string :=
  {["oasislmf/supplier-id" := "OasisLMF"; "oasislmf/model-id" := "PiWind";
    "oasislmf/model-version-id" := version; "oasislmf/api-version" := "v2"]}.
Definition piwind_deployment (version : string) : Deployment :=
  {| dep_name := "worker-oasislmf-piwind-" +:+ version; dep_replicas := Some 0;
     dep_labels := piwind_labels version |}.
Definition piwind_cache : WorkerDeployments :=
  match load_deployments no_deployments [piwind_deployment "1"; piwind_deployment "1.0-rc1"] with
  | Ok d => d | Raise _ => no_deployments end.

Lemma piwind_cache_ok : cache_ok piwind_cache.
Proof.
  destruct (load_deployments_ok _ [piwind_deployment "1"; piwind_deployment "1.0-rc1"] no_deployments_ok)
    as (d & E & Hd).
  unfold piwind_cache. by rewrite E.
Qed.

Definition piwind_object (version : string) : WorkerDeployment :=
  set_replicas_of (new_deployment ("worker-oasislmf-piwind-" +:+ version) "OasisLMF" "PiWind" version (Some "v2"%string)) (Some 0).

Lemma name_id_roundtrip_witness :
  get_worker_deployment_by_name_id piwind_cache "oasislmf-piwind-1-v2" = Ok (Some 0%nat)
  ∧ get_worker_deployment_by_name_id piwind_cache "oasislmf-piwind-1.0-rc1-v2" = Ok None.
Proof.
  split.
  - refine (name_id_roundtrip piwind_cache 0%nat (piwind_object "1") "v2" piwind_cache_ok (conj _ _) _);
      [vm_compute; left|vm_compute; reflexivity|reflexivity].
  - refine (name_id_roundtrip piwind_cache 1%nat (piwind_object "1.0-rc1") "v2" piwind_cache_ok (conj _ _) _);
      [vm_compute; right; left|vm_compute; reflexivity|reflexivity].
Defined.
