(* ===== verification/AutoScaler.v ===== *)
(** * The auto scaler of the worker controller

    kubernetes/worker-controller/src/autoscaler.py, with the calls it makes into
    oasis_client.py and cluster_client.py. The controller is one asyncio process:
    the scaling pass, the deployment watcher, the clean-up timer and the tasks it
    creates interleave where a coroutine suspends, which is at every request to
    the API or to the cluster. The model runs the other tasks there: the state
    holds, for each coming suspension, the batch of events that occur during it.

    The HTTP API of the platform and the cluster's API are outside: [http_get]
    answers the n-th request, [cluster_patch] the n-th patch. *)

From S2P Require Import Prelude PyData ModelOptions ScalingRules WorkerDeployments.
Local Open Scope Z_scope.

(** ** State *)

(** The configuration [main] passes to the constructor. *)
Record Config := {
  prioritized_models_limit : option Z;
  limit : option Z;
  continue_update_scaling : bool;
  never_shutdown_fixed_workers : bool;
}.

(** What other tasks of the event loop may do while a coroutine is suspended. *)
Inductive event :=
  | DeploymentEvent (dep : Deployment) (type : string)
  | TimerFires (h : nat)
  | TaskRuns.

Record State := {
  deployments : WorkerDeployments;
  (** The handle [self.cleanup_timer] holds. *)
  cleanup_timer : option nat;
  cleanup_deployments : gset string;
  (** The event loop: handles of [call_later] still to fire, and the
      [set_replicas] coroutines given to [create_task] that have not run. *)
  timers : gset nat;
  next_handle : nat;
  created_tasks : list (string * Z);
  (** The patches sent to the cluster, oldest first. *)
  patches : list (string * Z);
  http_calls : nat;
  (** The events of each coming suspension. *)
  inbox : list (list event);
}.

Definition with_deployments (s : State) (d : WorkerDeployments) : State :=
  {| deployments := d; cleanup_timer := cleanup_timer s; cleanup_deployments := cleanup_deployments s;
     timers := timers s; next_handle := next_handle s; created_tasks := created_tasks s;
     patches := patches s; http_calls := http_calls s; inbox := inbox s |}.
Definition with_cleanup (s : State) (t : option nat) (c : gset string) (ts : gset nat) (h : nat) : State :=
  {| deployments := deployments s; cleanup_timer := t; cleanup_deployments := c;
     timers := ts; next_handle := h; created_tasks := created_tasks s;
     patches := patches s; http_calls := http_calls s; inbox := inbox s |}.
Definition with_tasks (s : State) (l : list (string * Z)) : State :=
  {| deployments := deployments s; cleanup_timer := cleanup_timer s; cleanup_deployments := cleanup_deployments s;
     timers := timers s; next_handle := next_handle s; created_tasks := l;
     patches := patches s; http_calls := http_calls s; inbox := inbox s |}.
Definition with_patch (s : State) (p : string * Z) : State :=
  {| deployments := deployments s; cleanup_timer := cleanup_timer s; cleanup_deployments := cleanup_deployments s;
     timers := timers s; next_handle := next_handle s; created_tasks := created_tasks s;
     patches := patches s ++ [p]; http_calls := http_calls s; inbox := inbox s |}.
Definition with_call (s : State) : State :=
  {| deployments := deployments s; cleanup_timer := cleanup_timer s; cleanup_deployments := cleanup_deployments s;
     timers := timers s; next_handle := next_handle s; created_tasks := created_tasks s;
     patches := patches s; http_calls := S (http_calls s); inbox := inbox s |}.
Definition with_inbox (s : State) (i : list (list event)) : State :=
  {| deployments := deployments s; cleanup_timer := cleanup_timer s; cleanup_deployments := cleanup_deployments s;
     timers := timers s; next_handle := next_handle s; created_tasks := created_tasks s;
     patches := patches s; http_calls := http_calls s; inbox := i |}.

(** ** The other tasks *)

(** [_cleanup]: a [set_replicas(name, 0)] task per collected deployment, and the
    set is emptied. The order of the tasks is that of the set's iteration. *)
Definition cleanup (s : State) : State :=
  if bool_decide (cleanup_deployments s = ∅) then s
  else with_cleanup
         (with_tasks s (created_tasks s ++ ((λ name, (name, 0)) <$> elements (cleanup_deployments s))))
         (cleanup_timer s) ∅ (timers s) (next_handle s).

(** One event. A pending timer that fires runs [_cleanup] and is gone; a created
    task runs up to its patch; the watcher logs a failure to parse a deployment
    and goes on. *)
Definition handle_event (e : event) (s : State) : State :=
  match e with
  | DeploymentEvent dep type =>
      match update_deployment (deployments s) dep (Some type) with
      | Ok d => with_deployments s d
      | Raise _ => s
      end
  | TimerFires h =>
      if bool_decide (h ∈ timers s)
      then cleanup (with_cleanup s (cleanup_timer s) (cleanup_deployments s) (timers s ∖ {[h]}) (next_handle s))
      else s
  | TaskRuns =>
      match created_tasks s with
      | [] => s
      | p :: rest => with_patch (with_tasks s rest) p
      end
  end.

(** A suspension: the next batch of events happens. *)
Definition suspend : M State unit := λ s,
  match inbox s with
  | [] => (Ok tt, s)
  | batch :: rest => (Ok tt, foldl (λ s e, handle_event e s) (with_inbox s rest) batch)
  end.

(** ** Parsing the queue-status message *)

(** [RunningAnalysis] of models.py. *)
Record RunningAnalysis := {
  ra_id : option Z;
  ra_tasks : Z;
  ra_queue_names : list string;
  ra_priority : Z;
}.

(** The keys of the analyses dicts: a queue's name, or an analysis id. *)
Inductive analysis_key := PendingTask (queue : string) | AnalysisId (id : Z).
#[export] Instance analysis_key_eq_dec : EqDecision analysis_key.
Proof. solve_decision. Defined.

(** [d[k] = v] on an insertion-ordered dict. *)
Fixpoint dict_set {K V} `{EqDecision K} (d : list (K * V)) (k : K) (v : V) : list (K * V) :=
  match d with
  | [] => [(k, v)]
  | (k', v') :: d => if decide (k = k') then (k', v) :: d else (k', v') :: dict_set d k v
  end.
Fixpoint dict_get {K V} `{EqDecision K} (d : list (K * V)) (k : K) : option V :=
  match d with
  | [] => None
  | (k', v) :: d => if decide (k = k') then Some v else dict_get d k
  end.

Definition queue_of (entry : json) : result string :=
  py_item entry "queue" ≫= λ q, py_item q "name" ≫= py_str.

(** [queue_name not in ['celery', 'celery-v2', 'task-controller']]. *)
Definition is_model_queue (q : string) : bool :=
  negb (String.eqb q "celery" || String.eqb q "celery-v2" || String.eqb q "task-controller").

Definition parse_pending_entry (acc : list (analysis_key * RunningAnalysis)) (entry : json)
    : result (list (analysis_key * RunningAnalysis)) :=
  analyses_list ← py_item entry "analyses";
  queue_name ← queue_of entry;
  if is_model_queue queue_name then
    queue ← py_get_or entry "queue" (JObj []);
    queued_task_count ← (py_get_or queue "queued_count" (JInt 0) ≫= py_num);
    queue_message_count ← (py_get_or queue "queue_message_count" (JInt 0) ≫= py_num);
    let queued_count := Z.max queued_task_count queue_message_count in
    if (0 <? queued_count) && negb (truthy analyses_list) then
      Ok (dict_set acc (PendingTask queue_name)
            {| ra_id := None; ra_tasks := 1; ra_queue_names := [queue_name]; ra_priority := 4 |})
    else Ok acc
  else Ok acc.

(** [for x in l: acc = f(acc, x)], stopping at an exception. *)
Fixpoint fold_result {A B} (f : B → A → result B) (l : list A) (b : B) : result B :=
  match l with
  | [] => Ok b
  | x :: l => b ← f b x; fold_result f l b
  end.

Definition parse_queued_pending (msg : json) : result (list (analysis_key * RunningAnalysis)) :=
  content ← (py_item msg "content" ≫= py_list);
  fold_result parse_pending_entry content [].

Definition analysis_id (analysis : json) : result Z := py_item analysis "id" ≫= py_num.

(** [running_analyses[sa_id] = RunningAnalysis(...)]. *)
Definition add_running (acc : list (analysis_key * RunningAnalysis)) (analysis : json)
    (sa_id tasks : Z) (queue_names : list string) : result (list (analysis_key * RunningAnalysis)) :=
  priority ← (py_get_or analysis "priority" (JInt 1) ≫= py_int);
  Ok (dict_set acc (AnalysisId sa_id)
        {| ra_id := Some sa_id; ra_tasks := tasks; ra_queue_names := queue_names; ra_priority := priority |}).

Definition is_running (acc : list (analysis_key * RunningAnalysis)) (sa_id : Z) : bool :=
  match dict_get acc (AnalysisId sa_id) with Some _ => true | None => false end.

(** The part of the loop body after the shortcut for analyses without tasks. *)
Definition add_if_queued (acc : list (analysis_key * RunningAnalysis)) (analysis tasks : json)
    : result (list (analysis_key * RunningAnalysis)) :=
  task_counts ← py_get_or analysis "status_count" (JObj []);
  tasks_in_queue ← (py_get_or task_counts "TOTAL_IN_QUEUE" (JInt 0) ≫= py_num);
  queue_names ← (if 0 <? tasks_in_queue
                 then py_get_or analysis "queue_names" (JList []) ≫= py_list
                 else Ok []);
  if truthy tasks then
    n ← py_num tasks;
    if (0 <? n) && negb (length queue_names =? 0)%nat then
      sa_id ← analysis_id analysis;
      if is_running acc sa_id then Ok acc
      else names ← fold_result (λ l q, q ← py_str q; Ok (l ++ [q])) queue_names [];
           add_running acc analysis sa_id n names
    else Ok acc
  else Ok acc.

Definition parse_running_entry (entry : json) (acc : list (analysis_key * RunningAnalysis)) (analysis_entry : json)
    : result (list (analysis_key * RunningAnalysis)) :=
  analysis ← py_item analysis_entry "analysis";
  tasks ← py_get_or analysis "sub_task_count" (JInt 0);
  if truthy tasks then add_if_queued acc analysis tasks
  else
    sa_id ← analysis_id analysis;
    if is_running acc sa_id then add_if_queued acc analysis tasks
    else queue_name ← queue_of entry; add_running acc analysis sa_id 1 [queue_name].

Definition parse_running_analyses (msg : json) : result (list (analysis_key * RunningAnalysis)) :=
  content ← (py_item msg "content" ≫= py_list);
  fold_result (λ acc entry,
    analyses_list ← (py_item entry "analyses" ≫= py_list);
    fold_result (parse_running_entry entry) analyses_list acc) content [].

(** ** Model states *)

Definition add_queue (analysis : RunningAnalysis) (states : list (string * ModelState)) (queue : string)
    : list (string * ModelState) :=
  let q := lower queue in
  match dict_get states q with
  | Some st => dict_set states q
      {| tasks := tasks st + ra_tasks analysis; analyses := analyses st + 1;
         priority := if priority st <? ra_priority analysis then ra_priority analysis else priority st |}
  | None => dict_set states q
      {| tasks := ra_tasks analysis; analyses := 1; priority := ra_priority analysis |}
  end.

Definition idle_state : ModelState := {| tasks := 0; analyses := 0; priority := 1 |}.

(** A deployment no message mentions, neither by its id nor by its id without
    the [-v1] or [-v2] suffix, is idle. *)
Definition add_idle (d : WorkerDeployments) (states : list (string * ModelState)) (r : ref)
    : list (string * ModelState) :=
  match objects d !! r with
  | Some wd =>
      let i := id_string wd in
      match dict_get states i, dict_get states (drop_last 3 i) with
      | None, None => dict_set states i idle_state
      | _, _ => states
      end
  | None => states
  end.

Definition aggregate_model_states (d : WorkerDeployments) (running : list (analysis_key * RunningAnalysis))
    : list (string * ModelState) :=
  let states := foldl (λ st '(_, a), foldl (add_queue a) st (ra_queue_names a)) [] running in
  foldl (add_idle d) states (worker_deployments d).

(** A model with its state and its deployment. *)
Definition entry_t : Type := string * ModelState * ref.

Definition filter_model_states_with_wd (d : WorkerDeployments) (states : list (string * ModelState))
    : result (list entry_t) :=
  fold_result (λ acc '(model, state),
    wd ← get_worker_deployment_by_name_id d model;
    match wd with
    | Some r => Ok (acc ++ [(model, state, r)])
    | None => Ok acc
    end) states [].

Definition filter_models_by_api_version (d : WorkerDeployments) (l : list entry_t) (version : string) : list entry_t :=
  List.filter (λ '(_, _, r),
    match objects d !! r with
    | Some wd => bool_decide (api_version wd = Some (lower version))
    | None => false
    end) l.

(** ** Prioritised models *)

Fixpoint insert_desc (x : Z) (l : list Z) : list Z :=
  match l with
  | [] => [x]
  | y :: l' => if y <? x then x :: l else if x =? y then l else y :: insert_desc x l'
  end.

(** [sorted(list(set(...)), reverse=True)]. *)
Definition priority_levels (l : list entry_t) : list Z :=
  foldr (λ '(_, st, _) acc, insert_desc (priority st) acc) [] l.

(** [l[0:n]]: a negative bound counts from the end. *)
Definition slice_to {A} (l : list A) (n : Z) : list A :=
  if n <? 0 then take (length l - Z.to_nat (- n)) l else take (Z.to_nat n) l.

Definition get_highest_model_priorities (c : Config) (l : list entry_t) : option (list Z) :=
  match prioritized_models_limit c with
  | Some n =>
      if n =? 0 then None
      else if (1 <? length (priority_levels l))%nat then Some (slice_to (priority_levels l) n)
      else None
  | None => None
  end.

Definition clear_unprioritized_models (c : Config) (l : list entry_t) : list entry_t :=
  match get_highest_model_priorities c l with
  | None | Some [] => l
  | Some ps =>
      (λ '(model, st, r), if bool_decide (priority st ∈ ps) then (model, st, r) else (model, idle_state, r)) <$> l
  end.

(** ** Scaling *)

Section scaling.
Context (http_get : nat → string → list (string * string) → result json).
Context (cluster_patch : nat → string → Z → result unit).
Context (c : Config).

(** [OasisClient._get]: the request suspends the coroutine. *)
Definition http (path : string) (params : list (string * string)) : M State json := λ s,
  let '(_, s') := suspend (with_call s) in (http_get (http_calls s) path params, s').

(** [OasisClient.get_oasis_model_id]: the first model of the answer with the
    three ids; Python compares, so case matters here. *)
Fixpoint first_model (s m v : string) (l : list json) : result (option Z) :=
  match l with
  | [] => Ok None
  | model :: l =>
      let equal k x := j ← py_item model k; Ok (is_str j x) in
      b ← equal "supplier_id"%string s;
      b ← (if b : bool then equal "model_id"%string m else Ok false);
      b ← (if b : bool then equal "version_id"%string v else Ok false);
      if b : bool then i ← (py_item model "id" ≫= py_num); Ok (Some i)
      else first_model s m v l
  end.

Definition get_oasis_model_id (s m v : string) : M State (option Z) :=
  models ← http "/v2/models/" [("supplier_id"%string, s); ("model_id"%string, m); ("version_id"%string, v)];
  lift (py_list models ≫= first_model s m v).

(** [OasisClient.get_auto_scaling]. *)
Definition get_auto_scaling (model_id : Z) : M State json :=
  http ("/v2/models/" +:+ pretty model_id +:+ "/scaling_configuration/") [].

(** [ClusterClient.set_replicas]. *)
Definition set_replicas (name : string) (n : Z) : M State unit := λ s,
  let answer := cluster_patch (length (patches s)) name n in
  let '(_, s') := suspend (with_patch s (name, n)) in (answer, s').

Definition deref (r : ref) : M State WorkerDeployment := λ s,
  match objects (deployments s) !! r with
  | Some wd => (Ok wd, s)
  | None => (Raise (OtherError "dangling reference"), s)
  end.
Definition update (r : ref) (f : WorkerDeployment → WorkerDeployment) : M State unit :=
  modify (λ s, with_deployments s (assign (deployments s) r f)).

(** The desired number of replicas, capped by what is left of the limit; a
    [ValueError] counts as zero. *)
Definition desired_replicas (wd : WorkerDeployment) (st : ModelState) (lim : option Z) : result Z :=
  match get_desired_worker_count (auto_scaling wd) st (never_shutdown_fixed_workers c) with
  | Ok n => Ok (match lim with Some l => if l <? n then l else n | None => n end)
  | Raise (ValueError _) => Ok 0
  | Raise e => Raise e
  end.

(** Cancel the timer, collect the deployment, start a new timer of 20 s. *)
Definition schedule_cleanup (name : string) (s : State) : State :=
  let ts := match cleanup_timer s with Some h => timers s ∖ {[h]} | None => timers s end in
  let h := next_handle s in
  with_cleanup s (Some h) ({[name]} ∪ cleanup_deployments s) ({[h]} ∪ ts) (S h).

Definition keep_deployment (name : string) (s : State) : State :=
  with_cleanup s (cleanup_timer s) (cleanup_deployments s ∖ {[name]}) (timers s) (next_handle s).

Definition scale_deployment (r : ref) (st : ModelState) (lim : option Z) : M State (option Z) :=
  wd ← deref r;
  n ← lift (desired_replicas wd st lim);
  (if 0 <? n then modify (keep_deployment (wd_name wd)) else mret tt);;
  if bool_decide (replicas wd = Some n) then mret (Some n)
  else if 0 <? n then set_replicas (wd_name wd) n;; mret (Some n)
  else modify (schedule_cleanup (wd_name wd));; mret (replicas wd).

(** Fetch the scaling settings when they are missing or may be stale. *)
Definition refresh_settings (r : ref) : M State unit :=
  wd ← deref r;
  stale ← lift (
    workers_min ← (if truthy (auto_scaling wd)
                   then py_get_or (auto_scaling wd) "worker_count_min" (JInt 0)
                   else Ok (JInt 0));
    if negb (truthy (auto_scaling wd)) || bool_decide (replicas wd = Some 0) || continue_update_scaling c
    then Ok true
    else n ← py_num workers_min; Ok (0 <? n));
  if stale : bool then
    (match oasis_model_id wd with
     | Some (Zpos _) | Some (Zneg _) => mret tt
     | _ => i ← get_oasis_model_id (supplier_id wd) (model_id wd) (model_version_id wd);
            update r (λ wd, set_oasis_model_id wd i)
     end);;
    wd ← deref r;
    match oasis_model_id wd with
    | Some (Zpos _ as i) | Some (Zneg _ as i) =>
        a ← get_auto_scaling i; update r (λ wd, set_auto_scaling wd a)
    | _ => mret tt
    end
  else mret tt.

(** One round of the loop of [_scale_models]; [workers_total] is the count so
    far. A limit of zero counts as no limit. *)
Definition scale_model (workers_total : Z) (e : entry_t) : M State Z :=
  let '(_, st, r) := e in
  wd ← deref r;
  no_strategy ← lift (if truthy (auto_scaling wd)
                      then v ← py_get_or (auto_scaling wd) "scaling_strategy" JNull;
                           Ok (match v with JNull => true | _ => false end)
                      else Ok false);
  if no_strategy : bool then mret workers_total
  else
    refresh_settings r;;
    wd ← deref r;
    if truthy (auto_scaling wd) then
      let lim := match limit c with
                 | Some l => if l =? 0 then None else Some (l - workers_total)
                 | None => None
                 end in
      created ← scale_deployment r st lim;
      match created with
      | Some n => mret (workers_total + n)
      | None => raise TypeError
      end
    else mret workers_total.

Definition scale_models (l : list entry_t) : M State Z := fold_m scale_model l 0.

(** [process_queue_status_message]. *)
Definition process_queue_status_message (msg : json) : M State unit :=
  pending ← lift (parse_queued_pending msg);
  running ← lift (parse_running_analyses msg);
  s ← get_state;
  let d := deployments s in
  with_wd ← lift (filter_model_states_with_wd d (aggregate_model_states d (pending ++ running)));
  let v1 := filter_models_by_api_version d with_wd "v1" in
  let v2 := filter_models_by_api_version d with_wd "v2" in
  scale_models (clear_unprioritized_models c (v1 ++ v2));;
  mret tt.

(** The event loop between messages: a message, or one event of another task. *)
Inductive input := Message (msg : json) | Event (e : event).

Definition step (i : input) (s : State) : State :=
  match i with
  | Message msg => exec (process_queue_status_message msg) s
  | Event e => handle_event e s
  end.
End scaling.

(** The controller as [main] starts it. *)
Definition initial (d : WorkerDeployments) (i : list (list event)) : State :=
  {| deployments := d; cleanup_timer := None; cleanup_deployments := ∅; timers := ∅;
     next_handle := 0; created_tasks := []; patches := []; http_calls := 0; inbox := i |}.

(** ** Invariants of the event loop *)

(** The cache is well-formed; at most one clean-up timer is pending, the one the
    controller remembers; and while deployments wait for shutdown, it is. *)
Record loop_ok (s : State) : Prop := {
  loop_cache : cache_ok (deployments s);
  loop_timer : ∀ h, h ∈ timers s → cleanup_timer s = Some h;
  loop_pending : cleanup_deployments s ≠ ∅ → ∃ h, h ∈ timers s;
}.

Lemma initial_ok d i : cache_ok d → loop_ok (initial d i).
Proof. split; cbn; [done|set_solver|done]. Qed.

Lemma with_deployments_ok s d : loop_ok s → cache_ok d → loop_ok (with_deployments s d).
Proof. intros [H1 H2 H3] Hd. by split. Qed.
Lemma with_tasks_ok s l : loop_ok s → loop_ok (with_tasks s l).
Proof. intros [H1 H2 H3]. by split. Qed.
Lemma with_patch_ok s p : loop_ok s → loop_ok (with_patch s p).
Proof. intros [H1 H2 H3]. by split. Qed.
Lemma with_call_ok s : loop_ok s → loop_ok (with_call s).
Proof. intros [H1 H2 H3]. by split. Qed.
Lemma with_inbox_ok s i : loop_ok s → loop_ok (with_inbox s i).
Proof. intros [H1 H2 H3]. by split. Qed.
#[local] Hint Resolve with_deployments_ok with_tasks_ok with_patch_ok with_call_ok with_inbox_ok : preserves.

Lemma handle_event_ok e s : loop_ok s → loop_ok (handle_event e s).
Proof.
  intros Hs. destruct e as [dep type|h|]; cbn.
  - destruct (update_deployment_ok _ dep (Some type) (loop_cache _ Hs)) as (d & -> & Hd).
    auto with preserves.
  - case_bool_decide as Hh; [|done]. destruct Hs as [H1 H2 H3].
    unfold cleanup; cbn. case_bool_decide as Hc; split; cbn; try done; set_solver.
  - destruct (created_tasks s); auto with preserves.
Qed.

(** What every event keeps, and what does not look at the inbox, survives a
    suspension. *)
Lemma suspend_preserves (P : State → Prop) :
  (∀ e s, P s → P (handle_event e s)) → (∀ s i, P s → P (with_inbox s i)) → preserves P suspend.
Proof.
  intros He Hi s Hs. unfold suspend. destruct (inbox s) as [|batch rest]; [done|].
  assert (∀ l s, P s → P (foldl (λ s e, handle_event e s) s l)) as Hf.
  { induction l as [|e l IH]; intros s' Hs'; cbn; auto. }
  cbn. auto.
Qed.

Lemma suspend_ok : preserves loop_ok suspend.
Proof. apply suspend_preserves; auto using handle_event_ok with preserves. Qed.

Lemma schedule_cleanup_ok name s : loop_ok s → loop_ok (schedule_cleanup name s).
Proof.
  intros [H1 H2 H3]. split; cbn; [done| |intros _; exists (next_handle s); set_solver].
  intros h [->%elem_of_singleton|Hh]%elem_of_union; [done|].
  destruct (cleanup_timer s) as [h'|] eqn:E; specialize (H2 h); set_solver.
Qed.

Lemma keep_deployment_ok name s : loop_ok s → loop_ok (keep_deployment name s).
Proof.
  intros [H1 H2 H3]. split; cbn; [done|done|]. intros Hc. apply H3. set_solver.
Qed.

Section invariant.
Context (http_get : nat → string → list (string * string) → result json).
Context (cluster_patch : nat → string → Z → result unit).
Context (c : Config).

(** A request keeps what a suspension keeps. *)
Lemma http_preserves (P : State → Prop) path params :
  preserves P suspend → (∀ s, P s → P (with_call s)) → preserves P (http http_get path params).
Proof.
  intros Hs Hc s H. unfold http. specialize (Hs _ (Hc _ H)).
  destruct (suspend (with_call s)) as [[] s']; by destruct (http_get _ _ _).
Qed.

Lemma deref_preserves (P : State → Prop) r : preserves P (deref r).
Proof. intros s Hs. unfold deref. by destruct (objects _ !! r). Qed.

Lemma refresh_settings_preserves (P : State → Prop) r :
  preserves P suspend → (∀ s, P s → P (with_call s)) →
  (∀ i, preserves P (update r (λ wd, set_oasis_model_id wd i))) →
  (∀ a, preserves P (update r (λ wd, set_auto_scaling wd a))) →
  preserves P (refresh_settings http_get c r).
Proof.
  intros Hs Hc Hi Ha. unfold refresh_settings.
  assert (∀ s m v, preserves P (get_oasis_model_id http_get s m v)) as Hid.
  { intros. unfold get_oasis_model_id. auto using http_preserves with preserves. }
  apply preserves_bind; [apply deref_preserves|intros wd].
  apply preserves_bind; [auto with preserves|intros stale]. apply preserves_if; [|auto with preserves].
  apply preserves_bind; [repeat case_match; auto with preserves|intros _].
  apply preserves_bind; [apply deref_preserves|intros wd'].
  repeat case_match; try (auto with preserves);
    (apply preserves_bind; [by apply http_preserves|auto]).
Qed.

Lemma update_ok r f :
  (∀ d, cache_ok d → cache_ok (assign d r f)) → preserves loop_ok (update r f).
Proof. intros Hf. apply preserves_modify. intros s Hs. apply with_deployments_ok; [done|]. apply Hf, Hs. Qed.

Lemma set_replicas_ok name n : preserves loop_ok (set_replicas cluster_patch name n).
Proof.
  intros s Hs. unfold set_replicas.
  pose proof (suspend_ok _ (with_patch_ok s (name, n) Hs)) as H.
  destruct (suspend _) as [[] s']; by destruct (cluster_patch _ _ _).
Qed.

Lemma scale_deployment_ok r st lim : preserves loop_ok (scale_deployment cluster_patch c r st lim).
Proof.
  unfold scale_deployment. apply preserves_bind; [apply deref_preserves|intros wd].
  apply preserves_bind; [auto with preserves|intros n].
  apply preserves_bind.
  { apply preserves_if; [|auto with preserves]. apply preserves_modify. intros. by apply keep_deployment_ok. }
  intros _. repeat apply preserves_if; auto with preserves.
  - apply preserves_bind; [apply set_replicas_ok|auto with preserves].
  - apply preserves_bind; [|auto with preserves]. apply preserves_modify. intros. by apply schedule_cleanup_ok.
Qed.

Lemma scale_model_ok total e : preserves loop_ok (scale_model http_get cluster_patch c total e).
Proof.
  destruct e as [[model st] r]. cbn [scale_model].
  apply preserves_bind; [apply deref_preserves|intros wd].
  apply preserves_bind; [auto with preserves|intros b]. apply preserves_if; [auto with preserves|].
  apply preserves_bind.
  { apply refresh_settings_preserves; auto using suspend_ok with preserves;
      intros; apply update_ok; auto with oasis. }
  intros _. apply preserves_bind; [apply deref_preserves|intros wd']. apply preserves_if; [|auto with preserves].
  apply preserves_bind; [apply scale_deployment_ok|]. intros [n|]; auto with preserves.
Qed.

Lemma process_message_ok msg : preserves loop_ok (process_queue_status_message http_get cluster_patch c msg).
Proof.
  unfold process_queue_status_message.
  repeat (apply preserves_bind; [solve [auto with preserves]|intros ?]).
  apply preserves_bind; [|auto with preserves]. apply preserves_fold. intros. apply scale_model_ok.
Qed.

(** C31: in every state the controller can reach, whatever messages, cluster
    events, timer and task interleavings, API answers and API failures occur,
    the cache is well-formed, at most one clean-up timer is pending, and a
    deployment waiting for shutdown always has one pending. *)
Theorem controller_invariant deps d batches inputs :
  load_deployments no_deployments deps = Ok d →
  loop_ok (foldl (λ s i, step http_get cluster_patch c i s) (initial d batches) inputs).
Proof.
  intros Hd. destruct (load_deployments_ok _ deps no_deployments_ok) as (d' & E & Hok).
  rewrite Hd in E. simplify_eq.
  enough (∀ s, loop_ok s → loop_ok (foldl (λ s i, step http_get cluster_patch c i s) s inputs))
    as H by by apply H, initial_ok.
  induction inputs as [|[msg|e] inputs IH]; intros s Hs; cbn; [done|..]; apply IH.
  - by apply preserves_exec; [apply process_message_ok|].
  - by apply handle_event_ok.
Qed.
End invariant.

(** ** The total worker limit *)

(** The workers a list of patches asks for. *)
Definition requested (l : list (string * Z)) : Z := foldr (λ p acc, Z.max 0 p.2 + acc) 0 l.

Lemma requested_app l1 l2 : requested (l1 ++ l2) = requested l1 + requested l2.
Proof. unfold requested. induction l1 as [|p l1 IH]; cbn; [done|]. rewrite IH. lia. Qed.

(** The cluster never reports a negative number of replicas. *)
Definition event_nonneg (e : event) : Prop :=
  match e with DeploymentEvent dep _ => ∀ n, dep_replicas dep = Some n → 0 ≤ n | _ => True end.

Record env_ok (s : State) : Prop := {
  env_replicas : ∀ r wd n, objects (deployments s) !! r = Some wd → replicas wd = Some n → 0 ≤ n;
  env_inbox : Forall (Forall event_nonneg) (inbox s);
  env_tasks : Forall (λ p : string * Z, p.2 = 0) (created_tasks s);
}.

Definition replicas_nonneg (d : WorkerDeployments) : Prop :=
  ∀ r wd n, objects d !! r = Some wd → replicas wd = Some n → 0 ≤ n.

Lemma assign_nonneg d r f :
  (∀ wd n, replicas (f wd) = Some n → replicas wd = Some n ∨ 0 ≤ n) →
  replicas_nonneg d → replicas_nonneg (assign d r f).
Proof.
  intros Hf Hd r' wd n. cbn. rewrite lookup_alter. case_decide as E; [subst r'|apply Hd].
  destruct (objects d !! r) as [wd'|] eqn:E'; [|done]. cbn.
  intros [= <-] Hn. destruct (Hf _ _ Hn); [by eapply Hd|done].
Qed.

Lemma update_deployment_nonneg d dep type d' :
  (∀ n, dep_replicas dep = Some n → 0 ≤ n) → replicas_nonneg d →
  update_deployment d dep type = Ok d' → replicas_nonneg d'.
Proof.
  intros Hn Hd. unfold update_deployment. case_bool_decide; [by intros [= <-]|].
  unfold update_worker. intros ([r|] & _ & [= <-])%bind_Ok.
  - apply assign_nonneg; [|done]. intros wd n Hr. right. by apply Hn.
  - intros r wd n. cbn. rewrite lookup_insert. case_decide; [|apply Hd].
    intros [= <-] Hr. by apply Hn.
Qed.

(** Since [patches] was [L], the pass has asked for at most [b] workers. *)
Definition asked (L : list (string * Z)) (b : Z) (s : State) : Prop :=
  env_ok s ∧ ∃ new, patches s = L ++ new ∧ requested new ≤ b.

Lemma asked_le L b b' s : asked L b s → b ≤ b' → asked L b' s.
Proof. intros (? & new & ? & ?) ?. split; [done|]. exists new. split; [done|lia]. Qed.

Lemma handle_event_asked L b e s : event_nonneg e → asked L b s → asked L b (handle_event e s).
Proof.
  intros He ([Hr Hi Ht] & new & Hp & Hb). destruct e as [dep type|h|]; cbn.
  - destruct (update_deployment _ _ _) as [d|] eqn:E; [|by split; [|eauto]].
    split; [|by exists new]. split; cbn; [|done..]. by eapply update_deployment_nonneg.
  - case_bool_decide; [|by split; [|eauto]]. unfold cleanup; cbn.
    case_bool_decide; (split; [|by exists new]); split; cbn; try done.
    apply Forall_app_2; [done|]. apply Forall_fmap, Forall_true. done.
  - destruct (created_tasks s) as [|p rest] eqn:E; [by split; [split|eauto]; rewrite ?E|].
    apply Forall_cons in Ht as [Hp0 Ht]. split; [by split|].
    exists (new ++ [p]). cbn. rewrite Hp, (assoc_L (++)), requested_app. cbn. split; [done|].
    rewrite Hp0. lia.
Qed.

Lemma suspend_asked L b : preserves (asked L b) suspend.
Proof.
  intros s (Hs & new & Hp & Hb). unfold suspend. destruct (inbox s) as [|batch rest] eqn:Hi; [by split; eauto|].
  assert (Forall event_nonneg batch ∧ Forall (Forall event_nonneg) rest) as [Hbatch Hrest].
  { apply Forall_cons. rewrite <- Hi. apply Hs. }
  assert (asked L b (with_inbox s rest)) as H0.
  { split; [|by exists new]. destruct Hs. by split. }
  clear -Hbatch H0. revert H0. generalize (with_inbox s rest).
  induction Hbatch as [|e l He _ IH]; intros s' Hs'; [done|]. apply IH, handle_event_asked; done.
Qed.

Section limit.
Context (http_get : nat → string → list (string * string) → result json).
Context (cluster_patch : nat → string → Z → result unit).
Context (c : Config) (l : Z).
Context (Hlimit : limit c = Some l) (Hl : l ≠ 0).

(** While [total] workers are accounted for, at most [total] were asked for,
    and never more than the limit. *)
Let within L (total : Z) (s : State) : Prop :=
  asked L (Z.max 0 (Z.min total l)) s ∧ 0 ≤ total.

Lemma update_asked L b r f :
  (∀ wd n, replicas (f wd) = Some n → replicas wd = Some n ∨ 0 ≤ n) →
  preserves (asked L b) (update r f).
Proof.
  intros Hf. apply preserves_modify. intros s ([Hr Hi Ht] & Hp). split; [|done]. split; [|done..].
  cbn. by apply assign_nonneg.
Qed.

Lemma set_replicas_asked L b name n :
  hoare (asked L b) (set_replicas cluster_patch name n)
    (λ _, asked L (b + Z.max 0 n)) (asked L (b + Z.max 0 n)).
Proof.
  intros s ([Hr Hi Ht] & new & Hp & Hb). unfold set_replicas.
  assert (asked L (b + Z.max 0 n) (with_patch s (name, n))) as H.
  { split; [by split|]. exists (new ++ [(name, n)]). cbn.
    rewrite Hp, (assoc_L (++)), requested_app. cbn. split; [done|lia]. }
  apply suspend_asked in H. destruct (suspend _) as [[] s']; by destruct (cluster_patch _ _ _).
Qed.

Lemma desired_replicas_le wd st lim n :
  desired_replicas c wd st (Some lim) = Ok n → n ≤ Z.max 0 lim.
Proof.
  unfold desired_replicas. repeat case_match; intros; simplify_eq; try lia;
    match goal with H : (_ <? _) = _ |- _ => first [apply Z.ltb_lt in H|apply Z.ltb_ge in H] end; lia.
Qed.

Lemma scale_deployment_within L total r st :
  0 ≤ total →
  hoare (within L total) (scale_deployment cluster_patch c r st (Some (l - total)))
    (λ o s, match o with Some n => 0 ≤ n ∧ within L (total + n) s | None => asked L (Z.max 0 l) s end)
    (asked L (Z.max 0 l)).
Proof.
  intros Htot s [Hs _]. unfold scale_deployment. cbn. unfold mbind, M_bind, deref.
  destruct (objects (deployments s) !! r) as [wd|] eqn:Hwd; [|eapply asked_le; [done|lia]].
  unfold lift. destruct (desired_replicas c wd st (Some (l - total))) as [n|e] eqn:Hn; [|eapply asked_le; [done|lia]].
  apply desired_replicas_le in Hn.
  assert (∀ k, replicas wd = Some k → 0 ≤ k) as Hk by (intros k; apply (env_replicas _ (proj1 Hs) r wd k Hwd)).
  assert (∀ f, (∀ s, patches (f s) = patches s ∧ deployments (f s) = deployments s ∧ inbox (f s) = inbox s ∧
     created_tasks (f s) = created_tasks s) → asked L (Z.max 0 (Z.min total l)) (f s)) as Hf.
  { intros f Hf. destruct (Hf s) as (E1 & E2 & E3 & E4). destruct Hs as ([H1 H2 H3] & new & Hp & Hb).
    split; [split; [by rewrite E2|by rewrite E3|by rewrite E4]|exists new; by rewrite E1]. }
  destruct (0 <? n) eqn:Hpos; cbn.
  - apply Z.ltb_lt in Hpos. specialize (Hf (keep_deployment (wd_name wd)) ltac:(done)).
    case_bool_decide; cbn.
    + split; [lia|]. split; [|lia]. eapply asked_le; [done|lia].
    + pose proof (set_replicas_asked L _ (wd_name wd) n _ Hf) as H'.
      destruct (set_replicas _ _ _ _) as [[[]|] s']; cbn; [split; [lia|split; [|lia]]|];
        (eapply asked_le; [done|lia]).
  - apply Z.ltb_ge in Hpos. case_bool_decide as E; cbn.
    + pose proof (Hk _ E). split; [lia|]. split; [|lia]. eapply asked_le; [done|lia].
    + specialize (Hf (schedule_cleanup (wd_name wd)) ltac:(done)).
      destruct (replicas wd) as [k|]; [pose proof (Hk k eq_refl); split; [lia|split; [|lia]]|];
        (eapply asked_le; [done|lia]).
Qed.


Lemma within_asked L total s : within L total s → asked L (Z.max 0 l) s.
Proof. intros [H _]. eapply asked_le; [done|lia]. Qed.

Lemma within_preserves {A} L total (m : M State A) :
  (∀ b, preserves (asked L b) m) → hoare (within L total) m (λ _, within L total) (asked L (Z.max 0 l)).
Proof.
  intros Hm s Hs. pose proof (within_asked _ _ _ Hs) as Hl'. destruct Hs as [Hs ?].
  pose proof (Hm _ _ Hs) as H'. pose proof (Hm _ _ Hl') as H''.
  destruct (m s) as [[a|e] s']; [by split|done].
Qed.

Lemma refresh_settings_asked L b r : preserves (asked L b) (refresh_settings http_get c r).
Proof.
  apply refresh_settings_preserves.
  - apply suspend_asked.
  - intros s ([H1 H2 H3] & Hp). by split.
  - intros i. apply update_asked. auto.
  - intros a. apply update_asked. auto.
Qed.

Lemma scale_model_within L total e :
  hoare (within L total) (scale_model http_get cluster_patch c total e) (within L) (asked L (Z.max 0 l)).
Proof.
  destruct e as [[model st] r]. cbn [scale_model].
  assert (∀ B (m : M State B) f, (∀ b, preserves (asked L b) m) →
    (∀ a, hoare (within L total) (f a) (within L) (asked L (Z.max 0 l))) →
    hoare (within L total) (m ≫= f) (within L) (asked L (Z.max 0 l))) as Hstep.
  { intros. eapply hoare_bind; [by apply within_preserves|done]. }
  assert (hoare (within L total) (mret total) (within L) (asked L (Z.max 0 l))) as Hskip
    by (by apply hoare_ret).
  apply Hstep; [intros; apply deref_preserves|intros wd].
  apply Hstep; [auto with preserves|intros []]; [done|].
  apply Hstep; [intros; apply refresh_settings_asked|intros _].
  apply Hstep; [intros; apply deref_preserves|intros wd'].
  destruct (truthy _); [|done]. rewrite Hlimit. destruct (Z.eqb_spec l 0); [done|].
  apply hoare_start. intros s0 Hs0. pose proof (proj2 Hs0) as Htot.
  eapply hoare_weaken with (P' := within L total); [|by intros ? ->|done|done].
  eapply hoare_bind; [by apply scale_deployment_within|].
  intros [k|]; [apply hoare_ret; by intros s [? ?]|by apply hoare_raise].
Qed.

Lemma scale_models_within L entries :
  hoare (within L 0) (scale_models http_get cluster_patch c entries) (within L) (asked L (Z.max 0 l)).
Proof. apply hoare_fold; [intros; apply scale_model_within|intros b s; apply within_asked]. Qed.

(** C35: the total limit. Handling a message, with any interleaving of the
    other tasks and any outcome, sends patches that together ask for at most
    [l] workers when a limit [l] other than zero is configured. *)
Theorem limit_respected msg s s' res :
  env_ok s →
  process_queue_status_message http_get cluster_patch c msg s = (res, s') →
  ∃ new, patches s' = patches s ++ new ∧ requested new ≤ Z.max 0 l.
Proof.
  intros Hs Hrun.
  enough (hoare (within (patches s) 0) (process_queue_status_message http_get cluster_patch c msg)
    (λ _, asked (patches s) (Z.max 0 l)) (asked (patches s) (Z.max 0 l))) as H.
  { assert (within (patches s) 0 s) as Hw.
    { split; [split; [done|]|done]. exists []. rewrite app_nil_r. split; [done|cbn; lia]. }
    specialize (H _ Hw). rewrite Hrun in H. by destruct res; destruct H. }
  unfold process_queue_status_message.
  repeat (eapply hoare_bind; [apply within_preserves; solve [auto with preserves]|intros ?]).
  eapply hoare_bind with (R := λ _, asked (patches s) (Z.max 0 l)).
  { eapply hoare_weaken; [apply (scale_models_within (patches s))|done|intros ? ?; apply within_asked|done]. }
  intros _. by apply hoare_ret.
Qed.
End limit.

(** ** Shutting down idle deployments *)

(** No shutdown is lost. In a state of the event loop where a deployment
    waits for shutdown, the one pending timer is there, and when it fires the
    loop has a task that scales that deployment to zero, nothing waits any
    more and no timer is pending. *)
Theorem shutdown_happens s name :
  loop_ok s → name ∈ cleanup_deployments s →
  ∃ h, timers s = {[h]} ∧
    let s' := handle_event (TimerFires h) s in
    (name, 0) ∈ created_tasks s' ∧ cleanup_deployments s' = ∅ ∧ timers s' = ∅.
Proof.
  intros [_ Ht Hp] Hname. destruct Hp as [h Hh]; [set_solver|].
  assert (timers s = {[h]}) as E.
  { apply set_eq. intros h'. split; [|set_solver]. intros Hh'.
    pose proof (Ht _ Hh). pose proof (Ht _ Hh'). apply elem_of_singleton. congruence. }
  exists h. split; [done|]. cbn. rewrite bool_decide_eq_true_2 by done.
  unfold cleanup; cbn. rewrite bool_decide_eq_false_2 by set_solver. cbn. split_and!; [|done|set_solver].
  apply elem_of_app. right. apply list_elem_of_fmap. exists name. split; [done|]. by apply elem_of_elements.
Qed.
Lemma handle_event_cleanup e s name :
  name ∉ cleanup_deployments s → name ∉ cleanup_deployments (handle_event e s).
Proof.
  intros Hn. destruct e as [dep type|h|]; cbn.
  - by destruct (update_deployment _ _ _).
  - case_bool_decide; [|done]. unfold cleanup; cbn. case_bool_decide; cbn; set_solver.
  - by destruct (created_tasks s).
Qed.

Section shutdown.
Context (cluster_patch : nat → string → Z → result unit).
Context (c : Config).

(** Demand cancels a pending shutdown. When the rules ask for workers for
    a deployment, it no longer waits for shutdown once its scaling step is
    over, whatever happened during the step. *)
Theorem demand_cancels_shutdown r wd st lim s n :
  objects (deployments s) !! r = Some wd →
  desired_replicas c wd st lim = Ok n → 0 < n →
  wd_name wd ∉ cleanup_deployments (exec (scale_deployment cluster_patch c r st lim) s).
Proof.
  intros Hwd Hn Hpos. unfold exec, scale_deployment. cbn. unfold mbind, M_bind, deref, lift.
  rewrite Hwd, Hn. rewrite (proj2 (Z.ltb_lt _ _) Hpos). cbn.
  assert (wd_name wd ∉ cleanup_deployments (keep_deployment (wd_name wd) s)) as Hk by (cbn; set_solver).
  case_bool_decide; [done|]. unfold set_replicas.
  pose proof (suspend_preserves (λ s, wd_name wd ∉ cleanup_deployments s)
    (λ e s, handle_event_cleanup e s _) ltac:(done)
    (with_patch (keep_deployment (wd_name wd) s) (wd_name wd, n)) Hk) as H'.
  destruct (suspend _) as [[] s']; by destruct (cluster_patch _ _ _).
Qed.

End shutdown.

(** ** A concrete controller *)

(** The API answers with one model and its scaling options. *)
Definition api_answers (o : ModelScalingOptions) (n : nat) (path : string) (params : list (string * string)) : result json :=
  if String.eqb path "/v2/models/"
  then Ok (JList [JObj [("id"%string, JInt 3); ("supplier_id"%string, JStr "OasisLMF");
                        ("model_id"%string, JStr "PiWind"); ("version_id"%string, JStr "1")]])
  else Ok (encode_options o).
Definition cluster_accepts (n : nat) (name : string) (k : Z) : result unit := Ok tt.

(** One running analysis with [n] tasks on the V2 queue of the model. *)
Definition running_message (n : Z) : json :=
  let analysis := JObj [("id"%string, JInt 11); ("sub_task_count"%string, JInt n); ("priority"%string, JInt 4);
    ("status_count"%string, JObj [("TOTAL_IN_QUEUE"%string, JInt n)]);
    ("queue_names"%string, JList [JStr "OasisLMF-PiWind-1-v2"])] in
  JObj [("content"%string, JList [JObj [
    ("queue"%string, JObj [("name"%string, JStr "OasisLMF-PiWind-1-v2")]);
    ("analyses"%string, JList [JObj [("analysis"%string, analysis)]])]])].
Definition idle_message : json := JObj [("content"%string, JList [])].

Definition config_with (l : option Z) : Config :=
  {| prioritized_models_limit := None; limit := l; continue_update_scaling := false;
     never_shutdown_fixed_workers := false |}.

Definition piwind_controller : State := initial piwind_cache [].

Definition handle_message (l : option Z) (msg : json) (s : State) : result unit * State :=
  process_queue_status_message (api_answers dynamic_options) cluster_accepts (config_with l) msg s.

Example scales_up :
  patches (handle_message None (running_message 12) piwind_controller).2 = [("worker-oasislmf-piwind-1"%string, 3)].
Proof. vm_compute. reflexivity. Qed.

Lemma controller_invariant_witness :
  loop_ok (foldl (λ s i, step (api_answers dynamic_options) cluster_accepts (config_with None) i s)
    (initial piwind_cache [[TaskRuns]]) [Message (running_message 12); Message idle_message; Event (TimerFires 0)]).
Proof.
  apply (controller_invariant (api_answers dynamic_options) cluster_accepts (config_with None)
           [piwind_deployment "1"; piwind_deployment "1.0-rc1"]).
  vm_compute. reflexivity.
Defined.

Lemma piwind_env_ok : env_ok piwind_controller.
Proof.
  assert (map_Forall (λ _ wd, replicas wd = Some 0) (objects piwind_cache)) as H
    by (apply (bool_decide_unpack _); vm_compute; exact I).
  split; cbn; [|constructor..].
  intros r wd n Hr Hn. specialize (H _ _ Hr). cbn in H. rewrite H in Hn. by simplify_eq.
Qed.

Lemma limit_respected_witness :
  let s' := (handle_message (Some 2) (running_message 12) piwind_controller).2 in
  ∃ new, patches s' = [] ++ new ∧ new ≠ [] ∧ requested new ≤ Z.max 0 2.
Proof.
  destruct (limit_respected (api_answers dynamic_options) cluster_accepts (config_with (Some 2)) 2 eq_refl
    ltac:(lia) (running_message 12) piwind_controller
    (handle_message (Some 2) (running_message 12) piwind_controller).2 (Ok tt) piwind_env_ok)
    as (new & Hp & Hr); [vm_compute; reflexivity|].
  exists new. split; [exact Hp|]. split; [|exact Hr].
  intros ->. vm_compute in Hp. discriminate.
Defined.

Definition working_deployment : WorkerDeployment :=
  set_auto_scaling (set_oasis_model_id (piwind_object "1") (Some 3)) (encode_options dynamic_options).
Definition waiting_state : State :=
  schedule_cleanup "worker-oasislmf-piwind-1"
    (initial (assign (assign piwind_cache 0%nat (λ wd, set_oasis_model_id wd (Some 3))) 0%nat
       (λ wd, set_auto_scaling wd (encode_options dynamic_options))) []).

Lemma demand_cancels_shutdown_witness :
  "worker-oasislmf-piwind-1"%string ∈ cleanup_deployments waiting_state ∧
  "worker-oasislmf-piwind-1"%string ∉ cleanup_deployments
    (exec (scale_deployment cluster_accepts (config_with None) 0%nat {| tasks := 12; analyses := 1; priority := 4 |} None)
       waiting_state).
Proof.
  split; [vm_compute; set_solver|].
  apply (demand_cancels_shutdown cluster_accepts (config_with None) 0%nat working_deployment _ None waiting_state 3);
    [vm_compute; reflexivity|vm_compute; reflexivity|lia].
Defined.

Lemma waiting_state_ok : loop_ok waiting_state.
Proof.
  apply schedule_cleanup_ok. split; cbn; [|set_solver|done].
  pose proof (set_oasis_model_id_assign_ok piwind_cache 0%nat (Some 3) piwind_cache_ok) as H.
  by apply (set_auto_scaling_assign_ok _ 0%nat (encode_options dynamic_options)) in H.
Qed.

Lemma shutdown_happens_witness :
  ∃ h, timers waiting_state = {[h]} ∧
    ("worker-oasislmf-piwind-1"%string, 0) ∈ created_tasks (handle_event (TimerFires h) waiting_state).
Proof.
  destruct (shutdown_happens waiting_state "worker-oasislmf-piwind-1" waiting_state_ok) as (h & Hh & Ht & _).
  - vm_compute. set_solver.
  - exists h. split; [exact Hh|exact Ht].
Defined.

(** A configured total limit of zero is no limit: the controller asks for
    the three workers the message calls for. *)
Theorem limit_zero_is_no_limit :
  limit (config_with (Some 0)) = Some 0 ∧
  patches (handle_message (Some 0) (running_message 12) piwind_controller).2
    = [("worker-oasislmf-piwind-1"%string, 3)].
Proof. split; vm_compute; reflexivity. Qed.
