(* ===== verification/Groups.v ===== *)
(** * Group based access control

    src/server/oasisapi/permissions/group_auth.py: which groups a user may give
    an object, who may see and who may modify an object, and the substitution of
    a system user for anonymous requests. A group is its name, which Django
    keeps unique. *)

From S2P Require Import Prelude.

Record User := {
  user_id : nat;
  username : string;
  is_superuser : bool;
  is_staff : bool;
  user_groups : list string;
}.

Definition privileged (u : User) : bool := is_superuser u || is_staff u.

(** ** The groups of an object *)

(** [get_group_names]. *)
Definition get_group_names (groups : list string) : gset string := list_to_set groups.

Definition groups_error (field msg : string) : exn :=
  ValidationError (DetailDict {[field := [msg]]}).

(** [None] is a request without the groups attribute. *)
Definition verify_and_get_groups (u : User) (groups : option (list string)) : result (list string) :=
  match groups with
  | None => Ok (user_groups u)
  | Some [] =>
      if (length (user_groups u) =? 0)%nat then Ok []
      else if privileged u then Ok []
      else Raise (groups_error "groups" "user is required to specify groups")
  | Some gs =>
      if privileged u then Ok gs
      else
        let group_names := get_group_names gs in
        let user_not_in_groups := group_names ∖ get_group_names (user_groups u) in
        if bool_decide (user_not_in_groups ≠ ∅)
           && (size user_not_in_groups =? size group_names)%nat
        then Raise (groups_error "groups" "user is not member of group(s)")
        else Ok (filter (λ g, g ∉ user_not_in_groups) gs)
  end.

(** The [groups] entry of the validated attributes: [validate_and_update_groups]
    replaces it, except in a partial update that does not give it. *)
Definition validate_and_update_groups (partial : bool) (u : User) (attr : option (list string))
    : result (option (list string)) :=
  match partial, attr with
  | true, None => Ok None
  | _, _ => Some <$> verify_and_get_groups u attr
  end.

(** A data file, with its groups. *)
Record DataFile := { data_file_id : nat; data_file_groups : list string }.

Fixpoint validate_data_files (u : User) (files : list DataFile) : result unit :=
  match files with
  | [] => Ok tt
  | f :: files =>
      match verify_and_get_groups u (Some (data_file_groups f)) with
      | Ok _ => validate_data_files u files
      | Raise (ValidationError _) =>
          Raise (groups_error "data_files" ("You are not allowed to use data file " +:+ pretty (data_file_id f)))
      | Raise e => Raise e
      end
  end.

(** ** Permissions *)

(** [None]: an object without a [groups] attribute. *)
Definition validate_user_is_owner (u : User) (obj_groups : option (list string)) : bool :=
  if privileged u then true
  else match obj_groups with
       | None => true
       | Some gs =>
           let instance_groups : gset string := list_to_set gs in
           if (0 <? size instance_groups)%nat then
             negb (size (instance_groups ∖ list_to_set (user_groups u)) =? size instance_groups)%nat
           else true
       end.

Definition verify_user_is_in_obj_groups (u : User) (obj_groups : option (list string)) (message : string) : result unit :=
  if validate_user_is_owner u obj_groups then Ok tt else Raise (PermissionDenied message).

(** An object of a protected view: its groups (those of its parent object when
    the view names a sub-model attribute). [None] is an object, or a parent,
    that is not there. *)
Definition has_permission (u : User) (pk : option nat) (lookup : nat → option (option (list string))) : bool :=
  if is_superuser u then true
  else match pk with
       | Some pk => match lookup pk with
                    | Some gs => validate_user_is_owner u gs
                    | None => true
                    end
       | None => true
       end.

Inductive permission := ClassPermission | GroupWritePermission.

(** [get_permissions]: the write permission is added to every method but the
    whitelisted GET. *)
Definition get_permissions (group_access : bool) (method : string) : list permission :=
  if group_access && negb (String.eqb method "GET") then [ClassPermission; GroupWritePermission]
  else [ClassPermission].

(** ** Visibility: [VerifyGroupAccessModelViewSet.get_queryset] *)

(** An object shares a group with the user. *)
Definition shares_group (u : User) (gs : list string) : bool :=
  existsb (λ g, bool_decide (g ∈ gs)) (user_groups u).

(** The filter on objects that own their groups. *)
Definition own_filter (u : User) (gs : list string) : bool :=
  if is_superuser u then true
  else if (length (user_groups u) =? 0)%nat then bool_decide (gs = [])
  else shares_group u gs.

(** The filter on the parents, for objects whose parent owns the groups. *)
Definition parent_filter (u : User) (gs : list string) : bool :=
  if is_superuser u then true
  else if (length (user_groups u) =? 0)%nat then bool_decide (gs = [])
  else bool_decide (gs = []) || shares_group u gs.

(** Objects are keys with their groups; children are keys with their parent's. *)
Definition get_queryset (u : User) (objs : list (nat * list string)) : list (nat * list string) :=
  List.filter (λ o, own_filter u o.2) objs.

Definition get_sub_queryset (u : User) (parents : list (nat * list string)) (children : list (nat * nat))
    : list (nat * nat) :=
  if is_superuser u then children
  else
    let user_sub_models := List.filter (λ p, parent_filter u p.2) parents in
    List.filter (λ c, bool_decide (c.2 ∈ user_sub_models.*1)) children.

(** [create_missing_groups]. *)
Definition create_missing_groups (u : User) (requested existing : list string) : list string :=
  if privileged u
  then foldl (λ gs g, if bool_decide (g ∈ gs) then gs else gs ++ [g]) existing requested
  else existing.

(** ** The system user *)

Record UserDb := { users : list User; system_user_cache : option User; next_user_id : nat }.

Definition find_superuser (us : list User) : option User := List.find is_superuser us.

Definition get_or_create_system_user (db : UserDb) : User * UserDb :=
  match system_user_cache db with
  | Some u => (u, db)
  | None =>
      match find_superuser (users db) with
      | Some u => (u, {| users := users db; system_user_cache := Some u; next_user_id := next_user_id db |})
      | None =>
          let u := {| user_id := next_user_id db; username := "admin"; is_superuser := true;
                      is_staff := true; user_groups := [] |} in
          (u, {| users := users db ++ [u]; system_user_cache := Some u; next_user_id := S (next_user_id db) |})
      end
  end.

(** [None] is Django's [AnonymousUser]. *)
Definition resolve_user (user : option User) (db : UserDb) : User * UserDb :=
  match user with
  | Some u => (u, db)
  | None => get_or_create_system_user db
  end.

(** ** Properties *)

Lemma size_difference_all (X Y : gset string) :
  (size (X ∖ Y) =? size X)%nat = bool_decide (X ## Y).
Proof.
  apply eq_true_iff_eq. rewrite Nat.eqb_eq, bool_decide_eq_true. split.
  - intros Hs x Hx Hy.
    assert (size (X ∖ Y) < size X)%nat; [|lia].
    apply subset_size. set_solver.
  - intros Hd. f_equal. set_solver.
Qed.

(** What the group check of a create or update grants. For an ordinary
    user and a non-empty list of groups it fails exactly when the user is in
    none of them, and otherwise keeps, in order, the requested groups the user
    is in: a user never puts an object into a group of others. *)
Theorem verify_groups_spec u gs :
  privileged u = false → gs ≠ [] →
  match verify_and_get_groups u (Some gs) with
  | Ok kept => kept = filter (λ g, g ∈ user_groups u) gs ∧ kept ≠ []
  | Raise e => e = groups_error "groups" "user is not member of group(s)" ∧ ∀ g, g ∈ gs → g ∉ user_groups u
  end.
Proof.
  intros Hp Hne. destruct gs as [|g0 gs']; [done|]. unfold verify_and_get_groups, get_group_names.
  set (gs := g0 :: gs') in *. rewrite Hp.
  assert (g0 ∈ gs) as Hg0 by (unfold gs; left).
  rewrite size_difference_all.
  destruct (decide ((list_to_set gs : gset string) ## list_to_set (user_groups u))) as [Hd|Hd].
  - rewrite bool_decide_eq_true_2; [|set_solver]. rewrite bool_decide_eq_true_2 by done. cbn.
    split; [done|]. set_solver.
  - rewrite (bool_decide_eq_false_2 (_ ## _)) by done. rewrite andb_false_r.
    assert (filter (λ g, g ∉ (list_to_set gs : gset string) ∖ list_to_set (user_groups u)) gs
      = filter (λ g, g ∈ user_groups u) gs) as ->.
    { apply list_filter_ext. intros g Hg. rewrite not_elem_of_difference, !elem_of_list_to_set. tauto. }
    split; [done|]. intros Hnil. apply Hd. intros g Hg Hu. apply elem_of_list_to_set in Hg, Hu.
    assert (g ∈ filter (λ g, g ∈ user_groups u) gs) as H by (by apply list_elem_of_filter).
    rewrite Hnil in H. set_solver.
Qed.

Definition ann : User :=
  {| user_id := 4; username := "ann"; is_superuser := false; is_staff := false; user_groups := ["uk"; "eu"] |}%string.

Lemma verify_groups_spec_witness :
  verify_and_get_groups ann (Some ["us"; "eu"]%string) = Ok ["eu"%string] ∧ ["eu"%string] ≠ [].
Proof.
  pose proof (verify_groups_spec ann ["us"; "eu"]%string eq_refl ltac:(discriminate)) as H.
  vm_compute in H |- *. split; [reflexivity|apply H].
Defined.

(** Ownership of an ordinary user: the object has no groups, or shares one. *)
Lemma owner_spec u gs :
  privileged u = false →
  validate_user_is_owner u (Some gs) = bool_decide (gs = []) || shares_group u gs.
Proof.
  intros Hp. unfold validate_user_is_owner. rewrite Hp, size_difference_all.
  assert (shares_group u gs = negb (bool_decide ((list_to_set gs : gset string) ## list_to_set (user_groups u)))) as ->.
  { apply eq_true_iff_eq. unfold shares_group.
    rewrite existsb_exists, negb_true_iff, bool_decide_eq_false. split.
    - intros (g & Hg & Hgs%bool_decide_eq_true) Hd. apply list_elem_of_In in Hg. apply (Hd g); set_solver.
    - intros Hd. destruct (set_choose_L ((list_to_set gs : gset string) ∩ list_to_set (user_groups u)))
        as [g Hg]; [set_solver|]. exists g. rewrite <- list_elem_of_In, bool_decide_eq_true. set_solver. }
  destruct gs as [|g gs]; [done|]. rewrite (bool_decide_eq_false_2 (_ = [])) by done. cbn [orb].
  replace (0 <? _)%nat with true; [done|]. symmetry. apply Nat.ltb_lt.
  enough (size (list_to_set (g :: gs) : gset string) ≠ 0) by lia.
  rewrite size_empty_iff. set_solver.
Qed.

(** No object is readable but protected. Whoever sees an object in a
    view (as an owner of its groups, or through its parent's) passes the write
    permission of that object: membership alone decides both. *)
Theorem visible_is_writable u gs :
  own_filter u gs = true ∨ parent_filter u gs = true →
  ∀ pk lookup, lookup pk = Some (Some gs) → has_permission u (Some pk) lookup = true.
Proof.
  intros Hv pk lookup Hl. unfold has_permission, own_filter, parent_filter in *.
  destruct (is_superuser u) eqn:Hs; [done|]. rewrite Hl.
  destruct (privileged u) eqn:Hp; [unfold validate_user_is_owner; by rewrite Hp|].
  rewrite owner_spec by done. destruct (_ =? 0)%nat; [by destruct Hv as [->| ->]|].
  apply orb_true_iff. destruct Hv as [H|H]; [auto|by apply orb_true_iff in H].
Qed.

Lemma visible_is_writable_witness :
  has_permission ann (Some 1%nat) (λ _, Some (Some ["eu"%string])) = true.
Proof.
  apply (visible_is_writable ann ["eu"%string]); [left; vm_compute; reflexivity|reflexivity].
Defined.

(** The children a user sees are those of the parents the user sees. *)
Lemma sub_queryset_spec u parents children k p :
  NoDup parents.*1 → (k, p) ∈ children → 
  (k, p) ∈ get_sub_queryset u parents children ↔
    is_superuser u = true ∨ ∃ gs, (p, gs) ∈ parents ∧ parent_filter u gs = true.
Proof.
  intros Hnd Hk. unfold get_sub_queryset. destruct (is_superuser u) eqn:Hs; [tauto|].
  rewrite list_elem_of_In, filter_In, <- list_elem_of_In, bool_decide_eq_true. cbn.
  rewrite list_elem_of_fmap. split.
  - intros [_ ([p' gs] & -> & Hin)]. right. exists gs. rewrite list_elem_of_In, filter_In in Hin.
    rewrite list_elem_of_In. done.
  - intros [|(gs & Hin & Hf)]; [done|]. split; [done|]. exists (p, gs). split; [done|].
    rewrite list_elem_of_In, filter_In, <- list_elem_of_In. done.
Qed.

(** The system user. Whatever users exist, resolving an anonymous request
    gives a superuser, adds at most one user and only if there was no superuser,
    and a second request gets the same user and changes nothing. *)
Theorem system_user_stable db :
  (∀ u, system_user_cache db = Some u → is_superuser u = true) →
  let '(u, db') := resolve_user None db in
  is_superuser u = true
  ∧ resolve_user None db' = (u, db')
  ∧ (users db' = users db ∨ (find_superuser (users db) = None ∧ users db' = users db ++ [u])).
Proof.
  intros Hc. cbn. unfold get_or_create_system_user.
  destruct (system_user_cache db) as [u|] eqn:E; [rewrite E; auto|].
  destruct (find_superuser (users db)) as [u|] eqn:F; cbn; [|auto].
  split; [|auto]. unfold find_superuser in F. by apply find_some in F as [_ ?].
Qed.

Lemma system_user_stable_witness :
  is_superuser (resolve_user None {| users := [ann]; system_user_cache := None; next_user_id := 5 |}).1 = true.
Proof.
  apply (system_user_stable {| users := [ann]; system_user_cache := None; next_user_id := 5 |}).
  discriminate.
Defined.
