(* ===== verification/ModelRegistry.v ===== *)
(** * The registry of analysis models

    [AnalysisModel] of analysis_models/models.py with its logical delete and its
    post-save defaults, the endpoint that creates or restores a model
    (analysis_models/v2_api/viewsets.py), the JSON settings file attached to a
    model (files/v1_api/views.py) and the registration a worker sends when it
    starts ([run_register_worker] of analyses/v1_api/tasks.py and
    [run_register_worker_v2] of analyses/v2_api/tasks.py).

    A run works on the database and on one model instance in memory ([self]):
    [self] is what the Python object holds, the row what was last saved. The
    validation of a settings document against its JSON schema and the file
    storage are outside: [validate] and [store]. *)

From S2P Require Import Prelude PyData ModelOptions Groups.
Local Open Scope Z_scope.

(** ** Data *)

(** The columns of a model. [oasislmf_config] is the document whose JSON text
    the column holds; the version columns hold what the worker sent. *)
Record AnalysisModel := {
  supplier_id : string;
  model_id : string;
  version_id : string;
  resource_file : option Z;
  creator : User;
  ver_ktools : json;
  ver_oasislmf : json;
  ver_platform : json;
  ver_ods : json;
  ver_oed : json;
  oasislmf_config : option json;
  deleted : bool;
  run_mode : option string;
  scaling_options : option Z;
  chunking_options : option Z;
}.

Definition key_t : Type := string * string * string.
Definition key (m : AnalysisModel) : key_t := (supplier_id m, model_id m, version_id m).

Definition new_model (k : key_t) (u : User) : AnalysisModel := {|
  supplier_id := k.1.1; model_id := k.1.2; version_id := k.2;
  resource_file := None; creator := u;
  ver_ktools := JNull; ver_oasislmf := JNull; ver_platform := JNull; ver_ods := JNull; ver_oed := JNull;
  oasislmf_config := None; deleted := false; run_mode := None;
  scaling_options := None; chunking_options := None |}.

#[export] Instance AnalysisModel_settable : Settable AnalysisModel := λ m, {|
  supplier_id := supplier_id m; model_id := model_id m; version_id := version_id m;
  resource_file := resource_file m; creator := creator m;
  ver_ktools := ver_ktools m; ver_oasislmf := ver_oasislmf m; ver_platform := ver_platform m;
  ver_ods := ver_ods m; ver_oed := ver_oed m; oasislmf_config := oasislmf_config m;
  deleted := deleted m; run_mode := run_mode m;
  scaling_options := scaling_options m; chunking_options := chunking_options m |}.

Definition with_resource_file (m : AnalysisModel) (f : option Z) : AnalysisModel := m <| resource_file := f |>.
Definition with_deleted (m : AnalysisModel) (d : bool) (u : User) : AnalysisModel :=
  m <| deleted := d |> <| creator := u |>.
Definition with_run_mode (m : AnalysisModel) (r : option string) : AnalysisModel := m <| run_mode := r |>.
Definition with_options (m : AnalysisModel) (s c : option Z) : AnalysisModel :=
  m <| scaling_options := s |> <| chunking_options := c |>.

(** A stored settings file: its document and the groups that may touch it. *)
Record RelatedFile := { file_json : json; file_groups : list string }.

(** The tables. [data_files] is the many-to-many relation of a model. A new row
    gets the key of its table's counter. *)
Record Db := {
  rows : gmap Z AnalysisModel;
  next_pk : Z;
  data_files : gmap Z (gset Z);
  all_data_files : gset Z;
  files : gmap Z RelatedFile;
  next_file : Z;
  scaling_table : gmap Z ModelScalingOptions;
  next_scaling : Z;
  chunking_table : gmap Z ModelChunkingOptions;
  next_chunking : Z;
  user_db : UserDb;
}.

(** A run: the database, and the instance at hand with its primary key. *)
Record State := { db : Db; pk : option Z; self : AnalysisModel }.

#[export] Instance Db_settable : Settable Db := λ d, {|
  rows := rows d; next_pk := next_pk d; data_files := data_files d; all_data_files := all_data_files d;
  files := files d; next_file := next_file d; scaling_table := scaling_table d;
  next_scaling := next_scaling d; chunking_table := chunking_table d;
  next_chunking := next_chunking d; user_db := user_db d |}.
#[export] Instance State_settable : Settable State := λ s, {| db := db s; pk := pk s; self := self s |}.

Definition with_rows (d : Db) (r : gmap Z AnalysisModel) (n : Z) : Db := d <| rows := r |> <| next_pk := n |>.
Definition with_files (d : Db) (f : gmap Z RelatedFile) (n : Z) : Db := d <| files := f |> <| next_file := n |>.
Definition with_db (s : State) (d : Db) : State := s <| db := d |>.
Definition with_instance (s : State) (k : Z) (m : AnalysisModel) : State := s <| pk := Some k |> <| self := m |>.

Definition set_self (f : AnalysisModel → AnalysisModel) : M State unit :=
  modify (λ s, s <| self := f (self s) |>).

(** ** Saving an instance *)

(** Another row has the key: [unique_together]. *)
Definition taken (d : Db) (own : option Z) (k : key_t) : bool :=
  bool_decide (map_Exists (λ i r, own ≠ Some i ∧ key r = k) (rows d)).

(** [update_fields]: the columns of the instance that replace those of the row. *)
Inductive fields := AllFields | ResourceFileField | RunModeField.

Definition merge (f : fields) (old new : AnalysisModel) : AnalysisModel :=
  match f with
  | AllFields => new
  | ResourceFileField => with_resource_file old (resource_file new)
  | RunModeField => with_run_mode old (run_mode new)
  end.

(** INSERT for an instance without a key, UPDATE for one with a key. An UPDATE
    that finds no row inserts it, except with [update_fields]. *)
Definition save_row (f : fields) : M State unit :=
  s ← get_state;
  let d := db s in
  if taken d (pk s) (key (self s)) then raise IntegrityError else
  match pk s with
  | None =>
      modify (λ s, with_instance (with_db s (with_rows d (<[next_pk d := self s]> (rows d)) (next_pk d + 1)))
                     (next_pk d) (self s))
  | Some i =>
      match rows d !! i, f with
      | Some old, _ => modify (λ s, with_db s (with_rows d (<[i := merge f old (self s)]> (rows d)) (next_pk d)))
      | None, AllFields => modify (λ s, with_db s (with_rows d (<[i := self s]> (rows d)) (next_pk d)))
      | None, _ => raise (OtherError "DatabaseError: Save with update_fields did not affect any rows.")
      end
  end.

(** [ModelChunkingOptions()] and [ModelScalingOptions()], saved and attached. *)
Definition attach_chunking : M State unit := modify (λ s,
  let d := db s in
  s <| db := d <| chunking_table := <[next_chunking d := default_chunking_options]> (chunking_table d) |>
                <| next_chunking := next_chunking d + 1 |> |>
    <| self := self s <| chunking_options := Some (next_chunking d) |> |>).
Definition attach_scaling : M State unit := modify (λ s,
  let d := db s in
  s <| db := d <| scaling_table := <[next_scaling d := default_scaling_options]> (scaling_table d) |>
                <| next_scaling := next_scaling d + 1 |> |>
    <| self := self s <| scaling_options := Some (next_scaling d) |> |>).

(** [create_default_scaling_options], the post-save receiver: [resave] is the
    [instance.save()] it calls, which runs the receiver again. *)
Definition create_default_scaling_options (resave : M State unit) : M State unit :=
  s ← get_state;
  (match chunking_options (self s) with
   | None => attach_chunking;; resave
   | Some _ => mret tt
   end);;
  s ← get_state;
  match scaling_options (self s) with
  | None => attach_scaling;; resave
  | Some _ => mret tt
  end.

(** [save], with the depth of the recursion through the receiver as fuel. *)
Fixpoint save_within (depth : nat) (f : fields) : M State unit :=
  save_row f;;
  create_default_scaling_options
    (match depth with
     | O => raise (OtherError "RecursionError: maximum recursion depth exceeded")
     | S depth => save_within depth AllFields
     end).

Definition save (f : fields) : M State unit := save_within 2 f.
#[global] Arguments save : simpl never.

(** ** Deleting and restoring a model *)

(** The default creation [AnalysisModel.objects.create]. *)
Definition create_model (k : key_t) (u : User) : M State unit :=
  modify (λ s, {| db := db s; pk := None; self := new_model k u |});; save AllFields.

(** [AnalysisModel.delete]: logical. *)
Definition delete : M State unit :=
  set_self (λ m, with_deleted m true (creator m));; save AllFields.

(** [RelatedFile.delete]: the row goes, and by CASCADE the models that refer to it. *)
Definition delete_file (f : Z) : M State unit := modify (λ s,
  let d := db s in
  with_db s (with_rows (with_files d (base.delete f (files d)) (next_file d))
               (filter (λ '(_, r), resource_file r ≠ Some f) (rows d)) (next_pk d))).

(** [AnalysisModel.hard_delete], with the post-delete receiver
    [delete_connected_files]. *)
Definition hard_delete : M State unit :=
  s ← get_state;
  match pk s with
  | None => raise (ValueError "Object can't be deleted because its id attribute is set to None.")
  | Some i =>
      modify (λ s, with_db s (with_rows (db s) (base.delete i (rows (db s))) (next_pk (db s))));;
      match resource_file (self s) with
      | Some f => if bool_decide (is_Some (files (db s) !! f)) then delete_file f else mret tt
      | None => mret tt
      end
  end.

(** [DataFile.objects.filter(pk__in=...)], and the relation they replace. *)
Definition set_data_files (pks : gset Z) : M State unit := modify (λ s,
  match pk s with
  | Some i => s <| db := db s <| data_files := <[i := pks ∩ all_data_files (db s)]> (data_files (db s)) |> |>
  | None => s
  end).

(** A request: its user ([None] is anonymous) and the [data_files] it gives. *)
Record Request := { req_user : option User; req_data_files : option (gset Z) }.

Definition run_users {A} (f : UserDb → A * UserDb) : M State A := λ s,
  let '(a, u) := f (user_db (db s)) in (Ok a, s <| db := db s <| user_db := u |> |>).

(** [AnalysisModel.activate]. *)
Definition activate (request : option Request) : M State unit :=
  set_self (λ m, with_deleted m false (creator m));;
  (match request with
   | Some r =>
       u ← run_users (resolve_user (req_user r));
       set_self (λ m, with_deleted m (deleted m) u);;
       match req_data_files r with
       | Some pks => set_data_files pks
       | None => mret tt
       end
   | None => mret tt
   end);;
  save AllFields.

(** [AnalysisModel.update_run_mode]. *)
Definition update_run_mode : M State unit :=
  s ← get_state;
  match resource_file (self s) with
  | None => mret tt
  | Some f =>
      file ← lift (get_row (files (db s)) f);
      mode ← lift (py_get_or (file_json file) "model_run_mode" (JStr EmptyString) ≫= py_str);
      let mode := upper mode in
      if String.eqb mode "V1" || String.eqb mode "V2" then
        set_self (λ m, with_run_mode m (Some mode));; save RunModeField
      else mret tt
  end.

(** [objects.get(...)]: the rows with the key, among those that are not deleted
    or ([all_objects]) among all; the one there is becomes [self]. *)
Definition matching (d : Db) (alive_only : bool) (k : key_t) : list (Z * AnalysisModel) :=
  map_to_list (filter (λ '(_, r), key r = k ∧ (alive_only = true → deleted r = false)) (rows d)).

Definition get_model_by_key (alive_only : bool) (k : key_t) : M State unit :=
  s ← get_state;
  match matching (db s) alive_only k with
  | [] => raise ObjectDoesNotExist
  | [(i, r)] => modify (λ s, with_instance s i r)
  | _ => raise (OtherError "MultipleObjectsReturned")
  end.

(** ** The settings file of a model: files/v1_api/views.py *)

Definition S3_ClientError : exn := OtherError "S3_ClientError".
Definition is_S3_ClientError (e : exn) : bool :=
  match e with OtherError "S3_ClientError" => true | _ => false end.

Definition permission_message : string := "You do not have permission to delete this file".

Section settings.
(** The JSON-schema validation of a settings document, and the storage. *)
Context (validate : json → result json).
Context (store : json → result unit).

(** [_delete_related_file(parent, 'resource_file', user)]. *)
Definition delete_related_file (user : User) : M State unit :=
  s ← get_state;
  match resource_file (self s) with
  | None => mret tt
  | Some f =>
      current ← lift (get_row (files (db s)) f);
      lift (verify_user_is_in_obj_groups user (Some (file_groups current)) permission_message);;
      set_self (λ m, with_resource_file m None);;
      save ResourceFileField;;
      delete_file f
  end.

(** [RelatedFile.objects.create]. *)
Definition create_related_file (data : json) : M State Z := λ s,
  let d := db s in
  (Ok (next_file d),
   with_db s (with_files d (<[next_file d := {| file_json := data; file_groups := [] |}]> (files d))
                (next_file d + 1))).

(** [_json_write_to_file]. *)
Definition json_write_to_file (user : User) (data : json) : M State unit :=
  data ← lift (validate data);
  lift (store data);;
  f ← create_related_file data;
  delete_related_file user;;
  set_self (λ m, with_resource_file m (Some f));;
  save ResourceFileField.

(** [_json_read_from_file]. *)
Definition json_read_from_file : M State json :=
  s ← get_state;
  match resource_file (self s) with
  | None => raise (OtherError "Http404")
  | Some f => file ← lift (get_row (files (db s)) f); mret (file_json file)
  end.

(** [_handle_delete_related_file]. *)
Definition handle_delete_related_file (user : User) : M State unit :=
  s ← get_state;
  match resource_file (self s) with
  | None => raise (OtherError "Http404")
  | Some _ => delete_related_file user
  end.

(** [handle_json_data]: [None] is a method it does not handle. *)
Definition handle_json_data (method : string) (user : User) (data : json) : M State (option json) :=
  if String.eqb (lower method) "get" then j ← json_read_from_file; mret (Some j)
  else if String.eqb (lower method) "post" then json_write_to_file user data;; mret (Some JNull)
  else if String.eqb (lower method) "delete" then handle_delete_related_file user;; mret (Some JNull)
  else mret None.

(** [ModelSettingsView.model_settings], once [get_object] has found the model. *)
Definition model_settings (method : string) (user : User) (data : json) : M State (option json) :=
  response ← handle_json_data method user data;
  (if String.eqb (lower method) "post" then update_run_mode else mret tt);;
  mret response.

(** ** The registration of a worker *)

(** [try: handle_json_data(...) except: log; re-raise an S3 error]. *)
Definition update_settings (m_settings : json) : M State unit :=
  if truthy m_settings then
    s ← get_state;
    try_except (handle_json_data "post" (creator (self s)) m_settings;; mret tt)
      (λ e, if is_S3_ClientError e then raise e else mret tt)
  else mret tt.

(** The assignments before the one that fails stay. *)
Definition update_versions_v1 (m_version : json) : M State unit :=
  if truthy m_version then
    try_except
      (k ← lift (py_item m_version "ktools");
       set_self (λ m, m <| ver_ktools := k |>);;
       o ← lift (py_item m_version "oasislmf");
       set_self (λ m, m <| ver_oasislmf := o |>);;
       p ← lift (py_item m_version "platform");
       set_self (λ m, m <| ver_platform := p |>))
      (λ _, mret tt)
  else mret tt.

Definition update_versions_v2 (m_version : json) : M State unit :=
  if truthy m_version then
    try_except
      (k ← lift (py_item m_version "ktools");
       set_self (λ m, m <| ver_ktools := k |>);;
       o ← lift (py_item m_version "oasislmf");
       set_self (λ m, m <| ver_oasislmf := o |>);;
       p ← lift (py_item m_version "platform");
       set_self (λ m, m <| ver_platform := p |>);;
       d ← lift (py_get_or m_version "ods-tools" JNull);
       set_self (λ m, m <| ver_ods := d |>);;
       e ← lift (py_get_or m_version "oed-schema" JNull);
       set_self (λ m, m <| ver_oed := e |>))
      (λ _, mret tt)
  else mret tt.

Definition default_run_mode (mode : string) : M State unit :=
  set_self (λ m, match run_mode m with
                 | None | Some EmptyString => with_run_mode m (Some mode)
                 | _ => m
                 end).

(** Find the model of a worker, or create it for the system user. *)
Definition find_or_create (alive_only : bool) (k : key_t) : M State unit :=
  try_except
    (get_model_by_key alive_only k;;
     s ← get_state;
     if deleted (self s) then activate None else mret tt)
    (λ e, match e with
          | ObjectDoesNotExist =>
              user ← run_users get_or_create_system_user;
              create_model k user
          | _ => raise e
          end).

(** Any other exception is logged. *)
Definition logged (m : M State unit) : M State unit :=
  try_except m (λ e, if is_S3_ClientError e then raise e else mret tt).

Definition run_register_worker (k : key_t) (m_settings m_version : json) : M State unit :=
  logged
    (find_or_create false k;;
     update_settings m_settings;;
     update_versions_v1 m_version;;
     default_run_mode "V1";;
     save AllFields).

Definition run_register_worker_v2 (k : key_t) (m_settings m_version m_conf : json) : M State unit :=
  logged
    (find_or_create true k;;
     update_settings m_settings;;
     set_self (λ m, if truthy m_conf then m <| oasislmf_config := Some m_conf |> else m);;
     update_versions_v2 m_version;;
     default_run_mode "V2";;
     save AllFields).

(** ** POST /v2/models *)

(** [AnalysisModelSerializer.create] on the validated attributes. *)
Record CreateAttrs := {
  attr_key : key_t;
  attr_run_mode : option string;
  attr_data_files : option (gset Z);
  attr_settings : json;
}.
Definition serializer_create (user : option User) (a : CreateAttrs) : M State unit :=
  creator ← run_users (resolve_user user);
  modify (λ s, {| db := db s; pk := None;
                  self := with_run_mode (new_model (attr_key a) creator) (attr_run_mode a) |});;
  save AllFields;;
  (match attr_data_files a with Some pks => set_data_files pks | None => mret tt end);;
  (if truthy (attr_settings a) then
     lift (store (attr_settings a));;
     f ← create_related_file (attr_settings a);
     set_self (λ m, with_resource_file m (Some f))
   else mret tt);;
  save AllFields.

(** [AnalysisModelViewSet.create]: a soft-deleted model with the three ids is
    restored. [k] is the key the request gives, if it gives all three ids;
    [is_valid] is DRF's conversion of the request's data. *)
Definition create_view (is_valid : State → result CreateAttrs) (k : option key_t) (r : Request) : M State unit :=
  let create := s ← get_state; a ← lift (is_valid s); serializer_create (req_user r) a in
  s ← get_state;
  match (match k with Some k => matching (db s) false k | None => [] end) with
  | (i, m) :: _ =>
      if deleted m then modify (λ s, with_instance s i m);; activate (Some r) else create
  | [] => create
  end.
End settings.

(** ** Lemmas on saving *)

Lemma taken_false d own k :
  taken d own k = false ↔ ∀ i r, rows d !! i = Some r → key r = k → own = Some i.
Proof.
  unfold taken. rewrite bool_decide_eq_false. split.
  - intros H i r Hr Hk. destruct (decide (own = Some i)) as [|Hn]; [done|].
    exfalso. apply H. by exists i, r.
  - intros H (i & r & Hr & Hn & Hk). by apply Hn, (H i r).
Qed.

Lemma save_row_self f s r s' : save_row f s = (r, s') → self s' = self s.
Proof. unfold save_row. run. intros H. by repeat (case_match; simplify_eq/=). Qed.

(** [save_within] is one row, then what the receiver does. *)
Lemma save_within_eq n f s :
  save_within n f s =
  match save_row f s with
  | (Ok _, s') => create_default_scaling_options
      (match n with O => raise (OtherError "RecursionError: maximum recursion depth exceeded")
                  | S n => save_within n AllFields end) s'
  | (Raise e, s') => (Raise e, s')
  end.
Proof. by destruct n. Qed.

Lemma receiver_complete resave s a b :
  scaling_options (self s) = Some a → chunking_options (self s) = Some b →
  create_default_scaling_options resave s = (Ok tt, s).
Proof. intros Ha Hb. unfold create_default_scaling_options. run. by rewrite Hb; cbn; rewrite Ha. Qed.

Lemma save_complete n f s a b :
  scaling_options (self s) = Some a → chunking_options (self s) = Some b →
  save_within n f s = save_row f s.
Proof.
  intros Ha Hb. rewrite save_within_eq. destruct (save_row f s) as [[[]|e] s'] eqn:Hr; [|done].
  apply save_row_self in Hr. by rewrite (receiver_complete _ _ a b) by congruence.
Qed.

Lemma receiver_scaling resave s b :
  scaling_options (self s) = None → chunking_options (self s) = Some b →
  create_default_scaling_options resave s = (attach_scaling;; resave) s.
Proof.
  intros Ha Hb. unfold create_default_scaling_options, attach_scaling. run. rewrite Hb. cbn. by rewrite Ha, Hb.
Qed.

Lemma save_scaling n f s b :
  scaling_options (self s) = None → chunking_options (self s) = Some b →
  save_within (S n) f s = (save_row f;; attach_scaling;; save_row AllFields) s.
Proof.
  intros Ha Hb. rewrite save_within_eq. unfold mbind, M_bind.
  destruct (save_row f s) as [[[]|e] s'] eqn:Hr; [|done].
  apply save_row_self in Hr. rewrite (receiver_scaling _ _ b) by congruence. run.
  eapply save_complete; cbn; [done|by rewrite Hr].
Qed.

Section depth.
#[local] Arguments save_within : simpl never.
(** [save] never runs out of depth: two levels are all the receiver uses. *)
Lemma save_deeper n f s : save_within (2 + n) f s = save f s.
Proof.
unfold save. destruct (scaling_options (self s)) as [a|] eqn:Ha, (chunking_options (self s)) as [b|] eqn:Hb.
- by rewrite !(save_complete _ _ _ a b).
- rewrite (save_within_eq (2 + n)), (save_within_eq 2). destruct (save_row f s) as [[[]|e] s'] eqn:Hr; [|done].
  apply save_row_self in Hr. unfold create_default_scaling_options. run. rewrite Hr, Hb; cbn.
  rewrite !(save_complete _ _ _ a (next_chunking (db s'))) by (cbn; congruence).
  destruct (save_row AllFields _) as [[[]|e] s2] eqn:Hr2; [|done].
  apply save_row_self in Hr2. rewrite Hr2. cbn. by rewrite Hr, Ha.
- change (2 + n)%nat with (S (S n)). by rewrite !(save_scaling _ _ _ b).
- rewrite (save_within_eq (2 + n)), (save_within_eq 2). destruct (save_row f s) as [[[]|e] s'] eqn:Hr; [|done].
  apply save_row_self in Hr. unfold create_default_scaling_options. run. rewrite Hr, Hb; cbn.
  rewrite !(save_scaling _ _ _ (next_chunking (db s'))) by (cbn; congruence).
  run. destruct (save_row AllFields _) as [[[]|e] s2] eqn:Hr2; [|done].
  destruct (save_row AllFields (exec attach_scaling s2)) as [[[]|e] s3] eqn:Hr3; unfold exec in Hr3; cbn in Hr3; rewrite Hr3;
    [|done]. apply save_row_self in Hr3. rewrite Hr3. done.
Qed.

End depth.

Lemma preserves_receiver (P : State → Prop) resave :
  preserves P resave → preserves P attach_scaling → preserves P attach_chunking →
  preserves P (create_default_scaling_options resave).
Proof.
  intros Hr Hs Hc. unfold create_default_scaling_options.
  apply preserves_bind; [apply preserves_get|intros s1]. apply preserves_bind; [|intros _].
  { destruct (chunking_options _); [apply preserves_ret|]. by apply preserves_bind. }
  apply preserves_bind; [apply preserves_get|intros s2].
  destruct (scaling_options _); [apply preserves_ret|]. by apply preserves_bind.
Qed.

(** The rule for what [save] keeps. *)
Lemma preserves_save_within (P : State → Prop) n f :
  (∀ g, preserves P (save_row g)) → preserves P attach_scaling → preserves P attach_chunking →
  preserves P (save_within n f).
Proof.
  intros Hrow Hs Hc. revert f.
  induction n as [|n IH]; intros f; cbn [save_within];
    (apply preserves_bind; [apply Hrow|intros _]); apply preserves_receiver; try done; try apply IH.
  apply preserves_raise.
Qed.

Lemma preserves_save (P : State → Prop) f :
  (∀ g, preserves P (save_row g)) → preserves P attach_scaling → preserves P attach_chunking →
  preserves P (save f).
Proof. apply preserves_save_within. Qed.

(** ** The key is unique *)

Record db_ok (d : Db) : Prop := {
  key_unique : ∀ i j r r', rows d !! i = Some r → rows d !! j = Some r' → key r = key r' → i = j;
  key_bound : ∀ i r, rows d !! i = Some r → i < next_pk d;
}.

(** The database is well formed and the instance is not ahead of its table. *)
Definition good (s : State) : Prop := db_ok (db s) ∧ ∀ i, pk s = Some i → i < next_pk (db s).

Lemma db_ok_insert d i m n :
  db_ok d → taken d (Some i) (key m) = false → i < n → next_pk d ≤ n →
  db_ok (with_rows d (<[i := m]> (rows d)) n).
Proof.
  intros [Hu Hb] Ht Hi Hn. rewrite taken_false in Ht. split; cbn.
  - intros a b r r' Ha Hb' E. apply lookup_insert_Some in Ha as [[<- <-]|[Hne Ha]];
      apply lookup_insert_Some in Hb' as [[<- <-]|[Hne' Hb']]; [done|..].
    + by pose proof (Ht _ _ Hb' (eq_sym E)) as [= ->].
    + by pose proof (Ht _ _ Ha E) as [= ->].
    + by eapply Hu.
  - intros a r Ha. apply lookup_insert_Some in Ha as [[<- <-]|[Hne Ha]]; [done|].
    pose proof (Hb _ _ Ha). lia.
Qed.

Lemma taken_own d i r k : db_ok d → rows d !! i = Some r → key r = k → taken d (Some i) k = false.
Proof. intros [Hu _] Hr Hk. apply taken_false. intros j r' Hr' Hk'. f_equal. eapply Hu; [done..|congruence]. Qed.

Lemma taken_fresh d i k : taken d None k = false → taken d (Some i) k = false.
Proof. rewrite !taken_false. intros H j r Hj Hk. by specialize (H j r Hj Hk). Qed.

Lemma key_merge f old new : f ≠ AllFields → key (merge f old new) = key old.
Proof. by destruct f. Qed.

Lemma save_row_good f : preserves good (save_row f).
Proof.
  intros s Hg. pose proof Hg as [Hd Hi]. unfold save_row. run.
  destruct (taken _ _ _) eqn:Ht; [done|]. destruct (pk s) as [i|] eqn:Hpk.
  - specialize (Hi i eq_refl). destruct (rows (db s) !! i) as [old|] eqn:Hold; cbn.
    + split; [|cbn; intros j; rewrite Hpk; by intros [= <-]].
      apply db_ok_insert; [done| |done|lia]. destruct f; [done|..];
        (eapply taken_own; [done..|by rewrite key_merge]).
    + destruct f; [|done..]. split; [|cbn; intros j; rewrite Hpk; by intros [= <-]].
      apply db_ok_insert; [done..|lia].
  - split; cbn; [|intros j [= <-]; lia]. apply db_ok_insert; [done|by apply taken_fresh|lia..].
Qed.

Lemma attach_good : preserves good attach_scaling ∧ preserves good attach_chunking.
Proof. split; (intros s [[Hu Hb] Hi]; split; [by split|done]). Qed.

Lemma save_good f : preserves good (save f).
Proof. apply preserves_save; [apply save_row_good|apply attach_good..]. Qed.

Lemma set_self_good f : preserves good (set_self f).
Proof. by apply preserves_modify. Qed.

Lemma delete_file_good f : preserves good (delete_file f).
Proof.
  apply preserves_modify. intros s [[Hu Hb] Hi]. split; [|done]. split; cbn.
  - intros i j r r' [Hr _]%map_lookup_filter_Some [Hr' _]%map_lookup_filter_Some. by apply Hu.
  - intros i r [Hr _]%map_lookup_filter_Some. by eapply Hb.
Qed.

Lemma run_users_good {A} (f : UserDb → A * UserDb) : preserves good (run_users f).
Proof.
  intros s Hs. unfold run_users. destruct (f _) as [a u]. destruct Hs as [[Hu Hb] Hi]. split; [by split|done].
Qed.

Lemma new_instance_good m : preserves good (modify (λ s, {| db := db s; pk := None; self := m |})).
Proof. apply preserves_modify. intros s [Hd _]. by split. Qed.

Lemma set_data_files_good pks : preserves good (set_data_files pks).
Proof.
  apply preserves_modify. intros s Hs. destruct (pk s) eqn:E; [|done]. destruct Hs as [[Hu Hb] Hi].
  split; [by split|]. cbn. by rewrite E in *.
Qed.

Lemma create_related_file_good j : preserves good (create_related_file j).
Proof. intros s [[Hu Hb] Hi]. split; [by split|done]. Qed.

#[export] Hint Resolve save_good set_self_good delete_file_good run_users_good new_instance_good
  set_data_files_good create_related_file_good : preserves.

Lemma matching_spec d b k i r :
  (i, r) ∈ matching d b k ↔ rows d !! i = Some r ∧ key r = k ∧ (b = true → deleted r = false).
Proof.
  unfold matching. rewrite elem_of_map_to_list, map_lookup_filter_Some. done.
Qed.

(** ** Registration makes a model available *)

(** The instance is the row [i], which has the key [k] and is not deleted; [P]
    holds of the row and of the instance. *)
Definition alive_with (P : AnalysisModel → Prop) (k : key_t) (i : Z) (s : State) : Prop :=
  good s ∧ pk s = Some i
  ∧ (∃ r, rows (db s) !! i = Some r ∧ key r = k ∧ deleted r = false ∧ P r)
  ∧ key (self s) = k ∧ deleted (self s) = false ∧ P (self s).
Definition alive : key_t → Z → State → Prop := alive_with (λ _, True).
Definition no_file (m : AnalysisModel) : Prop := resource_file m = None.

(** The columns [P] may speak of: [save] may write any column but the options. *)
Definition stable (P : AnalysisModel → Prop) : Prop :=
  (∀ m s c, P m → P (with_options m s c)) ∧ (∀ f old new, P old → P new → P (merge f old new)).

Lemma stable_True : stable (λ _, True).
Proof. done. Qed.
Lemma stable_no_file : stable no_file.
Proof. split; [done|]. by intros []. Qed.

Lemma save_row_alive P k i f : stable P → preserves (alive_with P k i) (save_row f).
Proof.
  intros [_ HP] s Hs. pose proof (save_row_good f s (proj1 Hs)) as Hg.
  destruct Hs as (Hg0 & Hpk & (r & Hr & Hk & Hd & HPr) & Hks & Hds & HPs).
  unfold save_row in *. run. destruct (taken _ _ _); [split; [done|]; eauto 10|].
  rewrite Hpk, Hr in *. cbn in *. split; [done|]. split; [done|]. split; [|done].
  eexists. split; [apply lookup_insert_eq|]. destruct f; cbn; split_and!; auto.
  - by apply (HP ResourceFileField).
  - by apply (HP RunModeField).
Qed.

Lemma attach_alive P k i : stable P →
  preserves (alive_with P k i) attach_scaling ∧ preserves (alive_with P k i) attach_chunking.
Proof.
  intros [HP _]. split; apply preserves_modify; intros s (Hg & Hpk & Hr & Hk & Hd & HPs);
    (split; [destruct Hg as [[Hu Hb] Hi]; split; [by split|done]|]; split_and!; auto; by apply HP).
Qed.

Lemma save_alive P k i f : stable P → preserves (alive_with P k i) (save f).
Proof. intros HP. apply preserves_save; [intros; by apply save_row_alive|by apply attach_alive..]. Qed.

(** A file is deleted only once the row does not refer to it any more. *)
Lemma save_no_file k i f : f ≠ RunModeField →
  hoare (λ s, alive k i s ∧ no_file (self s)) (save f) (λ _, alive_with no_file k i) (alive k i).
Proof.
  intros Hf. change (save f) with (save_row f;; create_default_scaling_options (save_within 1 AllFields)).
  eapply hoare_bind with (R := λ _, alive_with no_file k i).
  - intros s [Hs Hn]. pose proof (save_row_alive _ k i f stable_True s Hs) as Ha.
    destruct Hs as (_ & Hpk & (r & Hr & _) & _). unfold save_row in *. run.
    destruct (taken _ _ _); [done|]. rewrite Hpk, Hr in *. cbn in *.
    destruct Ha as (Hg & _ & (r' & Hr' & Hk & Hd & _) & Hks & Hds & _).
    cbn in Hr'. rewrite (lookup_insert_eq (rows (db s)) i (merge f r (self s))) in Hr'. injection Hr' as <-.
    split; [done|]. split_and!; [done| |done..].
    eexists. split; [apply lookup_insert_eq|]. split_and!; [done..|]. by destruct f.
  - intros _. eapply hoare_weaken; [apply preserves_receiver|done|done|].
    + apply preserves_save_within; [intros; by apply save_row_alive, stable_no_file|by apply attach_alive, stable_no_file..].
    + by apply attach_alive, stable_no_file.
    + by apply attach_alive, stable_no_file.
    + intros s (?&?&(r&?&?&?&_)&?&?&_). split_and!; eauto 10.
Qed.

(** What keeps a model available in each step of a registration. *)
Lemma set_self_alive k i f :
  (∀ m, key (f m) = key m ∧ deleted (f m) = deleted m) → preserves (alive k i) (set_self f).
Proof.
  intros Hf. apply preserves_modify. intros s (Hg & Hpk & Hr & Hk & Hd & _).
  destruct (Hf (self s)) as [E1 E2]. split; [done|]. split_and!; try done; cbn; congruence.
Qed.

Lemma save_keeps_alive k i f : preserves (alive k i) (save f).
Proof. by apply save_alive. Qed.

Lemma delete_file_alive k i f :
  hoare (alive_with no_file k i) (delete_file f) (λ _, alive k i) (alive k i).
Proof.
  intros s (Hg & Hpk & (r & Hr & Hk & Hd & Hn) & Hks & Hds & _).
  split; [by apply (delete_file_good f s Hg)|]. split_and!; try done; cbn.
  exists r. split_and!; try done. apply map_lookup_filter_Some. split; [done|]. by rewrite Hn.
Qed.

Lemma delete_related_file_alive k i u : preserves (alive k i) (delete_related_file u).
Proof.
  unfold delete_related_file. apply preserves_bind; [apply preserves_get|intros s1].
  destruct (resource_file _) as [f|]; [|apply preserves_ret].
  apply preserves_bind; [apply preserves_lift|intros cur].
  apply preserves_bind; [apply preserves_lift|intros _].
  eapply hoare_bind with (R := λ _ s, alive k i s ∧ no_file (self s)).
  { apply hoare_modify. intros s Hs. split; [|done]. by apply (set_self_alive k i (λ m, with_resource_file m None)). }
  intros _. eapply hoare_bind; [by apply save_no_file|intros []]. apply delete_file_alive.
Qed.

Lemma create_related_file_alive k i j : preserves (alive k i) (create_related_file j).
Proof. intros s [[[Hu Hb] Hi] ?]. split; [split; [by split|done]|done]. Qed.

#[export] Hint Resolve save_keeps_alive set_self_alive delete_related_file_alive
  create_related_file_alive : preserves.

Lemma alive_file k i validate store method u j : preserves (alive k i) (handle_json_data validate store method u j).
Proof.
  unfold handle_json_data, json_read_from_file, json_write_to_file, handle_delete_related_file. keep.
Qed.

(** A full save of a live instance that is the row [i], or whose key is free and
    which becomes the row [i]. *)
Lemma save_all_alive k i s :
  good s → key (self s) = k → deleted (self s) = false →
  (pk s = Some i ∧ ∃ r, rows (db s) !! i = Some r ∧ key r = k)
  ∨ (pk s = None ∧ i = next_pk (db s) ∧ taken (db s) None k = false) →
  alive k i (exec (save AllFields) s).
Proof.
  intros Hg Hk Hd Hs. unfold exec. change (save AllFields) with
    (save_row AllFields;; create_default_scaling_options (save_within 1 AllFields)).
  assert (∃ s1, save_row AllFields s = (Ok tt, s1) ∧ alive k i s1) as (s1 & E & H1).
  { pose proof (save_row_good AllFields s Hg) as Hg'. unfold save_row in *. run.
    destruct Hs as [(Hpk & r & Hr & Hkr)|(Hpk & -> & Ht)]; rewrite Hpk in *.
    - rewrite (taken_own _ _ r _ (proj1 Hg) Hr) in * by congruence. rewrite Hr in *. cbn in *.
      eexists. split; [done|]. split; [done|]. split_and!; try done. eexists. split; [apply lookup_insert_eq|done].
    - rewrite Hk in *. rewrite Ht in *. cbn in *.
      eexists. split; [done|]. split; [done|]. split_and!; try done. eexists. split; [apply lookup_insert_eq|done]. }
  unfold mbind, M_bind. rewrite E. apply (preserves_exec (alive k i)); [|done].
  apply preserves_receiver; [|apply attach_alive, stable_True..].
  apply preserves_save_within; [intros; by apply save_row_alive|by apply attach_alive..].
Qed.

Lemma save_raises f s s' : save f s ≠ (Raise ObjectDoesNotExist, s').
Proof.
  assert (∀ f s s', save_row f s ≠ (Raise ObjectDoesNotExist, s')) as Hrow.
  { intros g t t'. unfold save_row. run. repeat case_match; by intros ?; simplify_eq. }
  assert (∀ m t t', (∀ u u', m u ≠ (Raise ObjectDoesNotExist, u')) →
    create_default_scaling_options m t ≠ (Raise ObjectDoesNotExist, t')) as Hrec.
  { intros m t t' Hm. unfold create_default_scaling_options. run.
    destruct (chunking_options _); cbn; [destruct (scaling_options _); cbn; [done|apply Hm]|].
    match goal with |- context [m ?u] => specialize (Hm u) as Hm1; destruct (m u) as [[[]|e] u1] end.
    - destruct (scaling_options _); cbn; [done|apply Hm].
    - intros [= -> ->]. by eapply Hm1. }
  unfold save. generalize 2%nat as n. intros n. revert f s s'.
  induction n as [|n IH]; intros f s s'; cbn [save_within]; unfold mbind, M_bind;
    pose proof (Hrow f s) as H; destruct (save_row f s) as [[[]|e] u].
  2, 4: intros [= -> ->]; by eapply H.
  all: apply Hrec; intros; first [done|apply IH].
Qed.

Lemma matching_one d b k i r l : db_ok d → matching d b k = (i, r) :: l → l = [].
Proof.
  intros [Hu _] E. assert (NoDup (matching d b k)) as Hnd by apply NoDup_map_to_list.
  destruct l as [|[j r'] l]; [done|]. exfalso.
  assert ((i, r) ∈ matching d b k) as (Hr & Hk & _)%matching_spec by (rewrite E; left).
  assert ((j, r') ∈ matching d b k) as (Hr' & Hk' & _)%matching_spec by (rewrite E; right; left).
  assert (i = j) as <- by (eapply Hu; [done..|congruence]).
  rewrite E in Hnd. apply NoDup_cons in Hnd as [Hn _]. apply Hn. rewrite Hr in Hr'. injection Hr' as <-. left.
Qed.

(** The pk a registration works on: that of the model's row, or a new one. *)
Definition pk_of (d : Db) (k : key_t) (i : Z) : Prop :=
  match matching d false k with [] => i = next_pk d | (j, _) :: _ => i = j end.

Lemma find_or_create_alive b k s :
  db_ok (db s) →
  (b = true → ∀ j r, rows (db s) !! j = Some r → key r = k → deleted r = false) →
  ∃ i, pk_of (db s) k i ∧ alive k i (exec (find_or_create b k) s).
Proof.
  intros Hd Hb. unfold pk_of.
  assert (matching (db s) b k = matching (db s) false k) as Em.
  { unfold matching. f_equal. apply map_filter_ext. intros i r Hr. split; [by intros [? _]|].
    intros [Hk _]. split; [done|]. intros ->. by apply (Hb eq_refl i). }
  destruct (matching (db s) false k) as [|[j r] l] eqn:E.
  - exists (next_pk (db s)). split; [done|].
    assert (taken (db s) None k = false) as Ht.
    { apply taken_false. intros j r Hr Hk. exfalso.
      assert ((j, r) ∈ matching (db s) false k) as Hin by (by apply matching_spec). rewrite E in Hin. set_solver. }
    unfold exec, find_or_create, get_model_by_key, create_model, try_except, run_users. run. rewrite Em. cbn.
    destruct (get_or_create_system_user _) as [u ud]. cbn.
    apply save_all_alive; cbn; [|by destruct k as [[]]|done|by right].
    destruct Hd as [Hu Hp]. split; [by split|done].
  - pose proof (matching_one _ _ _ _ _ _ Hd E) as ->. exists j. split; [done|].
    assert ((j, r) ∈ matching (db s) false k) as (Hr & Hk & _)%matching_spec by (rewrite E; left).
    assert (good (with_instance s j r)) as Hg.
    { split; [done|]. intros ? [= <-]. by eapply key_bound. }
    unfold exec, find_or_create, get_model_by_key, try_except. run. rewrite Em. cbn.
    destruct (deleted r) eqn:Hdel; cbn.
    + unfold activate. run.
      match goal with |- context [save AllFields ?t] => set (s1 := t) end. pose proof (save_all_alive k j s1) as H.
      specialize (H ltac:(split; apply Hg) Hk eq_refl ltac:(left; eauto)). unfold exec in H.
      destruct (save AllFields s1) as [[[]|e] s2] eqn:Es; [exact H|].
      destruct e; try exact H. exfalso. by eapply save_raises.
    + split; [done|]. split_and!; try done; cbn; eauto.
Qed.

(** The steps after the model is found leave it available. *)
Section registered.
Context (validate : json → result json) (store : json → result unit).

Lemma registration_alive (steps : M State unit) b k d s :
  (∀ i, preserves (alive k i) steps) →
  db s = d → db_ok d → (b = true → ∀ j r, rows d !! j = Some r → key r = k → deleted r = false) →
  ∃ i, pk_of d k i ∧ alive k i (exec (logged (find_or_create b k;; steps)) s).
Proof.
  intros Hk <- Hd Hb. destruct (find_or_create_alive b k s Hd Hb) as (i & Hi & Ha).
  exists i. split; [done|]. unfold logged, exec, try_except in *. run.
  destruct (find_or_create b k s) as [[[]|e] s1]; cbn in *.
  - specialize (Hk i s1 Ha). destruct (steps s1) as [[[]|e] s2]; cbn; [done|].
    by destruct (is_S3_ClientError e).
  - by destruct (is_S3_ClientError e).
Qed.

Lemma update_settings_alive k i j : preserves (alive k i) (update_settings validate store j).
Proof. unfold update_settings. pose proof (alive_file k i). keep. Qed.
Lemma update_versions_alive k i j :
  preserves (alive k i) (update_versions_v1 j) ∧ preserves (alive k i) (update_versions_v2 j).
Proof. unfold update_versions_v1, update_versions_v2. split; keep. Qed.
Lemma default_run_mode_alive k i m : preserves (alive k i) (default_run_mode m).
Proof. apply set_self_alive. intros a. by destruct (run_mode a) as [[]|]. Qed.
Lemma set_config_alive k i c :
  preserves (alive k i) (set_self (λ m, if truthy c then m <| oasislmf_config := Some c |> else m)).
Proof. apply set_self_alive. intros m. by destruct (truthy c). Qed.
End registered.

Lemma save_taken f s : taken (db s) (pk s) (key (self s)) = true → save f s = (Raise IntegrityError, s).
Proof. intros Ht. unfold save. rewrite save_within_eq. unfold save_row. run. by rewrite Ht. Qed.

Section registration.
Context (validate : json → result json) (store : json → result unit).

(** Registering a V1 worker always leaves its model available: whatever
    settings and versions it sends, and however their validation and storage
    fail, there is afterwards a model with its three ids that is not deleted.
    It is the row that had the ids before, restored if it was soft-deleted,
    or a new one; the ids stay unique. *)
Theorem run_register_worker_available k m_settings m_version s :
  db_ok (db s) →
  let s' := exec (run_register_worker validate store k m_settings m_version) s in
  ∃ i r, pk_of (db s) k i ∧ rows (db s') !! i = Some r ∧ key r = k ∧ deleted r = false ∧ db_ok (db s').
Proof.
  intros Hd. unfold run_register_worker.
  edestruct (registration_alive (update_settings validate store m_settings;; update_versions_v1 m_version;;
    default_run_mode "V1";; save AllFields) false k (db s) s) as (i & Hi & [Hg _] & _ & (r & Hr & Hk & Hdel & _) & _);
    try done; eauto 10.
  pose proof update_settings_alive; pose proof update_versions_alive; pose proof default_run_mode_alive.
  intros i. apply preserves_bind; [done|intros _]. apply preserves_bind; [by apply update_versions_alive|intros _]. keep.
Qed.

(** A V2 worker makes its model available when the model is not
    soft-deleted. *)
Theorem run_register_worker_v2_available k m_settings m_version m_conf s :
  db_ok (db s) →
  (∀ j r, rows (db s) !! j = Some r → key r = k → deleted r = false) →
  let s' := exec (run_register_worker_v2 validate store k m_settings m_version m_conf) s in
  ∃ i r, pk_of (db s) k i ∧ rows (db s') !! i = Some r ∧ key r = k ∧ deleted r = false ∧ db_ok (db s').
Proof.
  intros Hd Halive. unfold run_register_worker_v2.
  edestruct (registration_alive (update_settings validate store m_settings;;
    set_self (λ m, if truthy m_conf then m <| oasislmf_config := Some m_conf |> else m);; update_versions_v2 m_version;;
    default_run_mode "V2";; save AllFields) true k (db s) s) as (i & Hi & [Hg _] & _ & (r & Hr & Hk & Hdel & _) & _);
    try done; eauto 10.
  pose proof update_settings_alive; pose proof default_run_mode_alive; pose proof set_config_alive.
  intros i. apply preserves_bind; [done|intros _]. apply preserves_bind; [done|intros _].
  apply preserves_bind; [by apply update_versions_alive|intros _]. keep.
Qed.

(** A V2 worker never restores a soft-deleted model. The alive-only query
    does not find it, the creation that follows violates the unique key, and
    the error is only logged: the task succeeds and no row of the table has
    changed, whatever the worker sent. *)
Theorem run_register_worker_v2_dead k m_settings m_version m_conf s i r :
  db_ok (db s) →
  rows (db s) !! i = Some r → key r = k → deleted r = true →
  ∃ s', run_register_worker_v2 validate store k m_settings m_version m_conf s = (Ok tt, s')
    ∧ rows (db s') = rows (db s).
Proof.
  intros Hd Hr Hk Hdel.
  assert (matching (db s) true k = []) as Em.
  { destruct (matching (db s) true k) as [|[j r'] l] eqn:E; [done|]. exfalso.
    assert ((j, r') ∈ matching (db s) true k) as (Hr' & Hk' & Hdel')%matching_spec by (rewrite E; left).
    assert (j = i) as -> by (eapply key_unique; [exact Hd|done..|congruence]).
    specialize (Hdel' eq_refl). congruence. }
  unfold run_register_worker_v2, logged, find_or_create, get_model_by_key, create_model, try_except, run_users.
  run. rewrite Em. cbn. destruct (get_or_create_system_user _) as [u ud]. cbn.
  rewrite save_taken; [cbn; eauto|].
  unfold taken. apply bool_decide_eq_true. exists i, r. cbn. rewrite Hk. by destruct k as [[]].
Qed.

(** The API restores a soft-deleted model: a POST that gives its three
    ids makes the row live again under its key, owned by the user of the
    request, and creates nothing. *)
Theorem create_view_restores is_valid k req u s i r :
  db_ok (db s) → req_user req = Some u →
  rows (db s) !! i = Some r → key r = k → deleted r = true →
  is_Some (scaling_options r) → is_Some (chunking_options r) →
  ∃ s', create_view store is_valid (Some k) req s = (Ok tt, s')
    ∧ rows (db s') = <[i := with_deleted r false u]> (rows (db s)).
Proof.
  intros Hd Hu Hr Hk Hdel [a Ha] [b Hb]. unfold create_view. run.
  assert (matching (db s) false k = [(i, r)]) as ->.
  { destruct (matching (db s) false k) as [|[j r'] l] eqn:E.
    - assert ((i, r) ∈ matching (db s) false k) as Hin by (by apply matching_spec). rewrite E in Hin. set_solver.
    - assert ((j, r') ∈ matching (db s) false k) as (Hr' & Hk' & _)%matching_spec by (rewrite E; left).
      assert (j = i) as -> by (eapply key_unique; [exact Hd|done..|congruence]).
      rewrite (matching_one _ _ _ _ _ _ Hd E). congruence. }
  cbn. rewrite Hdel. cbn. unfold activate. run. rewrite Hu. unfold run_users; cbn.
  match goal with |- context [(match req_data_files req with Some pks => _ | None => _ end) ?s0] =>
    assert (∃ d, (match req_data_files req with Some pks => set_data_files pks | None => λ s, (Ok (), s) end) s0
      = (Ok tt, {| db := d; pk := Some i; self := with_deleted r false u |}) ∧ rows d = rows (db s))
      as (d & E & Hrows) end.
  { destruct (req_data_files req); cbn; eexists; (split; [reflexivity|done]). }
  rewrite E. cbn. unfold save. erewrite save_complete by done. unfold save_row. run.
  match goal with |- context [taken ?d ?o ?k'] => assert (taken d o k' = false) as -> end.
  { apply taken_false. rewrite Hrows. intros j r' Hr' Hk'. f_equal. eapply key_unique; [exact Hd|done..]. }
  rewrite Hrows, Hr. cbn. eexists. split; [done|]. cbn. done.
Qed.
End registration.

(** ** Every saved model has its options *)

Lemma save_row_stored s s' : save_row AllFields s = (Ok tt, s') →
  ∃ i, pk s' = Some i ∧ rows (db s') !! i = Some (self s').
Proof.
  unfold save_row. run. destruct (taken _ _ _); [done|]. destruct (pk s) as [i|] eqn:Hpk.
  - destruct (rows (db s) !! i); cbn; intros [= <-]; exists i; (split; [done|apply lookup_insert_eq]).
  - intros [= <-]. eexists. split; [done|apply lookup_insert_eq].
Qed.

Lemma save_row_tables f s s' : save_row f s = (Ok tt, s') →
  scaling_table (db s') = scaling_table (db s) ∧ chunking_table (db s') = chunking_table (db s)
  ∧ next_scaling (db s') = next_scaling (db s) ∧ next_chunking (db s') = next_chunking (db s).
Proof. unfold save_row. run. repeat case_match; intros; simplify_eq; done. Qed.

(** The two options tables hold the rows the instance refers to. *)
Definition has_options (s : State) (m : AnalysisModel) : Prop :=
  (∃ a, scaling_options m = Some a ∧ is_Some (scaling_table (db s) !! a))
  ∧ (∃ b, chunking_options m = Some b ∧ is_Some (chunking_table (db s) !! b)).

Definition refs_ok (s : State) : Prop :=
  (∀ a, scaling_options (self s) = Some a → is_Some (scaling_table (db s) !! a))
  ∧ (∀ b, chunking_options (self s) = Some b → is_Some (chunking_table (db s) !! b)).

Definition stored (s : State) : Prop := ∃ i, pk s = Some i ∧ rows (db s) !! i = Some (self s).

Lemma save_row_refs f s s' : save_row f s = (Ok tt, s') → refs_ok s → refs_ok s'.
Proof.
  intros H [Hs Hc]. pose proof (save_row_self _ _ _ _ H) as E.
  destruct (save_row_tables _ _ _ H) as (Es & Ec & _ & _). split; rewrite E, ?Es, ?Ec; done.
Qed.

Lemma save_chunked n s s' b :
  refs_ok s → chunking_options (self s) = Some b → save_within (S n) AllFields s = (Ok tt, s') →
  stored s' ∧ has_options s' (self s') ∧ chunking_options (self s') = Some b
  ∧ chunking_table (db s') = chunking_table (db s)
  ∧ (scaling_options (self s) = None →
     ∃ a, scaling_options (self s') = Some a ∧ scaling_table (db s') !! a = Some default_scaling_options).
Proof.
  intros Hrefs Hb. destruct (scaling_options (self s)) as [a|] eqn:Ha.
  - rewrite (save_complete _ _ _ a b Ha Hb). intros H.
    pose proof (save_row_refs _ _ _ H Hrefs) as [Hs Hc]. pose proof (save_row_self _ _ _ _ H) as E.
    pose proof (save_row_tables _ _ _ H) as (_ & Ec & _). rewrite <- E in Ha, Hb.
    split; [by apply save_row_stored in H|]. split; [split; eauto|]. split_and!; [done..|done].
  - rewrite (save_scaling _ _ _ b Ha Hb). unfold mbind, M_bind.
    destruct (save_row AllFields s) as [[[]|e] s1] eqn:H1; [|done].
    pose proof (save_row_refs _ _ _ H1 Hrefs) as [Hs1 Hc1]. pose proof (save_row_self _ _ _ _ H1) as E1.
    pose proof (save_row_tables _ _ _ H1) as (_ & Ec1 & _).
    cbn. intros H2. pose proof (save_row_stored _ _ H2) as Hst.
    pose proof (save_row_tables _ _ _ H2) as (Es2 & Ec2 & _). apply save_row_self in H2. cbn in *.
    assert (scaling_options (self s') = Some (next_scaling (db s1))) as Ha' by (by rewrite H2).
    assert (chunking_options (self s') = Some b) as Hb' by (rewrite H2; cbn; congruence).
    assert (scaling_table (db s') !! next_scaling (db s1) = Some default_scaling_options) as Ht
      by (rewrite Es2; apply lookup_insert_eq).
    split; [done|]. split; [|split_and!; [done|congruence|eauto]].
    split; [eauto|]. exists b. split; [done|]. rewrite Ec2. apply Hc1. congruence.
Qed.

(** A full save that succeeds leaves the instance and its row equal, and
    the model with a scaling and a chunking row, created with the defaults when
    the model had none. *)
Theorem save_attaches_options s s' :
  refs_ok s → save AllFields s = (Ok tt, s') →
  stored s' ∧ has_options s' (self s')
  ∧ (scaling_options (self s) = None →
     ∃ a, scaling_options (self s') = Some a ∧ scaling_table (db s') !! a = Some default_scaling_options)
  ∧ (chunking_options (self s) = None →
     ∃ b, chunking_options (self s') = Some b ∧ chunking_table (db s') !! b = Some default_chunking_options).
Proof.
  intros Hrefs. unfold save. destruct (chunking_options (self s)) as [b|] eqn:Hb.
  { intros H. apply (save_chunked _ _ _ b) in H as (?&?&?&?&?); [|done..]. done. }
  rewrite save_within_eq. destruct (save_row AllFields s) as [[[]|e] s1] eqn:H1; [|done].
  pose proof (save_row_refs _ _ _ H1 Hrefs) as [Hs1 _]. pose proof (save_row_self _ _ _ _ H1) as E1.
  unfold create_default_scaling_options. unfold mbind, M_bind. cbn [get_state].
  rewrite E1, Hb. destruct (attach_chunking s1) as [r2 s2] eqn:H2. cbn in H2. injection H2 as <- <-.
  match goal with |- context [save_within 1 AllFields ?t] =>
    destruct (save_within 1 AllFields t) as [[[]|e] s3] eqn:H3 end; [|done].
  apply (save_chunked _ _ _ (next_chunking (db s1))) in H3 as (Hst & Hopt & Hb3 & Ec3 & Ha3); [| |done].
  2: { split; cbn; [done|]. intros b [= <-]. rewrite lookup_insert_eq. done. }
  destruct Hopt as [(a & Ha & Hta) Hopt]. unfold get_state, mret, M_ret. rewrite Ha. intros [= <-].
  split; [done|]. split; [split; eauto|]. cbn in *. rewrite E1 in *. split; [done|].
  intros _. exists (next_chunking (db s1)). split; [done|]. rewrite Ec3. apply lookup_insert_eq.
Qed.

(** ** A concrete registry: one model, soft-deleted *)

Definition admin : User :=
  {| user_id := 1; username := "admin"; is_superuser := true; is_staff := true; user_groups := [] |}.
Definition piwind_key : key_t := ("OasisLMF", "PiWind", "1")%string.
Definition piwind (d : bool) : AnalysisModel :=
  with_options (with_deleted (new_model piwind_key admin) d admin) (Some 5) (Some 6).
Definition registry (m : AnalysisModel) : State := {|
  db := {| rows := {[4 := m]}; next_pk := 9; data_files := ∅; all_data_files := {[2]};
           files := ∅; next_file := 1;
           scaling_table := {[5 := default_scaling_options]}; next_scaling := 6;
           chunking_table := {[6 := default_chunking_options]}; next_chunking := 7;
           user_db := {| users := [admin]; system_user_cache := None; next_user_id := 2 |} |};
  pk := None; self := m |}.

Lemma registry_ok m : db_ok (db (registry m)).
Proof.
  split; cbn.
  - intros i j r r' [<- _]%lookup_singleton_Some [<- _]%lookup_singleton_Some _. done.
  - intros i r [<- _]%lookup_singleton_Some. lia.
Qed.

(** The schema of the example accepts objects. *)
Definition accept_objects (j : json) : result json :=
  match j with JObj _ => Ok j | _ => Raise (ValidationError (DetailList ["not an object"%string])) end.
Definition store_ok (j : json) : result unit := Ok tt.
Definition piwind_settings : json := JObj [("model_run_mode"%string, JStr "v2")].

Lemma run_register_worker_available_witness :
  let s' := exec (run_register_worker accept_objects store_ok piwind_key piwind_settings JNull) (registry (piwind true)) in
  (deleted <$> rows (db (registry (piwind true))) !! 4) = Some true
  ∧ ∃ i r, pk_of (db (registry (piwind true))) piwind_key i ∧ rows (db s') !! i = Some r
      ∧ key r = piwind_key ∧ deleted r = false ∧ db_ok (db s').
Proof.
  split; [vm_compute; reflexivity|].
  apply (run_register_worker_available accept_objects store_ok piwind_key piwind_settings JNull (registry (piwind true))).
  apply registry_ok.
Defined.

Lemma run_register_worker_v2_available_witness :
  let s' := exec (run_register_worker_v2 accept_objects store_ok piwind_key piwind_settings JNull JNull)
              (registry (piwind false)) in
  ∃ i r, pk_of (db (registry (piwind false))) piwind_key i ∧ rows (db s') !! i = Some r
      ∧ key r = piwind_key ∧ deleted r = false ∧ db_ok (db s').
Proof.
  apply (run_register_worker_v2_available accept_objects store_ok piwind_key piwind_settings JNull JNull
           (registry (piwind false))).
  - apply registry_ok.
  - intros j r Hr _. cbn in Hr. apply lookup_singleton_Some in Hr as [_ <-]. reflexivity.
Defined.

Lemma run_register_worker_v2_dead_witness :
  ∃ s', run_register_worker_v2 accept_objects store_ok piwind_key piwind_settings JNull JNull (registry (piwind true))
          = (Ok tt, s')
      ∧ rows (db s') = rows (db (registry (piwind true))).
Proof.
  apply (run_register_worker_v2_dead accept_objects store_ok piwind_key piwind_settings JNull JNull
           (registry (piwind true)) 4 (piwind true)); [apply registry_ok|vm_compute; reflexivity..].
Defined.

Lemma create_view_restores_witness :
  ∃ s', create_view store_ok (λ _, Raise TypeError) (Some piwind_key)
          {| req_user := Some ann; req_data_files := Some {[2; 3]} |} (registry (piwind true)) = (Ok tt, s')
      ∧ rows (db s') = <[4 := with_deleted (piwind true) false ann]> (rows (db (registry (piwind true)))).
Proof.
  apply (create_view_restores store_ok (λ _, Raise TypeError) piwind_key
    {| req_user := Some ann; req_data_files := Some {[2; 3]} |} ann (registry (piwind true)) 4 (piwind true));
    [apply registry_ok|vm_compute; reflexivity..|eexists; vm_compute; reflexivity|eexists; vm_compute; reflexivity].
Defined.

Definition second_version : State :=
  {| db := db (registry (piwind false)); pk := None;
     self := new_model ("OasisLMF", "PiWind", "2")%string admin |}.

Lemma save_attaches_options_witness :
  let s' := exec (save AllFields) second_version in
  stored s' ∧ has_options s' (self s').
Proof.
  destruct (save_attaches_options second_version (exec (save AllFields) second_version)) as (H1 & H2 & _).
  - split; intros ? [=].
  - vm_compute. reflexivity.
  - split; [exact H1|exact H2].
Defined.
