(* ===== verification/Analysis.v ===== *)
(** * The life of an analysis

    [Analysis] and [AnalysisQuerySet] of analyses/models.py: the checks before
    an analysis is dispatched, the dispatch of its V1 and V2 tasks, the
    cancellation and the copy of an analysis, and the endpoints of
    analyses/v2_api/viewsets.py that call them.

    A run works on the table of analyses, on one instance in memory ([self]) and
    on what it sends to the broker. The n-th call to the broker is answered by
    [send]. Between two of its own database writes other processes write too:
    [others] holds what they do to the table during each coming broker call. *)

From S2P Require Import Prelude PyData ModelOptions Groups.
Local Open Scope Z_scope.

(** ** Data *)

Inductive status_choices :=
  | NEW
  | INPUTS_GENERATION_ERROR
  | INPUTS_GENERATION_NO_KEYS
  | INPUTS_GENERATION_CANCELLED
  | INPUTS_GENERATION_STARTED
  | INPUTS_GENERATION_QUEUED
  | READY
  | RUN_QUEUED
  | RUN_STARTED
  | RUN_COMPLETED
  | RUN_CANCELLED
  | RUN_ERROR.
#[export] Instance status_choices_eq_dec : EqDecision status_choices.
Proof. solve_decision. Defined.

Definition status_name (s : status_choices) : string :=
  match s with
  | NEW => "NEW"
  | INPUTS_GENERATION_ERROR => "INPUTS_GENERATION_ERROR"
  | INPUTS_GENERATION_NO_KEYS => "INPUTS_GENERATION_NO_KEYS"
  | INPUTS_GENERATION_CANCELLED => "INPUTS_GENERATION_CANCELLED"
  | INPUTS_GENERATION_STARTED => "INPUTS_GENERATION_STARTED"
  | INPUTS_GENERATION_QUEUED => "INPUTS_GENERATION_QUEUED"
  | READY => "READY"
  | RUN_QUEUED => "RUN_QUEUED"
  | RUN_STARTED => "RUN_STARTED"
  | RUN_COMPLETED => "RUN_COMPLETED"
  | RUN_CANCELLED => "RUN_CANCELLED"
  | RUN_ERROR => "RUN_ERROR"
  end.

Definition INPUTS_GENERATION_VALID_STATUSES : list status_choices :=
  [NEW; INPUTS_GENERATION_ERROR; INPUTS_GENERATION_NO_KEYS; INPUTS_GENERATION_CANCELLED;
   READY; RUN_COMPLETED; RUN_CANCELLED; RUN_ERROR].
Definition RUN_VALID_STATUSES : list status_choices :=
  [READY; RUN_COMPLETED; RUN_ERROR; RUN_CANCELLED].

(** A stored file: its storage link and, when it is read as JSON, its document
    or the exception reading raises. *)
Record RelatedFile := {
  file_pk : Z;
  file_link : string;
  file_name : string;
  file_json : result json;
}.

(** The model of an analysis, as far as the analysis uses it; [model_name] is
    [str(model)], the name of its queue. *)
Record Model := {
  model_pk : Z;
  model_name : string;
  model_deleted : bool;
  model_run_mode : option string;
  model_resource_file : option RelatedFile;
  model_chunking_options : ModelChunkingOptions;
  model_scaling_options : option ModelScalingOptions;
  model_groups : list string;
}.

(** The portfolio; [location_file_len] is the outcome of the method. *)
Record Portfolio := {
  location_file : option RelatedFile;
  accounts_file : option RelatedFile;
  reinsurance_info_file : option RelatedFile;
  reinsurance_scope_file : option RelatedFile;
  currency_conversion_json : option RelatedFile;
  reporting_currency : option string;
  location_file_len : result Z;
}.

Record Analysis := {
  name : string;
  portfolio : Portfolio;
  model : option Model;
  status : status_choices;
  run_mode : option string;
  task_started : option Z;
  task_finished : option Z;
  run_task_id : string;
  generate_inputs_task_id : string;
  complex_model_data_files : list RelatedFile;
  settings_file : option RelatedFile;
  input_file : option RelatedFile;
  input_generation_traceback_file : option RelatedFile;
  output_file : option RelatedFile;
  run_traceback_file : option RelatedFile;
  run_log_file : option RelatedFile;
  lookup_errors_file : option RelatedFile;
  lookup_success_file : option RelatedFile;
  lookup_validation_file : option RelatedFile;
  summary_levels_file : option RelatedFile;
  analysis_chunks : option Z;
  lookup_chunks : option Z;
  priority : Z;
  (** The primary key of the analysis' own options, and their row. *)
  chunking_options : option (Z * ModelChunkingOptions);
  num_events_total : Z;
  num_events_complete : Z;
}.

(** A call of a Celery task: arguments and keyword arguments are JSON; the empty
    queue is the default one of the task. *)
Record Signature := {
  sig_task : string;
  sig_args : list json;
  sig_kwargs : list (string * json);
  sig_queue : string;
}.

(** What is sent to the broker: a task with its callbacks, or a revocation. *)
Inductive message :=
  | Apply (task : Signature) (task_priority : option Z) (link link_error : option Signature)
  | Revoke (task_id : string).

Record State := {
  table : gmap Z Analysis;
  next_pk : Z;
  next_file : Z;
  pk : option Z;
  self : Analysis;
  sent : list message;
  others : list (gmap Z Analysis → gmap Z Analysis);
  now : Z;
}.

#[export] Instance Analysis_settable : Settable Analysis := λ a, {|
  name := name a; portfolio := portfolio a; model := model a; status := status a; run_mode := run_mode a;
  task_started := task_started a; task_finished := task_finished a; run_task_id := run_task_id a;
  generate_inputs_task_id := generate_inputs_task_id a;
  complex_model_data_files := complex_model_data_files a; settings_file := settings_file a;
  input_file := input_file a; input_generation_traceback_file := input_generation_traceback_file a;
  output_file := output_file a; run_traceback_file := run_traceback_file a; run_log_file := run_log_file a;
  lookup_errors_file := lookup_errors_file a; lookup_success_file := lookup_success_file a;
  lookup_validation_file := lookup_validation_file a; summary_levels_file := summary_levels_file a;
  analysis_chunks := analysis_chunks a; lookup_chunks := lookup_chunks a; priority := priority a;
  chunking_options := chunking_options a; num_events_total := num_events_total a;
  num_events_complete := num_events_complete a |}.
#[export] Instance State_settable : Settable State := λ s, {|
  table := table s; next_pk := next_pk s; next_file := next_file s; pk := pk s; self := self s;
  sent := sent s; others := others s; now := now s |}.

Definition set_self (f : Analysis → Analysis) : M State unit :=
  modify (λ s, s <| self := f (self s) |>).

(** ** Checks *)

(** The dict [errors]. *)
Definition errors_t : Type := gmap string (list string).
Definition invalid (errors : errors_t) : exn := ValidationError (DetailDict errors).

Definition get_chunking_options (a : Analysis) (m : Model) : ModelChunkingOptions :=
  match chunking_options a with Some (_, o) => o | None => model_chunking_options m end.

(** [validate_standard_analysis]: it returns the model the other checks read. *)
Definition validate_standard_analysis (a : Analysis) : result Model :=
  match model a with
  | None => Raise (invalid {["model" := ["Model not assigned to analysis"%string]]})
  | Some m => Ok m
  end.

(** [resolve_run_mode]. *)
Definition resolve_run_mode (m : Model) (run_mode_override : option string) : result string :=
  match model_run_mode m, run_mode_override with
  | None, None => Raise (invalid {["model" := ["run_mode must not be null"%string]]})
  | of_model, override =>
      let mode := match override with
                  | None | Some EmptyString => of_model
                  | Some o => Some o
                  end in
      match mode with
      | Some o => if String.eqb o "V1" || String.eqb o "V2" then Ok o
                  else Raise (invalid {["run_mode" := ["run_mode must be  [V1, V2]"%string]]})
      | None => Raise (invalid {["run_mode" := ["run_mode must be  [V1, V2]"%string]]})
      end
  end.

(** [validate_v2_location_file]: the row count, and the errors. *)
Definition validate_v2_location_file (a : Analysis) (m : Model) (errors : errors_t) : option Z * errors_t :=
  match location_file (portfolio a) with
  | Some _ =>
      match location_file_len (portfolio a) with
      | Raise _ => (None, <["portfolio" := ["Failed to read location file size for chunking"%string]]> errors)
      | Ok n => (Some n, if n <? 1 then <["portfolio" := ["location_file must at least one row"%string]]> errors
                         else errors)
      end
  | None =>
      (None, if bool_decide (lookup_strategy (get_chunking_options a m) = DYNAMIC_CHUNKS)
             then <["portfolio" := ["location_file must not be null for run_mode = V2 when the lookup chunking strategy is DYNAMIC_CHUNKS"%string]]> errors
             else errors)
  end.

(** [validate_input_generation]. *)
Definition validate_input_generation (a : Analysis) (m : Model) (mode : string) (errors : errors_t)
    : option Z * errors_t :=
  if String.eqb mode "V1" then
    (None, match location_file (portfolio a), accounts_file (portfolio a) with
           | None, None =>
               <["portfolio" := ["Either location_file or accounts_file must not be null for run_mode = V1"%string]]> errors
           | _, _ => errors
           end)
  else validate_v2_location_file a m errors.

(** [j.get(k1, {}).get(k2, d)]. *)
Definition get2 (j : json) (k1 k2 : string) (d : json) : result json :=
  i ← py_get_or j k1 (JObj []); py_get_or i k2 d.

(** [[opt for opt in options if opt.get('id') == selected]]. *)
Fixpoint options_matching (selected : json) (options : list json) : result (list json) :=
  match options with
  | [] => Ok []
  | opt :: options =>
      i ← py_get opt "id";
      rest ← options_matching selected options;
      Ok (if py_eq (default JNull i) selected then opt :: rest else rest)
  end.

(** The cross check of the settings in [validate_loss_generation]. *)
Definition check_event_set (model_settings analysis_settings : json) (errors : errors_t) : result errors_t :=
  ids ← py_get analysis_settings "event_ids";
  if truthy (default JNull ids) then Ok errors else
  events_selected ← get2 analysis_settings "model_settings" "event_set" (JStr EmptyString);
  event_set ← get2 model_settings "model_settings" "event_set" (JObj []);
  events_options ← py_get_or event_set "options" (JList []);
  options ← py_iter events_options;
  events_matched ← options_matching events_selected options;
  let errors := if truthy events_selected then errors
    else <["analysis_settings_file" := ["event_set, Must not be null for Dynamic chunking"%string]]> errors in
  let errors := if truthy events_options then errors
    else <["model_settings_file" := ["event_set, No options given in Model settings"%string]]> errors in
  match events_matched with
  | [] => Ok (<["settings_files" := ["selected event_set from analysis_settings not found in model_settings"%string]]> errors)
  | matched :: _ =>
      n ← py_get matched "number_of_events";
      Ok (if truthy (default JNull n) then errors
          else <["model_settings_file" := ["Option number_of_events is not set for event_set"%string]]> errors)
  end.

(** [validate_loss_generation]. *)
Definition validate_loss_generation (a : Analysis) (m : Model) (mode : string) (errors : errors_t) : result errors_t :=
  if negb (String.eqb mode "V2") then Ok errors
  else if negb (bool_decide (loss_strategy (get_chunking_options a m) = DYNAMIC_CHUNKS)) then Ok errors
  else
    match model_resource_file m with
    | None => Ok (<["model_settings_file" := ["Must not be null for Dynamic chunking"%string]]> errors)
    | Some resource =>
        match settings_file a with
        | None => Ok errors
        | Some settings =>
            model_settings ← file_json resource;
            analysis_settings ← file_json settings;
            check_event_set model_settings analysis_settings errors
        end
    end.

(** The sizes of the event sets of a model: [{e['id']: e['number_of_events'] for e
    in options if 'number_of_events' in e}]. *)
Fixpoint event_set_sizes (options : list json) : result (list (json * json)) :=
  match options with
  | [] => Ok []
  | e :: options =>
      has ← py_in "number_of_events" e;
      if has : bool then
        i ← (py_item e "id" ≫= py_hashable);
        n ← py_item e "number_of_events";
        rest ← event_set_sizes options;
        Ok ((i, n) :: rest)
      else event_set_sizes options
  end.

(** The value a dict built from these pairs has for a key: the last one. *)
Definition dict_lookup (k : json) (kvs : list (json * json)) : option json :=
  snd <$> last (List.filter (λ '(k', _), py_eq k' k) kvs).

(** A file that is read without a check that it is there. *)
Definition read_json (f : option RelatedFile) : result json :=
  match f with Some f => file_json f | None => Raise AttributeError end.

(** [get_num_events]. *)
Definition get_num_events (a : Analysis) (m : Model) : result (option json) :=
  if negb (bool_decide (loss_strategy (get_chunking_options a m) = DYNAMIC_CHUNKS)) then Ok None
  else
    analysis_settings ← read_json (settings_file a);
    model_settings ← read_json (model_resource_file m);
    user_selected_events ← py_get_or analysis_settings "event_ids" (JList []);
    selected_event_set ← get2 analysis_settings "model_settings" "event_set" (JStr EmptyString);
    n ← py_len user_selected_events;
    if 1 <? n then Ok (Some (JInt n)) else
    event_set ← get2 model_settings "model_settings" "event_set" JNull;
    event_set_options ← py_get_or event_set "options" (JList []);
    options ← py_iter event_set_options;
    sizes ← event_set_sizes options;
    selected ← py_hashable selected_event_set;
    match dict_lookup selected sizes with
    | None => Raise (ValidationError (DetailList ["Failed to read event set size for chunking"%string]))
    | Some n => Ok (Some n)
    end.

(** ** Writes *)

(** [self.save()]. The only unique column besides the key is the reference to
    the analysis' own chunking options. *)
Definition options_taken (t : gmap Z Analysis) (own : option Z) (a : Analysis) : bool :=
  match chunking_options a with
  | None => false
  | Some (c, _) => bool_decide (map_Exists (λ i r, own ≠ Some i ∧ (fst <$> chunking_options r) = Some c) t)
  end.

Definition save : M State unit :=
  s ← get_state;
  if options_taken (table s) (pk s) (self s) then raise IntegrityError else
  match pk s with
  | Some i => modify (λ s, s <| table := <[i := self s]> (table s) |>)
  | None => modify (λ s, s <| table := <[next_pk s := self s]> (table s) |>
                           <| pk := Some (next_pk s) |> <| next_pk := next_pk s + 1 |>)
  end.

(** [_reset_input_generation]. *)
Definition reset_input_generation : M State unit := set_self (λ a,
  a <| status := INPUTS_GENERATION_QUEUED |>
    <| lookup_errors_file := None |> <| lookup_success_file := None |>
    <| lookup_validation_file := None |> <| summary_levels_file := None |>
    <| input_generation_traceback_file := None |> <| input_file := None |>).

(** [_reset_loss_progress]. *)
Definition reset_loss_progress : M State unit := set_self (λ a,
  a <| num_events_total := 0 |> <| num_events_complete := 0 |>).

(** The storage link of a file, as a task argument. *)
Definition link (f : option RelatedFile) : json :=
  match f with Some f => JStr (file_link f) | None => JNull end.

(** [create_complex_model_data_file_dicts]. *)
Definition complex_data_file_dicts (a : Analysis) : json :=
  JList ((λ f, JObj [("stored_filename"%string, JStr (file_link f)); ("original_filename"%string, JStr (file_name f))])
           <$> complex_model_data_files a).

Definition pk_json (k : option Z) : json := match k with Some i => JInt i | None => JNull end.
Definition option_json (j : option json) : json := default JNull j.

(** [v1_run_analysis_signature]. *)
Definition v1_run_analysis_signature (k : option Z) (a : Analysis) (m : Model) : Signature := {|
  sig_task := "run_analysis";
  sig_args := [pk_json k; link (input_file a); link (settings_file a); complex_data_file_dicts a];
  sig_kwargs := []; sig_queue := model_name m |}.

(** [v1_generate_input_signature]. *)
Definition v1_generate_input_signature (k : option Z) (a : Analysis) (m : Model) : Signature :=
  let p := portfolio a in
  let base := [pk_json k; link (location_file p); link (accounts_file p); link (reinsurance_info_file p);
               link (reinsurance_scope_file p); link (settings_file a); complex_data_file_dicts a] in
  {| sig_task := "generate_input";
     sig_args := match currency_conversion_json p, reporting_currency p with
                 | Some c, Some (String x r) => base ++ [link (Some c); JStr (String x r)]
                 | _, _ => base
                 end;
     sig_kwargs := []; sig_queue := model_name m |}.

Section broker.
(** The n-th call to the broker: the id of the task it queues, or a failure. *)
Context (send : nat → result string).
(** [worker.TASK_CONTROLLER_QUEUE]. *)
Context (controller_queue : string).

(** A call to the broker. Other processes write while it is on its way. *)
Definition broker (msg : message) : M State string := λ s,
  match send (length (sent s)) with
  | Raise e => (Raise e, s)
  | Ok task_id =>
      (Ok task_id,
       s <| sent := sent s ++ [msg] |>
         <| table := match others s with f :: _ => f (table s) | [] => table s end |>
         <| others := drop 1 (others s) |>)
  end.

Definition v2_signature (task : string) (args : list json) : Signature :=
  {| sig_task := task; sig_args := args; sig_kwargs := []; sig_queue := controller_queue |}.

(** [_dispatch_v1]. *)
Definition dispatch_v1 (task : Signature) (m : Model) (initiator : Z)
    (success_callback failure_callback_name : string) : M State string :=
  s ← get_state;
  let on_success := {| sig_task := success_callback; sig_args := [pk_json (pk s); JInt initiator];
                       sig_kwargs := []; sig_queue := EmptyString |} in
  let on_error := {| sig_task := "on_error";
                     sig_args := [JStr failure_callback_name; pk_json (pk s); JInt initiator];
                     sig_kwargs := []; sig_queue := model_name m |} in
  set_self (λ a, a <| run_mode := Some "V1"%string |>);;
  broker (Apply task None (Some on_success) (Some on_error)).

(** [_dispatch_v2]. *)
Definition dispatch_v2 (task : string) (initiator : Z) (args : list json)
    (traceback_property : string) (failure_status : status_choices) : M State string :=
  s ← get_state;
  let on_error := {| sig_task := "handle_task_failure"; sig_args := [];
                     sig_kwargs := [("analysis_id"%string, pk_json (pk s)); ("initiator_id"%string, JInt initiator);
                                    ("traceback_property"%string, JStr traceback_property);
                                    ("failure_status"%string, JStr (status_name failure_status))];
                     sig_queue := "celery-v2" |} in
  set_self (λ a, a <| run_mode := Some "V2"%string |>);;
  broker (Apply (v2_signature task ([pk_json (pk s); JInt initiator] ++ args))
            (Some (priority (self s))) None (Some on_error)).

Definition digest : Signature :=
  {| sig_task := "send_queue_status_digest"; sig_args := []; sig_kwargs := []; sig_queue := EmptyString |}.

(** [_record_dispatch]. *)
Definition record_dispatch (set_id : Analysis → Analysis) : M State unit :=
  s ← get_state;
  set_self set_id;;
  set_self (λ a, a <| task_started := Some (now s) |> <| task_finished := None |>);;
  save;;
  broker (Apply digest None None None);;
  mret tt.

Definition refuse_if (errors : errors_t) : result unit :=
  if bool_decide (errors = ∅) then Ok tt else Raise (invalid errors).

Definition status_error : errors_t := {["status" := ["Analysis must be in one of the following states"%string]]}.

(** The errors of [run] before the settings are looked at. *)
Definition run_errors (a : Analysis) (m : Model) : errors_t :=
  let errors : errors_t := if model_deleted m then {["model" := ["Model has been deleted"%string]]} else ∅ in
  let errors := match settings_file a with
                | None => <["analysis_settings_file" := ["Must not be null"%string]]> errors | Some _ => errors end in
  match input_file a with
  | None => <["input_file" := ["Must not be null"%string]]> errors | Some _ => errors end.

(** The checks of [run]: the model, the run mode and the events to run. *)
Definition check_run (a : Analysis) (override : option string) : result (Model * string * option json) :=
  m ← validate_standard_analysis a;
  if negb (bool_decide (status a ∈ RUN_VALID_STATUSES)) then Raise (invalid status_error) else
  mode ← resolve_run_mode m override;
  errors ← validate_loss_generation a m mode (run_errors a m);
  _ ← refuse_if errors;
  events_total ← (if String.eqb mode "V2" then get_num_events a m else Ok None);
  Ok (m, mode, events_total).

(** [run]. *)
Definition run (initiator : Z) (run_mode_override : option string) : M State unit :=
  s ← get_state;
  '(m, mode, events_total) ← lift (check_run (self s) run_mode_override);
  set_self (λ a, a <| status := RUN_QUEUED |>);;
  reset_loss_progress;;
  save;;
  task_id ← (if String.eqb mode "V1" then
               s ← get_state;
               dispatch_v1 (v1_run_analysis_signature (pk s) (self s) m) m initiator
                 "record_run_analysis_result" "record_run_analysis_failure"
             else dispatch_v2 "start_loss_generation_task" initiator [option_json events_total]
                    "run_traceback_file" RUN_ERROR);
  record_dispatch (λ a, a <| run_task_id := task_id |>).

Definition generation_errors (a : Analysis) (m : Model) : errors_t :=
  let errors : errors_t := if bool_decide (status a ∈ INPUTS_GENERATION_VALID_STATUSES) then ∅
    else {["status" := ["Analysis status must be one of"%string]]} in
  if model_deleted m then <["model" := ["Model has been deleted"%string]]> errors else errors.

Definition option_int (n : option Z) : json := match n with Some n => JInt n | None => JNull end.

(** The checks of [generate_inputs]: the model, the run mode, the rows. *)
Definition check_generate_inputs (a : Analysis) (override : option string) : result (Model * string * option Z) :=
  m ← validate_standard_analysis a;
  mode ← resolve_run_mode m override;
  let '(loc_lines, errors) := validate_input_generation a m mode (generation_errors a m) in
  _ ← refuse_if errors;
  Ok (m, mode, loc_lines).

(** [generate_inputs]. *)
Definition generate_inputs (initiator : Z) (run_mode_override : option string) : M State unit :=
  s ← get_state;
  '(m, mode, loc_lines) ← lift (check_generate_inputs (self s) run_mode_override);
  reset_input_generation;;
  save;;
  task_id ← (if String.eqb mode "V1" then
               s ← get_state;
               dispatch_v1 (v1_generate_input_signature (pk s) (self s) m) m initiator
                 "record_generate_input_result" "record_generate_input_failure"
             else dispatch_v2 "start_input_generation_task" initiator [option_int loc_lines]
                    "input_generation_traceback_file" INPUTS_GENERATION_ERROR);
  record_dispatch (λ a, a <| generate_inputs_task_id := task_id |>).

(** The checks of [generate_and_run]. *)
Definition check_generate_and_run (a : Analysis) : result (option Z * option json) :=
  m ← validate_standard_analysis a;
  let errors := generation_errors a m in
  let errors := if bool_decide (model_run_mode m = Some "V2"%string) then errors
    else <["model" := ["Unsupported Operation, run_mode must be V2"%string]]> errors in
  let errors := match settings_file a with
    | None => <["settings_file" := ["Must not be null"%string]]> errors | Some _ => errors end in
  let '(loc_lines, errors) := validate_input_generation a m "V2" errors in
  errors ← validate_loss_generation a m "V2" errors;
  _ ← refuse_if errors;
  events_total ← get_num_events a m;
  Ok (loc_lines, events_total).

(** [generate_and_run]. *)
Definition generate_and_run (initiator : Z) : M State unit :=
  s ← get_state;
  '(loc_lines, events_total) ← lift (check_generate_and_run (self s));
  reset_input_generation;;
  reset_loss_progress;;
  save;;
  task_id ← dispatch_v2 "start_input_and_loss_generation_task" initiator
              [option_int loc_lines; option_json events_total]
              "input_generation_traceback_file" INPUTS_GENERATION_ERROR;
  record_dispatch (λ a, a <| generate_inputs_task_id := task_id |>).

(** ** Cancellation *)

(** [cancel_subtasks]. *)
Definition cancel_subtasks : M State unit :=
  s ← get_state;
  if bool_decide (run_mode (self s) = Some "V2"%string) then
    broker (Apply (v2_signature "cancel_subtasks" [pk_json (pk s)]) (Some 1) None None);; mret tt
  else mret tt.

Definition not_running (msg : string) : exn := invalid {["status" := [msg]]}.

(** [AsyncResult(id).revoke(...)]. *)
Definition revoke (task_id : string) : M State unit := broker (Revoke task_id);; mret tt.

(** [cancel_analysis]. *)
Definition cancel_analysis : M State unit :=
  s ← get_state;
  if negb (bool_decide (status (self s) ∈ [RUN_QUEUED; RUN_STARTED]))
  then raise (not_running "Analysis execution is not running or queued") else
  revoke (run_task_id (self s));;
  set_self (λ a, a <| status := RUN_CANCELLED |> <| run_mode := None |> <| task_finished := Some (now s) |>);;
  save.

(** [cancel_generate_inputs]. *)
Definition cancel_generate_inputs : M State unit :=
  s ← get_state;
  if negb (bool_decide (status (self s) ∈ [INPUTS_GENERATION_QUEUED; INPUTS_GENERATION_STARTED]))
  then raise (not_running "Analysis input generation is not running or queued") else
  revoke (generate_inputs_task_id (self s));;
  set_self (λ a, a <| status := INPUTS_GENERATION_CANCELLED |> <| run_mode := None |>
                   <| task_finished := Some (now s) |>);;
  save.

(** [cancel_any]. *)
Definition cancel_any : M State unit :=
  s ← get_state;
  if negb (bool_decide (status (self s) ∈
       [INPUTS_GENERATION_QUEUED; INPUTS_GENERATION_STARTED; RUN_QUEUED; RUN_STARTED]))
  then raise (not_running "Analysis is not running or queued") else
  (if bool_decide (status (self s) ∈ [INPUTS_GENERATION_QUEUED; INPUTS_GENERATION_STARTED])
   then cancel_generate_inputs else mret tt);;
  s ← get_state;
  if bool_decide (status (self s) ∈ [RUN_QUEUED; RUN_STARTED]) then cancel_analysis else mret tt.

(** ** The endpoints *)

(** [_start_analysis_task]: the checks of the view, then the method. *)
Definition start_analysis_task (user : User) (start_method : M State unit) : M State unit :=
  s ← get_state;
  m ← lift (validate_standard_analysis (self s));
  lift (verify_user_is_in_obj_groups user (Some (model_groups m)) "You are not allowed to run this model");;
  lift (verify_model_scaling (model_run_mode m) (model_scaling_options m));;
  start_method.

(** POST /v2/analyses/<pk>/cancel, /cancel_analysis_run and /cancel_generate_inputs. *)
Definition may_cancel (user : User) (m : Model) : result unit :=
  verify_user_is_in_obj_groups user (Some (model_groups m)) "You are not allowed to cancel this model".
Definition cancel_view (user : User) : M State unit :=
  s ← get_state;
  lift (match model (self s) with Some m => may_cancel user m | None => Ok tt end);;
  cancel_subtasks;; cancel_any.
Definition cancel_stage_view (user : User) (cancel : M State unit) : M State unit :=
  s ← get_state;
  m ← lift (validate_standard_analysis (self s));
  lift (may_cancel user m);;
  cancel_subtasks;; cancel.
Definition cancel_analysis_run_view (user : User) : M State unit := cancel_stage_view user cancel_analysis.
Definition cancel_generate_inputs_view (user : User) : M State unit := cancel_stage_view user cancel_generate_inputs.
End broker.

(** ** Copying *)

Section copying.
(** Where the storage puts the content of a new file. *)
Context (stored_at : Z → string).

(** [copy_file]: a new file row with the content of the old one. *)
Definition copy_file (f : option RelatedFile) : M State (option RelatedFile) := λ s,
match f with
| None => (Ok None, s)
| Some f => (Ok (Some {| file_pk := next_file s; file_link := stored_at (next_file s); file_name := file_name f;
                         file_json := file_json f |}),
             s <| next_file := next_file s + 1 |>)
end.

Fixpoint string_take (n : nat) (s : string) : string :=
match n, s with
| S n, String c s => String c (string_take n s)
| _, _ => EmptyString
end.

(** [copy]: the new instance is the old one, without its key. *)
Definition copy : M State unit :=
modify (λ s, s <| pk := None |>);;
set_self (λ a, a <| name := string_take 248 (name a) +:+ " - Copy" |>
                 <| run_task_id := EmptyString |> <| generate_inputs_task_id := EmptyString |>
                 <| status := NEW |>);;
s ← get_state;
settings ← copy_file (settings_file (self s));
set_self (λ a, a <| settings_file := settings |>
                 <| input_file := None |> <| input_generation_traceback_file := None |>
                 <| output_file := None |> <| run_traceback_file := None |> <| run_log_file := None |>
                 <| lookup_errors_file := None |> <| lookup_success_file := None |>
                 <| lookup_validation_file := None |> <| summary_levels_file := None |>).

(** The first two statements of POST /v2/analyses/<pk>/copy. *)
Definition copy_view : M State unit := copy;; save.
End copying.

(** ** Combining analyses: [AnalysisQuerySet.run_combine] *)

(** [Portfolio(name=..., creator=...)] and [Analysis(name=..., portfolio=...)]. *)
Definition dummy_portfolio : Portfolio := {|
  location_file := None; accounts_file := None; reinsurance_info_file := None; reinsurance_scope_file := None;
  currency_conversion_json := None; reporting_currency := None; location_file_len := Raise AttributeError |}.
Definition new_analysis (n : string) (p : Portfolio) : Analysis := {|
  name := n; portfolio := p; model := None; status := NEW; run_mode := None;
  task_started := None; task_finished := None;
  run_task_id := EmptyString; generate_inputs_task_id := EmptyString;
  complex_model_data_files := []; settings_file := None;
  input_file := None; input_generation_traceback_file := None; output_file := None;
  run_traceback_file := None; run_log_file := None; lookup_errors_file := None;
  lookup_success_file := None; lookup_validation_file := None; summary_levels_file := None;
  analysis_chunks := None; lookup_chunks := None; priority := 4; chunking_options := None;
  num_events_total := 0; num_events_complete := 0 |}.

(** [errors[k].append(msg)] on a [defaultdict(list)]. *)
Definition append_error (k msg : string) (errors : errors_t) : errors_t :=
  <[k := default [] (errors !! k) ++ [msg]]> errors.

Definition combine_errors (selected : list (Z * Analysis)) : errors_t :=
  let valid := List.filter (λ '(_, a), bool_decide (status a = RUN_COMPLETED)) selected in
  let errors : errors_t := if (length valid =? length selected)%nat then ∅
    else append_error "status" "Analyses status must be [RUN_COMPLETED]" ∅ in
  foldl (λ errors '(i, a),
    let errors := match input_file a with
      | None => append_error "input_file" ("Analysis ID " +:+ pretty i +:+ " does not have an input file") errors
      | Some _ => errors end in
    match output_file a with
    | None => append_error "output_file" ("Analysis ID " +:+ pretty i +:+ " does not have an output_file") errors
    | Some _ => errors end) errors valid.

(** [request] is the data of the request; [user] the key of its user. The new
    analysis becomes [self]. *)
Definition run_combine (send : nat → result string) (selected : list (Z * Analysis)) (request : json) (user : Z)
    : M State unit :=
  let valid := List.filter (λ '(_, a), bool_decide (status a = RUN_COMPLETED)) selected in
  lift (refuse_if (combine_errors selected));;
  n ← lift (py_item request "name" ≫= py_str);
  modify (λ s, s <| pk := None |> <| self := new_analysis n dummy_portfolio |>);;
  save;;
  config ← lift (py_item request "config");
  s ← get_state;
  let combine := {| sig_task := "run_combine";
    sig_args := [JList ((λ '(_, a), link (input_file a)) <$> valid); JList ((λ '(_, a), link (output_file a)) <$> valid); config];
    sig_kwargs := []; sig_queue := "oasis-internal-worker" |} in
  let record := {| sig_task := "record_combine_output"; sig_args := [pk_json (pk s); JInt user];
    sig_kwargs := []; sig_queue := EmptyString |} in
  task_id ← broker send (Apply combine (Some 10) (Some record) None);
  set_self (λ a, a <| status := RUN_STARTED |> <| run_task_id := task_id |>
                   <| task_started := Some (now s) |> <| task_finished := None |>);;
  save.

(** ** What a start does *)

(** The table after the other processes' turn during a broker call. *)
Definition turn (os : list (gmap Z Analysis → gmap Z Analysis)) (t : gmap Z Analysis) : gmap Z Analysis :=
  match os with f :: _ => f t | [] => t end.

(** The analysis [i] is the only one that refers to the options row of [a]. *)
Definition free (i : Z) (a : Analysis) (t : gmap Z Analysis) : Prop :=
  ∀ c x j r, chunking_options a = Some (c, x) → t !! j = Some r → (fst <$> chunking_options r) = Some c → j = i.

(** The instance is the saved analysis [i], and nobody else takes its options. *)
Definition undisturbed (i : Z) (s : State) : Prop :=
  pk s = Some i ∧ free i (self s) (table s)
  ∧ Forall (λ f, ∀ t, free i (self s) t → free i (self s) (f t)) (others s).

Lemma free_not_taken i a t : free i a t → options_taken t (Some i) a = false.
Proof.
  intros Hf. unfold options_taken. destruct (chunking_options a) as [[c x]|] eqn:E; [|done].
  apply bool_decide_eq_false. intros (j & r & Hj & Hne & Hr). apply Hne. f_equal. symmetry. by eapply Hf.
Qed.

Lemma save_eq i s : undisturbed i s →
  save s = (Ok tt, s <| table := <[i := self s]> (table s) |>).
Proof.
  intros (Hpk & Hf & _). unfold save. run. rewrite Hpk, (free_not_taken i) by done. cbn. rewrite Hpk.
  done.
Qed.

Lemma broker_eq send ids msg s : (∀ n, send n = Ok (ids n)) →
  broker send msg s = (Ok (ids (length (sent s))),
    s <| sent := sent s ++ [msg] |> <| table := turn (others s) (table s) |> <| others := drop 1 (others s) |>).
Proof. intros Hs. unfold broker. by rewrite Hs. Qed.

Lemma undisturbed_self i s (f : Analysis → Analysis) :
  chunking_options (f (self s)) = chunking_options (self s) →
  undisturbed i s → undisturbed i (s <| self := f (self s) |>).
Proof.
  intros Hf (Hpk & Hfree & Ho). split; [done|]. unfold free in *. cbn. by rewrite Hf.
Qed.

Lemma undisturbed_save i s : undisturbed i s → undisturbed i (s <| table := <[i := self s]> (table s) |>).
Proof.
  intros (Hpk & Hfree & Ho). split; [done|]. split; [|done]. cbn.
  intros c x j r Hc Hj Hr. apply lookup_insert_Some in Hj as [[<- _]|[_ Hj]]; [done|]. by eapply Hfree.
Qed.

Lemma undisturbed_turn i s l : undisturbed i s →
  undisturbed i (s <| sent := l |> <| table := turn (others s) (table s) |> <| others := drop 1 (others s) |>).
Proof.
  intros (Hpk & Hfree & Ho). split; [done|]. cbn. destruct (others s) as [|f os]; cbn; [by split|].
  apply Forall_cons in Ho as [Hf Ho]. split; [by apply Hf|by rewrite drop_0].
Qed.

Lemma broker_answer send msg s :
  broker send msg s = match send (length (sent s)) with
    | Raise e => (Raise e, s)
    | Ok x => (Ok x, s <| sent := sent s ++ [msg] |> <| table := turn (others s) (table s) |> <| others := drop 1 (others s) |>)
    end.
Proof. done. Qed.

(** The rest of a start, from the first save on, whatever the broker answers. Without an
    answer to the task the analysis stays as it was saved, and nothing is sent. With one, the
    instance ends as it was with the run mode, the task id and the times set, and is
    saved; the digest is sent after that, if the broker answers again. *)
Lemma start_steps send i s mode msg dispatch (set_id : string → Analysis → Analysis) :
  (let s1 := s <| table := <[i := self s]> (table s) |> in
   dispatch s1 = (set_self (λ a, a <| run_mode := Some mode |>);; broker send msg) s1) →
  undisturbed i s →
  (∀ x a, chunking_options (set_id x a) = chunking_options a) →
  (save;;
   task_id ← dispatch;
   record_dispatch send (set_id task_id)) s
  = match send (length (sent s)) with
    | Raise e => (Raise e, s <| table := <[i := self s]> (table s) |> <| self := self s <| run_mode := Some mode |> |>)
    | Ok x =>
        let a := set_id x (self s <| run_mode := Some mode |>) <| task_started := Some (now s) |> <| task_finished := None |> in
        let s' := s <| self := a |> <| table := <[i := a]> (turn (others s) (<[i := self s]> (table s))) |>
                    <| sent := sent s ++ [msg] |> <| others := drop 1 (others s) |> in
        match send (S (length (sent s))) with
        | Raise e => (Raise e, s')
        | Ok _ => (Ok tt, s' <| table := turn (drop 1 (others s)) (table s') |>
                            <| sent := sent s ++ [msg; Apply digest None None None] |> <| others := drop 2 (others s) |>)
        end
    end.
Proof.
  intros Hd Hu Hid. unfold record_dispatch. unfold mbind at 1, M_bind at 1. rewrite (save_eq i) by done.
  apply undisturbed_save in Hu. cbn zeta in Hd. set (s1 := s <| table := _ |>) in *.
  unfold mbind at 1, M_bind at 1. rewrite Hd. clear Hd.
  unfold set_self, modify, get_state, mret, M_ret, mbind, M_bind. rewrite broker_answer.
  assert (undisturbed i (s1 <| self := self s1 <| run_mode := Some mode |> |>)) as Hu2
    by by apply (undisturbed_self i s1 (λ a, a <| run_mode := Some mode |>)).
  change (sent (s1 <| self := self s1 <| run_mode := Some mode |> |>)) with (sent s).
  destruct (send (length (sent s))) as [x|e] eqn:E1; [|done].
  apply (undisturbed_turn i _ (sent s1 ++ [msg])) in Hu2.
  match type of Hu2 with undisturbed i ?t => set (s2 := t) in * end.
  assert (undisturbed i (s2 <| self := set_id x (self s2) <| task_started := Some (now s) |> <| task_finished := None |> |>)) as Hu3.
  { apply (undisturbed_self i s2 (λ a, set_id x a <| task_started := Some (now s) |> <| task_finished := None |>)); [apply Hid|done]. }
  match goal with |- context [save ?t] => rewrite (save_eq i t (Hu3 : undisturbed i t)) end.
  rewrite broker_answer. cbn -[length]. rewrite length_app. change (length [msg]) with 1%nat. rewrite Nat.add_comm. cbn [Nat.add].
  destruct (send (S (length (sent s)))); [|done]. rewrite <- app_assoc, drop_drop. done.
Qed.
(** With a broker that answers. *)
Lemma start_tail send ids i s mode msg dispatch (set_id : string → Analysis → Analysis) :
  (let s1 := s <| table := <[i := self s]> (table s) |> in
   dispatch s1 = (set_self (λ a, a <| run_mode := Some mode |>);; broker send msg) s1) →
  undisturbed i s → (∀ n, send n = Ok (ids n)) →
  (∀ x a, chunking_options (set_id x a) = chunking_options a) →
  (save;;
   task_id ← dispatch;
   record_dispatch send (set_id task_id)) s
  = let a := set_id (ids (length (sent s))) (self s <| run_mode := Some mode |>)
               <| task_started := Some (now s) |> <| task_finished := None |> in
    (Ok tt, s <| self := a |>
              <| table := turn (drop 1 (others s)) (<[i := a]> (turn (others s) (<[i := self s]> (table s)))) |>
              <| sent := sent s ++ [msg; Apply digest None None None] |>
              <| others := drop 2 (others s) |>).
Proof. intros Hd Hu Hs Hid. rewrite (start_steps send i s mode msg dispatch set_id) by done. by rewrite !Hs. Qed.

Definition queued_run (mode task_id : string) (t : Z) (a : Analysis) : Analysis :=
  a <| status := RUN_QUEUED |> <| num_events_total := 0 |> <| num_events_complete := 0 |>
    <| run_mode := Some mode |> <| run_task_id := task_id |>
    <| task_started := Some t |> <| task_finished := None |>.

Definition queued_inputs (mode task_id : string) (t : Z) (a : Analysis) : Analysis :=
  a <| status := INPUTS_GENERATION_QUEUED |>
    <| lookup_errors_file := None |> <| lookup_success_file := None |>
    <| lookup_validation_file := None |> <| summary_levels_file := None |>
    <| input_generation_traceback_file := None |> <| input_file := None |>
    <| run_mode := Some mode |> <| generate_inputs_task_id := task_id |>
    <| task_started := Some t |> <| task_finished := None |>.

(** ** Starting a run, the generation of inputs, or both *)

Lemma resolve_run_mode_mode m override mode :
  resolve_run_mode m override = Ok mode → mode = "V1"%string ∨ mode = "V2"%string.
Proof.
  unfold resolve_run_mode. intros H.
  repeat match type of H with context [match ?x with _ => _ end] =>
    destruct x eqn:?; simplify_eq; try done end;
  match goal with E : _ || _ = true |- _ => apply orb_true_iff in E as [E|E]; apply String.eqb_eq in E; auto end.
Qed.

Lemma check_run_mode a override m mode events :
  check_run a override = Ok (m, mode, events) → mode = "V1"%string ∨ mode = "V2"%string.
Proof.
  unfold check_run. intros H. apply bind_Ok in H as (m' & _ & H).
  destruct (negb _); [done|]. apply bind_Ok in H as (mode' & Hm & H).
  apply bind_Ok in H as (? & _ & H). apply bind_Ok in H as (? & _ & H). apply bind_Ok in H as (? & _ & H).
  simplify_eq. by eapply resolve_run_mode_mode.
Qed.

Lemma check_generate_inputs_mode a override m mode rows :
  check_generate_inputs a override = Ok (m, mode, rows) → mode = "V1"%string ∨ mode = "V2"%string.
Proof.
  unfold check_generate_inputs. intros H. apply bind_Ok in H as (m' & _ & H).
  apply bind_Ok in H as (mode' & Hm & H). destruct (validate_input_generation _ _ _ _).
  apply bind_Ok in H as (? & _ & H). simplify_eq. by eapply resolve_run_mode_mode.
Qed.

Section messages.
Context (controller_queue : string).

(** The messages of the three starts. *)
Definition v1_message (task : Signature) (i initiator : Z) (m : Model) (success failure : string) : message :=
  Apply task None
    (Some {| sig_task := success; sig_args := [JInt i; JInt initiator]; sig_kwargs := []; sig_queue := EmptyString |})
    (Some {| sig_task := "on_error"; sig_args := [JStr failure; JInt i; JInt initiator];
             sig_kwargs := []; sig_queue := model_name m |}).
Definition v2_message (task : string) (i initiator prio : Z) (args : list json)
    (traceback : string) (failure : status_choices) : message :=
  Apply (v2_signature controller_queue task ([JInt i; JInt initiator] ++ args)) (Some prio) None
    (Some {| sig_task := "handle_task_failure"; sig_args := [];
             sig_kwargs := [("analysis_id", JInt i); ("initiator_id", JInt initiator);
                            ("traceback_property", JStr traceback);
                            ("failure_status", JStr (status_name failure))]%string;
             sig_queue := "celery-v2" |}).

Definition run_message (i initiator : Z) (a : Analysis) (m : Model) (mode : string) (events : option json) : message :=
  if String.eqb mode "V1" then
    v1_message (v1_run_analysis_signature (Some i) a m) i initiator m
      "record_run_analysis_result" "record_run_analysis_failure"
  else v2_message "start_loss_generation_task" i initiator (priority a) [option_json events] "run_traceback_file" RUN_ERROR.
Definition inputs_message (i initiator : Z) (a : Analysis) (m : Model) (mode : string) (rows : option Z) : message :=
  if String.eqb mode "V1" then
    v1_message (v1_generate_input_signature (Some i) a m) i initiator m
      "record_generate_input_result" "record_generate_input_failure"
  else v2_message "start_input_generation_task" i initiator (priority a) [option_int rows]
         "input_generation_traceback_file" INPUTS_GENERATION_ERROR.

End messages.

(** The state after a start of the analysis [i]: [q] is what it was saved as
    first, [a] what it is in the end. *)
Definition started (i : Z) (q a : Analysis) (msg : message) (s s' : State) : Prop :=
  self s' = a
  ∧ table s' = turn (drop 1 (others s)) (<[i := a]> (turn (others s) (<[i := q]> (table s))))
  ∧ sent s' = sent s ++ [msg; Apply digest None None None]
  ∧ pk s' = Some i.

(** A run, step by step. *)
Lemma run_steps send controller_queue i initiator override s :
  undisturbed i s →
  run send controller_queue initiator override s =
  match check_run (self s) override with
  | Raise e => (Raise e, s)
  | Ok (m, mode, events) =>
      let q := self s <| status := RUN_QUEUED |> <| num_events_total := 0 |> <| num_events_complete := 0 |> in
      let msg := run_message controller_queue i initiator (self s) m mode events in
      match send (length (sent s)) with
      | Raise e => (Raise e, s <| table := <[i := q]> (table s) |> <| self := q <| run_mode := Some mode |> |>)
      | Ok x =>
          let a := queued_run mode x (now s) (self s) in
          let s' := s <| self := a |> <| table := <[i := a]> (turn (others s) (<[i := q]> (table s))) |>
                      <| sent := sent s ++ [msg] |> <| others := drop 1 (others s) |> in
          match send (S (length (sent s))) with
          | Raise e => (Raise e, s')
          | Ok _ => (Ok tt, s' <| table := turn (drop 1 (others s)) (table s') |>
                              <| sent := sent s ++ [msg; Apply digest None None None] |> <| others := drop 2 (others s) |>)
          end
      end
  end.
Proof.
  intros Hu. pose proof (proj1 Hu) as Hpk. unfold run. rewrite get_bind, lift_bind.
  destruct (check_run (self s) override) as [[[m mode] events]|e] eqn:Hc; [|done].
  apply check_run_mode in Hc. unfold set_self at 1, reset_loss_progress, set_self at 1. rewrite !modify_bind.
  erewrite (start_steps send i _ mode (run_message controller_queue i initiator (self s) m mode events) _ (λ x a, a <| run_task_id := x |>));
    [reflexivity| |exact (undisturbed_self i s (queued_run mode EmptyString 0) eq_refl Hu)|done].
  unfold run_message. destruct Hc as [-> | ->]; cbn; rewrite Hpk; reflexivity.
Qed.

(** C29: Starting a run of the saved analysis i. If a check of [run] fails, it raises and
    nothing has been written or sent. If they pass, the analysis is saved as RUN_QUEUED with its
    progress reset. If the broker then fails on the task, [run] raises and nothing has
    been sent, but the analysis stays saved so. If the broker takes it, the task is the
    right one for the run mode that was resolved, with the right callbacks, and the analysis is
    saved once more, with that run mode, the id of the task, and started now, over
    what other processes wrote meanwhile; the digest for the clients follows, and if the
    broker fails on that one [run] raises all the same. Assumed is that no other analysis
    refers to the chunking options of this one, before or meanwhile, as the column is
    unique. *)
Theorem run_spec send controller_queue i initiator override s :
  undisturbed i s →
  match check_run (self s) override with
  | Raise e => run send controller_queue initiator override s = (Raise e, s)
  | Ok (m, mode, events) =>
      let q := self s <| status := RUN_QUEUED |> <| num_events_total := 0 |> <| num_events_complete := 0 |> in
      let msg := run_message controller_queue i initiator (self s) m mode events in
      match send (length (sent s)) with
      | Raise e => ∃ s', run send controller_queue initiator override s = (Raise e, s')
          ∧ table s' = <[i := q]> (table s) ∧ sent s' = sent s
      | Ok task_id =>
          let a := queued_run mode task_id (now s) (self s) in
          match send (S (length (sent s))) with
          | Ok _ => ∃ s', run send controller_queue initiator override s = (Ok tt, s') ∧ started i q a msg s s'
          | Raise e => ∃ s', run send controller_queue initiator override s = (Raise e, s')
              ∧ table s' = <[i := a]> (turn (others s) (<[i := q]> (table s))) ∧ sent s' = sent s ++ [msg]
          end
      end
  end.
Proof.
  intros Hu. rewrite (run_steps send controller_queue i initiator override s Hu).
  destruct (check_run (self s) override) as [[[m mode] events]|e]; [|done]. cbv zeta.
  destruct (send (length (sent s))) as [x|e]; [destruct (send (S (length (sent s)))) as [y|e]|];
    (eexists; split; [reflexivity|]; split_and!; try done; apply Hu).
Qed.

Section start.
Context (send : nat → result string) (controller_queue : string).
Context (ids : nat → string) (Hsend : ∀ n, send n = Ok (ids n)).
(** A run whose messages are taken, for its interleavings. *)
Lemma run_started i initiator override s :
  undisturbed i s →
  match check_run (self s) override with
  | Raise e => run send controller_queue initiator override s = (Raise e, s)
  | Ok (m, mode, events) =>
      ∃ s', run send controller_queue initiator override s = (Ok tt, s')
        ∧ started i (self s <| status := RUN_QUEUED |> <| num_events_total := 0 |> <| num_events_complete := 0 |>)
            (queued_run mode (ids (length (sent s))) (now s) (self s))
            (run_message controller_queue i initiator (self s) m mode events) s s'
  end.
Proof.
  intros Hu. rewrite (run_steps send controller_queue i initiator override s Hu).
  destruct (check_run (self s) override) as [[[m mode] events]|e]; [|done]. cbv zeta. rewrite !Hsend.
  eexists. split; [reflexivity|]. split_and!; try done. apply Hu.
Qed.

(** The same for the generation of inputs: INPUTS_GENERATION_QUEUED, the
    files of the previous generation dropped. *)
Theorem generate_inputs_spec i initiator override s :
  undisturbed i s →
  match check_generate_inputs (self s) override with
  | Raise e => generate_inputs send controller_queue initiator override s = (Raise e, s)
  | Ok (m, mode, rows) =>
      ∃ s' q, generate_inputs send controller_queue initiator override s = (Ok tt, s')
        ∧ status q = INPUTS_GENERATION_QUEUED
        ∧ started i q (queued_inputs mode (ids (length (sent s))) (now s) (self s))
            (inputs_message controller_queue i initiator (self s) m mode rows) s s'
  end.
Proof.
  intros Hu. pose proof (proj1 Hu) as Hpk. unfold generate_inputs. rewrite get_bind, lift_bind.
  destruct (check_generate_inputs (self s) override) as [[[m mode] rows]|e] eqn:Hc; [|done].
  apply check_generate_inputs_mode in Hc. unfold reset_input_generation, set_self at 1. rewrite !modify_bind.
  eexists _, _. split.
  { apply (start_tail send ids i _ mode (inputs_message controller_queue i initiator (self s) m mode rows) _
      (λ x a, a <| generate_inputs_task_id := x |>)); [|exact (undisturbed_self i s (queued_inputs mode EmptyString 0) eq_refl Hu)|done|done].
    unfold inputs_message. destruct Hc as [-> | ->]; cbn; rewrite Hpk; reflexivity. }
  split; [|split; [reflexivity|cbn; split_and!; try reflexivity; done]]. done.
Qed.

Definition queued_both (task_id : string) (t : Z) (a : Analysis) : Analysis :=
  queued_inputs "V2" task_id t a <| num_events_total := 0 |> <| num_events_complete := 0 |>.

(** And for both stages at once, always under run mode V2. *)
Theorem generate_and_run_spec i initiator s :
  undisturbed i s →
  match check_generate_and_run (self s) with
  | Raise e => generate_and_run send controller_queue initiator s = (Raise e, s)
  | Ok (rows, events) =>
      ∃ s' q, generate_and_run send controller_queue initiator s = (Ok tt, s')
        ∧ status q = INPUTS_GENERATION_QUEUED
        ∧ started i q (queued_both (ids (length (sent s))) (now s) (self s))
            (v2_message controller_queue "start_input_and_loss_generation_task" i initiator (priority (self s))
               [option_int rows; option_json events] "input_generation_traceback_file" INPUTS_GENERATION_ERROR) s s'
  end.
Proof.
  intros Hu. pose proof (proj1 Hu) as Hpk. unfold generate_and_run. rewrite get_bind, lift_bind.
  destruct (check_generate_and_run (self s)) as [[rows events]|e] eqn:Hc; [|done].
  unfold reset_input_generation, reset_loss_progress, set_self at 1, set_self at 1. rewrite !modify_bind.
  eexists _, _. split.
  { apply (start_tail send ids i _ "V2" (v2_message controller_queue "start_input_and_loss_generation_task" i initiator (priority (self s))
               [option_int rows; option_json events] "input_generation_traceback_file" INPUTS_GENERATION_ERROR) _
      (λ x a, a <| generate_inputs_task_id := x |>)); [|exact (undisturbed_self i s (queued_both EmptyString 0) eq_refl Hu)|done|done].
    cbn; rewrite Hpk; reflexivity. }
  split; [|split; [reflexivity|cbn; split_and!; try reflexivity; done]]. done.
Qed.
End start.

(** ** One operation at a time *)

Definition busy (st : status_choices) : bool :=
  bool_decide (st ∈ [INPUTS_GENERATION_QUEUED; INPUTS_GENERATION_STARTED; RUN_QUEUED; RUN_STARTED]).

(** The errors a check is given are never lost. *)
Lemma insert_error_ne (errors : errors_t) k v : <[k := v]> errors ≠ ∅.
Proof. apply insert_non_empty. Qed.
#[local] Hint Resolve insert_error_ne : core.

Lemma validate_input_generation_keeps a m mode errors n errors' :
  errors ≠ ∅ → validate_input_generation a m mode errors = (n, errors') → errors' ≠ ∅.
Proof.
  unfold validate_input_generation, validate_v2_location_file. intros Hne H.
  repeat (case_match; simplify_eq); auto.
Qed.

Lemma check_event_set_keeps j k errors errors' :
  errors ≠ ∅ → check_event_set j k errors = Ok errors' → errors' ≠ ∅.
Proof.
  intros Hne H. unfold check_event_set in H. apply bind_Ok in H as (ids & _ & H).
  destruct (truthy _); [by simplify_eq|].
  do 5 apply bind_Ok in H as (? & _ & H).
  repeat match type of H with context [if ?b then _ else _] => destruct b end;
    repeat match type of H with context [match ?l with [] => _ | _ :: _ => _ end] => destruct l end;
    try (apply bind_Ok in H as (? & _ & H)); repeat case_match; simplify_eq; auto.
Qed.

Lemma validate_loss_generation_keeps a m mode errors errors' :
  errors ≠ ∅ → validate_loss_generation a m mode errors = Ok errors' → errors' ≠ ∅.
Proof.
  intros Hne H. unfold validate_loss_generation in H.
  repeat (case_match; simplify_eq; auto). apply bind_Ok in H as (? & _ & H). apply bind_Ok in H as (? & _ & H).
  by eapply check_event_set_keeps.
Qed.

Lemma refuse_ne errors : errors ≠ ∅ → refuse_if errors = Raise (invalid errors).
Proof. intros H. unfold refuse_if. by rewrite bool_decide_eq_false_2. Qed.

Lemma generation_errors_busy a m : busy (status a) = true → generation_errors a m ≠ ∅.
Proof.
  intros Hb. unfold generation_errors.
  assert (bool_decide (status a ∈ INPUTS_GENERATION_VALID_STATUSES) = false) as ->
    by (destruct (status a); vm_compute in Hb |- *; done).
  destruct (model_deleted m); [auto|]. done.
Qed.

Lemma check_run_busy a override : busy (status a) = true → is_ok (check_run a override) = false.
Proof.
  intros Hb. unfold check_run. destruct (validate_standard_analysis a); [|done]. cbn.
  assert (bool_decide (status a ∈ RUN_VALID_STATUSES) = false) as ->
    by (destruct (status a); vm_compute in Hb |- *; done). done.
Qed.

Lemma check_generate_inputs_busy a override : busy (status a) = true → is_ok (check_generate_inputs a override) = false.
Proof.
  intros Hb. destruct (check_generate_inputs a override) as [x|] eqn:H; [|done].
  unfold check_generate_inputs in H. apply bind_Ok in H as (m & _ & H). apply bind_Ok in H as (mode & _ & H).
  destruct (validate_input_generation _ _ _ _) as [n errors] eqn:Hv.
  apply validate_input_generation_keeps in Hv; [|by apply generation_errors_busy].
  by rewrite refuse_ne in H.
Qed.

Lemma check_generate_and_run_busy a : busy (status a) = true → is_ok (check_generate_and_run a) = false.
Proof.
  intros Hb. destruct (check_generate_and_run a) as [x|] eqn:H; [|done].
  unfold check_generate_and_run in H. apply bind_Ok in H as (m & _ & H).
  destruct (validate_input_generation _ _ _ _) as [n errors] eqn:Hv.
  apply validate_input_generation_keeps in Hv.
  - apply bind_Ok in H as (errors' & Hl & H). apply validate_loss_generation_keeps in Hl; [|done].
    by rewrite refuse_ne in H.
  - pose proof (generation_errors_busy a m Hb). case_bool_decide; destruct (settings_file a); auto.
Qed.

Section exclusive.
Context (send : nat → result string) (controller_queue : string).

(** A request to cancel that does not fit the status. *)
Lemma cancel_refused stage cancel s :
  (cancel, stage) ∈ [(cancel_any send, [INPUTS_GENERATION_QUEUED; INPUTS_GENERATION_STARTED; RUN_QUEUED; RUN_STARTED]);
                     (cancel_analysis send, [RUN_QUEUED; RUN_STARTED]);
                     (cancel_generate_inputs send, [INPUTS_GENERATION_QUEUED; INPUTS_GENERATION_STARTED])] →
  status (self s) ∉ stage → ∃ e, cancel s = (Raise e, s).
Proof.
  intros Hc Hs. rewrite !elem_of_cons in Hc. destruct Hc as [[= -> ->]|[[= -> ->]|[[= -> ->]|[]%elem_of_nil]]];
    unfold cancel_any, cancel_analysis, cancel_generate_inputs; rewrite get_bind, bool_decide_eq_false_2 by done; by eexists.
Qed.
Definition cancel_message (s : State) : message :=
  Apply (v2_signature controller_queue "cancel_subtasks" [pk_json (pk s)]) (Some 1) None None.
(** What such a request leaves: nothing, but in V2 the task that cancels the sub-tasks. *)
Definition untouched (s s' : State) : Prop :=
  s' = s ∨ run_mode (self s) = Some "V2"%string ∧ self s' = self s ∧ table s' = turn (others s) (table s) ∧ sent s' = sent s ++ [cancel_message s].
Lemma subtasks_first stage cancel s :
  (cancel, stage) ∈ [(cancel_any send, [INPUTS_GENERATION_QUEUED; INPUTS_GENERATION_STARTED; RUN_QUEUED; RUN_STARTED]);
                     (cancel_analysis send, [RUN_QUEUED; RUN_STARTED]);
                     (cancel_generate_inputs send, [INPUTS_GENERATION_QUEUED; INPUTS_GENERATION_STARTED])] →
  status (self s) ∉ stage → ∃ e s', (cancel_subtasks send controller_queue;; cancel) s = (Raise e, s') ∧ untouched s s'.
Proof.
  intros Hc Hs. unfold cancel_subtasks. destruct (decide (run_mode (self s) = Some "V2"%string)) as [Hm|Hm].
  - destruct (send (length (sent s))) as [x|e] eqn:E.
    + set (s1 := s <| sent := sent s ++ [cancel_message s] |> <| table := turn (others s) (table s) |> <| others := drop 1 (others s) |>).
      destruct (cancel_refused _ _ s1 Hc Hs) as [e He]. exists e, s1. split; [|right; split_and!; done]. erewrite bind_step; [exact He|].
      rewrite get_bind, bool_decide_eq_true_2 by done. erewrite bind_step; [reflexivity|]. by rewrite broker_answer, E.
    + exists e, s. split; [|by left]. unfold mbind at 1, M_bind at 1. rewrite get_bind, bool_decide_eq_true_2 by done.
      unfold mbind, M_bind. by rewrite broker_answer, E.
  - destruct (cancel_refused _ _ s Hc Hs) as [e He]. exists e, s. split; [|by left]. erewrite bind_step; [exact He|].
    by rewrite get_bind, bool_decide_eq_false_2.
Qed.

(** C33: Requests that do not fit the status of the analysis as the request has read it. While
    that is queued or started, for the generation of inputs or for a run, the
    request for a run, for the generation of inputs or for both, raises, and nothing is written
    or sent. A request to cancel the run, the generation of inputs, or either, for which
    the analysis is not queued or started there, raises too, writes nothing and
    revokes nothing; but in run mode V2 it may have sent the task that cancels the
    sub-tasks, which comes before the check. The status is that of the row when the request
    read it; requests are not kept apart from each other. *)
Theorem requests_refused s user initiator override :
  (busy (status (self s)) = true →
    ∀ start, start ∈ [run send controller_queue initiator override; generate_inputs send controller_queue initiator override;
                      generate_and_run send controller_queue initiator] →
    ∃ e, start_analysis_task user start s = (Raise e, s)) ∧
  (∀ cancel stage,
    (cancel, stage) ∈ [(cancel_view send controller_queue user, [INPUTS_GENERATION_QUEUED; INPUTS_GENERATION_STARTED; RUN_QUEUED; RUN_STARTED]);
                       (cancel_analysis_run_view send controller_queue user, [RUN_QUEUED; RUN_STARTED]);
                       (cancel_generate_inputs_view send controller_queue user, [INPUTS_GENERATION_QUEUED; INPUTS_GENERATION_STARTED])] →
    status (self s) ∉ stage → ∃ e s', cancel s = (Raise e, s') ∧ untouched s s').
Proof.
  split.
  - intros Hb start Hs. unfold start_analysis_task. rewrite get_bind, lift_bind. destruct (validate_standard_analysis _); [|by eexists].
    rewrite !lift_bind. destruct (verify_user_is_in_obj_groups _ _ _); [|by eexists]. destruct (verify_model_scaling _ _); [|by eexists].
    pose proof (check_run_busy _ override Hb). pose proof (check_generate_inputs_busy _ override Hb).
    pose proof (check_generate_and_run_busy _ Hb). set_unfold in Hs.
    destruct Hs as [->|[->|[->|[]]]]; unfold run, generate_inputs, generate_and_run; rewrite get_bind, lift_bind;
      match goal with |- context [match ?c with Ok _ => _ | Raise _ => _ end] => destruct c; [done|eauto] end.
  - intros cancel stage Hc Hs. rewrite !elem_of_cons in Hc. destruct Hc as [[= -> ->]|[[= -> ->]|[[= -> ->]|[]%elem_of_nil]]].
    + unfold cancel_view. rewrite get_bind, lift_bind. destruct (match model (self s) with Some _ => _ | None => _ end); [|do 2 eexists; split; [done|by left]].
      eapply subtasks_first; [|done]. left.
    + unfold cancel_analysis_run_view, cancel_stage_view. rewrite get_bind, lift_bind.
      destruct (validate_standard_analysis _); [|do 2 eexists; split; [done|by left]]. rewrite lift_bind.
      destruct (may_cancel _ _); [|do 2 eexists; split; [done|by left]]. eapply subtasks_first; [|done]. right. left.
    + unfold cancel_generate_inputs_view, cancel_stage_view. rewrite get_bind, lift_bind.
      destruct (validate_standard_analysis _); [|do 2 eexists; split; [done|by left]]. rewrite lift_bind.
      destruct (may_cancel _ _); [|do 2 eexists; split; [done|by left]]. eapply subtasks_first; [|done]. right. right. left.
Qed.
End exclusive.

(** ** Lost updates *)

Section lost.
Context (send : nat → result string) (controller_queue : string).
Context (ids : nat → string) (Hsend : ∀ n, send n = Ok (ids n)).

(** What a worker records before the request has recorded the dispatch is
    lost. Whatever the other processes do to the table while the task of a run
    is sent (a worker that picks it up at once sets RUN_STARTED, or even the
    results), the analysis is afterwards stored as RUN_QUEUED with its old
    files: the last save of [run] writes every column of an instance read
    before. *)
Theorem run_overwrites_worker i initiator override s f :
  undisturbed i s → others s = [f] → is_ok (check_run (self s) override) = true →
  ∃ s' a, run send controller_queue initiator override s = (Ok tt, s')
    ∧ table s' !! i = Some a ∧ status a = RUN_QUEUED
    ∧ output_file a = output_file (self s) ∧ task_finished a = None.
Proof.
  intros Hu Ho Hc. pose proof (run_started send controller_queue ids Hsend i initiator override s Hu) as H.
  destruct (check_run _ _) as [[[m mode] events]|e]; [|done].
  destruct H as (s' & Hrun & Hself & Htable & _). exists s', (self s'). split; [done|].
  rewrite Htable, Ho, Hself. cbn. split; [|done]. apply lookup_insert_eq.
Qed.
End lost.

(** ** Cancellation *)

Definition cancelled (t : Z) (a : Analysis) : Analysis :=
  let a := a <| status := if bool_decide (status a ∈ [RUN_QUEUED; RUN_STARTED])
                          then RUN_CANCELLED else INPUTS_GENERATION_CANCELLED |> in
  a <| run_mode := None |> <| task_finished := Some t |>.

Section cancel.
Context (send : nat → result string) (controller_queue : string).
Context (ids : nat → string) (Hsend : ∀ n, send n = Ok (ids n)).

(** The messages of a cancellation: the sub-tasks of a V2 analysis are revoked
    by a task of their own, then the task the analysis was started with. *)
Definition cancel_messages (i : Z) (a : Analysis) : list message :=
  (if bool_decide (run_mode a = Some "V2"%string)
   then [Apply (v2_signature controller_queue "cancel_subtasks" [JInt i]) (Some 1) None None] else [])
  ++ [Revoke (if bool_decide (status a ∈ [RUN_QUEUED; RUN_STARTED])
              then run_task_id a else generate_inputs_task_id a)].

Lemma revoke_eq task_id s :
  revoke send task_id s = (Ok tt, s <| sent := sent s ++ [Revoke task_id] |>
    <| table := turn (others s) (table s) |> <| others := drop 1 (others s) |>).
Proof. unfold revoke. unfold mbind, M_bind. by rewrite (broker_eq _ ids). Qed.

Lemma cancel_tail i s task_id st : undisturbed i s →
  let a := self s <| status := st |> <| run_mode := None |> <| task_finished := Some (now s) |> in
  (revoke send task_id;;
   set_self (λ a, a <| status := st |> <| run_mode := None |> <| task_finished := Some (now s) |>);;
   save) s
  = (Ok tt, s <| self := a |> <| table := <[i := a]> (turn (others s) (table s)) |>
              <| sent := sent s ++ [Revoke task_id] |> <| others := drop 1 (others s) |>).
Proof.
  intros Hu a. rewrite (bind_step _ _ _ _ _ (revoke_eq task_id s)). unfold set_self. rewrite modify_bind.
  apply (save_eq i). apply (undisturbed_self i _ (λ a, a <| status := st |> <| run_mode := None |>
    <| task_finished := Some (now s) |>)); [reflexivity|]. by apply undisturbed_turn.
Qed.

(** [cancel_any] is [cancel_analysis] or [cancel_generate_inputs], by the status. *)
Lemma cancel_any_spec i s :
  undisturbed i s → busy (status (self s)) = true →
  cancel_any send s = (Ok tt, s <| self := cancelled (now s) (self s) |>
    <| table := <[i := cancelled (now s) (self s)]> (turn (others s) (table s)) |>
    <| sent := sent s ++ [Revoke (if bool_decide (status (self s) ∈ [RUN_QUEUED; RUN_STARTED])
               then run_task_id (self s) else generate_inputs_task_id (self s))] |>
    <| others := drop 1 (others s) |>).
Proof.
  intros Hu Hb. unfold cancel_any, busy in *. rewrite get_bind, Hb. cbn [negb].
  unfold cancelled. destruct (decide (status (self s) ∈ [RUN_QUEUED; RUN_STARTED])) as [Hr|Hr].
  - assert (status (self s) ∉ [INPUTS_GENERATION_QUEUED; INPUTS_GENERATION_STARTED]) as Hi
      by (set_unfold in Hr; destruct Hr as [->|[->|[]]]; set_solver).
    rewrite (bool_decide_eq_false_2 _ Hi), (bool_decide_eq_true_2 _ Hr).
    rewrite (bind_step _ _ s tt s) by done. rewrite get_bind, (bool_decide_eq_true_2 _ Hr).
    unfold cancel_analysis. rewrite get_bind, (bool_decide_eq_true_2 _ Hr). cbn [negb].
    by apply cancel_tail.
  - apply bool_decide_eq_true in Hb.
    assert (status (self s) ∈ [INPUTS_GENERATION_QUEUED; INPUTS_GENERATION_STARTED]) as Hi by set_solver.
    rewrite (bool_decide_eq_true_2 _ Hi), (bool_decide_eq_false_2 _ Hr).
    erewrite bind_step; [|unfold cancel_generate_inputs; rewrite get_bind, (bool_decide_eq_true_2 _ Hi);
      by apply cancel_tail]. reflexivity.
Qed.

(** Cancelling an analysis that is queued or started, by a user who may use its model, revokes the task it
    was started with (and, in V2, has its sub-tasks cancelled), and leaves it
    cancelled, without a run mode and finished now, for the stage it was in. *)
Theorem cancel_view_spec i user s :
  undisturbed i s → busy (status (self s)) = true → (∀ m, model (self s) = Some m → may_cancel user m = Ok tt) →
  ∃ s', cancel_view send controller_queue user s = (Ok tt, s')
    ∧ self s' = cancelled (now s) (self s) ∧ table s' !! i = Some (self s')
    ∧ sent s' = sent s ++ cancel_messages i (self s).
Proof.
  intros Hu Hb Hm. unfold cancel_view. rewrite get_bind, lift_bind.
  assert (match model (self s) with Some m => may_cancel user m | None => Ok tt end = Ok tt) as -> by (destruct (model (self s)); auto).
  clear Hm. unfold cancel_subtasks, cancel_messages.
  destruct (bool_decide (run_mode (self s) = Some "V2"%string)) eqn:Hm.
  - set (msg := Apply _ _ _ _).
    assert (undisturbed i (s <| sent := sent s ++ [msg] |> <| table := turn (others s) (table s) |>
      <| others := drop 1 (others s) |>)) as Hu1 by by apply undisturbed_turn.
    erewrite bind_step.
    2: { rewrite get_bind, Hm. rewrite (bind_step _ _ _ _ _ (broker_eq send ids _ s Hsend)).
         replace (pk s) with (Some i) by (symmetry; apply Hu). reflexivity. }
    match goal with |- context [cancel_any send ?t] =>
      rewrite (cancel_any_spec i t (Hu1 : undisturbed i t) Hb) end. eexists. split; [reflexivity|]. cbn.
    split_and!; [done|apply lookup_insert_eq|]. by rewrite <- app_assoc.
  - erewrite bind_step by (rewrite get_bind, Hm; reflexivity).
    rewrite (cancel_any_spec i _ Hu Hb). eexists. split; [reflexivity|]. cbn.
    split_and!; [done|apply lookup_insert_eq|done].
Qed.
End cancel.

(** ** The number of events of a run *)

(** An option of an event set as the schema of the model settings asks for: an
    object whose id can be compared. *)
Definition option_ok (j : json) : Prop :=
  ∃ kvs i, j = JObj kvs ∧ assoc "id" kvs = Some i ∧ py_hashable i = Ok i.

Lemma event_set_sizes_ok options : Forall option_ok options →
  ∃ sizes, event_set_sizes options = Ok sizes
    ∧ ∀ kvs i n, JObj kvs ∈ options → assoc "id" kvs = Some i → assoc "number_of_events" kvs = Some n →
        (i, n) ∈ sizes.
Proof.
  induction 1 as [|j l (kvs & i & -> & Hi & Hh) _ (sizes & Hs & Hin)]; cbn.
  - exists []. split; [done|]. intros ??? H. by apply not_elem_of_nil in H.
  - destruct (assoc "number_of_events" kvs) as [n|] eqn:Hn; cbn.
    + rewrite Hi. cbn. rewrite Hh. cbn. rewrite Hs. cbn. eexists. split; [done|].
      intros kvs' i' n' [[= ->]|Hl]%elem_of_cons Hi' Hn'; [simplify_eq; left|right; by eapply Hin].
    + exists sizes. split; [done|]. intros kvs' i' n' [[= ->]|Hl]%elem_of_cons Hi' Hn'; [congruence|by eapply Hin].
Qed.

Lemma options_matching_in selected options matched : options_matching selected options = Ok matched →
  ∀ j, j ∈ matched → j ∈ options ∧ ∃ i, py_get j "id" = Ok i ∧ py_eq (default JNull i) selected = true.
Proof.
  revert matched. induction options as [|o l IH]; cbn; intros matched H j Hj.
  - simplify_eq. by apply not_elem_of_nil in Hj.
  - apply bind_Ok in H as (i & Hi & H). apply bind_Ok in H as (rest & Hr & H). simplify_eq.
    destruct (py_eq (default JNull i) selected) eqn:E.
    + apply elem_of_cons in Hj as [->|Hj]; [split; [left|eauto]|].
      destruct (IH _ Hr j Hj). split; [by right|done].
    + destruct (IH _ Hr j Hj). split; [by right|done].
Qed.

Lemma dict_lookup_in k i n sizes : (i, n) ∈ sizes → py_eq i k = true → is_Some (dict_lookup k sizes).
Proof.
  intros Hin Hk. unfold dict_lookup.
  assert ((i, n) ∈ List.filter (λ '(k', _), py_eq k' k) sizes) as H.
  { apply list_elem_of_In, filter_In. split; [by apply list_elem_of_In|done]. }
  destruct (last (List.filter _ _)) as [[]|] eqn:E; [eauto|].
  apply last_None in E. rewrite E in H. by apply not_elem_of_nil in H.
Qed.

Lemma py_eq_hashable i j : py_hashable i = Ok i → py_eq i j = true → py_hashable j = Ok j.
Proof. destruct i, j; by intros. Qed.

(** The settings of a dynamic run, as documents. *)
Record dynamic_settings (a : Analysis) (m : Model) (sj mj : list (string * json)) : Prop := {
  ds_dynamic : loss_strategy (get_chunking_options a m) = DYNAMIC_CHUNKS;
  ds_settings : ∃ f, settings_file a = Some f ∧ file_json f = Ok (JObj sj);
  ds_resource : ∃ f, model_resource_file m = Some f ∧ file_json f = Ok (JObj mj);
}.

Lemma get_num_events_eq a m sj mj : dynamic_settings a m sj mj →
  get_num_events a m =
    (user_selected_events ← py_get_or (JObj sj) "event_ids" (JList []);
     selected_event_set ← get2 (JObj sj) "model_settings" "event_set" (JStr EmptyString);
     n ← py_len user_selected_events;
     if 1 <? n then Ok (Some (JInt n)) else
     event_set ← get2 (JObj mj) "model_settings" "event_set" JNull;
     event_set_options ← py_get_or event_set "options" (JList []);
     options ← py_iter event_set_options;
     sizes ← event_set_sizes options;
     selected ← py_hashable selected_event_set;
     match dict_lookup selected sizes with
     | None => Raise (ValidationError (DetailList ["Failed to read event set size for chunking"%string]))
     | Some n => Ok (Some n)
     end).
Proof.
  intros [Hd (f & Hf & Ef) (g & Hg & Eg)]. unfold get_num_events, read_json.
  rewrite (bool_decide_eq_true_2 _ Hd), Hf, Hg, Ef, Eg. done.
Qed.

Lemma validate_loss_generation_eq a m sj mj errors : dynamic_settings a m sj mj →
  validate_loss_generation a m "V2" errors = check_event_set (JObj mj) (JObj sj) errors.
Proof.
  intros [Hd (f & Hf & Ef) (g & Hg & Eg)]. unfold validate_loss_generation.
  rewrite (bool_decide_eq_true_2 _ Hd), Hf, Hg, Ef, Eg. done.
Qed.

Lemma check_event_set_inv mj sj : check_event_set mj sj ∅ = Ok ∅ →
  (∃ ids, py_get sj "event_ids" = Ok ids ∧ truthy (default JNull ids) = true) ∨
  ∃ selected event_set opts options matched rest n,
    get2 sj "model_settings" "event_set" (JStr EmptyString) = Ok selected
    ∧ get2 mj "model_settings" "event_set" (JObj []) = Ok event_set
    ∧ py_get_or event_set "options" (JList []) = Ok opts ∧ py_iter opts = Ok options
    ∧ options_matching selected options = Ok (matched :: rest)
    ∧ truthy opts = true
    ∧ py_get matched "number_of_events" = Ok n ∧ truthy (default JNull n) = true.
Proof.
  intros H. unfold check_event_set in H. apply bind_Ok in H as (ids & Hids & H).
  destruct (truthy (default JNull ids)) eqn:Ht; [eauto|right].
  apply bind_Ok in H as (selected & Hsel & H). apply bind_Ok in H as (event_set & Hset & H).
  apply bind_Ok in H as (opts & Hopts & H). apply bind_Ok in H as (options & Hopt & H).
  apply bind_Ok in H as (matched & Hmatched & H). cbn zeta in H.
  destruct matched as [|x rest].
  - exfalso. apply Ok_inj in H. by apply insert_non_empty in H.
  - apply bind_Ok in H as (n & Hn & H).
    destruct (truthy selected) eqn:E1, (truthy opts) eqn:E2, (truthy (default JNull n)) eqn:E3;
      try (exfalso; apply Ok_inj in H; by apply insert_non_empty in H).
    exists selected, event_set, opts, options, x, rest, n. done.
Qed.

(** Settings that pass the checks give a number of events. If a dynamic V2
    run has no user-selected events and the checks of its settings add no
    error, the size of the selected event set is found, given that the options
    of the event set are well-formed. *)
Theorem validated_events_total a m sj mj options :
  dynamic_settings a m sj mj →
  assoc "event_ids" sj = None ∨ assoc "event_ids" sj = Some (JList []) →
  (∃ event_set opts, get2 (JObj mj) "model_settings" "event_set" (JObj []) = Ok event_set
     ∧ py_get_or event_set "options" (JList []) = Ok opts ∧ py_iter opts = Ok options) →
  Forall option_ok options →
  validate_loss_generation a m "V2" ∅ = Ok ∅ →
  ∃ n, get_num_events a m = Ok (Some n).
Proof.
  intros Hds Hids (event_set & opts & Hset & Hopts & Hopt) Hok Hv.
  rewrite (validate_loss_generation_eq _ _ _ _ _ Hds) in Hv. rewrite (get_num_events_eq _ _ _ _ Hds).
  apply check_event_set_inv in Hv as [(ids & Hi & Ht)|Hv].
  { exfalso. cbn in Hi. destruct Hids as [E|E]; rewrite E in Hi; injection Hi as <-; discriminate. }
  destruct Hv as (selected & es & o & os & x & rest & n & Hsel & Hes & Ho & Hos & Hm & Ho' & Hn & Hnt).
  rewrite Hset in Hes. injection Hes as <-. rewrite Hopts in Ho. injection Ho as <-. rewrite Hopt in Hos. injection Hos as <-.
  destruct (options_matching_in _ _ _ Hm x ltac:(left)) as (Hx & i & Hi & Heq).
  rewrite Forall_forall in Hok. destruct (Hok x Hx) as (kvs & i' & -> & Hi' & Hh).
  cbn in Hi. rewrite Hi' in Hi. injection Hi as <-. cbn in Heq, Hn. injection Hn as <-.
  destruct (assoc "number_of_events" kvs) as [k|] eqn:Hk; [|discriminate].
  destruct (event_set_sizes_ok options ltac:(by apply Forall_forall)) as (sizes & Hsz & Hin).
  specialize (Hin kvs i' k Hx Hi' Hk). destruct (dict_lookup_in _ _ _ _ Hin Heq) as [v Hv].
  assert (py_get_or (JObj sj) "event_ids" (JList []) = Ok (JList [])) as -> by (cbn; by destruct Hids as [-> | ->]).
  assert (get2 (JObj mj) "model_settings" "event_set" JNull = Ok event_set) as E.
  { unfold get2 in *. cbn in *. destruct (assoc "model_settings" mj) as [ms|]; cbn in *.
    - destruct ms; cbn in *; try done. destruct (assoc "event_set" kvs0); cbn in *; [done|].
      injection Hset as <-. cbn in Hopts. injection Hopts as <-. cbn in Hopt. injection Hopt as <-.
      by apply not_elem_of_nil in Hx.
    - injection Hset as <-. cbn in Hopts. injection Hopts as <-. cbn in Hopt. injection Hopt as <-.
      by apply not_elem_of_nil in Hx. }
  cbn [mbind result_bind]. rewrite Hsel, E. cbn. rewrite Hopts. cbn. rewrite Hopt. cbn. rewrite Hsz. cbn.
  rewrite (py_eq_hashable _ _ Hh Heq). cbn. rewrite Hv. eauto.
Qed.

(** A single user-selected event is not counted. With settings that only
    list events, the checks ask for nothing more, and with two events or more
    their number is the number of events; with one event the code goes on to
    look for an event set that was not asked for, and fails on models that have
    none. *)
Theorem one_selected_event a m events mj :
  dynamic_settings a m [("event_ids"%string, JList events)] mj →
  assoc "model_settings" mj = None → events ≠ [] →
  validate_loss_generation a m "V2" ∅ = Ok ∅
  ∧ get_num_events a m = (if (1 <? length events)%nat then Ok (Some (JInt (Z.of_nat (length events))))
                          else Raise AttributeError).
Proof.
  intros Hds Hm Hne. rewrite (validate_loss_generation_eq _ _ _ _ _ Hds), (get_num_events_eq _ _ _ _ Hds).
  split; [destruct events; [done|reflexivity]|]. cbn -[Nat.ltb].
  assert ((1 <? Z.of_nat (length events)) = (1 <? length events)%nat) as ->.
  { apply eq_true_iff_eq. rewrite Z.ltb_lt, Nat.ltb_lt. lia. }
  destruct (1 <? length events)%nat; [done|]. rewrite Hm. done.
Qed.

(** ** Copies *)

Lemma string_take_length n s : (String.length (string_take n s) ≤ n)%nat.
Proof. revert s. induction n; intros []; cbn; try lia. apply le_n_S. auto. Qed.

Section copies.
Context (stored_at : Z → string).

(** The instance [copy] leaves behind, when the next file gets the key [f]. *)
Definition copied (f : Z) (a : Analysis) : Analysis :=
  a <| name := string_take 248 (name a) +:+ " - Copy" |>
    <| run_task_id := EmptyString |> <| generate_inputs_task_id := EmptyString |> <| status := NEW |>
    <| settings_file := (λ g, {| file_pk := f; file_link := stored_at f; file_name := file_name g;
                                 file_json := file_json g |}) <$> settings_file a |>
    <| input_file := None |> <| input_generation_traceback_file := None |>
    <| output_file := None |> <| run_traceback_file := None |> <| run_log_file := None |>
    <| lookup_errors_file := None |> <| lookup_success_file := None |>
    <| lookup_validation_file := None |> <| summary_levels_file := None |>.

Lemma copy_eq s : copy stored_at s =
  (Ok tt, s <| pk := None |> <| self := copied (next_file s) (self s) |>
            <| next_file := match settings_file (self s) with Some _ => next_file s + 1 | None => next_file s end |>).
Proof. unfold copy, copied, copy_file. run. by destruct (settings_file (self s)). Qed.

(** A copy is a new row with the status NEW, without task ids and without
    the results of the original, and with a settings file of its own; its name
    fits the column, and the original row stays as it was. *)
Theorem copy_view_spec s :
  chunking_options (self s) = None → (∀ i r, table s !! i = Some r → i < next_pk s) →
  ∃ s', copy_view stored_at s = (Ok tt, s')
    ∧ pk s' = Some (next_pk s) ∧ self s' = copied (next_file s) (self s)
    ∧ table s' = <[next_pk s := copied (next_file s) (self s)]> (table s)
    ∧ (∀ i r, table s !! i = Some r → table s' !! i = Some r)
    ∧ (String.length (name (self s')) ≤ 255)%nat.
Proof.
  intros Hc Hb. unfold copy_view. rewrite (bind_step _ _ _ _ _ (copy_eq s)).
  unfold save. rewrite get_bind. unfold options_taken. cbn [self setter]. unfold copied at 1. cbn -[string_take].
  rewrite Hc. eexists. split; [reflexivity|]. cbn -[string_take]. split_and!; try done.
  - intros i r Hi. pose proof (Hb i r Hi). rewrite lookup_insert_ne; [done|lia].
  - rewrite string_length_app. pose proof (string_take_length 248 (name (self s))).
    change (String.length " - Copy") with 7%nat. lia.
Qed.

(** An analysis with chunking options of its own cannot be copied: the
    copy keeps the reference, which is unique, so saving it fails. The copied
    settings file is already stored then. *)
Theorem copy_view_own_options i c x s :
  table s !! i = Some (self s) → chunking_options (self s) = Some (c, x) →
  ∃ s', copy_view stored_at s = (Raise IntegrityError, s') ∧ table s' = table s
    ∧ (is_Some (settings_file (self s)) → next_file s' = next_file s + 1).
Proof.
  intros Hi Hc. unfold copy_view. rewrite (bind_step _ _ _ _ _ (copy_eq s)).
  unfold save. rewrite get_bind. cbn [self pk table setter].
  assert (∀ t f, t !! i = Some (self s) → options_taken t None (copied f (self s)) = true) as Ht.
  { intros t f Ht. unfold options_taken, copied. cbn. rewrite Hc. apply bool_decide_eq_true.
    exists i, (self s). split; [done|]. split; [done|]. by rewrite Hc. }
  match goal with |- context [options_taken ?t ?o ?a] => assert (options_taken t o a = true) as -> end.
  { by apply Ht. }
  eexists. split; [reflexivity|]. cbn. split; [done|]. by intros [? ->].
Qed.
End copies.

(** ** A concrete analysis *)

Definition ids (n : nat) : string := "task-" +:+ pretty n.
Definition send_ok (n : nat) : result string := Ok (ids n).

Definition stored_json (k : Z) (j : json) : RelatedFile :=
  {| file_pk := k; file_link := "file"; file_name := "settings.json"; file_json := Ok j |}.
Definition event_set_option (i : string) (n : Z) : json :=
  JObj [("id"%string, JStr i); ("number_of_events"%string, JInt n)].
Definition piwind_options : list json := [event_set_option "h" 1447; event_set_option "p" 100].
Definition piwind_resource : list (string * json) :=
  [("model_settings"%string, JObj [("event_set"%string, JObj [("options"%string, JList piwind_options)])])].
Definition piwind_settings : list (string * json) :=
  [("model_settings"%string, JObj [("event_set"%string, JStr "p")])].

Definition dynamic_losses : ModelChunkingOptions := {|
  lookup_strategy := FIXED_CHUNKS; loss_strategy := DYNAMIC_CHUNKS; dynamic_locations_per_lookup := 10000;
  dynamic_events_per_analysis := 1; dynamic_chunks_max := 200;
  fixed_analysis_chunks := Some 1; fixed_lookup_chunks := Some 1 |}.

Definition dynamic_model (resource : list (string * json)) : Model := {|
  model_pk := 4; model_name := "OasisLMF-PiWind-1"; model_deleted := false; model_run_mode := Some "V2"%string;
  model_resource_file := Some (stored_json 1 (JObj resource)); model_chunking_options := dynamic_losses;
  model_scaling_options := None; model_groups := [] |}.
Definition with_locations : Portfolio := {|
  location_file := Some (stored_json 2 JNull); accounts_file := None; reinsurance_info_file := None;
  reinsurance_scope_file := None; currency_conversion_json := None; reporting_currency := None;
  location_file_len := Ok 10 |}.
Definition analysis_with (st : status_choices) (settings resource : list (string * json)) : Analysis :=
  new_analysis "test" with_locations <| model := Some (dynamic_model resource) |> <| status := st |>
    <| settings_file := Some (stored_json 3 (JObj settings)) |> <| input_file := Some (stored_json 4 JNull) |>.
Definition ready : Analysis := analysis_with READY piwind_settings piwind_resource.

Definition state_of (a : Analysis) (os : list (gmap Z Analysis → gmap Z Analysis)) : State := {|
  table := {[1 := a]}; next_pk := 2; next_file := 5; pk := Some 1; self := a; sent := []; others := os; now := 77 |}.

(** A worker that starts the run as soon as it is sent. *)
Definition worker_starts (t : gmap Z Analysis) : gmap Z Analysis := alter (λ a, a <| status := RUN_STARTED |>) 1 t.

Lemma state_undisturbed a os : chunking_options a = None → undisturbed 1 (state_of a os).
Proof.
  intros Ha. split; [done|]. unfold free; cbn. rewrite Ha. split; [done|]. apply Forall_forall. done.
Qed.

Lemma run_spec_witness :
  is_ok (check_run ready None) = true ∧
  ∃ s', run send_ok "celery-v2" 9 None (state_of ready []) = (Ok tt, s') ∧ status (self s') = RUN_QUEUED.
Proof.
  split; [vm_compute; reflexivity|].
  destruct (run_spec send_ok "celery-v2" 1 9 None (state_of ready []) (state_undisturbed ready [] eq_refl)) as (s' & H & Hself & _).
  exists s'. split; [exact H|]. rewrite Hself. reflexivity.
Defined.
(** Without a broker the run stays queued, and there is nothing that would run it. *)
Example broker_down :
  let '(r, s') := run (λ _, Raise (OtherError "OperationalError")) "celery-v2" 9 None (state_of ready []) in
  (is_ok r, status <$> table s' !! 1, length (sent s')) = (false, Some RUN_QUEUED, 0%nat).
Proof. vm_compute. reflexivity. Qed.
(** Of two requests that have read the row before the other has saved it, each starts a
    run: the second one finds its instance ready, whatever the table says. *)
Example two_starts :
  let s1 := (run send_ok "celery-v2" 9 None (state_of ready [])).2 in
  let '(r, s2) := run send_ok "celery-v2" 9 None (s1 <| self := ready |>) in
  (status <$> table s1 !! 1, is_ok r, length (sent s2)) = (Some RUN_QUEUED, true, 4%nat).
Proof. vm_compute. reflexivity. Qed.

Lemma generate_inputs_spec_witness :
  ∃ s', generate_inputs send_ok "celery-v2" 9 None (state_of ready []) = (Ok tt, s')
    ∧ status (self s') = INPUTS_GENERATION_QUEUED.
Proof.
  destruct (generate_inputs_spec send_ok "celery-v2" ids (λ n, eq_refl) 1 9 None (state_of ready [])
    (state_undisturbed ready [] eq_refl)) as (s' & q & H & _ & Hself & _).
  exists s'. split; [exact H|]. rewrite Hself. reflexivity.
Defined.

Lemma generate_and_run_spec_witness :
  ∃ s', generate_and_run send_ok "celery-v2" 9 (state_of ready []) = (Ok tt, s')
    ∧ status (self s') = INPUTS_GENERATION_QUEUED.
Proof.
  destruct (generate_and_run_spec send_ok "celery-v2" ids (λ n, eq_refl) 1 9 (state_of ready [])
    (state_undisturbed ready [] eq_refl)) as (s' & q & H & _ & Hself & _).
  exists s'. split; [exact H|]. rewrite Hself. reflexivity.
Defined.

Lemma run_overwrites_worker_witness :
  (status <$> worker_starts {[1 := ready]} !! 1) = Some RUN_STARTED ∧
  ∃ s' a, run send_ok "celery-v2" 9 None (state_of ready [worker_starts]) = (Ok tt, s')
    ∧ table s' !! 1 = Some a ∧ status a = RUN_QUEUED.
Proof.
  split; [vm_compute; reflexivity|].
  destruct (run_overwrites_worker send_ok "celery-v2" ids (λ n, eq_refl) 1 9 None (state_of ready [worker_starts])
    worker_starts (state_undisturbed ready [worker_starts] eq_refl) eq_refl eq_refl) as (s' & a & H & Ht & Hst & _).
  exists s', a. split; [exact H|]. split; [exact Ht|exact Hst].
Defined.

Definition admin : User := {| user_id := 1; username := "admin"; is_superuser := true; is_staff := true; user_groups := [] |}.
Definition running : Analysis :=
  ready <| status := RUN_STARTED |> <| run_mode := Some "V2"%string |> <| run_task_id := "task-0"%string |>.

Lemma requests_refused_witness :
  let s := state_of running [] in
  (∃ e, start_analysis_task admin (run send_ok "celery-v2" 9 None) s = (Raise e, s)) ∧
  (∃ e s', cancel_generate_inputs_view send_ok "celery-v2" admin s = (Raise e, s') ∧ untouched "celery-v2" s s') ∧
  length (sent (cancel_generate_inputs_view send_ok "celery-v2" admin s).2) = 1%nat.
Proof.
  intros s. destruct (requests_refused send_ok "celery-v2" s admin 9 None) as [H1 H2]. split; [|split].
  - apply H1; [reflexivity|left].
  - apply (H2 _ [INPUTS_GENERATION_QUEUED; INPUTS_GENERATION_STARTED]); [right; right; left|]. apply (bool_decide_unpack _). vm_compute. exact I.
  - vm_compute. reflexivity.
Defined.

Lemma cancel_view_spec_witness :
  let s := state_of running [] in
  ∃ s', cancel_view send_ok "celery-v2" admin s = (Ok tt, s') ∧ status (self s') = RUN_CANCELLED
    ∧ length (sent s') = 2%nat.
Proof.
  destruct (cancel_view_spec send_ok "celery-v2" ids (λ n, eq_refl) 1 admin (state_of running [])
    (state_undisturbed running [] eq_refl) eq_refl (λ _ _, eq_refl)) as (s' & H & Hself & _ & Hsent).
  exists s'. split; [exact H|]. rewrite Hself, Hsent. split; reflexivity.
Defined.

Lemma piwind_dynamic settings resource :
  dynamic_settings (analysis_with READY settings resource) (dynamic_model resource) settings resource.
Proof. split; [done| |]; eexists; split; reflexivity. Qed.

Lemma validated_events_total_witness :
  ∃ n, get_num_events ready (dynamic_model piwind_resource) = Ok (Some n).
Proof.
  apply (validated_events_total ready (dynamic_model piwind_resource) piwind_settings piwind_resource piwind_options
           (piwind_dynamic piwind_settings piwind_resource)).
  - left. reflexivity.
  - do 2 eexists. split; [reflexivity|]. split; reflexivity.
  - unfold piwind_options, event_set_option. rewrite !Forall_cons.
    split; [do 2 eexists; split_and!; reflexivity|split; [do 2 eexists; split_and!; reflexivity|constructor]].
  - vm_compute. reflexivity.
Defined.

Lemma one_selected_event_witness :
  let a := analysis_with READY [("event_ids"%string, JList [JInt 7])] [] in
  validate_loss_generation a (dynamic_model []) "V2" ∅ = Ok ∅
  ∧ get_num_events a (dynamic_model []) = Raise AttributeError.
Proof.
  apply (one_selected_event (analysis_with READY [("event_ids"%string, JList [JInt 7])] []) (dynamic_model [])
           [JInt 7] []); [apply piwind_dynamic|reflexivity|discriminate].
Defined.

Definition file_link_of (n : Z) : string := "file-" +:+ pretty n.

Lemma copy_view_spec_witness :
  ∃ s', copy_view file_link_of (state_of ready []) = (Ok tt, s') ∧ pk s' = Some 2.
Proof.
  destruct (copy_view_spec file_link_of (state_of ready []) eq_refl) as (s' & H & Hpk & _).
  - cbn. intros i r [<- _]%lookup_singleton_Some. lia.
  - exists s'. split; [exact H|exact Hpk].
Defined.

Lemma copy_view_own_options_witness :
  let a := ready <| chunking_options := Some (8, dynamic_losses) |> in
  ∃ s', copy_view file_link_of (state_of a []) = (Raise IntegrityError, s') ∧ table s' = {[1 := a]}.
Proof.
  destruct (copy_view_own_options file_link_of 1 8 dynamic_losses
    (state_of (ready <| chunking_options := Some (8, dynamic_losses) |>) [])) as (s' & H & Ht & _);
    [vm_compute; reflexivity|reflexivity|].
  exists s'. split; [exact H|exact Ht].
Defined.
