(* ===== verification/TaskController.v ===== *)
(** * The task controller: an analysis as a canvas of sub-tasks

    analyses/v2_api/task_controller.py: the number of chunks an analysis is cut
    into, the sub-tasks of input generation and of loss generation with their
    status records, the chain that is sent to Celery and the ids that come back.

    Celery is outside: [dispatch] is what sending a chain gives back, a result
    with its parents, and [unchain_tasks] is the method of a chain. *)

From S2P Require Import Prelude PyData ModelOptions Analysis.
Local Open Scope Z_scope.

(** ** Data *)

(** [AnalysisTaskStatus.status_choices]. *)
Inductive task_status := PENDING | QUEUED | STARTED | COMPLETED | CANCELLED | ERROR.
#[export] Instance task_status_eq_dec : EqDecision task_status.
Proof. solve_decision. Defined.

Record AnalysisTaskStatus := {
  st_analysis : Z;
  st_slug : string;
  st_name : string;
  st_queue_name : string;
  st_task_id : string;
  st_status : task_status;
  st_queue_time : option Z;
  st_start_time : option Z;
  st_end_time : option Z;
  st_retry_count : Z;
  st_output_log : option Z;
  st_error_log : option Z;
  st_retry_log : option Z;
}.
#[export] Instance AnalysisTaskStatus_settable : Settable AnalysisTaskStatus := λ r, {|
  st_analysis := st_analysis r; st_slug := st_slug r; st_name := st_name r; st_queue_name := st_queue_name r;
  st_task_id := st_task_id r; st_status := st_status r; st_queue_time := st_queue_time r;
  st_start_time := st_start_time r; st_end_time := st_end_time r; st_retry_count := st_retry_count r;
  st_output_log := st_output_log r; st_error_log := st_error_log r; st_retry_log := st_retry_log r |}.

(** A sub-task: its signature with the callbacks on success and on failure. *)
Record SubtaskSig := { sub_sig : Signature; sub_link : Signature; sub_link_error : Signature }.

(** A step of a chain: a task, or a chord of tasks with its body. *)
Inductive canvas :=
  | Task (t : SubtaskSig)
  | Chord (header : list SubtaskSig) (body : SubtaskSig) (queue : string) (chord_error : Signature).

(** A chain: its steps, with the callbacks put on each of them, and the
    callbacks on the chain as a whole. *)
Record Chain := { chain_steps : list (canvas * list Signature); chain_link_error : list Signature }.

(** The result of sending a chain: its id and what [_parents()] yields. *)
Inductive parent := AsyncResult (id : string) | GroupResult (children : list string).
Record ChainResult := { result_id : string; result_parents : list parent }.

Record TaskParams := { params_args : list json; params_kwargs : list (string * json) }.
Definition no_params : TaskParams := {| params_args := []; params_kwargs := [] |}.
Definition kwargs (kvs : list (string * json)) : TaskParams := {| params_args := []; params_kwargs := kvs |}.

Record Stage := {
  num_chunks : Z;
  run_data_uuid : string;
  statuses : list (list AnalysisTaskStatus);
  tasks : list canvas;
  traceback_property : string;
  failure_status : status_choices;
}.

(** ** The number of chunks *)

(** [min(a, b)] where [a] may be [None]. *)
Definition py_min (a : option Z) (b : Z) : result Z :=
  match a with Some a => Ok (Z.min a b) | None => Raise TypeError end.

(** [ceil(a / b)]. *)
Definition py_ceil_div (a b : Z) : result Z :=
  if b =? 0 then Raise ZeroDivisionError else Ok (ceil_div a b).

(** [_get_inputs_generation_chunks]: [None] is Python's. *)
Definition get_inputs_generation_chunks (o : ModelChunkingOptions) (loc_lines : option Z) : result (option Z) :=
  match lookup_strategy o with
  | FIXED_CHUNKS =>
      match loc_lines with
      | None => Ok (fixed_lookup_chunks o)
      | Some n => Some <$> py_min (fixed_lookup_chunks o) n
      end
  | DYNAMIC_CHUNKS =>
      match loc_lines with
      | None => Raise TypeError
      | Some n =>
          k ← py_ceil_div n (dynamic_locations_per_lookup o);
          Ok (Some (Z.min k (dynamic_chunks_max o)))
      end
  end.

(** [_get_loss_generation_chunks]. *)
Definition get_loss_generation_chunks (o : ModelChunkingOptions) (events_total : json) : result (option Z) :=
  match loss_strategy o with
  | FIXED_CHUNKS => Ok (fixed_analysis_chunks o)
  | DYNAMIC_CHUNKS =>
      n ← py_num events_total;
      k ← py_ceil_div n (dynamic_events_per_analysis o);
      Ok (Some (Z.min k (dynamic_chunks_max o)))
  end.

(** [range(n)]. *)
Definition py_range (n : option Z) : result (list nat) :=
  match n with Some n => Ok (seq 0 (Z.to_nat n)) | None => Raise TypeError end.

(** ** Sub-tasks and their statuses *)

Section subtasks.
(** The analysis and its model, the user's key, the run's data directory. *)
Context (i : Z) (a : Analysis) (m : Model) (initiator : Z) (uuid : string).

Definition callback (task slug : string) : Signature :=
  {| sig_task := task; sig_args := [];
     sig_kwargs := [("analysis_id", JInt i); ("initiator_id", JInt initiator); ("task_slug", JStr slug)]%string;
     sig_queue := EmptyString |}.

(** [get_subtask_signature]. The keyword arguments of the parameters have names
    of their own. *)
Definition get_subtask_signature (task_name slug queue : string) (p : TaskParams) : SubtaskSig := {|
  sub_sig := {| sig_task := task_name; sig_args := params_args p;
    sig_kwargs := [("initiator_id", JInt initiator); ("analysis_id", JInt i); ("slug", JStr slug);
                   ("run_data_uuid", JStr uuid)]%string ++ params_kwargs p;
    sig_queue := queue |};
  sub_link := callback "record_sub_task_success" slug;
  sub_link_error := callback "record_sub_task_failure" slug |}.

(** [get_subtask_status]: a new, pending record. *)
Definition get_subtask_status (name slug queue_name : string) : AnalysisTaskStatus := {|
  st_analysis := i; st_slug := slug; st_name := name; st_queue_name := queue_name;
  st_task_id := EmptyString; st_status := PENDING; st_queue_time := None; st_start_time := None;
  st_end_time := None; st_retry_count := 0; st_output_log := None; st_error_log := None; st_retry_log := None |}.

(** [get_subtask_statuses_and_signature]. *)
Definition get_subtask_statuses_and_signature (task_name status_name status_slug queue : string) (p : TaskParams)
    : list AnalysisTaskStatus * SubtaskSig :=
  ([get_subtask_status status_name status_slug queue], get_subtask_signature task_name status_slug queue p).

Definition single (s : list AnalysisTaskStatus * SubtaskSig) : list AnalysisTaskStatus * canvas := (s.1, Task s.2).

Definition chord_error_signature : Signature :=
  {| sig_task := "chord_error_callback"; sig_args := []; sig_kwargs := []; sig_queue := EmptyString |}.

(** [get_subchord_statuses_and_signature]: unpacking the transposition of an
    empty list fails. *)
Definition get_subchord_statuses_and_signature (task_name status_name status_slug queue : string)
    (params : list TaskParams) (body : list AnalysisTaskStatus * SubtaskSig)
    : result (list AnalysisTaskStatus * canvas) :=
  match params with
  | [] => Raise (ValueError "not enough values to unpack (expected 2, got 0)")
  | _ =>
      let members := imap (λ idx p, get_subtask_statuses_and_signature task_name
          (status_name +:+ " " +:+ pretty idx) (status_slug +:+ "-" +:+ pretty idx) queue p) params in
      Ok (mjoin (fst <$> members) ++ body.1, Chord (snd <$> members) body.2 queue chord_error_signature)
  end.

(** [_split_tasks_and_statuses]. *)
Definition split_tasks_and_statuses (joined : list (list AnalysisTaskStatus * canvas))
    : list (list AnalysisTaskStatus) * list canvas := (fst <$> joined, snd <$> joined).

(** [get_generate_inputs_queue] and [get_generate_losses_queue]. *)
Definition queue : string := model_name m +:+ "-v2".

Definition complex_files : json :=
  match complex_data_file_dicts a with JList [] => JNull | j => j end.

Definition str_or_none (s : option string) : json := match s with Some s => JStr s | None => JNull end.

(** [get_inputs_generation_tasks]; [n] chunks, [None] being Python's. *)
Definition get_inputs_generation_tasks (n : option Z) (analysis_finish_status : string)
    : result (list (list AnalysisTaskStatus) * list canvas) :=
  let p := portfolio a in
  let base_kwargs := [("loc_file", link (location_file p)); ("analysis_settings_file", link (settings_file a));
    ("complex_data_files", complex_files); ("reporting_currency", str_or_none (reporting_currency p));
    ("currency_conversion_json", link (currency_conversion_json p))]%string in
  let files_kwargs := [("loc_file", link (location_file p)); ("acc_file", link (accounts_file p));
    ("info_file", link (reinsurance_info_file p)); ("scope_file", link (reinsurance_scope_file p));
    ("analysis_settings_file", link (settings_file a)); ("complex_data_files", complex_files)]%string in
  let chunks := option_int n in
  chunk_params ← (λ l, (λ idx : nat, {| params_args := [JInt (Z.of_nat idx); chunks];
      params_kwargs := ("acc_file"%string, link (accounts_file p)) :: base_kwargs |}) <$> l) <$> py_range n;
  chord ← get_subchord_statuses_and_signature "prepare_keys_file_chunk" "Prepare keys file" "prepare-keys-file"
    queue chunk_params
    (get_subtask_statuses_and_signature "collect_keys" "Collect keys" "collect-keys" queue (kwargs base_kwargs));
  Ok (split_tasks_and_statuses
    [ single (get_subtask_statuses_and_signature "prepare_input_generation_params"
        "Prepare input generation params" "prepare-input-generation-params" queue (kwargs base_kwargs));
      single (get_subtask_statuses_and_signature "pre_analysis_hook"
        "Pre analysis hook" "pre-analysis-hook" queue (kwargs (("num_chunks"%string, chunks) :: files_kwargs)));
      chord;
      single (get_subtask_statuses_and_signature "write_input_files"
        "Write input files" "write-input-files" queue (kwargs files_kwargs));
      single (get_subtask_statuses_and_signature "record_input_files"
        "Record input files" "record-input-files" "celery-v2"
        (kwargs [("analysis_finish_status"%string, JStr analysis_finish_status)]));
      single (get_subtask_statuses_and_signature "cleanup_input_generation"
        "Cleanup input generation" "cleanup-input-generation" queue no_params) ]).

(** [get_loss_generation_tasks]. *)
Definition get_loss_generation_tasks (n : option Z) : result (list (list AnalysisTaskStatus) * list canvas) :=
  let base_kwargs := [("input_location", link (input_file a)); ("analysis_settings_file", link (settings_file a));
    ("complex_data_files", complex_files)]%string in
  let chunks := option_int n in
  chunk_params ← (λ l, (λ idx : nat, {| params_args := [JInt (Z.of_nat idx); chunks];
      params_kwargs := base_kwargs |}) <$> l) <$> py_range n;
  chord ← get_subchord_statuses_and_signature "generate_losses_chunk" "Generate losses chunk" "generate-losses-chunk"
    queue chunk_params
    (get_subtask_statuses_and_signature "generate_losses_output" "Generate losses output"
       "generate-losses-output" queue (kwargs base_kwargs));
  Ok (split_tasks_and_statuses
    [ single (get_subtask_statuses_and_signature "prepare_losses_generation_params"
        "Prepare losses generation params" "prepare-losses-generation-params" queue
        (kwargs (("num_chunks"%string, chunks) :: base_kwargs)));
      single (get_subtask_statuses_and_signature "prepare_losses_generation_directory"
        "Prepare losses generation directory" "prepare-losses-generation-directory" queue (kwargs base_kwargs));
      chord;
      single (get_subtask_statuses_and_signature "record_losses_files"
        "Record losses files" "record-losses-files" "celery-v2" (kwargs base_kwargs));
      single (get_subtask_statuses_and_signature "cleanup_losses_generation"
        "Cleanup losses generation" "cleanup-losses-generation" queue (kwargs base_kwargs)) ]).

(** [_inputs_generation_stage] and [_loss_generation_stage]. *)
Definition inputs_generation_stage (loc_lines : option Z) (analysis_finish_status : string) : result Stage :=
  n ← get_inputs_generation_chunks (get_chunking_options a m) loc_lines;
  '(sts, tks) ← get_inputs_generation_tasks n analysis_finish_status;
  Ok {| num_chunks := default 0 n; run_data_uuid := uuid; statuses := sts; tasks := tks;
        traceback_property := "input_generation_traceback_file"; failure_status := INPUTS_GENERATION_ERROR |}.

Definition loss_generation_stage (events_total : json) : result Stage :=
  n ← get_loss_generation_chunks (get_chunking_options a m) events_total;
  '(sts, tks) ← get_loss_generation_tasks n;
  Ok {| num_chunks := default 0 n; run_data_uuid := uuid; statuses := sts; tasks := tks;
        traceback_property := "run_traceback_file"; failure_status := RUN_ERROR |}.

(** [_create_chain]. *)
Definition failure_callback (s : Stage) : Signature :=
  {| sig_task := "handle_task_failure"; sig_args := [];
     sig_kwargs := [("analysis_id", JInt i); ("initiator_id", JInt initiator);
                    ("run_data_uuid", JStr (run_data_uuid s));
                    ("traceback_property", JStr (traceback_property s));
                    ("failure_status", JStr (status_name (failure_status s)))]%string;
     sig_queue := EmptyString |}.
Definition create_chain (s : Stage) : Chain :=
  {| chain_steps := (λ c, (c, [])) <$> tasks s; chain_link_error := [failure_callback s] |}.
End subtasks.

(** ** Starting the stages *)

(** The status records in the order of their keys, the instance of the analysis
    at hand and its row, and the chains sent. [digests] counts the status
    messages. *)
Record Ctl := {
  rows : list AnalysisTaskStatus;
  instance : Analysis;
  row : Analysis;
  chains : list Chain;
  digests : nat;
}.
#[export] Instance Ctl_settable : Settable Ctl := λ s, {|
  rows := rows s; instance := instance s; row := row s; chains := chains s; digests := digests s |}.

(** The position of the next id that [extract_celery_task_ids] lists. *)
Definition parent_ids (p : parent) : list string :=
  match p with AsyncResult id => [id] | GroupResult children => rev children end.

(** [extract_celery_task_ids]. *)
Definition extract_celery_task_ids (r : ChainResult) : list string :=
  result_id r :: mjoin (parent_ids <$> result_parents r).

(** [list.pop()]. *)
Definition pop (l : list string) : option (string * list string) :=
  match rev l with [] => None | x :: l => Some (x, rev l) end.

(** The loop of [_record_subtask_ids] over the records of the analysis: it stops
    at the first id that is missing or that another record has
    ([unique_task_id]). [before] are the records already passed. *)
Fixpoint record_ids (i : Z) (ids : list string) (before after : list AnalysisTaskStatus) : list AnalysisTaskStatus :=
  match after with
  | [] => before
  | r :: after =>
      if negb (st_analysis r =? i) then record_ids i ids (before ++ [r]) after
      else match pop ids with
           | None => before ++ r :: after
           | Some (x, ids) =>
               if negb (String.eqb x EmptyString)
                  && existsb (λ r, String.eqb (st_task_id r) x) (before ++ after)
               then before ++ r :: after
               else record_ids i ids (before ++ [r <| st_task_id := x |>]) after
           end
  end.

Section controller.
Context (dispatch : nat → Chain → ChainResult).
Context (unchain_tasks : Chain → list (canvas * list Signature)).
(** The analysis and its model, the user's key, the fresh hexadecimal ids. *)
Context (i : Z) (m : Model) (initiator : Z) (uuid : nat → string).

Definition duplicate_slug (sts : list AnalysisTaskStatus) : bool :=
  negb (bool_decide (NoDup ((λ r, (st_analysis r, st_slug r)) <$> sts))).

(** [_replace_subtask_statuses], with [create_statuses]: the records of the
    analysis go, the new ones are created in bulk, a status message is sent. *)
Definition replace_subtask_statuses (sts : list (list AnalysisTaskStatus)) : M Ctl unit :=
  modify (λ s, s <| rows := List.filter (λ r, negb (st_analysis r =? i)) (rows s) |>);;
  s ← get_state;
  let l := rows s ++ mjoin sts in
  if duplicate_slug l then raise IntegrityError
  else modify (λ s, s <| rows := l |> <| digests := S (digests s) |>).

(** [_record_subtask_ids]. *)
Definition record_subtask_ids (r : ChainResult) : M Ctl unit :=
  modify (λ s, s <| rows := record_ids i (extract_celery_task_ids r) [] (rows s) |>).

Definition delay (c : Chain) : M Ctl ChainResult := λ s,
  (Ok (dispatch (length (chains s)) c), s <| chains := chains s ++ [c] |>).

(** [_start_stage], with [_start]. *)
Definition start_stage (st : Stage) : M Ctl ChainResult :=
  replace_subtask_statuses (statuses st);;
  task ← delay (create_chain i initiator st);
  record_subtask_ids task;;
  mret task.

(** [analysis.save(update_fields=...)]: [f] writes the fields. *)
Definition update_analysis (f : Analysis → Analysis) : M Ctl unit :=
  modify (λ s, s <| instance := f (instance s) |> <| row := f (row s) |>).

(** [generate_inputs]; [run_task_id] is written too, with the instance's value. *)
Definition generate_inputs (loc_lines : option Z) : M Ctl unit :=
  s ← get_state;
  st ← lift (inputs_generation_stage i (instance s) m initiator (uuid 0) loc_lines "READY");
  task ← start_stage st;
  s ← get_state;
  let run_id := run_task_id (instance s) in
  update_analysis (λ a, a <| lookup_chunks := Some (num_chunks st) |>
    <| generate_inputs_task_id := result_id task |> <| run_task_id := run_id |>).

(** [generate_losses]. *)
Definition generate_losses (events_total : json) : M Ctl unit :=
  s ← get_state;
  st ← lift (loss_generation_stage i (instance s) m initiator (uuid 0) events_total);
  task ← start_stage st;
  update_analysis (λ a, a <| analysis_chunks := Some (num_chunks st) |> <| run_task_id := result_id task |>).

(** [_join_stage_chains]. *)
Definition join_stage_chains (cs : list Chain) : Chain :=
  {| chain_steps := mjoin (unchain_tasks <$> cs); chain_link_error := [] |}.

(** [generate_input_and_losses]. *)
Definition generate_input_and_losses (loc_lines : option Z) (events_total : json) : M Ctl unit :=
  s ← get_state;
  inputs ← lift (inputs_generation_stage i (instance s) m initiator (uuid 0) loc_lines "RUN_STARTED");
  losses ← lift (loss_generation_stage i (instance s) m initiator (uuid 1) events_total);
  replace_subtask_statuses (statuses inputs ++ statuses losses);;
  task ← delay (join_stage_chains [create_chain i initiator inputs; create_chain i initiator losses]);
  record_subtask_ids task;;
  update_analysis (λ a, a <| lookup_chunks := Some (num_chunks inputs) |>
    <| analysis_chunks := Some (num_chunks losses) |>
    <| generate_inputs_task_id := result_id task |> <| run_task_id := result_id task |>).
End controller.

(** ** The number of chunks is positive and bounded *)

(** A validated number of location rows is cut into at least one lookup
    chunk, and, in either strategy, into no more chunks than there are rows or
    than the strategy's limit. Dynamic chunks hold at most
    [dynamic_locations_per_lookup] rows each unless the limit caps them. *)
Theorem inputs_chunks_bounds o rows :
  chunking_wf o → 1 ≤ rows → (lookup_strategy o = FIXED_CHUNKS → fixed_lookup_chunks o ≠ None) →
  ∃ n, get_inputs_generation_chunks o (Some rows) = Ok (Some n) ∧ 1 ≤ n ≤ rows
    ∧ match lookup_strategy o with
      | FIXED_CHUNKS => ∀ k, fixed_lookup_chunks o = Some k → n ≤ k
      | DYNAMIC_CHUNKS => n ≤ dynamic_chunks_max o
          ∧ (n < dynamic_chunks_max o → rows ≤ n * dynamic_locations_per_lookup o)
      end.
Proof.
  intros (Hl & He & Hm & Hfa & Hfl) Hr Hnone. unfold get_inputs_generation_chunks.
  destruct (lookup_strategy o).
  - destruct (fixed_lookup_chunks o) as [k|] eqn:Hk; [|by destruct Hnone]. pose proof (Hfl k eq_refl).
    exists (Z.min k rows). split; [done|]. split; [lia|]. intros k' [= <-]. lia.
  - unfold py_ceil_div. destruct (Z.eqb_spec (dynamic_locations_per_lookup o) 0); [lia|]. cbn.
    pose proof (ceil_div_spec rows (dynamic_locations_per_lookup o) ltac:(lia)).
    pose proof (ceil_div_pos rows (dynamic_locations_per_lookup o) ltac:(lia) ltac:(lia)).
    eexists. split; [done|]. split; [nia|]. split; [lia|]. intros. rewrite Z.min_l in * by lia. nia.
Qed.

(** The same for loss chunks and the number of events. *)
Theorem loss_chunks_bounds o events :
  chunking_wf o → 1 ≤ events → (loss_strategy o = FIXED_CHUNKS → fixed_analysis_chunks o ≠ None) →
  ∃ n, get_loss_generation_chunks o (JInt events) = Ok (Some n) ∧ 1 ≤ n
    ∧ match loss_strategy o with
      | FIXED_CHUNKS => fixed_analysis_chunks o = Some n
      | DYNAMIC_CHUNKS => n ≤ events ∧ n ≤ dynamic_chunks_max o
          ∧ (n < dynamic_chunks_max o → events ≤ n * dynamic_events_per_analysis o)
      end.
Proof.
  intros (Hl & He & Hm & Hfa & Hfl) Hr Hnone. unfold get_loss_generation_chunks.
  destruct (loss_strategy o).
  - destruct (fixed_analysis_chunks o) as [k|] eqn:Hk; [|by destruct Hnone]. pose proof (Hfa k eq_refl). eauto.
  - cbn. unfold py_ceil_div. destruct (Z.eqb_spec (dynamic_events_per_analysis o) 0); [lia|]. cbn.
    pose proof (ceil_div_spec events (dynamic_events_per_analysis o) ltac:(lia)).
    pose proof (ceil_div_pos events (dynamic_events_per_analysis o) ltac:(lia) ltac:(lia)).
    eexists. split; [done|]. split; [lia|]. split; [nia|]. split; [lia|]. intros. rewrite Z.min_l in * by lia. nia.
Qed.

(** ** The slugs of the sub-tasks *)

Definition sig_slug (t : SubtaskSig) : option string :=
  match assoc "slug" (sig_kwargs (sub_sig t)) with Some (JStr s) => Some s | _ => None end.
Definition canvas_subtasks (c : canvas) : list SubtaskSig :=
  match c with Task t => [t] | Chord h b _ _ => h ++ [b] end.

(** The records and the sub-tasks of a stage go together: the same slugs in the
    same order, all for the analysis [i], all pending and without a task id. *)
Record stage_slugs (i : Z) (slugs : list string) (sts : list (list AnalysisTaskStatus)) (tks : list canvas) : Prop := {
  ss_rows : st_slug <$> mjoin sts = slugs;
  ss_sigs : sig_slug <$> mjoin (canvas_subtasks <$> tks) = Some <$> slugs;
  ss_steps : Forall2 (λ st c, length st = length (canvas_subtasks c)) sts tks;
  ss_new : Forall (λ r, st_analysis r = i ∧ st_task_id r = EmptyString ∧ st_status r = PENDING) (mjoin sts);
}.

Definition inputs_slugs (n : nat) : list string :=
  ["prepare-input-generation-params"; "pre-analysis-hook"]%string
  ++ ((λ k, "prepare-keys-file-" +:+ pretty k) <$> seq 0 n)
  ++ ["collect-keys"; "write-input-files"; "record-input-files"; "cleanup-input-generation"]%string.
Definition losses_slugs (n : nat) : list string :=
  ["prepare-losses-generation-params"; "prepare-losses-generation-directory"]%string
  ++ ((λ k, "generate-losses-chunk-" +:+ pretty k) <$> seq 0 n)
  ++ ["generate-losses-output"; "record-losses-files"; "cleanup-losses-generation"]%string.

Lemma imap_seq {A B} (f : nat → A → B) (g : nat → B) (l : list A) :
  (∀ k x, f k x = g k) → imap f l = g <$> seq 0 (length l).
Proof.
  revert f g. induction l as [|x l IH]; intros f g Hfg; [done|]. cbn. rewrite Hfg. f_equal.
  rewrite (IH (f ∘ S) (g ∘ S)) by (intros; apply Hfg). rewrite <- fmap_S_seq, <- list_fmap_compose. done.
Qed.

Lemma mjoin_singletons {A B} (f : A → B) (l : list A) : mjoin ((λ x, [f x]) <$> l) = f <$> l.
Proof. induction l; cbn; [done|]. by f_equal. Qed.

Section slugs.
Context (i : Z) (a : Analysis) (m : Model) (initiator : Z) (uuid : string).

Lemma subchord_slugs task_name status_name status_slug q params body sts c b_slug :
  get_subchord_statuses_and_signature i initiator uuid task_name status_name status_slug q params body = Ok (sts, c) →
  (∃ name task p, body = get_subtask_statuses_and_signature i initiator uuid task name b_slug q p) →
  let slugs := ((λ k, status_slug +:+ "-" +:+ pretty k) <$> seq 0 (length params)) ++ [b_slug] in
  params ≠ [] ∧ st_slug <$> sts = slugs ∧ sig_slug <$> canvas_subtasks c = Some <$> slugs
  ∧ length sts = length (canvas_subtasks c)
  ∧ Forall (λ r, st_analysis r = i ∧ st_task_id r = EmptyString ∧ st_status r = PENDING) sts.
Proof.
  intros H (name & task & p & ->). unfold get_subchord_statuses_and_signature in H.
  assert (params ≠ []) as Hne by (by destruct params).
  assert (∀ l : list TaskParams, fst <$> imap (λ idx p, get_subtask_statuses_and_signature i initiator uuid task_name
          (status_name +:+ " " +:+ pretty idx) (status_slug +:+ "-" +:+ pretty idx) q p) l
      = (λ idx, [get_subtask_status i (status_name +:+ " " +:+ pretty idx) (status_slug +:+ "-" +:+ pretty idx) q])
          <$> seq 0 (length l)) as Hfst.
  { intros l. rewrite fmap_imap. by apply imap_seq. }
  assert (∀ l : list TaskParams, sig_slug <$> (snd <$> imap (λ idx p, get_subtask_statuses_and_signature i initiator uuid task_name
          (status_name +:+ " " +:+ pretty idx) (status_slug +:+ "-" +:+ pretty idx) q p) l)
      = (λ idx, Some (status_slug +:+ "-" +:+ pretty idx)) <$> seq 0 (length l)) as Hsnd.
  { intros l. rewrite !fmap_imap. by apply imap_seq. }
  split; [done|].
  assert (sts = ((λ idx, get_subtask_status i (status_name +:+ " " +:+ pretty idx) (status_slug +:+ "-" +:+ pretty idx) q)
      <$> seq 0 (length params)) ++ [get_subtask_status i name b_slug q]
    ∧ sig_slug <$> canvas_subtasks c = Some <$> (((λ k, status_slug +:+ "-" +:+ pretty k) <$> seq 0 (length params)) ++ [b_slug])
    ∧ length (canvas_subtasks c) = S (length params)) as (-> & Hsig & Hlen).
  { destruct params as [|x l]; [done|]. apply Ok_inj, pair_equal_spec in H as [<- <-]. rewrite Hfst, mjoin_singletons. split; [done|].
    cbn [canvas_subtasks]. rewrite !fmap_app, Hsnd, <- list_fmap_compose. split; [done|].
    rewrite length_app, length_fmap, length_imap. cbn. lia. }
  rewrite fmap_app, <- list_fmap_compose. split_and!; [done|exact Hsig| |].
  - rewrite Hlen, length_app, length_fmap, length_seq. cbn. lia.
  - apply Forall_app. split; [|by repeat constructor]. apply Forall_fmap, Forall_forall. done.
Qed.

Lemma py_range_ok n l : py_range n = Ok l → ∃ k, n = Some k ∧ l = seq 0 (Z.to_nat k).
Proof. destruct n as [k|]; cbn; intros H; simplify_eq. eauto. Qed.

(** The input generation of an analysis: [n] chunks and six more steps,
    every sub-task with a record of its own under the same slug. *)
Theorem inputs_stage_slugs n finish sts tks :
  get_inputs_generation_tasks i a m initiator uuid n finish = Ok (sts, tks) →
  ∃ k, n = Some k ∧ 0 < k ∧ stage_slugs i (inputs_slugs (Z.to_nat k)) sts tks.
Proof.
  unfold get_inputs_generation_tasks. intros H. apply bind_Ok in H as (params & Hp & H).
  apply fmap_Ok in Hp as (l & Hl & <-). apply py_range_ok in Hl as (k & -> & ->).
  apply bind_Ok in H as ([cs c] & Hc & H). apply Ok_inj, pair_equal_spec in H as [<- <-].
  eapply (subchord_slugs) with (b_slug := "collect-keys"%string) in Hc; [|by do 3 eexists].
  destruct Hc as (Hne & Hs & Hg & Hlen & Hnew).
  rewrite length_fmap, length_seq in Hs, Hg. exists k. split; [done|]. split.
  { destruct (Z.to_nat k) eqn:E; [done|lia]. }
  split; cbn.
  - rewrite !fmap_app, Hs. cbn. unfold inputs_slugs. by rewrite <- !app_assoc.
  - rewrite !fmap_app, Hg. cbn. unfold inputs_slugs. cbn. rewrite fmap_app, <- !app_assoc. cbn.
    done.
  - repeat constructor; done.
  - repeat (apply Forall_cons; split; [done|]). apply Forall_app. split; [done|]. by repeat constructor.
Qed.

(** The same for loss generation: [n] chunks and five more steps. *)
Theorem losses_stage_slugs n sts tks :
  get_loss_generation_tasks i a m initiator uuid n = Ok (sts, tks) →
  ∃ k, n = Some k ∧ 0 < k ∧ stage_slugs i (losses_slugs (Z.to_nat k)) sts tks.
Proof.
  unfold get_loss_generation_tasks. intros H. apply bind_Ok in H as (params & Hp & H).
  apply fmap_Ok in Hp as (l & Hl & <-). apply py_range_ok in Hl as (k & -> & ->).
  apply bind_Ok in H as ([cs c] & Hc & H). apply Ok_inj, pair_equal_spec in H as [<- <-].
  eapply (subchord_slugs) with (b_slug := "generate-losses-output"%string) in Hc; [|by do 3 eexists].
  destruct Hc as (Hne & Hs & Hg & Hlen & Hnew).
  rewrite length_fmap, length_seq in Hs, Hg. exists k. split; [done|]. split.
  { destruct (Z.to_nat k) eqn:E; [done|lia]. }
  split; cbn.
  - rewrite !fmap_app, Hs. cbn. unfold losses_slugs. by rewrite <- !app_assoc.
  - rewrite !fmap_app, Hg. cbn. unfold losses_slugs. cbn. rewrite fmap_app, <- !app_assoc. cbn.
    done.
  - repeat constructor; done.
  - repeat (apply Forall_cons; split; [done|]). apply Forall_app. split; [done|]. by repeat constructor.
Qed.
End slugs.

Lemma append_inj_l p (s t : string) : p +:+ s = p +:+ t → s = t.
Proof. induction p as [|c p IH]; cbn; [done|]. intros [= H]. by apply IH. Qed.

Lemma prefix_append p t : String.prefix p (p +:+ t) = true.
Proof. induction p as [|c p IH]; cbn; [by destruct t|]. by destruct (ascii_dec c c). Qed.

Lemma chunk_slugs_NoDup p (l : list nat) : NoDup l → NoDup ((λ k : nat, p +:+ pretty k) <$> l).
Proof. apply NoDup_fmap_2. intros x y H. by apply append_inj_l, (inj pretty) in H. Qed.

Lemma chunk_slugs_other p (l : list nat) x : String.prefix p x = false → x ∉ (λ k : nat, p +:+ pretty k) <$> l.
Proof. intros Hp (k & -> & _)%list_elem_of_fmap. by rewrite prefix_append in Hp. Qed.

(** No two sub-tasks of an analysis have the same slug, not even when both
    stages run, so creating their records never violates the unique key. *)
Theorem slugs_unique n k : NoDup (inputs_slugs n ++ losses_slugs k).
Proof.
  unfold inputs_slugs, losses_slugs.
  set (A := (λ j : nat, "prepare-keys-file-" +:+ pretty j) <$> seq 0 n).
  set (B := (λ j : nat, "generate-losses-chunk-" +:+ pretty j) <$> seq 0 k).
  set (F := ["prepare-input-generation-params"; "pre-analysis-hook"; "collect-keys"; "write-input-files";
    "record-input-files"; "cleanup-input-generation"; "prepare-losses-generation-params";
    "prepare-losses-generation-directory"; "generate-losses-output"; "record-losses-files";
    "cleanup-losses-generation"]%string).
  assert (F ++ A ++ B ≡ₚ (["prepare-input-generation-params"; "pre-analysis-hook"]%string ++ A ++
    ["collect-keys"; "write-input-files"; "record-input-files"; "cleanup-input-generation"]%string) ++
    ["prepare-losses-generation-params"; "prepare-losses-generation-directory"]%string ++ B ++
    ["generate-losses-output"; "record-losses-files"; "cleanup-losses-generation"]%string) as Hperm by (unfold F; cbn; solve_Permutation).
  rewrite <- Hperm. apply NoDup_app. split; [apply (bool_decide_unpack _); vm_compute; exact I|].
  assert (∀ x, x ∈ F → String.prefix "prepare-keys-file-" x = false ∧ String.prefix "generate-losses-chunk-" x = false) as HF.
  { apply Forall_forall. apply (bool_decide_unpack _). vm_compute. exact I. }
  split.
  - intros x Hx. destruct (HF x Hx). rewrite elem_of_app. intros [H'|H']; by apply chunk_slugs_other in H'.
  - apply NoDup_app. split; [apply chunk_slugs_NoDup, NoDup_seq|]. split; [|apply chunk_slugs_NoDup, NoDup_seq].
    intros x (j & -> & _)%list_elem_of_fmap. by apply chunk_slugs_other.
Qed.

(** ** The ids of the sub-tasks *)

(** What Celery documents of the result of a chain: the result of the last step,
    whose parents are the steps before, last first; a chord counts as its body,
    then the group of its header. [ids] are the ids of the sub-tasks, step by
    step, in the order of [canvas_subtasks]. *)
Definition step_results (c : canvas) (ids : list string) : list parent :=
  match c with
  | Task _ => AsyncResult <$> ids
  | Chord h _ _ _ => (AsyncResult <$> drop (length h) ids) ++ [GroupResult (take (length h) ids)]
  end.

Definition celery_result (steps : list canvas) (ids : list (list string)) (r : ChainResult) : Prop :=
  Forall2 (λ c l, length l = length (canvas_subtasks c)) steps ids
  ∧ AsyncResult (result_id r) :: result_parents r = mjoin (rev (zip_with step_results steps ids)).

Lemma parent_ids_mjoin r :
  extract_celery_task_ids r = mjoin (parent_ids <$> (AsyncResult (result_id r) :: result_parents r)).
Proof. done. Qed.

Lemma step_results_ids c l : length l = length (canvas_subtasks c) →
  mjoin (parent_ids <$> step_results c l) = rev l.
Proof.
  destruct c as [t|h b q e]; cbn.
  - destruct l as [|x [|y l]]; cbn; intros; simplify_eq; done.
  - rewrite length_app; cbn. intros Hl. rewrite fmap_app, join_app. cbn. rewrite app_nil_r.
    rewrite <- (take_drop (length h) l) at 3. rewrite rev_app_distr. f_equal.
    destruct (drop (length h) l) as [|x [|y d]] eqn:E; [done|done|].
    apply (f_equal length) in E. rewrite length_drop in E. cbn in E. lia.
Qed.

(** Celery's tree lists the ids backwards. *)
Lemma extract_ids steps ids r : celery_result steps ids r → extract_celery_task_ids r = rev (mjoin ids).
Proof.
  intros [Hlen Hr]. rewrite parent_ids_mjoin, Hr. clear Hr.
  induction Hlen as [|c l steps ids Hl _ IH]; cbn; [done|].
  rewrite join_app, fmap_app, join_app, IH. cbn. rewrite app_nil_r, step_results_ids by done.
  by rewrite rev_app_distr.
Qed.

Lemma pop_rev x l : pop (rev (x :: l)) = Some (x, rev l).
Proof. unfold pop. by rewrite rev_involutive. Qed.

Definition with_ids (new : list AnalysisTaskStatus) (ids : list string) : list AnalysisTaskStatus :=
  zip_with (λ r x, r <| st_task_id := x |>) new ids.

Lemma no_id_clash x l : (∀ r, r ∈ l → st_task_id r ≠ x) → existsb (λ r, String.eqb (st_task_id r) x) l = false.
Proof.
  intros H. apply not_true_is_false. intros (r & Hr & E)%existsb_exists.
  apply String.eqb_eq in E. apply (H r); [by apply list_elem_of_In|done].
Qed.

(** Fresh, distinct ids are all recorded, each with its record. *)
Lemma record_ids_all i new ids before :
  length new = length ids → Forall (λ r, st_analysis r = i ∧ st_task_id r = EmptyString) new →
  NoDup ids → (∀ x, x ∈ ids → x ≠ EmptyString) → (∀ x r, x ∈ ids → r ∈ before → st_task_id r ≠ x) →
  record_ids i (rev ids) before new = before ++ with_ids new ids.
Proof.
  revert ids before. induction new as [|r new IH]; intros [|x ids] before Hlen Hnew Hnd Hne Hfresh; try done.
  { cbn. by rewrite app_nil_r. }
  apply Forall_cons in Hnew as [[Hi Hr] Hnew]. apply NoDup_cons in Hnd as [Hx Hnd].
  cbn [record_ids]. rewrite Hi, Z.eqb_refl. cbn [negb]. rewrite pop_rev.
  rewrite no_id_clash, andb_false_r.
  2: { intros r' [Hb|Ha]%elem_of_app; [by apply (Hfresh x r'); [left|]|].
       rewrite Forall_forall in Hnew. destruct (Hnew r' Ha) as [_ ->]. intros E. apply (Hne x); [left|done]. }
  rewrite IH; [|by injection Hlen|done|done|by intros; apply Hne; right|].
  - by rewrite <- app_assoc.
  - intros y r' Hy [Hb|Hb]%elem_of_app; [apply Hfresh; [by right|done]|].
    apply list_elem_of_singleton in Hb as ->. cbn. by intros ->.
Qed.

Lemma record_ids_others i ids before others new :
  Forall (λ r, st_analysis r ≠ i) others →
  record_ids i ids before (others ++ new) = record_ids i ids (before ++ others) new.
Proof.
  intros H. revert before. induction H as [|r others Hr _ IH]; intros before; cbn; [by rewrite app_nil_r|].
  rewrite (proj2 (Z.eqb_neq _ _) Hr). cbn. rewrite IH, <- app_assoc. done.
Qed.

(** ** Dispatching a stage *)

(** The records of the other analyses. *)
Definition other_rows (i : Z) (l : list AnalysisTaskStatus) : list AnalysisTaskStatus :=
  List.filter (λ r, negb (st_analysis r =? i)) l.

Lemma other_rows_spec i l : Forall (λ r, st_analysis r ≠ i) (other_rows i l).
Proof.
  apply Forall_forall. intros r [_ Hr]%list_elem_of_In%filter_In.
  by apply negb_true_iff, Z.eqb_neq in Hr.
Qed.

(** The table satisfies its unique key. *)
Definition rows_ok (l : list AnalysisTaskStatus) : Prop := NoDup ((λ r, (st_analysis r, st_slug r)) <$> l).

Lemma filter_fmap_NoDup {A B} (f : A → B) (P : A → bool) (l : list A) :
  NoDup (f <$> l) → NoDup (f <$> List.filter P l).
Proof.
  induction l as [|x l IH]; cbn; [done|]. intros [Hx Hl]%NoDup_cons.
  destruct (P x); cbn; [|auto]. apply NoDup_cons. split; [|auto].
  intros (y & E & Hy)%list_elem_of_fmap. apply Hx, list_elem_of_fmap. exists y. split; [exact E|].
  apply list_elem_of_In. apply list_elem_of_In, filter_In in Hy. tauto.
Qed.

Lemma new_rows_ok i l new slugs :
  rows_ok l → Forall (λ r, st_analysis r = i) new → st_slug <$> new = slugs → NoDup slugs →
  duplicate_slug (other_rows i l ++ new) = false.
Proof.
  intros Hl Hnew <- Hnd. unfold duplicate_slug. rewrite bool_decide_eq_true_2; [done|].
  rewrite fmap_app. apply NoDup_app. split; [by apply filter_fmap_NoDup|]. split.
  - intros x (r & -> & Hr)%list_elem_of_fmap (r' & [= E _] & Hr')%list_elem_of_fmap.
    pose proof (other_rows_spec i l) as Ho. rewrite Forall_forall in Ho, Hnew.
    apply (Ho r Hr). by rewrite E, (Hnew r' Hr').
  - assert (((λ r, (st_analysis r, st_slug r)) <$> new) = pair i <$> (st_slug <$> new)) as ->.
    { rewrite <- list_fmap_compose. apply list_fmap_ext. intros j r Hr. cbn.
      rewrite Forall_lookup in Hnew. by rewrite (Hnew j r Hr). }
    apply NoDup_fmap_2; [|done]. by intros x y [= ->].
Qed.

Definition fresh_ids (ids : list string) (l : list AnalysisTaskStatus) : Prop :=
  NoDup ids ∧ (∀ x, x ∈ ids → x ≠ EmptyString) ∧ (∀ x r, x ∈ ids → r ∈ l → st_task_id r ≠ x).

Lemma stage_ids_length i slugs sts tks ids r :
  stage_slugs i slugs sts tks → celery_result tks ids r → length (mjoin sts) = length (mjoin ids).
Proof.
  intros [_ _ Hsteps _] [Hids _]. revert ids Hids. induction Hsteps as [|st c sts tks Hl _ IH]; intros ids Hids.
  - by apply Forall2_nil_inv_l in Hids as ->.
  - apply Forall2_cons_inv_l in Hids as (l & ids' & Hl' & Hids & ->).
    change (length (st ++ mjoin sts) = length (l ++ mjoin ids')).
    rewrite !length_app, (IH ids' Hids). by rewrite Hl, Hl'.
Qed.

Lemma stage_slugs_app i s1 s2 st1 st2 t1 t2 :
  stage_slugs i s1 st1 t1 → stage_slugs i s2 st2 t2 → stage_slugs i (s1 ++ s2) (st1 ++ st2) (t1 ++ t2).
Proof.
  intros [A1 B1 C1 D1] [A2 B2 C2 D2]. split.
  - by rewrite join_app, fmap_app, A1, A2.
  - by rewrite !fmap_app, join_app, fmap_app, B1, B2.
  - by apply Forall2_app.
  - rewrite join_app. by apply Forall_app.
Qed.

Section dispatching.
Context (dispatch : nat → Chain → ChainResult) (unchain_tasks : Chain → list (canvas * list Signature)).
Context (i : Z) (m : Model) (initiator : Z) (uuid : nat → string).
(** [Chain.unchain_tasks] copies the callbacks of the chain onto its steps. *)
Context (unchain_spec : ∀ c, unchain_tasks c = (λ '(t, errs), (t, errs ++ chain_link_error c)) <$> chain_steps c).

(** The records after the stages [sts] of the analysis were created and sent as
    [c] with the ids [ids]. *)
Definition recorded (sts : list (list AnalysisTaskStatus)) (ids : list (list string)) (c : Chain) (s s' : Ctl) : Prop :=
  rows s' = other_rows i (rows s) ++ with_ids (mjoin sts) (mjoin ids)
  ∧ chains s' = chains s ++ [c] ∧ digests s' = S (digests s).

Lemma create_and_send slugs sts tks ids c s :
  rows_ok (rows s) → stage_slugs i slugs sts tks → NoDup slugs →
  celery_result tks ids (dispatch (length (chains s)) c) → fresh_ids (mjoin ids) (other_rows i (rows s)) →
  (replace_subtask_statuses i sts;; task ← delay dispatch c; record_subtask_ids i task;; mret task) s
  = (Ok (dispatch (length (chains s)) c),
     s <| rows := other_rows i (rows s) ++ with_ids (mjoin sts) (mjoin ids) |>
       <| chains := chains s ++ [c] |> <| digests := S (digests s) |>).
Proof.
  intros Hok Hss Hnd Hr (F1 & F2 & F3). pose proof (stage_ids_length _ _ _ _ _ _ Hss Hr) as Hlen.
  destruct Hss as [Hrows _ _ Hnew].
  erewrite bind_step.
  2: { unfold replace_subtask_statuses. rewrite modify_bind, get_bind. cbn [rows setter]. fold (other_rows i (rows s)).
       rewrite (new_rows_ok i (rows s) (mjoin sts) slugs); [reflexivity|done| |done|done].
       eapply Forall_impl; [exact Hnew|]. by intros r [? _]. }
  unfold delay, record_subtask_ids, modify. unfold mbind, M_bind. cbn. f_equal. f_equal.
  rewrite (extract_ids _ _ _ Hr), record_ids_others by apply other_rows_spec. cbn.
  apply record_ids_all; [done| |done|done|done].
  eapply Forall_impl; [exact Hnew|]. by intros r (? & ? & _).
Qed.

(** Dispatching input generation. If the stage cannot be built (no chunk
    count, no chunk) nothing has happened: the records of the last generation
    are still there. If it can, the analysis' records are replaced by one for
    each sub-task, each with the Celery id of its own sub-task, in order; no
    other analysis' record changes, and the number of chunks and the task id
    are stored with the analysis. *)
Theorem dispatch_inputs_spec loc_lines s :
  rows_ok (rows s) →
  match inputs_generation_stage i (instance s) m initiator (uuid 0) loc_lines "READY" with
  | Raise e => generate_inputs dispatch i m initiator uuid loc_lines s = (Raise e, s)
  | Ok st => ∀ ids,
      let c := create_chain i initiator st in let r := dispatch (length (chains s)) c in
      celery_result (tasks st) ids r → fresh_ids (mjoin ids) (other_rows i (rows s)) →
      ∃ s', generate_inputs dispatch i m initiator uuid loc_lines s = (Ok tt, s')
        ∧ recorded (statuses st) ids c s s'
        ∧ lookup_chunks (row s') = Some (num_chunks st)
        ∧ generate_inputs_task_id (row s') = result_id r ∧ status (row s') = status (row s)
  end.
Proof.
  intros Hok. unfold generate_inputs. rewrite get_bind, lift_bind.
  destruct (inputs_generation_stage _ _ _ _ _ _ _) as [st|e] eqn:Hst; [|done].
  unfold inputs_generation_stage in Hst. apply bind_Ok in Hst as (n & Hn & Hst).
  apply bind_Ok in Hst as ([sts tks] & Ht & Hst). apply Ok_inj in Hst as <-. cbn [tasks statuses num_chunks].
  intros ids. set (c := create_chain _ _ _). intros Hr Hfresh. apply inputs_stage_slugs in Ht as (k & -> & Hk & Hss).
  pose proof (slugs_unique (Z.to_nat k) 0) as Hnd. apply NoDup_app in Hnd as [Hnd _].
  unfold start_stage. cbn [statuses].
  rewrite (bind_step _ _ _ _ _ (create_and_send _ _ _ _ c s Hok Hss Hnd Hr Hfresh)). rewrite get_bind.
  eexists. split; [reflexivity|]. split; [by split|]. done.
Qed.

(** Dispatching loss generation. *)
Theorem dispatch_losses_spec events_total s :
  rows_ok (rows s) →
  match loss_generation_stage i (instance s) m initiator (uuid 0) events_total with
  | Raise e => generate_losses dispatch i m initiator uuid events_total s = (Raise e, s)
  | Ok st => ∀ ids,
      let c := create_chain i initiator st in let r := dispatch (length (chains s)) c in
      celery_result (tasks st) ids r → fresh_ids (mjoin ids) (other_rows i (rows s)) →
      ∃ s', generate_losses dispatch i m initiator uuid events_total s = (Ok tt, s')
        ∧ recorded (statuses st) ids c s s'
        ∧ analysis_chunks (row s') = Some (num_chunks st)
        ∧ run_task_id (row s') = result_id r ∧ status (row s') = status (row s)
  end.
Proof.
  intros Hok. unfold generate_losses. rewrite get_bind, lift_bind.
  destruct (loss_generation_stage _ _ _ _ _ _) as [st|e] eqn:Hst; [|done].
  unfold loss_generation_stage in Hst. apply bind_Ok in Hst as (n & Hn & Hst).
  apply bind_Ok in Hst as ([sts tks] & Ht & Hst). apply Ok_inj in Hst as <-. cbn [tasks statuses num_chunks].
  intros ids. set (c := create_chain _ _ _). intros Hr Hfresh. apply losses_stage_slugs in Ht as (k & -> & Hk & Hss).
  pose proof (slugs_unique 0 (Z.to_nat k)) as Hnd. apply NoDup_app in Hnd as (_ & _ & Hnd).
  unfold start_stage. cbn [statuses].
  rewrite (bind_step _ _ _ _ _ (create_and_send _ _ _ _ c s Hok Hss Hnd Hr Hfresh)).
  eexists. split; [reflexivity|]. split; [by split|]. done.
Qed.

(** The callback of a failure that stores the traceback as [traceback] and the status
    [failure]. *)
Definition handled_as (uuid traceback failure : string) : Signature :=
  {| sig_task := "handle_task_failure"; sig_args := [];
     sig_kwargs := [("analysis_id", JInt i); ("initiator_id", JInt initiator); ("run_data_uuid", JStr uuid);
                    ("traceback_property", JStr traceback); ("failure_status", JStr failure)]%string;
     sig_queue := EmptyString |}.

(** C32: Dispatching both stages at once, where both can be built. The chain that is sent
    holds the steps of the inputs, then those of the losses, and the failure of a step is
    handled for the stage it belongs to: a step of the generation of inputs is linked to the
    callback that stores the traceback of the generation and INPUTS_GENERATION_ERROR, a
    step of the run to the one that stores the traceback of the run and RUN_ERROR, each with
    the data directory of its own stage. Every sub-task of both stages has its record, with its
    own id, the records of other analyses stay, and the analysis has the numbers of chunks
    and the id of the chain for both stages. Of Celery it is assumed that unchain_tasks
    copies the callbacks of a chain onto its steps, and that it answers with an id for each
    sub-task, from the last step back, none of them empty, twice there or on a record of
    another analysis; of the records, that no two of one analysis have the same slug. *)
Theorem dispatch_both_spec loc_lines events_total s inputs losses ids :
  rows_ok (rows s) →
  inputs_generation_stage i (instance s) m initiator (uuid 0) loc_lines "RUN_STARTED" = Ok inputs →
  loss_generation_stage i (instance s) m initiator (uuid 1) events_total = Ok losses →
  let c := {| chain_steps :=
                ((λ t, (t, [handled_as (uuid 0) "input_generation_traceback_file" "INPUTS_GENERATION_ERROR"])) <$> tasks inputs)
                ++ ((λ t, (t, [handled_as (uuid 1) "run_traceback_file" "RUN_ERROR"])) <$> tasks losses);
              chain_link_error := [] |} in
  let r := dispatch (length (chains s)) c in
  celery_result (tasks inputs ++ tasks losses) ids r → fresh_ids (mjoin ids) (other_rows i (rows s)) →
  ∃ s', generate_input_and_losses dispatch unchain_tasks i m initiator uuid loc_lines events_total s = (Ok tt, s')
    ∧ recorded (statuses inputs ++ statuses losses) ids c s s'
    ∧ lookup_chunks (row s') = Some (num_chunks inputs) ∧ analysis_chunks (row s') = Some (num_chunks losses)
    ∧ generate_inputs_task_id (row s') = result_id r ∧ run_task_id (row s') = result_id r.
Proof.
  intros Hok Hin Hlo c r Hr Hfresh. unfold generate_input_and_losses. rewrite get_bind, lift_bind, Hin, lift_bind, Hlo.
  assert (join_stage_chains unchain_tasks [create_chain i initiator inputs; create_chain i initiator losses] = c) as ->.
  { unfold join_stage_chains, c. cbn [flat_map mjoin fmap]. cbn. rewrite !unchain_spec, app_nil_r. cbn. rewrite <- !list_fmap_compose.
    assert (failure_callback i initiator inputs = handled_as (uuid 0) "input_generation_traceback_file" "INPUTS_GENERATION_ERROR") as Ei.
    { unfold inputs_generation_stage in Hin. apply bind_Ok in Hin as (n & _ & Hin). by apply bind_Ok in Hin as ([sts tks] & _ & <-%Ok_inj). }
    assert (failure_callback i initiator losses = handled_as (uuid 1) "run_traceback_file" "RUN_ERROR") as El.
    { unfold loss_generation_stage in Hlo. apply bind_Ok in Hlo as (n & _ & Hlo). by apply bind_Ok in Hlo as ([sts tks] & _ & <-%Ok_inj). }
    by rewrite <- Ei, <- El. }
  unfold inputs_generation_stage in Hin. apply bind_Ok in Hin as (n & Hn & Hin).
  apply bind_Ok in Hin as ([sts tks] & Ht & Hin). apply Ok_inj in Hin as <-. cbn [tasks statuses num_chunks failure_status] in *.
  unfold loss_generation_stage in Hlo. apply bind_Ok in Hlo as (n' & Hn' & Hlo).
  apply bind_Ok in Hlo as ([sts' tks'] & Ht' & Hlo). apply Ok_inj in Hlo as <-. cbn [tasks statuses num_chunks failure_status] in *.
  apply inputs_stage_slugs in Ht as (k & -> & Hk & Hss). apply losses_stage_slugs in Ht' as (k' & -> & Hk' & Hss').
  pose proof (create_and_send _ _ _ ids c s Hok (stage_slugs_app _ _ _ _ _ _ _ Hss Hss')
    (slugs_unique _ _) Hr Hfresh) as H.
  unfold mbind, M_bind in H |- *. destruct (replace_subtask_statuses _ _ _) as [[[]|] s1]; [|done].
  destruct (delay _ _ _) as [[t|] s2]; [|done]. destruct (record_subtask_ids _ _ _) as [[[]|] s3]; [|done].
  cbn in H. injection H as -> ->. eexists. split; [reflexivity|]. split; [by split|]. done.
Qed.
End dispatching.

(** ** A concrete dispatch *)

(** A broker that numbers the sub-tasks. *)
Fixpoint number_ids (k : nat) (steps : list canvas) : list (list string) :=
  match steps with
  | [] => []
  | c :: steps =>
      ((λ j : nat, "task-" +:+ pretty j) <$> seq k (length (canvas_subtasks c)))
        :: number_ids (k + length (canvas_subtasks c)) steps
  end.
Definition numbering_dispatch (n : nat) (c : Chain) : ChainResult :=
  let steps := fst <$> chain_steps c in
  match mjoin (rev (zip_with step_results steps (number_ids 0 steps))) with
  | AsyncResult x :: ps => {| result_id := x; result_parents := ps |}
  | ps => {| result_id := EmptyString; result_parents := ps |}
  end.
Definition unchain (c : Chain) : list (canvas * list Signature) :=
  (λ '(t, errs), (t, errs ++ chain_link_error c)) <$> chain_steps c.
Definition run_uuid (n : nat) : string := "run-" +:+ pretty n.

Definition three_chunks : ModelChunkingOptions := {|
  lookup_strategy := FIXED_CHUNKS; loss_strategy := DYNAMIC_CHUNKS; dynamic_locations_per_lookup := 10000;
  dynamic_events_per_analysis := 50; dynamic_chunks_max := 200;
  fixed_analysis_chunks := Some 1; fixed_lookup_chunks := Some 3 |}.
Definition chunked_model : Model := {|
  model_pk := 4; model_name := "OasisLMF-PiWind-1"; model_deleted := false; model_run_mode := Some "V2"%string;
  model_resource_file := None; model_chunking_options := three_chunks;
  model_scaling_options := None; model_groups := [] |}.

Definition old_row (i : Z) (slug task_id : string) : AnalysisTaskStatus :=
  get_subtask_status i "old" slug "q" <| st_task_id := task_id |>.
Definition controller_state : Ctl := {|
  rows := [old_row 1 "collect-keys" "old-1"; old_row 2 "collect-keys" "old-2"];
  instance := ready; row := ready; chains := []; digests := 0 |}.

Lemma three_chunks_wf : chunking_wf three_chunks.
Proof. unfold chunking_wf, opt_pos; cbn. split_and!; try lia; intros n [= <-]; lia. Qed.

Lemma inputs_chunks_bounds_witness :
  ∃ n, get_inputs_generation_chunks three_chunks (Some 2) = Ok (Some n) ∧ 1 ≤ n ≤ 2.
Proof.
  destruct (inputs_chunks_bounds three_chunks 2 three_chunks_wf ltac:(lia) ltac:(discriminate)) as (n & H & Hn & _).
  exists n. split; [exact H|exact Hn].
Defined.

Lemma loss_chunks_bounds_witness :
  ∃ n, get_loss_generation_chunks three_chunks (JInt 101) = Ok (Some n) ∧ 1 ≤ n ∧ 101 ≤ n * 50.
Proof.
  destruct (loss_chunks_bounds three_chunks 101 three_chunks_wf ltac:(lia) ltac:(discriminate)) as (n & H & Hn & _ & Hm & Hc).
  exists n. split; [exact H|]. split; [exact Hn|]. apply Hc.
  vm_compute in H. injection H as <-. vm_compute. reflexivity.
Defined.

Lemma inputs_stage_slugs_witness :
  ∃ sts tks, get_inputs_generation_tasks 1 ready chunked_model 9 "run" (Some 3) "READY" = Ok (sts, tks)
    ∧ ∃ k, Some 3 = Some k ∧ 0 < k ∧ stage_slugs 1 (inputs_slugs (Z.to_nat k)) sts tks.
Proof.
  do 2 eexists. split; [vm_compute; reflexivity|].
  apply (inputs_stage_slugs 1 ready chunked_model 9 "run" (Some 3) "READY"). vm_compute. reflexivity.
Defined.

Lemma losses_stage_slugs_witness :
  ∃ sts tks, get_loss_generation_tasks 1 ready chunked_model 9 "run" (Some 2) = Ok (sts, tks)
    ∧ ∃ k, Some 2 = Some k ∧ 0 < k ∧ stage_slugs 1 (losses_slugs (Z.to_nat k)) sts tks.
Proof.
  do 2 eexists. split; [vm_compute; reflexivity|].
  apply (losses_stage_slugs 1 ready chunked_model 9 "run" (Some 2)). vm_compute. reflexivity.
Defined.

Lemma controller_rows_ok : rows_ok (rows controller_state).
Proof. apply (bool_decide_unpack _). vm_compute. exact I. Qed.

(** The steps of a stage are given the numbers from 0 on. *)
Definition stage_of (r : result Stage) : Stage :=
  match r with
  | Ok st => st
  | Raise _ => {| num_chunks := 0; run_data_uuid := EmptyString; statuses := []; tasks := [];
                  traceback_property := EmptyString; failure_status := NEW |}
  end.
Definition inputs_stage (finish : string) : Stage :=
  stage_of (inputs_generation_stage 1 ready chunked_model 9 (run_uuid 0) (Some 5) finish).
Definition losses_stage (n : nat) : Stage :=
  stage_of (loss_generation_stage 1 ready chunked_model 9 (run_uuid n) (JInt 70)).

Lemma numbered_fresh n : (n ≤ 30)%nat →
  fresh_ids ((λ j : nat, "task-" +:+ pretty j) <$> seq 0 n) (other_rows 1 (rows controller_state)).
Proof.
  intros _. split; [|split].
  - apply NoDup_fmap_2; [|apply NoDup_seq]. intros x y H. by apply append_inj_l, (inj pretty) in H.
  - intros x (j & -> & _)%list_elem_of_fmap. done.
  - intros x r (j & -> & _)%list_elem_of_fmap. cbn. intros ->%list_elem_of_singleton. done.
Qed.

Lemma number_ids_lengths k steps : Forall2 (λ c l, length l = length (canvas_subtasks c)) steps (number_ids k steps).
Proof.
  revert k. induction steps as [|c steps IH]; intros k; cbn; [constructor|].
  constructor; [by rewrite length_fmap, length_seq|apply IH].
Qed.

Lemma inputs_stage_ok finish :
  inputs_generation_stage 1 ready chunked_model 9 (run_uuid 0) (Some 5) finish = Ok (inputs_stage finish).
Proof. reflexivity. Qed.
Lemma losses_stage_ok n :
  loss_generation_stage 1 ready chunked_model 9 (run_uuid n) (JInt 70) = Ok (losses_stage n).
Proof. reflexivity. Qed.

(** The numbers are Celery ids in the sense of [celery_result], and fresh. *)
Lemma numbered_steps (steps : list canvas) (errs : canvas → list Signature) chain_errs n total :
  (total ≤ 30)%nat →
  mjoin (number_ids 0 steps) = (λ j : nat, "task-" +:+ pretty j) <$> seq 0 total →
  (∃ x ps, mjoin (rev (zip_with step_results steps (number_ids 0 steps))) = AsyncResult x :: ps) →
  celery_result steps (number_ids 0 steps)
    (numbering_dispatch n {| chain_steps := (λ c, (c, errs c)) <$> steps; chain_link_error := chain_errs |})
  ∧ fresh_ids (mjoin (number_ids 0 steps)) (other_rows 1 (rows controller_state)).
Proof.
  intros Hn E (x & ps & Ex). split; [|rewrite E; by apply numbered_fresh].
  split; [apply number_ids_lengths|]. unfold numbering_dispatch. cbn [chain_steps].
  rewrite <- list_fmap_compose. assert ((fst ∘ (λ c, (c, errs c))) <$> steps = steps) as ->.
  { rewrite <- (list_fmap_id steps) at 2. by apply list_fmap_ext. }
  by rewrite Ex.
Qed.

Lemma dispatch_inputs_spec_witness :
  ∃ s', generate_inputs numbering_dispatch 1 chunked_model 9 run_uuid (Some 5) controller_state = (Ok tt, s')
    ∧ lookup_chunks (row s') = Some (num_chunks (inputs_stage "READY")) ∧ length (chains s') = 1%nat.
Proof.
  pose proof (dispatch_inputs_spec numbering_dispatch 1 chunked_model 9 run_uuid (Some 5) controller_state controller_rows_ok) as H.
  cbn [instance controller_state] in H. rewrite inputs_stage_ok in H.
  destruct (numbered_steps (tasks (inputs_stage "READY")) (λ _, [])
    [failure_callback 1 9 (inputs_stage "READY")] 0 9) as [Hc Hf]; [lia|vm_compute; reflexivity|do 2 eexists; vm_compute; reflexivity|].
  destruct (H (number_ids 0 (tasks (inputs_stage "READY"))) Hc Hf) as (s' & Hs & (_ & Hch & _) & Hl & _).
  exists s'. split; [exact Hs|]. split; [exact Hl|]. rewrite Hch. reflexivity.
Defined.

Lemma dispatch_losses_spec_witness :
  ∃ s', generate_losses numbering_dispatch 1 chunked_model 9 run_uuid (JInt 70) controller_state = (Ok tt, s')
    ∧ analysis_chunks (row s') = Some (num_chunks (losses_stage 0)) ∧ length (chains s') = 1%nat.
Proof.
  pose proof (dispatch_losses_spec numbering_dispatch 1 chunked_model 9 run_uuid (JInt 70) controller_state controller_rows_ok) as H.
  cbn [instance controller_state] in H. rewrite losses_stage_ok in H.
  destruct (numbered_steps (tasks (losses_stage 0)) (λ _, [])
    [failure_callback 1 9 (losses_stage 0)] 0 7) as [Hc Hf]; [lia|vm_compute; reflexivity|do 2 eexists; vm_compute; reflexivity|].
  destruct (H (number_ids 0 (tasks (losses_stage 0))) Hc Hf) as (s' & Hs & (_ & Hch & _) & Hl & _).
  exists s'. split; [exact Hs|]. split; [exact Hl|]. rewrite Hch. reflexivity.
Defined.

Lemma dispatch_both_spec_witness :
  ∃ s', generate_input_and_losses numbering_dispatch unchain 1 chunked_model 9 run_uuid (Some 5) (JInt 70) controller_state = (Ok tt, s')
    ∧ lookup_chunks (row s') = Some (num_chunks (inputs_stage "RUN_STARTED"))
    ∧ analysis_chunks (row s') = Some (num_chunks (losses_stage 1)).
Proof.
  set (steps := tasks (inputs_stage "RUN_STARTED") ++ tasks (losses_stage 1)).
  destruct (dispatch_both_spec numbering_dispatch unchain 1 chunked_model 9 run_uuid (λ c, eq_refl) (Some 5) (JInt 70)
    controller_state (inputs_stage "RUN_STARTED") (losses_stage 1) (number_ids 0 steps) controller_rows_ok
    (inputs_stage_ok "RUN_STARTED") (losses_stage_ok 1)) as (s' & Hs & _ & Hl & Ha & _).
  - split; [apply number_ids_lengths|vm_compute; reflexivity].
  - apply (numbered_steps steps (λ _, []) [] 0 16); [lia|vm_compute; reflexivity|do 2 eexists; vm_compute; reflexivity].
  - exists s'. split; [exact Hs|]. split; [exact Hl|exact Ha].
Defined.
