(* ===== verification/Files.v ===== *)
(** * Storing the files the workers produce

    [archive_suffix] of files/models.py, and [is_valid_url], [store_file] and
    [store_archive] of analyses/v2_api/utils.py. Whether a reference is an object
    of the configured bucket or container, and what copying it there or
    downloading it gives, is outside: [remote]. *)

From S2P Require Import Prelude PyData.
Local Open Scope Z_scope.

(** ** [urllib.parse.urlparse] *)

(** The part of a string before the first character in [stop], and the rest from
    that character on. *)
Fixpoint break_at (stop : ascii → bool) (s : string) : string * string :=
  match s with
  | EmptyString => (EmptyString, EmptyString)
  | String c t =>
      if stop c then (EmptyString, s) else let '(a, b) := break_at stop t in (String c a, b)
  end.

Definition is_one_of (l : list ascii) (c : ascii) : bool := bool_decide (c ∈ l).
Definition is_alpha (c : ascii) : bool :=
  ((65 <=? char_code c) && (char_code c <=? 90) || ((97 <=? char_code c) && (char_code c <=? 122)))%N.
Definition is_digit (c : ascii) : bool := ((48 <=? char_code c) && (char_code c <=? 57))%N.
Definition scheme_char (c : ascii) : bool := is_alpha c || is_digit c || is_one_of ["+"; "-"; "."]%char c.

Fixpoint all_chars (p : ascii → bool) (s : string) : bool :=
  match s with EmptyString => true | String c t => p c && all_chars p t end.

Definition first_alpha (s : string) : bool :=
  match s with String c _ => is_alpha c | EmptyString => false end.

(** The scheme, in lower case, and the rest of the URL. *)
Definition split_scheme (url : string) : string * string :=
  match break_at (is_one_of [":"%char]) url with
  | (sch, String _ rest) =>
      if first_alpha sch && all_chars scheme_char sch then (lower sch, rest) else (EmptyString, url)
  | _ => (EmptyString, url)
  end.

(** The network location after a double slash, and the rest. *)
Definition split_netloc (url : string) : string * string :=
  match url with
  | String "/" (String "/" rest) => break_at (is_one_of ["/"; "?"; "#"]%char) rest
  | _ => (EmptyString, url)
  end.

Fixpoint strip_controls (s : string) : string :=
  match s with
  | EmptyString => EmptyString
  | String c t => if is_one_of ["009"; "010"; "013"]%char c then strip_controls t else String c (strip_controls t)
  end.
Fixpoint lstrip_c0 (s : string) : string :=
  match s with
  | String c t => if (char_code c <=? 32)%N then lstrip_c0 t else s
  | EmptyString => EmptyString
  end.

Definition uses_params : list string :=
  [EmptyString; "ftp"; "hdl"; "prospero"; "http"; "https"; "shttp"; "rtsp"; "rtsps"; "rtspu"; "sip"; "sips"; "mms"; "sftp"; "tel"]%string.

(** The path without the parameters of its last segment. *)
Fixpoint drop_params (path : string) : string :=
  match path with
  | EmptyString => EmptyString
  | String c t =>
      if has_char "/" t then String c (drop_params t)
      else if bool_decide (c = ";"%char) then EmptyString
      else String c (drop_params t)
  end.

Record Url := { scheme : string; netloc : string; path : string }.

Definition urlparse (s : string) : Url :=
  let '(sch, rest) := split_scheme (strip_controls (lstrip_c0 s)) in
  let '(loc, rest) := split_netloc rest in
  let p := (break_at (is_one_of ["?"; "#"]%char) rest).1 in
  {| scheme := sch; netloc := loc;
     path := if bool_decide (sch ∈ uses_params) then drop_params p else p |}.

Fixpoint ends_with (suffix s : string) : bool :=
  if String.eqb suffix s then true
  else match s with EmptyString => false | String _ t => ends_with suffix t end.

(** ** The archives of the workers *)

(** [str(reference)] of a storage reference. *)
Definition str_reference (r : json) : string := match r with JStr s => s | JNull => "None" | _ => EmptyString end.

(** [archive_suffix]. *)
Definition archive_suffix (reference : json) : string :=
  if ends_with ".tar.zst" (path (urlparse (str_reference reference))) then "tar.zst" else "tar.gz".

(** [is_valid_url]. *)
Definition is_valid_url (reference : json) : bool :=
  truthy reference
  && let u := urlparse (str_reference reference) in
     negb (String.eqb (netloc u) EmptyString) && (String.eqb (scheme u) "http" || String.eqb (scheme u) "https").

(** [os.path.basename]: after the last slash. *)
Fixpoint basename (s : string) : string :=
  match s with
  | EmptyString => EmptyString
  | String c t => if has_char "/" s then basename t else s
  end.

(** A file as it is stored: its name in the storage and its display name. *)
Record Stored := { stored_as : string; stored_name : string }.

Section store.
(** [Some r]: the reference is a URL or an object of the bucket or container,
    and copying it under the given name gives [r]. *)
Context (remote : json → string → option (result string)).

(** [store_file] with a file name. On the shared file system the stored file is
    the one of that name there; a reference that is no path is a [TypeError],
    which a file that is not required turns into [None]. *)
Definition store_file (reference : json) (required : bool) (filename : string) : result (option Stored) :=
  match remote reference filename with
  | Some r => (λ s, Some {| stored_as := s; stored_name := filename |}) <$> r
  | None =>
      match reference with
      | JStr s => Ok (Some {| stored_as := basename s; stored_name := filename |})
      | _ => if required then Raise TypeError else Ok None
      end
  end.

(** [store_archive]. *)
Definition store_archive (reference : json) (name : string) : result (option Stored) :=
  store_file reference true (name +:+ "." +:+ archive_suffix reference).
End store.

(** ** Properties *)

Lemma break_at_none stop s : all_chars (λ c, negb (stop c)) s = true → break_at stop s = (s, EmptyString).
Proof.
  induction s as [|c s IH]; cbn; [done|]. intros [Hc Hs]%andb_true_iff.
  apply negb_true_iff in Hc. by rewrite Hc, IH.
Qed.

(** A plain storage key or path: printable, without the characters that have a
    meaning in a URL, and not starting with a double slash. *)
Definition plain_char (c : ascii) : bool :=
  (32 <? char_code c)%N && negb (is_one_of [":"; "?"; "#"; ";"]%char c).
Definition plain_key (s : string) : bool :=
  all_chars plain_char s && match s with String "/" (String "/" _) => false | _ => true end.

Lemma all_chars_impl (p q : ascii → bool) s :
  (∀ c, p c = true → q c = true) → all_chars p s = true → all_chars q s = true.
Proof. intros H. induction s as [|c s IH]; cbn; [done|]. intros [? ?]%andb_true_iff. by rewrite (H c), IH. Qed.

Lemma strip_controls_plain s : all_chars plain_char s = true → strip_controls s = s.
Proof.
  induction s as [|c s IH]; cbn; [done|]. intros [Hc Hs]%andb_true_iff. rewrite IH by done.
  destruct (is_one_of _ c) eqn:E; [|done]. exfalso. unfold is_one_of in E. apply bool_decide_eq_true in E.
  set_unfold in E. by destruct E as [->|[->|[->|[]]]].
Qed.

Lemma lstrip_plain s : all_chars plain_char s = true → lstrip_c0 s = s.
Proof.
  destruct s as [|c s]; cbn; [done|]. intros [Hc _]%andb_true_iff. unfold plain_char in Hc.
  apply andb_true_iff in Hc as [Hc _]. apply N.ltb_lt in Hc.
  destruct (char_code c <=? 32)%N eqn:E; [|done]. apply N.leb_le in E. lia.
Qed.

Lemma drop_params_plain s : all_chars plain_char s = true → drop_params s = s.
Proof.
  induction s as [|c s IH]; cbn; [done|]. intros [Hc Hs]%andb_true_iff. rewrite IH by done.
  destruct (has_char "/" s); [done|]. case_bool_decide as E; [|done]. subst. discriminate.
Qed.

Lemma plain_not_one_of (l : list ascii) s : (∀ c, c ∈ l → plain_char c = false) →
  all_chars plain_char s = true → all_chars (λ c, negb (is_one_of l c)) s = true.
Proof.
  intros Hl. apply all_chars_impl. intros c Hc. unfold is_one_of. apply negb_true_iff, bool_decide_eq_false.
  intros Hin. rewrite (Hl c Hin) in Hc. done.
Qed.

Lemma if_same {A} (b : bool) (x : A) : (if b then x else x) = x.
Proof. by destruct b. Qed.

(** An archive is stored under the suffix of its compression: a plain key or
    path is named tar.zst exactly when it ends so, and tar.gz otherwise. *)
Theorem archive_suffix_plain s :
  plain_key s = true →
  archive_suffix (JStr s) = if ends_with ".tar.zst" s then "tar.zst"%string else "tar.gz"%string.
Proof.
  intros [Hp Hs]%andb_true_iff. unfold archive_suffix, urlparse. cbn [str_reference].
  rewrite lstrip_plain, strip_controls_plain by done.
  unfold split_scheme. rewrite break_at_none by (apply plain_not_one_of; [|done]; intros c ->%list_elem_of_singleton; done).
  assert (split_netloc s = (EmptyString, s)) as ->.
  { unfold split_netloc. destruct s as [|c [|d s]]; try done; destruct c as [[] [] [] [] [] [] [] []]; try done;
      destruct d as [[] [] [] [] [] [] [] []]; done. }
  rewrite break_at_none by (apply plain_not_one_of; [|done]; intros c Hc; set_unfold in Hc; by destruct Hc as [->|[->|[]]]).
  cbn [path fst]. by rewrite drop_params_plain, if_same by done.
Qed.

Lemma archive_suffix_plain_witness :
  plain_key "worker/analysis_3_output-9f.tar.zst" = true ∧
  archive_suffix (JStr "worker/analysis_3_output-9f.tar.zst") = "tar.zst"%string.
Proof.
  split; [vm_compute; reflexivity|].
  rewrite (archive_suffix_plain "worker/analysis_3_output-9f.tar.zst") by (vm_compute; reflexivity).
  vm_compute. reflexivity.
Defined.

Example urlparse_ex :
  let u := urlparse "https://host:80/a/b.tar.zst;v=1?x=y#f" in
  scheme u = "https"%string ∧ netloc u = "host:80"%string ∧ path u = "/a/b.tar.zst"%string.
Proof. vm_compute. auto. Qed.
Example basename_ex : basename "/data/media/x.csv" = "x.csv"%string ∧ basename "x.csv" = "x.csv"%string.
Proof. vm_compute. auto. Qed.

(** A file that is required is stored or the exception surfaces; one that is not
    is [None] only for a reference that is no string. *)
Lemma store_file_some remote reference filename s :
  store_file remote reference true filename = Ok s → ∃ x, s = Some x ∧ stored_name x = filename.
Proof.
  unfold store_file. intros H. destruct (remote reference filename) as [r|].
  - apply fmap_Ok in H as (y & _ & <-). eauto.
  - destruct reference; simplify_eq; eauto.
Qed.
