(* ===== verification/SubTasks.v ===== *)
(** * The messages about sub-tasks

    The tasks of analyses/v2_api/tasks.py that record what the workers report:
    each is one message on the queue of the server, delivered at some point after
    it was sent. A message works on the database; several may be in flight at
    once, so the order in which they arrive is arbitrary. *)

From S2P Require Import Prelude PyData Analysis TaskController Files.
Local Open Scope Z_scope.

(** ** State *)

(** The analyses, the status records in the order of their keys, the contents of
    the log files, and what was revoked, sent and removed. *)
Record Db := {
  analyses : gmap Z Analysis;
  rows : list AnalysisTaskStatus;
  texts : gmap Z string;
  next_file : Z;
  users : gset Z;
  revoked : list string;
  delayed : list Signature;
  removed_dirs : list string;
  now : Z;
}.
#[export] Instance Db_settable : Settable Db := λ d, {|
  analyses := analyses d; rows := rows d; texts := texts d; next_file := next_file d; users := users d;
  revoked := revoked d; delayed := delayed d; removed_dirs := removed_dirs d; now := now d |}.

(** No two records share a task id, but for the empty one. *)
Definition ids_of (l : list AnalysisTaskStatus) : list string :=
  List.filter (λ x, negb (String.eqb x EmptyString)) (st_task_id <$> l).
Definition duplicate_id (l : list AnalysisTaskStatus) : bool := negb (bool_decide (NoDup (ids_of l))).

(** [filter(p).update(f)]: one statement, refused as a whole when it would break
    the unique task id. *)
Definition update_rows (p : AnalysisTaskStatus → bool) (f : AnalysisTaskStatus → AnalysisTaskStatus) : M Db unit := λ d,
  let l := (λ r, if p r then f r else r) <$> rows d in
  if duplicate_id l then (Raise IntegrityError, d) else (Ok tt, d <| rows := l |>).

(** The records of one analysis, or the one of a slug. *)
Definition of_analysis (i : Z) (r : AnalysisTaskStatus) : bool := st_analysis r =? i.
Definition of_slug (i : Z) (slug : string) (r : AnalysisTaskStatus) : bool :=
  of_analysis i r && String.eqb (st_slug r) slug.
Definition has_status (l : list task_status) (r : AnalysisTaskStatus) : bool := bool_decide (st_status r ∈ l).

(** [Analysis.objects.get(pk=i)] and [get_user_model().objects.get(pk=k)]. *)
Definition get_analysis (i : Z) : M Db Analysis :=
  d ← get_state;
  lift (match analyses d !! i with Some a => Ok a | None => Raise ObjectDoesNotExist end).
Definition get_user (k : Z) : M Db unit :=
  d ← get_state;
  if bool_decide (k ∈ users d) then mret tt else raise ObjectDoesNotExist.

(** [analysis.save(update_fields=...)]: [merge old] is the row with the fields. *)
Definition save_analysis (i : Z) (merge : Analysis → Analysis) : M Db unit :=
  modify (λ d, d <| analyses := alter merge i (analyses d) |>).

(** [RelatedFile.objects.create] of a text. *)
Definition create_text (text : string) : M Db Z := λ d,
  (Ok (next_file d), d <| texts := <[next_file d := text]> (texts d) |> <| next_file := next_file d + 1 |>).

Definition related_file (k : Z) (s : Stored) (j : result json) : RelatedFile :=
  {| file_pk := k; file_link := stored_as s; file_name := stored_name s; file_json := j |}.

(** ** Reports on one sub-task *)

Section messages.
(** The storage, as in Files.v, and the text of a stored file, as it is and as JSON. *)
Context (remote : json → string → option (result string)).
Context (text_of : string → string) (json_of : string → result json).

(** [store_file] of a log: a new row with the file's text. *)
Definition store_log (reference : json) (filename : string) : M Db (option Z) :=
  stored ← lift (store_file remote reference true filename);
  match stored with
  | Some s => k ← create_text (text_of (stored_as s)); mret (Some k)
  | None => mret None
  end.

(** [record_sub_task_start]. A start time that is set stays; only a queued
    record becomes started. *)
Definition record_sub_task_start (i : Z) (slug task_id : string) (dt : option Z) : M Db unit :=
  d ← get_state;
  let t := match dt with None => now d | Some 0 => now d | Some t => t end in
  update_rows (of_slug i slug) (λ r, r
    <| st_task_id := task_id |>
    <| st_start_time := match st_start_time r with None => Some t | s => s end |>
    <| st_status := if bool_decide (st_status r = QUEUED) then STARTED else st_status r |>).

(** [record_sub_task_success]; [parent_id] is the id of the sub-task. *)
Definition record_sub_task_success (res : json) (i initiator : Z) (slug parent_id : string) : M Db unit :=
  log_location ← lift (py_get_or res "log_location" JNull);
  error_location ← lift (py_get_or res "error_location" JNull);
  get_user initiator;;
  output ← (if truthy log_location then store_log log_location (parent_id +:+ "-output.log") else mret None);
  error ← (if truthy error_location then store_log error_location (parent_id +:+ "-error.log") else mret None);
  d ← get_state;
  update_rows (of_slug i slug) (λ r, r
    <| st_task_id := parent_id |> <| st_status := COMPLETED |> <| st_end_time := Some (now d) |>
    <| st_output_log := output |> <| st_error_log := error |>).

(** [set_subtask_status]. *)
Definition set_subtask_status (i : Z) (slug : string) (st : task_status) (error_msg : string) : M Db unit :=
  k ← create_text error_msg;
  d ← get_state;
  update_rows (of_slug i slug) (λ r, r
    <| st_status := st |> <| st_end_time := Some (now d) |> <| st_error_log := Some k |>).

(** [record_sub_task_failure]; [tb] is the traceback, empty if there is none. *)
Definition record_sub_task_failure (tb : string) (i : Z) (slug parent_id : string) : M Db unit :=
  k ← create_text tb;
  d ← get_state;
  update_rows (of_slug i slug) (λ r, r
    <| st_task_id := parent_id |> <| st_status := ERROR |> <| st_end_time := Some (now d) |>
    <| st_error_log := Some k |>).

(** [mark_task_as_queued]. *)
Definition mark_task_as_queued (i : Z) (slug task_id : string) (dt : Z) : M Db unit :=
  update_rows (of_slug i slug) (λ r, r
    <| st_task_id := task_id |> <| st_status := QUEUED |> <| st_queue_time := Some dt |>).

(** [subtask_error_log]. *)
Definition subtask_error_log (i initiator : Z) (slug task_id : string) (log_file : json) : M Db unit :=
  get_user initiator;;
  output ← store_log log_file (task_id +:+ "-output.log");
  update_rows (of_slug i slug) (λ r, r <| st_output_log := output |>).

(** The text of a log field of a record. *)
Definition read_log (d : Db) (log : option Z) : option string := log ≫= λ k, texts d !! k.

Definition newline : string := String "010" EmptyString.

(** [subtask_retry_log]: the record is unique; a missing one is logged. *)
Definition subtask_retry_log (i : Z) (slug error_trace : string) : M Db unit :=
  d ← get_state;
  match List.filter (of_slug i slug) (rows d) with
  | [] => mret tt
  | r :: _ =>
      k ← create_text (default EmptyString (read_log d (st_retry_log r))
             +:+ newline +:+ "=== " +:+ slug +:+ ", try=" +:+ pretty (st_retry_count r) +:+ "  ===" +:+ newline
             +:+ error_trace);
      update_rows (of_slug i slug) (λ r', r'
        <| st_retry_log := Some k |> <| st_retry_count := st_retry_count r + 1 |>)
  end.

(** ** Reports on the tasks of an analysis *)

Definition unfinished : list task_status := [QUEUED; STARTED].

(** [cancel_subtasks]: every task that is not finished is revoked, then marked. *)
Definition cancel_subtasks (i : Z) : M Db unit :=
  _ ← get_analysis i;
  d ← get_state;
  let p r := of_analysis i r && has_status [PENDING; QUEUED; STARTED] r in
  let ids := List.filter (λ x, negb (String.eqb x EmptyString)) (st_task_id <$> List.filter p (rows d)) in
  modify (λ d, d <| revoked := revoked d ++ ids |>);;
  update_rows p (λ r, r <| st_status := CANCELLED |> <| st_end_time := Some (now d) |>).

(** [chord_error_callback]. *)
Definition chord_error_callback (i : Z) : M Db unit :=
  d ← get_state;
  let p r := of_analysis i r && has_status unfinished r in
  modify (λ d, d <| revoked := revoked d ++ remove_dups (st_task_id <$> List.filter p (rows d)) |>);;
  update_rows p (λ r, r <| st_status := CANCELLED |> <| st_end_time := Some (now d) |>).

(** [update_task_id]: the pending records are marked as queued first, on their
    own; the ids are written in one transaction. *)
Definition atomic {A} (m : M Db A) : M Db A := λ d,
  match m d with (Ok a, d') => (Ok a, d') | (Raise e, _) => (Raise e, d) end.

Definition update_task_id (updates : list (string * Z * string)) : M Db unit :=
  match updates with
  | [] => raise IndexError
  | (_, i, _) :: _ =>
      d ← get_state;
      update_rows (λ r, of_analysis i r && has_status [PENDING] r) (λ r, r <| st_status := QUEUED |>);;
      atomic (for_each updates (λ '(task_id, i, slug),
        update_rows (of_slug i slug) (λ r, r <| st_task_id := task_id |> <| st_queue_time := Some (now d) |>)))
  end.

(** ** Reports on the analysis *)

(** [set_task_status]: any exception is logged. *)
Definition set_task_status (i : Z) (task_status : status_choices) (dt : Z) : M Db unit :=
  try_except
    (a ← get_analysis i;
     if bool_decide (status a ∈ [INPUTS_GENERATION_CANCELLED; RUN_CANCELLED]) then mret tt
     else save_analysis i (λ row, row <| status := task_status |> <| task_started := Some dt |>))
    (λ _, mret tt).

(** The header and the output of the completed sub-tasks. *)
Definition subtask_output (d : Db) (r : AnalysisTaskStatus) : string :=
  match read_log d (st_output_log r) with
  | Some t => newline +:+ "=== " +:+ st_slug r +:+ " ===" +:+ newline +:+ t
  | None => EmptyString
  end.
Definition completed_output (d : Db) (i : Z) : string :=
  String.concat EmptyString
    (subtask_output d <$> List.filter (λ r, of_analysis i r && has_status [COMPLETED] r) (rows d)).

(** A file of an analysis: the new row of a stored reference. *)
Definition store_related (stored : result (option Stored)) : M Db (option RelatedFile) :=
  s ← lift stored;
  match s with
  | Some s => k ← create_text (text_of (stored_as s)); mret (Some (related_file k s (json_of (stored_as s))))
  | None => mret None
  end.
Definition text_file (k : Z) (n : string) : RelatedFile :=
  related_file k {| stored_as := n; stored_name := n |} (Raise (ValueError "Expecting value")).

Definition file_base (i : Z) : string := "analysis_" +:+ pretty i.

Definition store_lookup_errors_file (reference : json) (i : Z) : result (option Stored) :=
  store_file remote reference true (file_base i +:+
    (if ends_with ".parquet" (str_reference reference) then "_keys-errors.parquet" else "_keys-errors.csv")).
Definition store_lookup_success_file (reference : json) (i : Z) : result (option Stored) :=
  store_file remote reference true (file_base i +:+
    (if ends_with ".parquet" (str_reference reference) then "_gul_summary_map.parquet" else "_gul_summary_map.csv")).

(** [record_sub_task_start.delay(...)]. *)
Definition delay_start (i : Z) (slug task_id : string) : M Db unit := modify (λ d, d
  <| delayed := delayed d ++ [{| sig_task := "record_sub_task_start"; sig_args := [];
       sig_kwargs := [("analysis_id", JInt i); ("task_slug", JStr slug); ("task_id", JStr task_id); ("dt", JInt (now d))]%string;
       sig_queue := EmptyString |}] |>).

(** [record_input_files]. The analysis is read once and written as a whole at
    the end; [analysis_finish_status] is the argument of that name. *)
Definition record_input_files (result : json) (i initiator : Z) (slug task_id : string)
    (analysis_finish_status : status_choices) : M Db json :=
  delay_start i slug task_id;;
  input_location ← lift (py_get_or result "output_location" JNull);
  lookup_error_fp ← lift (py_get_or result "lookup_error_location" JNull);
  lookup_success_fp ← lift (py_get_or result "lookup_success_location" JNull);
  lookup_validation_fp ← lift (py_get_or result "lookup_validation_location" JNull);
  summary_levels_fp ← lift (py_get_or result "summary_levels_location" JNull);
  analysis_settings_fp ← lift (py_get_or result "analysis_settings_location" JNull);
  analysis ← get_analysis i;
  get_user initiator;;
  d ← get_state;
  input ← store_related (store_archive remote input_location (file_base i +:+ "_inputs"));
  errors ← store_related (store_lookup_errors_file lookup_error_fp i);
  success ← store_related (store_lookup_success_file lookup_success_fp i);
  validation ← store_related (store_file remote lookup_validation_fp true (file_base i +:+ "_exposure_summary_report.json"));
  levels ← store_related (store_file remote summary_levels_fp true (file_base i +:+ "_exposure_summary_levels.json"));
  settings ← (if truthy analysis_settings_fp
              then store_related (store_file remote analysis_settings_fp false (file_base i +:+ "_settings.json"))
              else mret (settings_file analysis));
  trace ← create_text (completed_output d i);
  save_analysis i (λ _, analysis
    <| task_finished := Some (now d) |> <| status := READY |> <| input_file := input |>
    <| lookup_errors_file := errors |> <| lookup_success_file := success |>
    <| lookup_validation_file := validation |> <| summary_levels_file := levels |>
    <| settings_file := settings |>
    <| input_generation_traceback_file := Some (text_file trace (file_base i +:+ "_generation_traceback.txt")) |>);;
  mret result.

(** [record_losses_files]. *)
Definition record_losses_files (result : json) (i initiator : Z) (slug task_id : string) : M Db json :=
  delay_start i slug task_id;;
  get_user initiator;;
  analysis ← get_analysis i;
  d ← get_state;
  trace ← create_text (completed_output d i);
  run_logs ← lift (py_get_or result "run_logs" JNull);
  logs ← (if truthy run_logs then store_related (store_archive remote run_logs (file_base i +:+ "_logs"))
          else mret (run_log_file analysis));
  output_location ← lift (py_item result "output_location");
  output ← store_related (store_archive remote output_location (file_base i +:+ "_output"));
  save_analysis i (λ _, analysis
    <| status := RUN_COMPLETED |> <| task_finished := Some (now d) |>
    <| run_traceback_file := Some (text_file trace (file_base i +:+ "_run_traceback.txt")) |>
    <| run_log_file := logs |> <| output_file := output |>);;
  mret result.

(** [record_input_error_files] and [record_losses_error_files]. *)
Definition record_input_error_files (i initiator : Z) (output_location lookup_error_location : json) : M Db unit :=
  analysis ← get_analysis i;
  get_user initiator;;
  input ← (if truthy output_location
           then store_related (store_archive remote output_location (file_base i +:+ "_inputs"))
           else mret (input_file analysis));
  errors ← (if truthy lookup_error_location
            then store_related (store_lookup_errors_file lookup_error_location i)
            else mret (lookup_errors_file analysis));
  save_analysis i (λ row, row <| input_file := input |> <| lookup_errors_file := errors |>).

Definition record_losses_error_files (i initiator : Z) (output_location run_logs : json) : M Db unit :=
  analysis ← get_analysis i;
  get_user initiator;;
  output ← (if truthy output_location
            then store_related (store_archive remote output_location (file_base i +:+ "_output"))
            else mret (output_file analysis));
  logs ← (if truthy run_logs
          then store_related (store_archive remote run_logs (file_base i +:+ "_logs"))
          else mret (run_log_file analysis));
  save_analysis i (λ row, row <| output_file := output |> <| run_log_file := logs |>).

(** ** [handle_task_failure] *)

Definition max_retries : nat := 8.

(** What the log of a failed sub-task adds to the traceback file. *)
Definition failed_output (d : Db) (r : AnalysisTaskStatus) : string :=
  newline +:+ "=== " +:+ st_slug r +:+ " ===" +:+ newline
  +:+ default EmptyString (read_log d (st_output_log r))
  +:+ default EmptyString (read_log d (st_error_log r)).

Definition failure_text (d : Db) (tb : string) (failed : list AnalysisTaskStatus) : string :=
  (if String.eqb tb EmptyString then EmptyString
   else newline +:+ "=== Trace Back ===" +:+ newline +:+ tb)
  +:+ String.concat EmptyString (failed_output d <$> failed).

Definition sticky_statuses : list status_choices :=
  [INPUTS_GENERATION_CANCELLED; RUN_CANCELLED; INPUTS_GENERATION_NO_KEYS].

(** [setattr(analysis, traceback_property, file)]: for a run the old run log is
    deleted and replaced by the same file. *)
Definition set_traceback (traceback_property : string) (f : RelatedFile) (a : Analysis) : Analysis :=
  if String.eqb traceback_property "run_traceback_file"
  then a <| run_traceback_file := Some f |> <| run_log_file := Some f |>
  else if String.eqb traceback_property "input_generation_traceback_file"
  then a <| input_generation_traceback_file := Some f |>
  else a.

(** [analysis.run_log_file.delete()]: the references to it, which are set to
    null with it, are those of the analyses. *)
Definition forget (k : Z) (f : option RelatedFile) : option RelatedFile :=
  match f with Some g => if file_pk g =? k then None else f | None => None end.
Definition forget_logs (k : Z) (a : Analysis) : Analysis := a
  <| run_log_file := forget k (run_log_file a) |>
  <| run_traceback_file := forget k (run_traceback_file a) |>
  <| input_generation_traceback_file := forget k (input_generation_traceback_file a) |>.
Definition delete_text (f : option RelatedFile) : M Db unit :=
  modify (λ d, match f with
    | Some f => d <| texts := base.delete (file_pk f) (texts d) |> <| analyses := forget_logs (file_pk f) <$> analyses d |>
    | None => d
    end).

Definition handle_task_failure (retries : nat) (tb : string) (i initiator : Z) (run_data_uuid : option string)
    (traceback_property : string) (failure_status : status_choices)
    (keep_local_data : bool) (run_data_dir : string) : M Db unit :=
  analysis ← get_analysis i;
  d ← get_state;
  let failed_subtasks := List.filter (λ r, of_analysis i r && has_status [ERROR] r) (rows d) in
  let logs_pending := (length failed_subtasks =? 0)%nat
    || existsb (λ r, bool_decide (st_output_log r = None)) failed_subtasks in
  if logs_pending && (retries <? max_retries)%nat then raise RetryTask else
  try_except
    (get_user initiator;;
     trace ← create_text (failure_text d tb failed_subtasks);
     let f := text_file trace (file_base i +:+ "_worker_traceback.txt") in
     (if String.eqb traceback_property "run_traceback_file" then delete_text (run_log_file analysis) else mret tt);;
     save_analysis i (λ _, set_traceback traceback_property f
       (analysis <| status := if bool_decide (status analysis ∈ sticky_statuses) then status analysis else failure_status |>
                 <| task_finished := Some (now d) |>)))
    (λ _, mret tt);;
  match run_data_uuid with
  | Some (String c u) =>
      if keep_local_data then mret tt
      else modify (λ d, d <| removed_dirs := removed_dirs d ++
             [run_data_dir +:+ "/analysis-" +:+ pretty i +:+ "-" +:+ String c u] |>)
  | _ => mret tt
  end.
End messages.

(** ** Messages and their delivery *)

Inductive message :=
  | SubTaskStart (i : Z) (slug task_id : string) (dt : option Z)
  | SubTaskSuccess (res : json) (i initiator : Z) (slug parent_id : string)
  | SubTaskStatus (i : Z) (slug : string) (st : task_status) (error_msg : string)
  | SubTaskFailure (tb : string) (i : Z) (slug parent_id : string)
  | TaskQueued (i : Z) (slug task_id : string) (dt : Z)
  | ErrorLog (i initiator : Z) (slug task_id : string) (log_file : json)
  | RetryLog (i : Z) (slug error_trace : string)
  | CancelSubtasks (i : Z)
  | ChordError (i : Z)
  | UpdateTaskIds (updates : list (string * Z * string))
  | TaskStatus (i : Z) (st : status_choices) (dt : Z)
  | InputFiles (result : json) (i initiator : Z) (slug task_id : string) (finish : status_choices)
  | LossesFiles (result : json) (i initiator : Z) (slug task_id : string)
  | InputErrorFiles (i initiator : Z) (output_location lookup_error_location : json)
  | LossesErrorFiles (i initiator : Z) (output_location run_logs : json)
  | TaskFailure (retries : nat) (tb : string) (i initiator : Z) (uuid : option string)
      (traceback_property : string) (failure_status : status_choices).

Section delivery.
Context (remote : json → string → option (result string)) (text_of : string → string) (json_of : string → result json).
Context (keep_local_data : bool) (run_data_dir : string).

Definition deliver (m : message) : M Db unit :=
  match m with
  | SubTaskStart i slug task_id dt => record_sub_task_start i slug task_id dt
  | SubTaskSuccess res i initiator slug parent_id => record_sub_task_success remote text_of res i initiator slug parent_id
  | SubTaskStatus i slug st msg => set_subtask_status i slug st msg
  | SubTaskFailure tb i slug parent_id => record_sub_task_failure tb i slug parent_id
  | TaskQueued i slug task_id dt => mark_task_as_queued i slug task_id dt
  | ErrorLog i initiator slug task_id f => subtask_error_log remote text_of i initiator slug task_id f
  | RetryLog i slug trace => subtask_retry_log i slug trace
  | CancelSubtasks i => cancel_subtasks i
  | ChordError i => chord_error_callback i
  | UpdateTaskIds l => update_task_id l
  | TaskStatus i st dt => set_task_status i st dt
  | InputFiles res i initiator slug task_id finish => record_input_files remote text_of json_of res i initiator slug task_id finish;; mret tt
  | LossesFiles res i initiator slug task_id => record_losses_files remote text_of json_of res i initiator slug task_id;; mret tt
  | InputErrorFiles i initiator o e => record_input_error_files remote text_of json_of i initiator o e
  | LossesErrorFiles i initiator o l => record_losses_error_files remote text_of json_of i initiator o l
  | TaskFailure retries tb i initiator uuid prop st =>
      handle_task_failure retries tb i initiator uuid prop st keep_local_data run_data_dir
  end.

(** The messages that arrive, in that order; what one did before it failed stays. *)
Definition deliver_all (ms : list message) (d : Db) : Db := foldl (λ d m, exec (deliver m) d) d ms.
End delivery.

(** ** The keys of the records stay unique *)

Definition rows_wf (l : list AnalysisTaskStatus) : Prop :=
  NoDup (ids_of l) ∧ NoDup ((λ r, (st_analysis r, st_slug r)) <$> l).
Definition keys_ok (d : Db) : Prop := rows_wf (rows d).

(** An update of a record that keeps its keys. *)
Definition keeps_key (f : AnalysisTaskStatus → AnalysisTaskStatus) : Prop :=
  ∀ r, st_analysis (f r) = st_analysis r ∧ st_slug (f r) = st_slug r.

Lemma update_rows_keys p f : keeps_key f → preserves keys_ok (update_rows p f).
Proof.
  intros Hf d [Hids Hslugs]. unfold update_rows. destruct (duplicate_id _) eqn:E; [done|].
  unfold duplicate_id in E. apply negb_false_iff, bool_decide_eq_true in E. split; [done|].
  cbn. rewrite <- list_fmap_compose. erewrite list_fmap_ext; [exact Hslugs|]. intros j r _. cbn.
  destruct (p r); [|done]. by destruct (Hf r) as [-> ->].
Qed.

Lemma modify_keys f : (∀ d, rows (f d) = rows d) → preserves keys_ok (modify f).
Proof. intros Hf. apply preserves_modify. intros d. unfold keys_ok. by rewrite Hf. Qed.

Lemma create_text_keys t : preserves keys_ok (create_text t).
Proof. by intros d H. Qed.

Lemma for_each_preserves {S A} (P : S → Prop) (f : A → M S unit) l :
  (∀ x, preserves P (f x)) → preserves P (for_each l f).
Proof. intros. by apply hoare_for_each. Qed.

Lemma atomic_preserves {A} P (m : M Db A) : preserves P m → preserves P (atomic m).
Proof. intros Hm d Hd. unfold atomic. specialize (Hm d Hd). by destruct (m d) as [[]]. Qed.

#[export] Hint Resolve update_rows_keys modify_keys create_text_keys for_each_preserves atomic_preserves : preserves.
#[export] Hint Extern 1 (keeps_key _) => (intros ?; split; reflexivity) : preserves.

Section unique.
Context (remote : json → string → option (result string)) (text_of : string → string) (json_of : string → result json).
Context (keep_local_data : bool) (run_data_dir : string).

(** A predicate on the rows alone is kept by everything but the updates. *)
Lemma get_analysis_preserves P i : preserves P (get_analysis i).
Proof. unfold get_analysis. keep. Qed.
Lemma get_user_preserves P k : preserves P (get_user k).
Proof. unfold get_user. keep. Qed.
#[local] Hint Resolve get_analysis_preserves get_user_preserves : preserves.

Lemma store_log_rows (Q : list AnalysisTaskStatus → Prop) r f :
  preserves (λ d, Q (rows d)) (store_log remote text_of r f).
Proof.
  assert (∀ t, preserves (λ d, Q (rows d)) (create_text t)) by (by intros t d H). unfold store_log. keep.
Qed.
Lemma store_related_rows (Q : list AnalysisTaskStatus → Prop) s : preserves (λ d, Q (rows d)) (store_related text_of json_of s).
Proof.
  assert (∀ t, preserves (λ d, Q (rows d)) (create_text t)) by (by intros t d H). unfold store_related. keep.
Qed.

(** The messages about whole analyses do not touch the records. *)
Definition about_analysis (m : message) : bool :=
  match m with
  | TaskStatus _ _ _ | InputFiles _ _ _ _ _ _ | LossesFiles _ _ _ _ _ | InputErrorFiles _ _ _ _
  | LossesErrorFiles _ _ _ _ | TaskFailure _ _ _ _ _ _ _ => true
  | _ => false
  end.

Lemma about_analysis_rows (Q : list AnalysisTaskStatus → Prop) m :
  about_analysis m = true →
  preserves (λ d, Q (rows d)) (deliver remote text_of json_of keep_local_data run_data_dir m).
Proof.
  intros Hm.
  assert (∀ t, preserves (λ d, Q (rows d)) (create_text t)) by (by intros t d H).
  assert (∀ f, (∀ d, rows (f d) = rows d) → preserves (λ d, Q (rows d)) (modify f)) as Hmod.
  { intros f Hf. apply preserves_modify. intros d. by rewrite Hf. }
  assert (∀ i f, preserves (λ d, Q (rows d)) (save_analysis i f)) by (intros; by apply Hmod).
  assert (∀ i s t, preserves (λ d, Q (rows d)) (delay_start i s t)) by (intros; by apply Hmod).
  assert (∀ f, preserves (λ d, Q (rows d)) (delete_text f)) by (intros []; by apply Hmod).
  assert (∀ s, preserves (λ d, Q (rows d)) (store_related text_of json_of s)) by (intros; apply store_related_rows).
  destruct m; try discriminate Hm; cbn [deliver];
    unfold set_task_status, record_input_files, record_losses_files, record_input_error_files,
      record_losses_error_files, handle_task_failure; keep; by apply Hmod.
Qed.

(** Whatever messages arrive, in whatever order, as often as they do, no
    two records share a task id or the slug of an analysis. *)
Theorem keys_always_unique ms d :
  keys_ok d → keys_ok (deliver_all remote text_of json_of keep_local_data run_data_dir ms d).
Proof.
  revert d. induction ms as [|m ms IH]; intros d Hd; [done|]. cbn. apply IH, preserves_exec; [|done].
  destruct (about_analysis m) eqn:Hm; [by apply (about_analysis_rows rows_wf)|].
  assert (∀ r f, preserves keys_ok (store_log remote text_of r f)) by (intros; by apply (store_log_rows rows_wf)).
  assert (∀ f, (∀ d, rows (f d) = rows d) → preserves keys_ok (modify f)) as Hmod by (intros; by apply modify_keys).
  destruct m; try discriminate Hm; cbn [deliver];
    unfold record_sub_task_start, record_sub_task_success, set_subtask_status, record_sub_task_failure,
      mark_task_as_queued, subtask_error_log, subtask_retry_log, cancel_subtasks, chord_error_callback, update_task_id;
    keep; try (by apply Hmod).
  apply atomic_preserves, for_each_preserves. intros [[? ?] ?]. keep.
Qed.
End unique.

(** ** What a message may do to the status of a sub-task *)

(** [status_step m r st st']: message [m] may move record [r] from [st] to [st']. *)
Inductive status_step : message → AnalysisTaskStatus → task_status → task_status → Prop :=
  | step_start i slug id dt r : of_slug i slug r → status_step (SubTaskStart i slug id dt) r QUEUED STARTED
  | step_success res i u slug id r st : of_slug i slug r → status_step (SubTaskSuccess res i u slug id) r st COMPLETED
  | step_status i slug st' e r st : of_slug i slug r → status_step (SubTaskStatus i slug st' e) r st st'
  | step_failure tb i slug id r st : of_slug i slug r → status_step (SubTaskFailure tb i slug id) r st ERROR
  | step_queued i slug id dt r st : of_slug i slug r → status_step (TaskQueued i slug id dt) r st QUEUED
  | step_cancel i r st : of_analysis i r → st ∈ [PENDING; QUEUED; STARTED] → status_step (CancelSubtasks i) r st CANCELLED
  | step_chord i r st : of_analysis i r → st ∈ unfinished → status_step (ChordError i) r st CANCELLED
  | step_ids id i slug l r : of_analysis i r → status_step (UpdateTaskIds ((id, i, slug) :: l)) r PENDING QUEUED.

(** The record after a message: the same sub-task, at the same status or a step on. *)
Definition row_step (m : message) (r r' : AnalysisTaskStatus) : Prop :=
  st_analysis r' = st_analysis r ∧ st_slug r' = st_slug r ∧
  (st_status r' = st_status r ∨ status_step m r (st_status r) (st_status r')).

Lemma update_rows_rel (R : AnalysisTaskStatus → AnalysisTaskStatus → Prop) l0 p f :
  (∀ r r', R r r' → p r' = true → R r (f r')) →
  preserves (λ d, Forall2 R l0 (rows d)) (update_rows p f).
Proof.
  intros Hf d Hd. unfold update_rows. destruct (duplicate_id _); [done|]. cbn.
  apply Forall2_fmap_r. eapply Forall2_impl; [exact Hd|]. intros r r' HR. cbn. destruct (p r') eqn:E; auto.
Qed.

Lemma of_slug_key i slug r r' : st_analysis r' = st_analysis r → st_slug r' = st_slug r →
  of_slug i slug r' = of_slug i slug r.
Proof. unfold of_slug, of_analysis. by intros -> ->. Qed.

(** The bulk updates: a record is in the filter at its own status, or the message
    already moved it, to a status outside the filter. *)
Lemma bulk_row_step m i l st r r' :
  st_analysis r' = st_analysis r →
  (∀ st0, of_analysis i r → st0 ∈ l → status_step m r st0 st) →
  (∀ st0 st1, status_step m r st0 st1 → st1 ∉ l) →
  st_status r' = st_status r ∨ status_step m r (st_status r) (st_status r') →
  of_analysis i r' && has_status l r' = true →
  st = st_status r ∨ status_step m r (st_status r) st.
Proof.
  intros Ha Hin Hout Hst [Hi Hl]%andb_true_iff. unfold has_status in Hl. apply bool_decide_eq_true in Hl.
  destruct Hst as [Hst|Hst]; [|by destruct (Hout _ _ Hst)]. rewrite Hst in Hl. right. apply Hin; [|done].
  unfold of_analysis in *. by rewrite <- Ha, Hi.
Qed.

Section steps.
Context (remote : json → string → option (result string)) (text_of : string → string) (json_of : string → result json).
Context (keep_local_data : bool) (run_data_dir : string).
#[local] Hint Resolve get_analysis_preserves get_user_preserves : preserves.

Lemma deliver_keeps_step m l0 : preserves (λ d, Forall2 (row_step m) l0 (rows d))
  (deliver remote text_of json_of keep_local_data run_data_dir m).
Proof.
  destruct (about_analysis m) eqn:Hm; [by apply (about_analysis_rows _ _ _ _ _ (Forall2 (row_step m) l0))|].
  set (P := λ d, Forall2 (row_step m) l0 (rows d)).
  assert (∀ r f, preserves P (store_log remote text_of r f)) by (intros; by apply (store_log_rows _ _ (Forall2 (row_step m) l0))).
  assert (∀ t, preserves P (create_text t)) by (by intros t d H').
  assert (∀ f, (∀ d, rows (f d) = rows d) → preserves P (modify f)) as Hmod.
  { intros f Hf. apply preserves_modify. intros d. unfold P. by rewrite Hf. }
  assert (∀ p f, (∀ r r', row_step m r r' → p r' = true → row_step m r (f r')) → preserves P (update_rows p f)) as Hup
    by (intros; by apply update_rows_rel).
  destruct m; try discriminate Hm; cbn [deliver];
    unfold record_sub_task_start, record_sub_task_success, set_subtask_status, record_sub_task_failure,
      mark_task_as_queued, subtask_error_log, subtask_retry_log, cancel_subtasks, chord_error_callback, update_task_id;
    keep; try (by apply Hmod).
  all: try (apply atomic_preserves, for_each_preserves; intros [[? ?] ?]).
  all: apply Hup; intros r r' (Ha & Hs & Hst) Hp; unfold row_step; cbn; (split_and!; [done|done|]).
  all: try rewrite (of_slug_key _ _ _ _ Ha Hs) in Hp.
  all: try (by right; constructor; rewrite Hp).
  all: try assumption.
  - case_bool_decide as E; [|done]. right. destruct Hst as [Hst|Hst]; [|inversion Hst; congruence].
    rewrite <- Hst, E. constructor. by rewrite Hp.
  - by eapply bulk_row_step; [exact Ha| by constructor | intros ? ? Hs1; inversion Hs1; set_solver | exact Hst | exact Hp].
  - by eapply bulk_row_step; [exact Ha| by constructor | intros ? ? Hs1; inversion Hs1; set_solver | exact Hst | exact Hp].
  - eapply (bulk_row_step _ _ [PENDING]); [exact Ha| intros st0 ? ->%list_elem_of_singleton; by constructor
      | intros ? ? Hs1; inversion Hs1; set_solver | exact Hst | exact Hp].
Qed.

Lemma rows_step_lookup m d k r :
  rows d !! k = Some r →
  ∃ r', rows (exec (deliver remote text_of json_of keep_local_data run_data_dir m) d) !! k = Some r' ∧ row_step m r r'.
Proof.
  intros Hr.
  assert (Forall2 (row_step m) (rows d) (rows (exec (deliver remote text_of json_of keep_local_data run_data_dir m) d))) as H.
  { apply (preserves_exec (λ d', Forall2 (row_step m) (rows d) (rows d'))); [apply deliver_keeps_step|].
    apply Forall_Forall2_diag, Forall_true. intros r'. unfold row_step. auto. }
  eapply Forall2_lookup_l in H; [|exact Hr]. naive_solver.
Qed.

(** A message changes the status of a sub-task only along its steps, and
    never its analysis or its slug; no record appears or disappears. *)
Theorem rows_step m d : Forall2 (row_step m) (rows d)
  (rows (exec (deliver remote text_of json_of keep_local_data run_data_dir m) d)).
Proof.
  apply (preserves_exec (λ d', Forall2 (row_step m) (rows d) (rows d'))); [apply deliver_keeps_step|].
  apply Forall_Forall2_diag, Forall_true. intros r. unfold row_step. auto.
Qed.
End steps.

(** ** A finished sub-task stays finished *)

(** The messages that set the status of the sub-task unconditionally. *)
Definition reopens (i : Z) (slug : string) (m : message) : bool :=
  match m with
  | SubTaskSuccess _ i' _ slug' _ | SubTaskStatus i' slug' _ _ | SubTaskFailure _ i' slug' _ | TaskQueued i' slug' _ _ =>
      (i =? i') && String.eqb slug slug'
  | _ => false
  end.

Definition finished : list task_status := [COMPLETED; CANCELLED; ERROR].

Lemma row_step_finished m r r' :
  row_step m r r' → st_status r ∈ finished → reopens (st_analysis r) (st_slug r) m = false →
  st_status r' = st_status r.
Proof.
  intros (_ & _ & [?|Hst]) Hfin Hm; [done|]. exfalso. unfold finished in Hfin.
  assert (∀ i slug, of_slug i slug r → (st_analysis r =? i) && String.eqb (st_slug r) slug = true) as Hs.
  { intros i slug H. by apply Is_true_true in H. }
  inversion Hst; subst; unfold unfinished in *; cbn in Hm; try (erewrite Hs in Hm by eassumption; discriminate).
  all: set_unfold; destruct_or?; congruence.
Qed.

Section stays.
Context (remote : json → string → option (result string)) (text_of : string → string) (json_of : string → result json).
Context (keep_local_data : bool) (run_data_dir : string).

(** C30: a record that is completed, cancelled or failed keeps that status
    whatever messages arrive, but for the four that report on it by name. *)
Theorem finished_stays ms d k r :
  rows d !! k = Some r → st_status r ∈ finished →
  Forall (λ m, reopens (st_analysis r) (st_slug r) m = false) ms →
  ∃ r', rows (deliver_all remote text_of json_of keep_local_data run_data_dir ms d) !! k = Some r' ∧
    st_analysis r' = st_analysis r ∧ st_slug r' = st_slug r ∧ st_status r' = st_status r.
Proof.
  revert d r. induction ms as [|m ms IH]; intros d r Hr Hfin Hms; [eauto|].
  apply Forall_cons in Hms as [Hm Hms]. cbn.
  pose proof (rows_step_lookup remote text_of json_of keep_local_data run_data_dir m d k r Hr) as (r1 & Hr1 & Hstep).
  pose proof Hstep as (Ha & Hs & _). pose proof (row_step_finished m r r1 Hstep Hfin Hm) as Hst.
  destruct (IH _ r1 Hr1) as (r' & Hr' & Ha' & Hs' & Hst'); [by rewrite Hst|by rewrite Ha, Hs|].
  exists r'. split_and!; [exact Hr'|congruence..].
Qed.
End stays.

(** ** Cancelling *)

Definition cancellable (i : Z) (r : AnalysisTaskStatus) : bool :=
  of_analysis i r && has_status [PENDING; QUEUED; STARTED] r.

Lemma update_rows_ok p f d :
  keys_ok d → (∀ r, st_task_id (f r) = st_task_id r) →
  update_rows p f d = (Ok tt, d <| rows := (λ r, if p r then f r else r) <$> rows d |>).
Proof.
  intros [Hids _] Hf. unfold update_rows. destruct (duplicate_id _) eqn:E; [|done]. exfalso.
  unfold duplicate_id in E. apply negb_true_iff, bool_decide_eq_false in E. apply E.
  unfold ids_of in *. rewrite <- list_fmap_compose.
  erewrite (list_fmap_ext (_ ∘ _) st_task_id); [exact Hids|]. intros j r _. cbn. by destruct (p r).
Qed.

(** Cancelling the sub-tasks of an analysis revokes the task of every one
    that is not finished, by its id, and leaves none of them unfinished; the
    finished ones, and those of other analyses, are as they were. *)
Theorem cancel_subtasks_spec d i :
  keys_ok d → is_Some (analyses d !! i) →
  let '(res, d') := cancel_subtasks i d in
  res = Ok tt
  ∧ rows d' = (λ r, if cancellable i r then r <| st_status := CANCELLED |> <| st_end_time := Some (now d) |> else r) <$> rows d
  ∧ List.filter (cancellable i) (rows d') = []
  ∧ revoked d' = revoked d ++ ids_of (List.filter (cancellable i) (rows d)).
Proof.
  intros Hk [a Ha]. unfold cancel_subtasks, get_analysis, mbind, M_bind, get_state, lift, modify. cbn. rewrite Ha. cbn.
  rewrite update_rows_ok by done. cbn. split_and!; [done..| |done].
  induction (rows d) as [|r l IH]; [done|]. cbn. rewrite IH.
  destruct (of_analysis i r && _) eqn:E; [|unfold cancellable at 1; by rewrite E].
  unfold cancellable, has_status. cbn. by rewrite andb_false_r.
Qed.

(** The messages that write the analysis as a whole, with a status of their own. *)
Definition overwrites (i : Z) (m : message) : bool :=
  match m with InputFiles _ i' _ _ _ _ | LossesFiles _ i' _ _ _ => i =? i' | _ => false end.

Section sticky.
Context (remote : json → string → option (result string)) (text_of : string → string) (json_of : string → result json).
Context (keep_local_data : bool) (run_data_dir : string).
Context (i : Z) (st : status_choices).

Definition status_is (d : Db) : Prop := ∃ a, analyses d !! i = Some a ∧ status a = st.

Lemma save_keeps_status i' f :
  (i' = i → ∀ a, status a = st → status (f a) = st) → preserves status_is (save_analysis i' f).
Proof.
  intros Hf. apply preserves_modify. intros d (a & Ha & Hst). unfold status_is. cbn.
  destruct (decide (i' = i)) as [->|Hne].
  - rewrite lookup_alter_eq, Ha. cbn. eauto.
  - rewrite lookup_alter_ne by done. eauto.
Qed.

(** What is read of the analysis has the status. *)
Lemma get_analysis_status i' :
  hoare status_is (get_analysis i') (λ a d, status_is d ∧ (i' = i → status a = st)) status_is.
Proof.
  intros d Hd. unfold get_analysis, mbind, M_bind, get_state, lift. cbn.
  destruct (analyses d !! i') as [a|] eqn:E; [|done]. split; [done|]. intros ->.
  destruct Hd as (a' & Ha' & <-). congruence.
Qed.

Lemma after_get_analysis {A} i' (k : Analysis → M Db A) :
  (∀ a, (i' = i → status a = st) → preserves status_is (k a)) → preserves status_is (get_analysis i' ≫= k).
Proof.
  intros Hk. eapply hoare_bind; [apply get_analysis_status|]. intros a d [Hd Ha]. by apply (Hk a Ha).
Qed.

Lemma delete_text_status f : preserves status_is (delete_text f).
Proof.
  apply preserves_modify. intros d (a & Ha & Hst). destruct f as [f|]; [|by exists a].
  exists (forget_logs (file_pk f) a). cbn. by rewrite lookup_fmap, Ha.
Qed.

Lemma update_rows_status p f : preserves status_is (update_rows p f).
Proof. intros d Hd. unfold update_rows. by destruct (duplicate_id _). Qed.

Lemma set_traceback_status p f a : status (set_traceback p f a) = status a.
Proof. unfold set_traceback. by repeat case_match. Qed.

Lemma cancellation_survives_one m :
  st ∈ [INPUTS_GENERATION_CANCELLED; RUN_CANCELLED] → overwrites i m = false →
  preserves status_is (deliver remote text_of json_of keep_local_data run_data_dir m).
Proof.
  intros Hst Hm.
  assert (∀ f, (∀ d, analyses (f d) = analyses d) → preserves status_is (modify f)) as Hmod.
  { intros f Hf. apply preserves_modify. intros d. unfold status_is. by rewrite Hf. }
  assert (∀ t, preserves status_is (create_text t)) by (by intros t d H).
  assert (∀ r f, preserves status_is (store_log remote text_of r f)) by (intros; unfold store_log; keep).
  assert (∀ s, preserves status_is (store_related text_of json_of s)) by (intros; unfold store_related; keep).
  assert (∀ i' s t, preserves status_is (delay_start i' s t)) by (intros; by apply Hmod).
  pose proof update_rows_status. pose proof delete_text_status.
  assert (∀ k, preserves status_is (get_user k)) by (intros; apply get_user_preserves).
  assert (∀ j, preserves status_is (get_analysis j)) by (intros; apply get_analysis_preserves).
  destruct m as [| | | | | | | | |l| | | | | |]; cbn [deliver];
    unfold record_sub_task_start, record_sub_task_success, set_subtask_status, record_sub_task_failure,
      mark_task_as_queued, subtask_error_log, subtask_retry_log, cancel_subtasks, chord_error_callback, update_task_id,
      set_task_status, record_input_error_files, record_losses_error_files, handle_task_failure;
    try solve [keep; try (by apply Hmod); apply atomic_preserves, for_each_preserves; intros [[? ?] ?]; auto].
  all: assert (∀ f, (∀ a, status (f a) = status a) → ∀ j, preserves status_is (save_analysis j f)) as Hsame
    by (intros f Hf j; apply save_keeps_status; intros; by rewrite Hf).
  - apply preserves_try; [|keep]. apply after_get_analysis. intros a Ha. case_bool_decide as E; [keep|].
    apply save_keeps_status. intros Hi. by rewrite Ha in E.
  - cbn in Hm. assert (∀ f, preserves status_is (save_analysis i0 f)) by (intros f; apply save_keeps_status; lia).
    unfold record_input_files. keep.
  - cbn in Hm. assert (∀ f, preserves status_is (save_analysis i0 f)) by (intros f; apply save_keeps_status; lia).
    unfold record_losses_files. keep.
  - keep; by apply Hsame.
  - keep; by apply Hsame.
  - apply after_get_analysis. intros a Ha. keep; try (by apply Hmod). apply save_keeps_status.
    intros Hi _ _. rewrite set_traceback_status. cbn.
    rewrite bool_decide_eq_true_2; [auto|]. rewrite Ha by done. unfold sticky_statuses. set_solver.
Qed.

(** C34: A cancelled analysis stays cancelled whatever messages of the V2 tasks arrive late, in
    any order and any number, unless one of them is the result of its generation of
    inputs or of losses. This is about the tasks of analyses/v2_api/tasks.py only: a
    report of the V1 tasks sets the status without looking at it and does undo a
    cancellation, and so does a request that starts the analysis again. *)
Theorem cancellation_survives ms d a :
  analyses d !! i = Some a → status a = st → st ∈ [INPUTS_GENERATION_CANCELLED; RUN_CANCELLED] →
  Forall (λ m, overwrites i m = false) ms →
  ∃ a', analyses (deliver_all remote text_of json_of keep_local_data run_data_dir ms d) !! i = Some a' ∧ status a' = st.
Proof.
  intros Ha Hs Hst Hms.
  assert (status_is d) as Hd by (by exists a).
  change (status_is (deliver_all remote text_of json_of keep_local_data run_data_dir ms d)).
  clear a Ha Hs. revert d Hd. induction Hms as [|m ms Hm _ IH]; intros d Hd; [done|].
  cbn. apply IH. apply preserves_exec; [|done]. by apply cancellation_survives_one.
Qed.
End sticky.

(** ** The failure of an analysis *)

Definition failed_rows (i : Z) (d : Db) : list AnalysisTaskStatus :=
  List.filter (λ r, of_analysis i r && has_status [ERROR] r) (rows d).

(** The log of a failed sub-task has not arrived yet, or no failure has. *)
Definition logs_pending (i : Z) (d : Db) : bool :=
  (length (failed_rows i d) =? 0)%nat || existsb (λ r, bool_decide (st_output_log r = None)) (failed_rows i d).

(** The failure handler puts itself off, having changed nothing, while the
    logs of the failed sub-tasks are missing and it was retried less than eight
    times; otherwise it ends, with one text that holds the traceback and all the
    logs, the failure status unless the analysis was cancelled or has no keys,
    and the run's data removed unless it is to be kept. *)
Theorem handle_task_failure_spec d i a initiator retries tb uuid tp failure keep run_data_dir :
  analyses d !! i = Some a → initiator ∈ users d →
  (∀ f, run_log_file a = Some f → file_pk f < next_file d) →
  let res := handle_task_failure retries tb i initiator uuid tp failure keep run_data_dir d in
  if logs_pending i d && (retries <? max_retries)%nat then res = (Raise RetryTask, d) else
  ∃ a', res.1 = Ok tt
    ∧ analyses res.2 !! i = Some a'
    ∧ status a' = (if bool_decide (status a ∈ sticky_statuses) then status a else failure)
    ∧ task_finished a' = Some (now d)
    ∧ texts res.2 !! next_file d = Some (failure_text d tb (failed_rows i d))
    ∧ (tp = "run_traceback_file"%string → file_pk <$> run_traceback_file a' = Some (next_file d) ∧ run_log_file a' = run_traceback_file a')
    ∧ removed_dirs res.2 = removed_dirs d ++
        match uuid with
        | Some (String c u) => if keep then [] else [run_data_dir +:+ "/analysis-" +:+ pretty i +:+ "-" +:+ String c u]
        | _ => []
        end
    ∧ rows res.2 = rows d.
Proof.
  intros Ha Hu Hf res. subst res. unfold handle_task_failure, get_analysis.
  rewrite (bind_step _ _ _ a d) by (rewrite get_bind; unfold lift; by rewrite Ha).
  rewrite get_bind. fold (failed_rows i d). fold (logs_pending i d).
  destruct (logs_pending i d && _) eqn:E; [done|].
  set (a1 := a <| status := _ |> <| task_finished := _ |>).
  set (f := text_file (next_file d) (file_base i +:+ "_worker_traceback.txt")).
  set (d1 := (create_text (failure_text d tb (failed_rows i d)) d).2).
  assert (∃ d2, (if String.eqb tp "run_traceback_file" then delete_text (run_log_file a) else mret tt) d1 = (Ok tt, d2)
    ∧ is_Some (analyses d2 !! i) ∧ texts d2 !! next_file d = Some (failure_text d tb (failed_rows i d))
    ∧ removed_dirs d2 = removed_dirs d ∧ rows d2 = rows d) as (d2 & Hd2 & Hin & Ht & Hrm & Hrows).
  { destruct (String.eqb tp _); [|eexists; split; [reflexivity|]; split_and!; cbn; eauto; apply lookup_insert_eq].
    unfold delete_text, modify. eexists. split; [reflexivity|]. destruct (run_log_file a) as [g|]; cbn;
      (split_and!; [|idtac|done|done]); rewrite ?lookup_fmap, ?Ha; eauto; [|apply lookup_insert_eq].
    rewrite lookup_delete_ne; [apply lookup_insert_eq|]. specialize (Hf g eq_refl). lia. }
  set (d3 := d2 <| analyses := alter (λ _, set_traceback tp f a1) i (analyses d2) |>).
  rewrite (bind_step _ _ _ tt d3).
  2: { unfold try_except, get_user. rewrite (bind_step _ _ _ tt d).
       2: { rewrite get_bind. by rewrite bool_decide_eq_true_2. }
       rewrite (bind_step _ _ _ (next_file d) d1) by done. cbv zeta. by rewrite (bind_step _ _ _ tt d2). }
  exists (set_traceback tp f a1). destruct Hin as [b Hb].
  assert (analyses d3 !! i = Some (set_traceback tp f a1)) as H3 by (cbn; by rewrite lookup_alter_eq, Hb).
  assert (tp = "run_traceback_file"%string → file_pk <$> run_traceback_file (set_traceback tp f a1) = Some (next_file d)
    ∧ run_log_file (set_traceback tp f a1) = run_traceback_file (set_traceback tp f a1)) as Htp by (by intros ->).
  assert (task_finished (set_traceback tp f a1) = Some (now d)) by (unfold set_traceback; by repeat case_match).
  destruct uuid as [[|c u]|]; [|destruct keep|]. all: cbn;
    rewrite ?app_nil_r; (split_and!; try done; try apply set_traceback_status).
  by rewrite Hrm.
Qed.

(** ** Concrete messages *)

Definition no_remote (r : json) (n : string) : option (result string) := None.
Definition text_of_file (n : string) : string := "text of " +:+ n.
Definition json_of_file (n : string) : result json := Ok (JObj []).
Definition received : list message → Db → Db := deliver_all no_remote text_of_file json_of_file false "/data".

Definition task_row (i : Z) (slug task_id : string) (st : task_status) : AnalysisTaskStatus :=
  get_subtask_status i slug slug "q" <| st_task_id := task_id |> <| st_status := st |>.
Definition in_flight : Db := {|
  analyses := {[1 := ready <| status := RUN_STARTED |>; 2 := ready <| status := RUN_CANCELLED |>]};
  rows := [task_row 1 "losses-0" "t0" COMPLETED; task_row 1 "losses-1" "t1" STARTED;
           task_row 1 "losses-2" EmptyString PENDING; task_row 2 "losses-0" "t3" QUEUED];
  texts := ∅; next_file := 9; users := {[7]}; revoked := []; delayed := []; removed_dirs := []; now := 50 |}.
Definition losses_result : json := JObj [("output_location"%string, JStr "out.tar.gz")].
Definition inputs_result : json := JObj [
  ("output_location", JStr "in.tar.gz"); ("lookup_error_location", JStr "errors.csv");
  ("lookup_success_location", JStr "map.csv"); ("lookup_validation_location", JStr "report.json");
  ("summary_levels_location", JStr "levels.json")]%string.
Definition late_messages : list message :=
  [SubTaskStart 1 "losses-0" "t9" (Some 40); ChordError 1; TaskStatus 2 RUN_STARTED 41;
   TaskFailure 8 "trace" 2 7 (Some "u"%string) "run_traceback_file" RUN_ERROR].

Lemma in_flight_keys : keys_ok in_flight.
Proof. split; apply (bool_decide_eq_true_1 _); vm_compute; reflexivity. Qed.

Lemma keys_always_unique_witness : keys_ok (received late_messages in_flight).
Proof. apply keys_always_unique, in_flight_keys. Defined.

Lemma finished_stays_witness :
  ∃ r, rows (received late_messages in_flight) !! 0%nat = Some r ∧ st_status r = COMPLETED.
Proof.
  destruct (finished_stays no_remote text_of_file json_of_file false "/data" late_messages in_flight 0
    (task_row 1 "losses-0" "t0" COMPLETED)) as (r & Hr & _ & _ & Hst);
    [reflexivity|left|repeat constructor|]. exists r. split; [exact Hr|exact Hst].
Defined.

Lemma cancel_subtasks_spec_witness :
  keys_ok in_flight ∧ st_status <$> rows (cancel_subtasks 1 in_flight).2 = [COMPLETED; CANCELLED; CANCELLED; QUEUED]
  ∧ revoked (cancel_subtasks 1 in_flight).2 = ["t1"%string].
Proof.
  split; [exact in_flight_keys|].
  pose proof (cancel_subtasks_spec in_flight 1 in_flight_keys ltac:(by eexists)) as H.
  destruct (cancel_subtasks 1 in_flight) as [res d']. destruct H as (_ & Hr & _ & Hrev). cbn [snd].
  rewrite Hr, Hrev. split; vm_compute; reflexivity.
Defined.

Lemma cancellation_survives_witness :
  ∃ a, analyses (received late_messages in_flight) !! 2 = Some a ∧ status a = RUN_CANCELLED.
Proof.
  apply (cancellation_survives no_remote text_of_file json_of_file false "/data" 2 RUN_CANCELLED late_messages in_flight
    (ready <| status := RUN_CANCELLED |>)); [reflexivity|reflexivity|set_solver|repeat constructor].
Defined.

Lemma handle_task_failure_spec_witness :
  handle_task_failure 3 "trace" 1 7 None "run_traceback_file" RUN_ERROR false "/data" in_flight
    = (Raise RetryTask, in_flight)
  ∧ ∃ a, analyses (handle_task_failure 8 "trace" 1 7 None "run_traceback_file" RUN_ERROR false "/data" in_flight).2 !! 1 = Some a
      ∧ status a = RUN_ERROR.
Proof.
  pose proof (λ n, handle_task_failure_spec in_flight 1 (ready <| status := RUN_STARTED |>) 7 n "trace" None
    "run_traceback_file" RUN_ERROR false "/data" eq_refl ltac:(by apply (bool_decide_eq_true_1 _)) ltac:(done)) as H.
  split; [exact (H 3%nat)|]. destruct (H 8%nat) as (a & _ & Ha & Hst & _). exists a. split; [exact Ha|exact Hst].
Defined.

(** The report that a sub-task was queued may arrive after the one that it
    succeeded; the completed sub-task is then marked as queued. *)
Theorem late_queued_report :
  st_status <$> rows (received [SubTaskSuccess (JObj []) 1 7 "losses-1" "t1"; TaskQueued 1 "losses-1" "t1" 30] in_flight)
    = [COMPLETED; QUEUED; PENDING; QUEUED]
  ∧ st_status <$> rows (received [TaskQueued 1 "losses-1" "t1" 30; SubTaskSuccess (JObj []) 1 7 "losses-1" "t1"] in_flight)
    = [COMPLETED; COMPLETED; PENDING; QUEUED].
Proof. split; vm_compute; reflexivity. Qed.

(** The result of a run that was cancelled meanwhile undoes the cancellation,
    and the result of an input generation that a run follows says that the
    analysis is ready, not that the run has started. *)
Theorem late_results :
  (status <$> analyses (received [LossesFiles losses_result 2 7 "output-losses" "t4"] in_flight) !! 2) = Some RUN_COMPLETED
  ∧ (status <$> analyses (received [InputFiles inputs_result 1 7 "collect-keys" "t5" RUN_STARTED] in_flight) !! 1)
    = Some READY.
Proof. split; vm_compute; reflexivity. Qed.

Lemma filter_update {A} (p : A → bool) f l :
  (∀ x, p (f x) = p x) → List.filter p ((λ x, if p x then f x else x) <$> l) = f <$> List.filter p l.
Proof.
  intros Hf. induction l as [|x l IH]; [done|]. cbn. destruct (p x) eqn:E; [rewrite Hf|]; rewrite E; cbn; [|done].
  by f_equal.
Qed.

(** A retried attempt leaves its trace: the counter grows by one and the new
    log is the old one with the attempt's number and error at the end. *)
Theorem subtask_retry_log_spec d i slug trace r :
  keys_ok d → List.filter (of_slug i slug) (rows d) = [r] →
  let d' := (subtask_retry_log i slug trace d).2 in
  ∃ r', List.filter (of_slug i slug) (rows d') = [r'] ∧ st_retry_count r' = st_retry_count r + 1
    ∧ st_status r' = st_status r
    ∧ read_log d' (st_retry_log r') = Some (default EmptyString (read_log d (st_retry_log r))
        +:+ newline +:+ "=== " +:+ slug +:+ ", try=" +:+ pretty (st_retry_count r) +:+ "  ===" +:+ newline +:+ trace).
Proof.
  intros Hk Hr d'. subst d'. unfold subtask_retry_log. rewrite get_bind, Hr.
  set (text := default _ _ +:+ _). set (d1 := (create_text text d).2).
  rewrite (bind_step _ _ _ (next_file d) d1) by done.
  rewrite update_rows_ok by (try exact Hk; done). cbn [snd].
  exists (r <| st_retry_log := Some (next_file d) |> <| st_retry_count := st_retry_count r + 1 |>).
  split_and!; [|done|done|cbn; apply lookup_insert_eq].
  etransitivity; [apply filter_update; intros; by apply of_slug_key|].
  change (rows d1) with (rows d). by rewrite Hr.
Qed.

Lemma subtask_retry_log_spec_witness :
  ∃ r, List.filter (of_slug 1 "losses-1") (rows (subtask_retry_log 1 "losses-1" "lost worker" in_flight).2) = [r]
    ∧ st_retry_count r = 1.
Proof.
  destruct (subtask_retry_log_spec in_flight 1 "losses-1" "lost worker" _ in_flight_keys eq_refl) as (r & Hr & Hc & _).
  exists r. split; [exact Hr|exact Hc].
Defined.
