(* ===== verification/QueueStatus.v ===== *)
(** * The queue-status message and the progress of runs

    The message the server sends over the websocket whenever work is queued
    (queues/utils.py and queues/consumers.py, with the fields of
    [AnalysisSerializerWebSocket]), which the worker controller of AutoScaler.v
    reads, and the progress pings of the workers (queues/consumers.py and
    queues/views.py). *)

From S2P Require Import Prelude PyData ScalingRules WorkerDeployments AutoScaler Analysis TaskController.
Local Open Scope Z_scope.

(** ** The state of the queues *)

(** The analyses in the order of their keys, the records of the sub-tasks, the
    models that are not deleted, and the broker: a queue's name with the number of
    its messages and of its consumers. *)
Record Platform := {
  p_analyses : list (Z * Analysis);
  p_rows : list AnalysisTaskStatus;
  p_models : list (Z * string);
  p_broker : list (string * (Z * Z));
}.

(** An entry of [get_queues_info]. *)
Record QueueInfo := {
  q_name : string;
  q_pending_count : Z;
  q_queued_count : Z;
  q_running_count : Z;
  q_message_count : Z;
  q_worker_count : Z;
}.

(** [_add_to_dict]. *)
Definition add_to_dict (d : gmap string Z) (k : string) (v : Z) : gmap string Z :=
  match d !! k with None => <[k := v]> d | Some n => <[k := n + v]> d end.

(** The records with a status, counted by their queue. *)
Definition count_by_queue (st : task_status) (rows : list AnalysisTaskStatus) : gmap string Z :=
  foldl (λ d r, if bool_decide (st_status r = st) then add_to_dict d (st_queue_name r) 1 else d) ∅ rows.

(** [get_queues_info]: one entry per queue of the broker. *)
Definition get_queues_info (p : Platform) : list QueueInfo :=
  let pending := count_by_queue PENDING (p_rows p) in
  let running := count_by_queue STARTED (p_rows p) in
  let queued := count_by_queue QUEUED (p_rows p) in
  (λ '(q, (messages, consumers)), {|
     q_name := q; q_pending_count := default 0 (pending !! q); q_queued_count := default 0 (queued !! q);
     q_running_count := default 0 (running !! q); q_message_count := messages; q_worker_count := consumers |})
    <$> p_broker p.

(** [filter_queues_info(queue_names)]: [None], or the names to keep. *)
Definition filter_queues_info (p : Platform) (queue_names : option (list (option string))) : list QueueInfo :=
  List.filter (λ q, match queue_names with None => true | Some l => bool_decide (Some (q_name q) ∈ l) end)
    (get_queues_info p).

(** [worker_count or pending_count or ...]. *)
Definition is_active (q : QueueInfo) : bool :=
  negb (q_worker_count q =? 0) || negb (q_pending_count q =? 0) || negb (q_running_count q =? 0)
  || negb (q_queued_count q =? 0) || negb (q_message_count q =? 0).

(** ** The message *)

Definition active_statuses : list status_choices :=
  [NEW; INPUTS_GENERATION_QUEUED; INPUTS_GENERATION_STARTED; READY; RUN_QUEUED; RUN_STARTED].

(** [find_model_from_queue_name]; a key of zero is no model. *)
Definition find_model_from_queue_name (p : Platform) (queue_name : string) : option Z :=
  match List.find (λ '(_, n), String.eqb n queue_name) (p_models p) with
  | Some (i, _) => if i =? 0 then None else Some i
  | None => None
  end.

(** [sub_task_statuses] of an analysis, and those in the queue. *)
Definition sub_tasks (p : Platform) (i : Z) : list AnalysisTaskStatus :=
  List.filter (λ r, st_analysis r =? i) (p_rows p).
Definition in_queue (r : AnalysisTaskStatus) : bool := bool_decide (st_status r ∈ [PENDING; QUEUED; STARTED]).

(** [analyses.filter(model=...)] or [analyses.filter(sub_task_statuses__queue_name=...)]. *)
Definition belongs (p : Platform) (q : string) (i : Z) (a : Analysis) : bool :=
  match find_model_from_queue_name p q with
  | Some m => match model a with Some m' => model_pk m' =? m | None => false end
  | None => existsb (λ r, String.eqb (st_queue_name r) q) (sub_tasks p i)
  end.

(** The fields of [AnalysisSerializerWebSocket] that are computed. *)
Definition get_queue_names (p : Platform) (i : Z) : list string :=
  remove_dups (st_queue_name <$> List.filter in_queue (sub_tasks p i)).
Definition count_status (p : Platform) (i : Z) (l : list task_status) : Z :=
  Z.of_nat (length (List.filter (λ r, bool_decide (st_status r ∈ l)) (sub_tasks p i))).

Section message.
(** The serialized models of a queue, and the key of a portfolio. *)
Context (models_json : string → json) (portfolio_pk : Portfolio → Z).

Definition queue_json (q : QueueInfo) : json := JObj [
  ("name", JStr (q_name q)); ("pending_count", JInt (q_pending_count q)); ("queued_count", JInt (q_queued_count q));
  ("running_count", JInt (q_running_count q)); ("queue_message_count", JInt (q_message_count q));
  ("worker_count", JInt (q_worker_count q)); ("models", models_json (q_name q))]%string.

Definition opt_int (n : option Z) : json := match n with Some n => JInt n | None => JNull end.

Definition analysis_json (p : Platform) (i : Z) (a : Analysis) : json := JObj [
  ("name", JStr (name a)); ("id", JInt i); ("portfolio", JInt (portfolio_pk (portfolio a)));
  ("model", opt_int (model_pk <$> model a)); ("status", JStr (status_name (status a)));
  ("priority", JInt (Analysis.priority a));
  ("analysis_chunks", opt_int (analysis_chunks a)); ("lookup_chunks", opt_int (lookup_chunks a));
  ("sub_task_count", JInt (Z.of_nat (length (sub_tasks p i))));
  ("queue_names", JList (JStr <$> get_queue_names p i));
  ("status_count", JObj [
     ("TOTAL_IN_QUEUE", JInt (count_status p i [PENDING; QUEUED; STARTED]));
     ("TOTAL", JInt (Z.of_nat (length (sub_tasks p i))));
     ("PENDING", JInt (count_status p i [PENDING])); ("QUEUED", JInt (count_status p i [QUEUED]));
     ("STARTED", JInt (count_status p i [STARTED])); ("COMPLETED", JInt (count_status p i [COMPLETED]));
     ("CANCELLED", JInt (count_status p i [CANCELLED])); ("ERROR", JInt (count_status p i [ERROR]))])]%string.

Definition item_json (p : Platform) (q : QueueInfo) (l : list (Z * Analysis)) : json := JObj [
  ("queue", queue_json q);
  ("analyses", JList ((λ '(i, a), JObj [("analysis", analysis_json p i a); ("updated_tasks", JList [])]) <$> l))]%string.

(** [wrap_message_content]. *)
Definition wrap_message_content (time message_type : string) (content : json) : json := JObj [
  ("time", JStr time); ("type", JStr message_type); ("status", JStr "SUCCESS"); ("content", content)]%string.

(** The analyses of a message: those with the given keys, or the active ones. *)
Definition selected (p : Platform) (ids : option (list Z)) : list (Z * Analysis) :=
  List.filter (λ '(i, a), match ids with
    | Some l => bool_decide (i ∈ l)
    | None => bool_decide (status a ∈ active_statuses)
    end) (p_analyses p).

(** The names of the queues of their sub-tasks; an analysis without any has the
    name [None]. *)
Definition selected_queues (p : Platform) (ids : option (list Z)) : option (list (option string)) :=
  match ids with
  | None => None
  | Some _ => Some (mjoin ((λ '(i, _), match sub_tasks p i with
                                       | [] => [None]
                                       | l => Some <$> (st_queue_name <$> l)
                                       end) <$> selected p ids))
  end.

Definition active_queues (p : Platform) (ids : option (list Z)) : list QueueInfo :=
  List.filter is_active (filter_queues_info p (selected_queues p ids)).
Definition listed (p : Platform) (ids : option (list Z)) (q : QueueInfo) : list (Z * Analysis) :=
  List.filter (λ '(i, a), belongs p (q_name q) i a) (selected p ids).

(** [build_all_queue_status_message]. *)
Definition build_all_queue_status_message (p : Platform) (ids : option (list Z)) (time message_type : string) : json :=
  wrap_message_content time message_type
    (JList ((λ q, item_json p q (listed p ids q)) <$> active_queues p ids)).
End message.

(** ** What the worker controller reads in it *)

(** An analysis in the list of a queue: without sub-tasks it counts as one task of
    that queue; with some in a queue, as all its sub-tasks, in all those queues. *)
Definition running_entry (p : Platform) (q : string) (i : Z) (a : Analysis) : option RunningAnalysis :=
  match sub_tasks p i with
  | [] => Some {| ra_id := Some i; ra_tasks := 1; ra_queue_names := [q]; ra_priority := Analysis.priority a |}
  | l => match get_queue_names p i with
         | [] => None
         | names => Some {| ra_id := Some i; ra_tasks := Z.of_nat (length l); ra_queue_names := names;
                            ra_priority := Analysis.priority a |}
         end
  end.

(** The first queue that lists an analysis counts. *)
Definition note_running (p : Platform) (q : string) (acc : list (analysis_key * RunningAnalysis)) (x : Z * Analysis)
    : list (analysis_key * RunningAnalysis) :=
  if is_running acc x.1 then acc else
  match running_entry p q x.1 x.2 with
  | Some r => dict_set acc (AnalysisId x.1) r
  | None => acc
  end.
Definition running_analyses (p : Platform) (ids : option (list Z)) : list (analysis_key * RunningAnalysis) :=
  foldl (λ acc q, foldl (note_running p (q_name q)) acc (listed p ids q)) [] (active_queues p ids).

(** A queue with work in it that lists no analysis. *)
Definition note_pending (p : Platform) (ids : option (list Z)) (acc : list (analysis_key * RunningAnalysis)) (q : QueueInfo)
    : list (analysis_key * RunningAnalysis) :=
  if is_model_queue (q_name q) && (0 <? Z.max (q_queued_count q) (q_message_count q))
     && (length (listed p ids q) =? 0)%nat
  then dict_set acc (PendingTask (q_name q))
         {| ra_id := None; ra_tasks := 1; ra_queue_names := [q_name q]; ra_priority := 4 |}
  else acc.
Definition pending_analyses (p : Platform) (ids : option (list Z)) : list (analysis_key * RunningAnalysis) :=
  foldl (note_pending p ids) [] (active_queues p ids).

Lemma fold_result_ok {A B} (f : B → A → result B) (g : B → A → B) l b :
  (∀ b x, f b x = Ok (g b x)) → fold_result f l b = Ok (foldl g b l).
Proof. intros H. revert b. induction l as [|x l IH]; intros b; cbn; [done|]. rewrite H. cbn. apply IH. Qed.

Lemma fold_result_map {A B C} (h : C → A) (f : B → A → result B) l b :
  fold_result f (h <$> l) b = fold_result (λ b x, f b (h x)) l b.
Proof. revert b. induction l as [|x l IH]; intros b; cbn; [done|]. destruct (f b (h x)); [apply IH|done]. Qed.

Lemma read_names l : fold_result (λ l q, q ← py_str q; Ok (l ++ [q])) (JStr <$> l) [] = Ok l.
Proof.
  rewrite fold_result_map, (fold_result_ok _ (λ l q, l ++ [q])) by done.
  enough (∀ acc, foldl (λ (l : list string) q, l ++ [q]) acc l = acc ++ l) as -> by done.
  induction l as [|x l IH]; intros acc; cbn; [by rewrite app_nil_r|]. rewrite IH. by rewrite <- app_assoc.
Qed.

Lemma count_in_queue p i : count_status p i [PENDING; QUEUED; STARTED] = Z.of_nat (length (List.filter in_queue (sub_tasks p i))).
Proof. done. Qed.

Lemma queue_names_nil p i : get_queue_names p i = [] ↔ List.filter in_queue (sub_tasks p i) = [].
Proof.
  unfold get_queue_names. split; intros H; [|by rewrite H].
  destruct (List.filter _ _) as [|r l]; [done|]. exfalso. apply (not_elem_of_nil (st_queue_name r)).
  rewrite <- H. apply elem_of_remove_dups. left.
Qed.

Section parsing.
Context (models_json : string → json) (portfolio_pk : Portfolio → Z).

Lemma parse_entry p q l acc i a :
  parse_running_entry (item_json models_json portfolio_pk p q l) acc
    (JObj [("analysis"%string, analysis_json portfolio_pk p i a); ("updated_tasks"%string, JList [])])
  = Ok (note_running p (q_name q) acc (i, a)).
Proof.
  unfold note_running, running_entry, parse_running_entry. cbn.
  destruct (sub_tasks p i) as [|r rs] eqn:E.
  - cbn. destruct (is_running acc i) eqn:R; [|done]. cbn.
    unfold count_status. rewrite E. done.
  - change (truthy (JInt (Z.of_nat (length (r :: rs))))) with true. cbn [truthy].
    unfold add_if_queued. cbn -[Z.of_nat]. rewrite count_in_queue, E.
    destruct (get_queue_names p i) as [|x names] eqn:N.
    + apply queue_names_nil in N. rewrite E in N. rewrite N. cbn. by destruct (is_running acc i).
    + assert (List.filter in_queue (r :: rs) ≠ []) as Hn.
      { intros H. rewrite <- E in H. apply queue_names_nil in H. congruence. }
      destruct (List.filter in_queue (r :: rs)) as [|y ys]; [done|].
      change (0 <? Z.of_nat (length (y :: ys))) with true. change (0 <? Z.of_nat (S (length rs))) with true.
      cbn -[Z.of_nat]. destruct (is_running acc i); [done|].
      pose proof (read_names (x :: names)) as Hr. cbn -[Z.of_nat] in Hr |- *. rewrite Hr. done.
Qed.

Lemma parse_pending_item p ids acc q :
  parse_pending_entry acc (item_json models_json portfolio_pk p q (listed p ids q)) = Ok (note_pending p ids acc q).
Proof.
  unfold parse_pending_entry, note_pending. cbn. destruct (is_model_queue (q_name q)); [|done]. cbn.
  destruct (listed p ids q) as [|x l]; cbn; destruct (0 <? Z.max _ _); done.
Qed.

Lemma message_parses p ids time message_type :
  let msg := build_all_queue_status_message models_json portfolio_pk p ids time message_type in
  parse_running_analyses msg = Ok (running_analyses p ids)
  ∧ parse_queued_pending msg = Ok (pending_analyses p ids).
Proof.
  intros msg. unfold msg, parse_running_analyses, parse_queued_pending. cbn. rewrite !fold_result_map. split.
  - apply fold_result_ok. intros acc q. cbn. rewrite fold_result_map. apply fold_result_ok.
    intros acc' [i a]. apply parse_entry.
  - apply fold_result_ok. intros acc q. apply parse_pending_item.
Qed.

(** The message the server builds is one the controller understands, for
    every state of the database and of the broker: it parses without an exception
    and gives the running analyses with the number of their sub-tasks, their
    queues and priority, and the queues whose work belongs to no listed analysis. *)
Theorem message_understood p ids time message_type :
  let msg := build_all_queue_status_message models_json portfolio_pk p ids time message_type in
  parse_running_analyses msg = Ok (running_analyses p ids)
  ∧ parse_queued_pending msg = Ok (pending_analyses p ids).
Proof. exact (message_parses p ids time message_type). Qed.
End parsing.

(** ** Waiting work is seen *)

Lemma count_by_queue_spec st rows q :
  default 0 (count_by_queue st rows !! q)
  = Z.of_nat (length (List.filter (λ r, bool_decide (st_status r = st) && String.eqb (st_queue_name r) q) rows)).
Proof.
  unfold count_by_queue.
  enough (∀ d, default 0 (foldl (λ d r, if bool_decide (st_status r = st) then add_to_dict d (st_queue_name r) 1 else d) d rows !! q)
    = default 0 (d !! q)
      + Z.of_nat (length (List.filter (λ r, bool_decide (st_status r = st) && String.eqb (st_queue_name r) q) rows))) as H.
  { rewrite H, lookup_empty. cbn. lia. }
  induction rows as [|r rows IH]; intros d; cbn [foldl List.filter length]; [lia|]. rewrite IH.
  case_bool_decide; cbn [andb]; [|done]. unfold add_to_dict.
  destruct (String.eqb_spec (st_queue_name r) q) as [->|Hne]; cbn [length].
  - destruct (d !! q) eqn:E; rewrite lookup_insert_eq; cbn; lia.
  - destruct (d !! st_queue_name r); rewrite lookup_insert_ne by done; done.
Qed.

(** The counts of a queue's entry are the numbers of its sub-tasks. *)
Theorem queue_counts p q :
  q ∈ get_queues_info p →
  let count st := Z.of_nat (length (List.filter (λ r, bool_decide (st_status r = st) && String.eqb (st_queue_name r) (q_name q)) (p_rows p))) in
  q_pending_count q = count PENDING ∧ q_queued_count q = count QUEUED ∧ q_running_count q = count STARTED.
Proof.
  unfold get_queues_info. intros ([n [m c]] & -> & _)%list_elem_of_fmap. cbn. split_and!; apply count_by_queue_spec.
Qed.

Lemma dict_get_set {K V} `{EqDecision K} (d : list (K * V)) k k' v :
  dict_get (dict_set d k v) k' = if decide (k = k') then Some v else dict_get d k'.
Proof. induction d as [|[j w] d IH]; cbn; repeat (case_decide; subst; cbn; try done); by rewrite IH, decide_False. Qed.

Lemma dict_get_in {K V} `{EqDecision K} (d : list (K * V)) k v : dict_get d k = Some v → (k, v) ∈ d.
Proof.
  induction d as [|[j w] d IH]; cbn; [done|]. case_decide; intros Hd; simplify_eq; [left|right; auto].
Qed.

(** What a loop establishes at one element and keeps at the others. *)
Lemma foldl_reach {A B} (P Q : B → Prop) (f : B → A → B) l b x :
  (∀ b y, P b → y ∈ l → P (f b y)) → (∀ b y, Q b → Q (f b y)) → (∀ b, P b → Q (f b x)) →
  x ∈ l → P b → Q (foldl f b l).
Proof.
  intros HP HQ Hx Hin. revert b HP. induction l as [|y l IH]; intros b HP Hb; [by apply elem_of_nil in Hin|].
  apply elem_of_cons in Hin as [<-|Hin]; cbn.
  - specialize (Hx b Hb). clear -Hx HQ. revert Hx. generalize (f b x). clear b.
    induction l as [|y l IH]; intros b Hb; cbn; auto.
  - apply IH; [done|intros; apply HP; [done|by right]|apply HP; [done|left]].
Qed.

Lemma foldl_inv {A B} (P : B → Prop) (f : B → A → B) l b :
  (∀ b y, P b → y ∈ l → P (f b y)) → P b → P (foldl f b l).
Proof.
  revert b. induction l as [|y l IH]; intros b HP Hb; cbn; [done|].
  apply IH; [intros; apply HP; [done|by right]|apply HP; [done|left]].
Qed.

(** An analysis that was noted stays as it was noted. *)
Lemma note_running_keeps p q i r acc x :
  dict_get acc (AnalysisId i) = Some r → dict_get (note_running p q acc x) (AnalysisId i) = Some r.
Proof.
  intros H. unfold note_running. destruct (is_running acc x.1) eqn:R; [done|]. destruct (running_entry _ _ _ _); [|done].
  rewrite dict_get_set. case_decide as E; [|done]. injection E as E. unfold is_running in R. rewrite E, H in R. done.
Qed.

(** What is known of the running analyses noted so far. *)
Definition noted (p : Platform) (acc : list (analysis_key * RunningAnalysis)) : Prop :=
  ∀ k r, (k, r) ∈ acc → 1 ≤ ra_tasks r ∧
    (∀ i, k = AnalysisId i → get_queue_names p i ≠ [] → ra_queue_names r = get_queue_names p i).

Lemma dict_set_in {K V} `{EqDecision K} (d : list (K * V)) k v k' v' :
  (k', v') ∈ dict_set d k v → (k' = k ∧ v' = v) ∨ (k', v') ∈ d.
Proof.
  induction d as [|[j w] d IH]; cbn.
  - rewrite list_elem_of_singleton. intros [= -> ->]. auto.
  - case_decide; subst; rewrite !elem_of_cons; intros [E|Hd]; simplify_eq; auto. destruct (IH Hd); auto.
Qed.

Lemma note_running_noted p q acc x : noted p acc → noted p (note_running p q acc x).
Proof.
  intros Hn. unfold note_running. destruct (is_running _ _); [done|].
  unfold running_entry. destruct (sub_tasks p x.1) as [|t ts] eqn:E.
  - intros k r [[-> ->]|H]%dict_set_in; [|by apply Hn]. cbn. split; [lia|]. intros i [= <-].
    unfold get_queue_names. by rewrite E.
  - destruct (get_queue_names p x.1) eqn:N; [done|].
    intros k r [[-> ->]|H]%dict_set_in; [|by apply Hn]. cbn -[Z.of_nat]. split; [lia|]. intros i [= <-]. congruence.
Qed.

Lemma running_noted p ids : noted p (running_analyses p ids).
Proof.
  unfold running_analyses. apply foldl_inv; [|intros k r []%elem_of_nil].
  intros acc q H _. apply foldl_inv; [|done]. intros. by apply note_running_noted.
Qed.

(** An analysis with unfinished sub-tasks that an active queue lists is noted. *)
Lemma listed_is_running p ids q i a :
  q ∈ active_queues p ids → (i, a) ∈ listed p ids q → get_queue_names p i ≠ [] →
  ∃ r, (AnalysisId i, r) ∈ running_analyses p ids ∧ 1 ≤ ra_tasks r ∧ ra_queue_names r = get_queue_names p i.
Proof.
  intros Hq Hi Hn.
  assert (∃ r, dict_get (running_analyses p ids) (AnalysisId i) = Some r) as [r Hr].
  { unfold running_analyses. eapply (foldl_reach (λ _, True)); [done| | |exact Hq|done].
    - intros acc q' [r Hr]. apply foldl_inv; [|eauto]. intros acc' x [r' Hr'] _. exists r'. by apply note_running_keeps.
    - intros acc _. eapply (foldl_reach (λ _, True)); [done| | |exact Hi|done].
      + intros acc' x [r Hr]. exists r. by apply note_running_keeps.
      + intros acc' _. unfold note_running. cbn [fst snd]. destruct (is_running acc' i) eqn:R.
        * unfold is_running in R. destruct (dict_get _ _); [eauto|done].
        * unfold running_entry. destruct (sub_tasks p i) as [|t ts] eqn:E.
          { eexists. rewrite dict_get_set, decide_True by done. reflexivity. }
          destruct (get_queue_names p i) eqn:N; [done|]. eexists. rewrite dict_get_set, decide_True by done. reflexivity. }
  apply dict_get_in in Hr. exists r. split; [done|]. destruct (running_noted p ids _ _ Hr) as [H1 H2]. auto.
Qed.

(** ** The states of the models *)

Definition at_work (st : ModelState) : Prop := 1 ≤ ScalingRules.tasks st ∧ 1 ≤ ScalingRules.analyses st.
Definition all_at_work (states : list (string * ModelState)) : Prop :=
  ∀ k st, dict_get states k = Some st → at_work st.

Lemma add_queue_at_work a states queue :
  1 ≤ ra_tasks a → all_at_work states → all_at_work (add_queue a states queue).
Proof.
  intros Ha Hs k st. unfold add_queue. destruct (dict_get states (lower queue)) as [s|] eqn:E; rewrite dict_get_set;
    (case_decide; [intros [= <-]|apply Hs]); unfold at_work; cbn; [|lia]. destruct (Hs _ _ E). lia.
Qed.

Lemma add_queue_has a states queue k :
  is_Some (dict_get states k) ∨ k = lower queue → is_Some (dict_get (add_queue a states queue) k).
Proof.
  intros Hk. unfold add_queue. destruct (dict_get states (lower queue)) as [s|] eqn:E; rewrite dict_get_set;
    (case_decide; [eauto|]); destruct Hk as [Hk|Hk]; subst; done.
Qed.

Lemma add_idle_keeps d states r k st : dict_get states k = Some st → dict_get (add_idle d states r) k = Some st.
Proof.
  intros H. unfold add_idle. destruct (objects d !! r) as [wd|]; [|done].
  destruct (dict_get states (id_string wd)) eqn:E; [done|]. destruct (dict_get states (drop_last 3 _)); [done|].
  rewrite dict_get_set. case_decide; [congruence|done].
Qed.

(** Every queue of a running analysis becomes a state at work. *)
Lemma aggregate_at_work d l k a q :
  (∀ k a, (k, a) ∈ l → 1 ≤ ra_tasks a) → (k, a) ∈ l → q ∈ ra_queue_names a →
  ∃ st, dict_get (aggregate_model_states d l) (lower q) = Some st ∧ at_work st.
Proof.
  intros Hl Hin Hq. unfold aggregate_model_states. set (f := λ _ _, _).
  assert (∃ st, dict_get (foldl f [] l) (lower q) = Some st ∧ at_work st) as [st [Hst Hw]].
  { assert (all_at_work (foldl f [] l)) as Hall.
    { apply foldl_inv; [|by intros ? ? ?]. intros states [k' a'] Hs Hin'. apply foldl_inv; [|done].
      intros. apply add_queue_at_work; [|done]. by eapply Hl. }
    assert (is_Some (dict_get (foldl f [] l) (lower q))) as [st Hst]; [|by exists st; eauto].
    eapply (foldl_reach (λ _, True)); [done| | |exact Hin|done].
    - intros states [k' a'] Hs. apply foldl_inv; [|done]. intros. apply add_queue_has. by left.
    - intros states _. eapply (foldl_reach (λ _, True)); [done| | |exact Hq|done].
      + intros. apply add_queue_has. by left.
      + intros. apply add_queue_has. by right. }
  exists st. split; [|done]. apply foldl_inv; [|done]. intros. by apply add_idle_keeps.
Qed.

Lemma note_pending_noted p ids acc q : noted p acc → noted p (note_pending p ids acc q).
Proof.
  intros Hn. unfold note_pending. destruct (_ && _); [|done].
  intros k r [[-> ->]|H]%dict_set_in; [|by apply Hn]. cbn. split; [lia|done].
Qed.

(** The queue of a waiting sub-task is active. *)
Lemma waiting_queue_active p t :
  t ∈ p_rows p → in_queue t = true → st_queue_name t ∈ (p_broker p).*1 →
  ∃ q, q ∈ active_queues p None ∧ q_name q = st_queue_name t.
Proof.
  intros Ht Hq ([n [m c]] & Hn & Hb)%list_elem_of_fmap. cbn in Hn.
  set (q := {| q_name := n; q_pending_count := default 0 (count_by_queue PENDING (p_rows p) !! n);
     q_queued_count := default 0 (count_by_queue QUEUED (p_rows p) !! n);
     q_running_count := default 0 (count_by_queue STARTED (p_rows p) !! n); q_message_count := m; q_worker_count := c |}).
  exists q. split; [|done]. unfold active_queues, filter_queues_info. cbn [selected_queues].
  apply list_elem_of_In, List.filter_In. split.
  - apply List.filter_In. split; [|done]. apply list_elem_of_In. unfold get_queues_info. apply list_elem_of_fmap. by eexists (n, (m, c)).
  - assert (∀ st, st_status t = st → default 0 (count_by_queue st (p_rows p) !! n) ≠ 0) as H.
    { intros st Hst. rewrite count_by_queue_spec. enough (t ∈ List.filter (λ r, bool_decide (st_status r = st) && String.eqb (st_queue_name r) n) (p_rows p)) as Hin.
      { destruct (List.filter _ _); [by apply elem_of_nil in Hin|]. cbn. lia. }
      apply list_elem_of_In, List.filter_In. split; [by apply list_elem_of_In|].
      rewrite bool_decide_eq_true_2 by done. by rewrite Hn, String.eqb_refl. }
    unfold in_queue in Hq. apply bool_decide_eq_true in Hq. unfold is_active, q. cbn.
    set_unfold in Hq. destruct Hq as [Hq|[Hq|[Hq|[]]]]; apply H in Hq; apply Z.eqb_neq in Hq; rewrite Hq; cbn; by rewrite ?orb_true_r.
Qed.

Section waiting.
Context (models_json : string → json) (portfolio_pk : Portfolio → Z).

(** C36: Waiting work is seen. If a sub-task of an analysis that is under way is pending, queued
    or started, on a queue of the broker, and if any model that is named like that queue is
    the analysis's own, then for every cache of deployments the controller computes from the
    server's message a state for that queue with at least one task and one analysis, so
    that the scaling rules see work in progress. The second condition is needed: the queue
    of a model for its V2 tasks is its name and "-v2", another model may have just that
    name, and then a started sub-task can be overlooked. *)
Theorem waiting_work_seen p i a t d time message_type :
  (i, a) ∈ p_analyses p → status a ∈ active_statuses →
  t ∈ p_rows p → st_analysis t = i → in_queue t = true → st_queue_name t ∈ (p_broker p).*1 →
  (∀ m, find_model_from_queue_name p (st_queue_name t) = Some m → model_pk <$> model a = Some m) →
  let msg := build_all_queue_status_message models_json portfolio_pk p None time message_type in
  ∃ pending running st, parse_queued_pending msg = Ok pending ∧ parse_running_analyses msg = Ok running
    ∧ dict_get (aggregate_model_states d (pending ++ running)) (lower (st_queue_name t)) = Some st
    ∧ in_progress st = true.
Proof.
  intros Ha Hst Ht Hi Hq Hb Hm msg.
  destruct (message_parses models_json portfolio_pk p None time message_type) as [Hr Hp].
  exists (pending_analyses p None), (running_analyses p None).
  destruct (waiting_queue_active p t Ht Hq Hb) as (q & Hact & Hname).
  assert (t ∈ sub_tasks p i) as Hsub.
  { apply list_elem_of_In, List.filter_In. split; [by apply list_elem_of_In|]. by apply Z.eqb_eq. }
  assert (st_queue_name t ∈ get_queue_names p i) as Hnames.
  { apply elem_of_remove_dups, list_elem_of_fmap. exists t. split; [done|].
    apply list_elem_of_In, List.filter_In. split; [by apply list_elem_of_In|done]. }
  assert ((i, a) ∈ listed p None q) as Hl.
  { apply list_elem_of_In, List.filter_In. split.
    - apply List.filter_In. split; [by apply list_elem_of_In|]. by apply bool_decide_eq_true.
    - unfold belongs. rewrite Hname. destruct (find_model_from_queue_name p (st_queue_name t)) as [m|].
      + specialize (Hm m eq_refl). destruct (model a); [|done]. cbn in Hm. injection Hm as ->. apply Z.eqb_refl.
      + apply existsb_exists. exists t. split; [by apply list_elem_of_In|]. apply String.eqb_refl. }
  destruct (listed_is_running p None q i a Hact Hl) as (r & Hin & Htasks & Hqs).
  { intros H. rewrite H in Hnames. by apply elem_of_nil in Hnames. }
  destruct (aggregate_at_work d (pending_analyses p None ++ running_analyses p None) (AnalysisId i) r (st_queue_name t))
    as (st & Hst' & Hw).
  - assert (noted p (pending_analyses p None)) as Hn.
    { unfold pending_analyses. apply foldl_inv; [|intros ? ? []%elem_of_nil]. intros. by apply note_pending_noted. }
    intros k x [H|H]%elem_of_app; [by apply (Hn k x)|by apply (running_noted p None k x)].
  - apply elem_of_app. by right.
  - by rewrite Hqs.
  - exists st. split_and!; [done..|]. unfold in_progress. destruct Hw. apply orb_true_iff. left. apply Z.ltb_lt. lia.
Qed.
End waiting.

(** ** The progress of a run *)

(** A progress report, its numbers as converted. *)
Record Ping := { ping_pk : Z; ping_total : option Z; ping_complete : option Z }.

Definition set_total (g : Ping) (a : Analysis) : Analysis :=
  match ping_total g with Some n => a <| num_events_total := n |> | None => a end.

(** The rows, and for each websocket handler that has read its analysis: the key,
    the instance, and the increment if there is one. *)
Record Progress := {
  pr_table : gmap Z Analysis;
  pr_held : gmap nat (Z * Analysis * option Z);
}.
#[export] Instance Progress_settable : Settable Progress := λ s, {| pr_table := pr_table s; pr_held := pr_held s |}.

(** [AnalysisStatusView.post]: one update of the columns that were reported. *)
Definition status_view (g : Ping) (s : Progress) : Progress :=
  match ping_total g, ping_complete g with
  | None, None => s
  | _, _ => s <| pr_table := alter (λ row, set_total g row <| num_events_complete :=
                num_events_complete row + default 0 (ping_complete g) |>) (ping_pk g) (pr_table s) |>
  end.

(** [AnalysisStatusConsumer.handle_content], up to the save: handler [h] reads the
    analysis; one that does not exist raises, and the handler has nothing to save. *)
Definition handle_content (h : nat) (g : Ping) (s : Progress) : Progress :=
  match pr_table s !! ping_pk g with
  | Some a => s <| pr_held := <[h := (ping_pk g, set_total g a, ping_complete g)]> (pr_held s) |>
  | None => s <| pr_held := base.delete h (pr_held s) |>
  end.

(** Its save writes every column as it was read; an increment is added to what the
    row has by then. *)
Definition handle_save (h : nat) (s : Progress) : Progress :=
  match pr_held s !! h with
  | Some (i, a, inc) => s
      <| pr_table := alter (λ row, match inc with
           | Some n => a <| num_events_complete := num_events_complete row + n |>
           | None => a
           end) i (pr_table s) |>
      <| pr_held := base.delete h (pr_held s) |>
  | None => s
  end.

(** The steps of all processes: reports over HTTP, the two halves of a report over
    the websocket, and any other update of a row. *)
Inductive progress_step :=
  | HttpPing (g : Ping)
  | WsRead (h : nat) (g : Ping)
  | WsSave (h : nat)
  | OtherUpdate (i : Z) (f : Analysis → Analysis).

Definition do_step (x : progress_step) (s : Progress) : Progress :=
  match x with
  | HttpPing g => status_view g s
  | WsRead h g => handle_content h g s
  | WsSave h => handle_save h s
  | OtherUpdate i f => s <| pr_table := alter f i (pr_table s) |>
  end.

(** The reports that have come to their end, in this order: those over HTTP, and those over the
    websocket that were read and then saved; [open] are those that were read only. *)
Fixpoint finished (open : gmap nat Ping) (steps : list progress_step) : list Ping :=
  match steps with
  | [] => []
  | HttpPing g :: steps => g :: finished open steps
  | WsRead h g :: steps => finished (<[h := g]> open) steps
  | WsSave h :: steps => match open !! h with
                         | Some g => g :: finished (base.delete h open) steps
                         | None => finished open steps
                         end
  | OtherUpdate _ _ :: steps => finished open steps
  end.
(** What they report for analysis [i], together. *)
Definition reported_in (i : Z) (gs : list Ping) : Z :=
  foldr (λ g n, (if ping_pk g =? i then default 0 (ping_complete g) else 0) + n) 0 gs.
Definition reported (i : Z) (steps : list progress_step) : Z := reported_in i (finished ∅ steps).

(** Reports over the websocket come with an increment, and other updates leave the
    count alone. *)
Definition counted (x : progress_step) : Prop :=
  match x with
  | WsRead _ g => is_Some (ping_complete g)
  | OtherUpdate _ f => ∀ a, num_events_complete (f a) = num_events_complete a
  | _ => True
  end.

Lemma set_total_complete g a : num_events_complete (set_total g a) = num_events_complete a.
Proof. unfold set_total. by destruct (ping_total g). Qed.

(** The handlers hold what was read, with the increment of the report; of a report for [i]
    none holds nothing. *)
Definition holds (i : Z) (s : Progress) (open : gmap nat Ping) : Prop :=
  ∀ h, match pr_held s !! h with
       | Some (j, _, inc) => ∃ g n, open !! h = Some g ∧ ping_pk g = j ∧ ping_complete g = Some n ∧ inc = Some n
       | None => ∀ g, open !! h = Some g → ping_pk g ≠ i
       end.

Lemma alter_complete (t : gmap Z Analysis) i j a b n :
  t !! i = Some a →
  ∃ a', alter (λ row, b <| num_events_complete := num_events_complete row + n |>) j t !! i = Some a'
    ∧ num_events_complete a' = num_events_complete a + (if j =? i then n else 0).
Proof.
  intros Ha. destruct (Z.eqb_spec j i) as [->|Hne].
  - rewrite lookup_alter_eq, Ha. eexists. split; [reflexivity|done].
  - rewrite lookup_alter_ne by done. exists a. split; [done|lia].
Qed.

Lemma http_complete i g s a :
  pr_table s !! i = Some a →
  ∃ a', pr_table (status_view g s) !! i = Some a' ∧ num_events_complete a' = num_events_complete a + (if ping_pk g =? i then default 0 (ping_complete g) else 0).
Proof.
  intros Ha. assert (pr_table (status_view g s) !! i = Some a ∧ default 0 (ping_complete g) = 0 ∨
    pr_table (status_view g s) = alter (λ row, set_total g row <| num_events_complete :=
      num_events_complete row + default 0 (ping_complete g) |>) (ping_pk g) (pr_table s)) as [[H H0]|H].
  { unfold status_view. destruct (ping_total g), (ping_complete g); [right..|]; auto. }
  - exists a. split; [done|]. case_match; lia.
  - rewrite H. destruct (Z.eqb_spec (ping_pk g) i) as [E|Hne].
    + rewrite E, lookup_alter_eq, Ha. eexists. split; [reflexivity|]. done.
    + rewrite lookup_alter_ne, Ha by done. exists a. split; [done|lia].
Qed.
Lemma status_view_held g s : pr_held (status_view g s) = pr_held s.
Proof. unfold status_view. by destruct (ping_total g), (ping_complete g). Qed.

Lemma read_holds i h g s open a :
  is_Some (ping_complete g) → pr_table s !! i = Some a → holds i s open → holds i (handle_content h g s) (<[h := g]> open).
Proof.
  intros [n Hn] Ha Hh k. specialize (Hh k). unfold handle_content.
  destruct (pr_table s !! ping_pk g) as [b|] eqn:E; cbn [pr_held setter]; destruct (decide (k = h)) as [->|Hk].
  - rewrite !lookup_insert_eq. by exists g, n.
  - by rewrite !lookup_insert_ne.
  - rewrite lookup_delete_eq, lookup_insert_eq. intros g' [= <-] Hi. congruence.
  - by rewrite lookup_delete_ne, lookup_insert_ne.
Qed.
Lemma save_holds i h s open : holds i s open → holds i (handle_save h s) (base.delete h open).
Proof.
  intros Hh k. pose proof (Hh k) as Hk. unfold handle_save. destruct (pr_held s !! h) as [[[j b] inc]|] eqn:E; cbn [pr_held setter];
    (destruct (decide (k = h)) as [->|Hne]; [rewrite ?lookup_delete_eq, ?E|rewrite ?lookup_delete_ne by done]); done.
Qed.

Lemma reported_cons i g gs : reported_in i (g :: gs) = (if ping_pk g =? i then default 0 (ping_complete g) else 0) + reported_in i gs.
Proof. done. Qed.
Lemma steps_add_up i steps : ∀ open s a,
  Forall counted steps → holds i s open → pr_table s !! i = Some a →
  ∃ a', pr_table (foldl (λ s x, do_step x s) s steps) !! i = Some a'
    ∧ num_events_complete a' = num_events_complete a + reported_in i (finished open steps).
Proof.
  induction steps as [|x steps IH]; intros open s a Hc Hh Ha; [exists a; split; [done|cbn; lia]|].
  apply Forall_cons in Hc as [Hx Hc]. cbn [foldl]. destruct x as [g|h g|h|j f]; cbn [do_step finished].
  - destruct (http_complete i g s a Ha) as (a1 & Ha1 & H1).
    destruct (IH open (status_view g s) a1 Hc) as (a' & Ha' & H'); [|done|].
    + intros h. rewrite status_view_held. apply Hh.
    + exists a'. split; [done|]. rewrite reported_cons. lia.
  - apply IH; [done|by eapply read_holds|]. unfold handle_content. by destruct (pr_table s !! ping_pk g).
  - pose proof (Hh h) as Hhh. pose proof (save_holds i h s open Hh) as Hs. destruct (pr_held s !! h) as [[[j b] inc]|] eqn:E.
    + destruct Hhh as (g & n & -> & <- & Hn & ->). destruct (alter_complete (pr_table s) i (ping_pk g) a b n Ha) as (a1 & Ha1 & H1).
      destruct (IH _ (handle_save h s) a1 Hc Hs) as (a' & Ha' & H'); [by unfold handle_save; rewrite E|].
      exists a'. split; [done|]. rewrite reported_cons, Hn. cbn [default from_option id]. destruct (ping_pk g =? i); lia.
    + assert (handle_save h s = s) as Es by (unfold handle_save; by rewrite E). rewrite Es in *.
      destruct (open !! h) as [g|] eqn:Eo; [|by apply IH].
      destruct (IH _ s a Hc Hs Ha) as (a' & Ha' & H'). exists a'. split; [done|]. rewrite reported_cons.
      destruct (Z.eqb_spec (ping_pk g) i) as [Hi|_]; [by apply (Hhh g) in Hi|lia].
  - destruct (decide (j = i)) as [->|Hne].
    + destruct (IH open (s <| pr_table := alter f i (pr_table s) |>) (f a) Hc) as (a' & Ha' & H'); [done|by cbn; rewrite lookup_alter_eq, Ha|].
      exists a'. split; [done|]. cbn in Hx. rewrite Hx in H'. done.
    + apply IH; [done|done|]. cbn. by rewrite lookup_alter_ne.
Qed.

(** C37: No progress is lost or counted twice among the reports. However reports over HTTP and
    reports over the websocket, each of them a read and a later save, interleave with each
    other, the events of an analysis that are complete in the end are those at the start
    and the increments of all reports for it that came to their end, each once; if every
    report over the websocket has an increment, and if whatever else is written meanwhile
    leaves the count as it is. The conditions are needed: a report over the
    websocket without an increment, and a request that saves a row as it read it before, write
    back the count as it was. *)
Theorem progress_adds_up i steps s a :
  Forall counted steps → pr_held s = ∅ → pr_table s !! i = Some a →
  ∃ a', pr_table (foldl (λ s x, do_step x s) s steps) !! i = Some a'
    ∧ num_events_complete a' = num_events_complete a + reported i steps.
Proof. intros Hc Hs. apply steps_add_up; [done|]. intros h. by rewrite Hs, !lookup_empty. Qed.

(** ** Concrete states *)

Definition no_models_json (q : string) : json := JList [].
Definition portfolio_1 (p : Portfolio) : Z := 1.

Definition chunk_row (slug : string) (st : task_status) : AnalysisTaskStatus :=
  get_subtask_status 1 slug slug "OasisLMF-PiWind-1-v2" <| st_status := st |>.
Definition busy_platform : Platform := {|
  p_analyses := [(1, ready <| status := RUN_STARTED |>); (2, ready)];
  p_rows := [chunk_row "losses-chunk-1" COMPLETED; chunk_row "losses-chunk-2" STARTED; chunk_row "losses-chunk-3" QUEUED];
  p_models := [(4, "OasisLMF-PiWind-1")%string];
  p_broker := [("celery-v2", (0, 1)); ("OasisLMF-PiWind-1-v2", (1, 2))]%string |}.

Lemma queue_counts_witness :
  let q := {| q_name := "OasisLMF-PiWind-1-v2"; q_pending_count := 0; q_queued_count := 1; q_running_count := 1;
              q_message_count := 1; q_worker_count := 2 |} in
  q ∈ get_queues_info busy_platform ∧ q_running_count q = 1.
Proof.
  intros q. assert (q ∈ get_queues_info busy_platform) as Hq by (right; left). split; [exact Hq|].
  destruct (queue_counts busy_platform q Hq) as (_ & _ & H). rewrite H. vm_compute. reflexivity.
Defined.

Lemma waiting_work_seen_witness :
  ∃ pending running st,
    parse_queued_pending (build_all_queue_status_message no_models_json portfolio_1 busy_platform None "t" "queue_status.updated") = Ok pending
    ∧ parse_running_analyses (build_all_queue_status_message no_models_json portfolio_1 busy_platform None "t" "queue_status.updated") = Ok running
    ∧ dict_get (aggregate_model_states piwind_cache (pending ++ running)) "oasislmf-piwind-1-v2"%string = Some st
    ∧ in_progress st = true.
Proof.
  apply (waiting_work_seen no_models_json portfolio_1 busy_platform 1 (ready <| status := RUN_STARTED |>)
    (chunk_row "losses-chunk-2" STARTED) piwind_cache).
  - left.
  - apply (bool_decide_eq_true_1 _). vm_compute. reflexivity.
  - right. left.
  - reflexivity.
  - reflexivity.
  - right. left.
  - intros m H. vm_compute in H. discriminate.
Defined.

(** A model whose version ends in "-v2" is named like the queue of another model: while its
    sub-tasks are running, the controller has no state for that queue, and may stop its
    workers. *)
Example work_overlooked :
  let p := {| p_analyses := [(1, ready <| status := RUN_STARTED |>)]; p_rows := [chunk_row "losses-chunk-2" STARTED];
              p_models := [(4, "OasisLMF-PiWind-1"); (5, "OasisLMF-PiWind-1-v2")]%string;
              p_broker := [("OasisLMF-PiWind-1-v2", (0, 2))]%string |} in
  dict_get (aggregate_model_states no_deployments (pending_analyses p None ++ running_analyses p None)) "oasislmf-piwind-1-v2"%string = None.
Proof. vm_compute. reflexivity. Qed.

Definition ping (total complete : option Z) : Ping := {| ping_pk := 1; ping_total := total; ping_complete := complete |}.
Definition progress_of (a : Analysis) : Progress := {| pr_table := {[1 := a]}; pr_held := ∅ |}.
Definition run_steps (l : list progress_step) : option Analysis :=
  pr_table (foldl (λ s x, do_step x s) (progress_of (ready <| status := RUN_STARTED |>)) l) !! 1.

Definition two_reports : list progress_step :=
  [WsRead 0 (ping (Some 100) (Some 3)); HttpPing (ping None (Some 5)); WsSave 0].

Lemma progress_adds_up_witness : ∃ a, run_steps two_reports = Some a ∧ num_events_complete a = 8.
Proof.
  destruct (progress_adds_up 1 two_reports (progress_of (ready <| status := RUN_STARTED |>))
    (ready <| status := RUN_STARTED |>)) as (a & Ha & Hc).
  - repeat constructor. eexists. reflexivity.
  - reflexivity.
  - reflexivity.
  - exists a. split; [exact Ha|]. rewrite Hc. reflexivity.
Defined.

(** A report over the websocket can undo what happened between its read and
    its save: one with only a total resets the progress others reported, and any
    one restores the status, so that a cancelled run is shown as started. *)
Theorem websocket_report_overwrites :
  (num_events_complete <$> run_steps [WsRead 0 (ping (Some 100) None); HttpPing (ping None (Some 5)); WsSave 0]) = Some 0
  ∧ (status <$> run_steps [WsRead 0 (ping None (Some 1)); OtherUpdate 1 (λ a, a <| status := RUN_CANCELLED |>); WsSave 0])
    = Some RUN_STARTED.
Proof. split; vm_compute; reflexivity. Qed.
(** So can a request that saves the row it read before the report. *)
Example stale_row_saved :
  (num_events_complete <$> run_steps [HttpPing (ping None (Some 5)); OtherUpdate 1 (λ _, ready)]) = Some 0.
Proof. vm_compute. reflexivity. Qed.

(** An analysis that is not running counts as running for the controller: while
    a worker of its model is up, one whose inputs are ready and that has no
    sub-tasks is one task of that model, so that the worker stays up. *)
Theorem ready_analysis_counts :
  let p := {| p_analyses := [(2, ready)]; p_rows := []; p_models := [(4, "OasisLMF-PiWind-1")%string];
              p_broker := [("OasisLMF-PiWind-1", (0, 1))]%string |} in
  let states := aggregate_model_states no_deployments (running_analyses p None) in
  in_progress <$> dict_get states "oasislmf-piwind-1"%string = Some true.
Proof. vm_compute. reflexivity. Qed.
