(* ===== verification/V1Results.v ===== *)
(** * The result tasks of the v1 API

    analyses/v1_api/tasks.py from [delete_prev_output] on: the tasks that record how
    a single-instance run or generation of inputs ended, with the failure handler
    of those tasks. Files are rows of their own; deleting one deletes the analyses
    that refer to it by a cascading key, so the order of clearing and deleting
    matters. *)

From S2P Require Import Prelude PyData Analysis Files.
Local Open Scope Z_scope.

(** ** State *)

(** The file fields of an analysis. *)
Inductive file_field :=
  | SettingsFile | InputFile | GenerationTraceback | OutputFile | RunTraceback | RunLog
  | LookupErrors | LookupSuccess | LookupValidation | SummaryLevels.
#[export] Instance file_field_eq_dec : EqDecision file_field.
Proof. solve_decision. Defined.

Definition get_field (f : file_field) (a : Analysis) : option RelatedFile :=
  match f with
  | SettingsFile => settings_file a | InputFile => input_file a
  | GenerationTraceback => input_generation_traceback_file a | OutputFile => output_file a
  | RunTraceback => run_traceback_file a | RunLog => run_log_file a
  | LookupErrors => lookup_errors_file a | LookupSuccess => lookup_success_file a
  | LookupValidation => lookup_validation_file a | SummaryLevels => summary_levels_file a
  end.
Definition set_field (f : file_field) (v : option RelatedFile) (a : Analysis) : Analysis :=
  match f with
  | SettingsFile => a <| settings_file := v |> | InputFile => a <| input_file := v |>
  | GenerationTraceback => a <| input_generation_traceback_file := v |> | OutputFile => a <| output_file := v |>
  | RunTraceback => a <| run_traceback_file := v |> | RunLog => a <| run_log_file := v |>
  | LookupErrors => a <| lookup_errors_file := v |> | LookupSuccess => a <| lookup_success_file := v |>
  | LookupValidation => a <| lookup_validation_file := v |> | SummaryLevels => a <| summary_levels_file := v |>
  end.
Definition all_fields : list file_field :=
  [SettingsFile; InputFile; GenerationTraceback; OutputFile; RunTraceback; RunLog; LookupErrors; LookupSuccess;
   LookupValidation; SummaryLevels].

(** [on_delete]: the logs and tracebacks are set to null, the others cascade. *)
Definition cascades (f : file_field) : bool :=
  negb (bool_decide (f ∈ [GenerationTraceback; RunTraceback; RunLog])).

Record Db := {
  analyses : gmap Z Analysis;
  files : gmap Z string;
  next_file : Z;
  users : gset Z;
  now : Z;
}.
#[export] Instance Db_settable : Settable Db := λ d, {|
  analyses := analyses d; files := files d; next_file := next_file d; users := users d; now := now d |}.

Definition refers (k : Z) (f : file_field) (a : Analysis) : bool :=
  match get_field f a with Some F => file_pk F =? k | None => false end.

(** The analyses that a deletion takes with it, and what is left of the others. *)
Definition falls_with (k : Z) (a : Analysis) : bool := existsb (λ f, cascades f && refers k f a) all_fields.
Definition without (k : Z) (a : Analysis) : Analysis :=
  foldl (λ a f, if refers k f a then set_field f None a else a) a all_fields.

(** [f.delete()] of a file; the handlers of the analyses that fall with it are not
    followed further. *)
Definition delete_related (k : Z) : M Db unit := modify (λ d, d
  <| files := base.delete k (files d) |>
  <| analyses := without k <$> filter (λ '(_, a), falls_with k a = false) (analyses d) |>).

Definition get_analysis (i : Z) : M Db Analysis :=
  d ← get_state;
  lift (match analyses d !! i with Some a => Ok a | None => Raise ObjectDoesNotExist end).
Definition get_user (k : Z) : M Db unit :=
  d ← get_state;
  if bool_decide (k ∈ users d) then mret tt else raise ObjectDoesNotExist.

(** [analysis.save(update_fields=l)] and [analysis.save()] of an analysis that was read. *)
Definition save_fields (i : Z) (l : list file_field) (a : Analysis) : M Db unit :=
  modify (λ d, d <| analyses := alter (λ row, foldl (λ row f, set_field f (get_field f a) row) row l) i (analyses d) |>).
(** A reference to a file that is gone breaks a foreign key. *)
Definition dangling (d : Db) (a : Analysis) : bool :=
  existsb (λ f, match get_field f a with Some F => bool_decide (files d !! file_pk F = None) | None => false end) all_fields.
Definition save_all (i : Z) (a : Analysis) : M Db unit :=
  d ← get_state;
  if dangling d a then raise IntegrityError
  else modify (λ d, d <| analyses := <[i := a]> (analyses d) |>).

(** [delete_prev_output]: the fields are cleared and saved before the files they
    named are deleted. *)
Definition delete_prev_output (i : Z) (field_list : list file_field) (a : Analysis) : M Db Analysis :=
  let files_for_removal := omap (λ f, get_field f a) field_list in
  let a' := foldl (λ a f, set_field f None a) a field_list in
  save_fields i field_list a';;
  for_each files_for_removal (λ F, delete_related (file_pk F));;
  mret a'.

Definition create_file (text : string) (n link : string) (j : result json) : M Db RelatedFile := λ d,
  (Ok {| file_pk := next_file d; file_link := link; file_name := n; file_json := j |},
   d <| files := <[next_file d := text]> (files d) |> <| next_file := next_file d + 1 |>).

Definition file_base (i : Z) : string := "analysis_" +:+ pretty i.

(** ** The tasks *)

Section tasks.
(** The storage, as in Files.v, and what a stored file holds. *)
Context (remote : json → string → option (result string)).
Context (text_of : string → string) (json_of : string → result json).

Definition store (reference : json) (required : bool) (n : string) : M Db (option RelatedFile) :=
  s ← lift (store_file remote reference required n);
  match s with
  | Some s => F ← create_file (text_of (stored_as s)) (stored_name s) (stored_as s) (json_of (stored_as s)); mret (Some F)
  | None => mret None
  end.
Definition store_tar (reference : json) (n : string) : M Db (option RelatedFile) :=
  store reference true (n +:+ "." +:+ archive_suffix reference).

Definition is_parquet (reference : json) : bool := ends_with ".parquet" (str_reference reference).

(** [store_lookup_errors_file] and [store_lookup_success_file]. *)
Definition store_lookup_errors_file (reference : json) (i : Z) : M Db (option RelatedFile) :=
  store reference false (file_base i +:+ (if is_parquet reference then "_keys-errors.parquet" else "_keys-errors.csv")).
Definition store_lookup_success_file (reference : json) (i : Z) : M Db (option RelatedFile) :=
  store reference true (file_base i +:+
    (if is_parquet reference then "_gul_summary_map.parquet" else "_gul_summary_map.csv")).

(** [set_task_status]: any exception is logged. *)
Definition set_task_status (i : Z) (task_status : status_choices) : M Db unit :=
  try_except
    (_ ← get_analysis i;
     modify (λ d, d <| analyses := alter (λ row, row <| status := task_status |> <| task_started := Some (now d) |>)
                                     i (analyses d) |>))
    (λ _, mret tt).

(** [x if reference else y]. *)
Definition when {A} (reference : json) (m : M Db A) (otherwise : A) : M Db A :=
  if truthy reference then m else mret otherwise.

(** [record_run_analysis_result]. *)
Definition record_run_analysis_result (res : json) (i initiator : Z) : M Db unit :=
  l ← lift (py_iter res);
  match l with
  | [output_location; traceback_location; log_location; return_code] =>
      get_user initiator;;
      a ← get_analysis i;
      d ← get_state;
      let ok := py_eq return_code (JInt 0) in
      let a := a <| status := if ok then RUN_COMPLETED else RUN_ERROR |> <| task_finished := Some (now d) |> in
      a ← delete_prev_output i [OutputFile; RunLog; RunTraceback] a;
      output ← (if ok then store_tar output_location (file_base i +:+ "_output") else mret (output_file a));
      log ← when log_location (store_tar log_location (file_base i +:+ "_logs")) (run_log_file a);
      traceback ← when traceback_location
        (store traceback_location true (file_base i +:+ "_run_traceback.txt")) (run_traceback_file a);
      save_all i (a <| output_file := output |> <| run_log_file := log |> <| run_traceback_file := traceback |>)
  | _ => raise (ValueError "not enough or too many values to unpack")
  end.

Definition generation_outputs : list file_field :=
  [OutputFile; InputFile; LookupErrors; LookupSuccess; LookupValidation; SummaryLevels; GenerationTraceback;
   RunTraceback; RunLog].

(** [record_generate_input_result]. *)
Definition record_generate_input_result (result : json) (i initiator : Z) : M Db unit :=
  l ← lift (py_iter result);
  match l with
  | input_location :: lookup_error_fp :: lookup_success_fp :: lookup_validation_fp :: summary_levels_fp
      :: traceback_fp :: return_code :: additional_args =>
      let analysis_settings_fp := match additional_args with x :: _ => x | [] => JNull end in
      a ← get_analysis i;
      get_user initiator;;
      a ← delete_prev_output i
            (generation_outputs ++ (if truthy analysis_settings_fp then [SettingsFile] else [])) a;
      let st := if py_eq return_code (JInt 0) then READY
                else if bool_decide (status a = INPUTS_GENERATION_NO_KEYS) then status a
                else INPUTS_GENERATION_ERROR in
      input ← when input_location (store_tar input_location (file_base i +:+ "_inputs")) None;
      success ← when lookup_success_fp (store_lookup_success_file lookup_success_fp i) None;
      errors ← when lookup_error_fp (store_lookup_errors_file lookup_error_fp i) None;
      validation ← when lookup_validation_fp
        (store lookup_validation_fp false (file_base i +:+ "_exposure_summary_report.json")) None;
      levels ← when summary_levels_fp
        (store summary_levels_fp false (file_base i +:+ "_exposure_summary_levels.json")) None;
      d ← get_state;
      settings ← when analysis_settings_fp
        (store analysis_settings_fp false (file_base i +:+ "_settings.json")) (settings_file a);
      traceback ← when traceback_fp
        (store traceback_fp true (file_base i +:+ "_generation_traceback.txt")) (input_generation_traceback_file a);
      save_all i (a <| status := st |> <| input_file := input |> <| lookup_success_file := success |>
        <| lookup_errors_file := errors |> <| lookup_validation_file := validation |>
        <| summary_levels_file := levels |> <| task_finished := Some (now d) |>
        <| settings_file := settings |> <| input_generation_traceback_file := traceback |>)
  | _ => raise (ValueError "not enough values to unpack")
  end.

(** The text of a log written by the server. *)
Definition create_log (text n : string) : M Db RelatedFile := create_file text n n (Raise (ValueError "Expecting value")).

(** [record_run_analysis_failure] and [record_generate_input_failure]: any
    exception is logged. *)
Definition record_run_analysis_failure (i initiator : Z) (traceback : string) : M Db unit :=
  try_except
    (a ← get_analysis i;
     d ← get_state;
     let a := a <| status := RUN_ERROR |> <| task_finished := Some (now d) |> in
     trace ← (if String.eqb traceback EmptyString then mret (run_traceback_file a)
              else get_user initiator;;
                   F ← create_log traceback (file_base i +:+ "_run_traceback.txt"); mret (Some F));
     (match run_log_file a with Some F => delete_related (file_pk F) | None => mret tt end);;
     save_all i (a <| run_traceback_file := trace |> <| run_log_file := None |>))
    (λ _, mret tt).

Definition record_generate_input_failure (i initiator : Z) (traceback : string) : M Db unit :=
  try_except
    (a ← get_analysis i;
     d ← get_state;
     let a := a <| status := INPUTS_GENERATION_ERROR |> <| task_finished := Some (now d) |> in
     trace ← (if String.eqb traceback EmptyString then mret (input_generation_traceback_file a)
              else get_user initiator;;
                   F ← create_log traceback (file_base i +:+ "_generation_traceback.txt"); mret (Some F));
     save_all i (a <| input_generation_traceback_file := trace |>))
    (λ _, mret tt).

(** [LogTaskError.handle_task_failure] for the two result tasks; the file is named
    by a random number. *)
Definition handle_task_failure (run : bool) (i initiator : Z) (traceback random : string) : M Db unit :=
  get_user initiator;;
  a ← get_analysis i;
  d ← get_state;
  let a := a <| task_finished := Some (now d) |> <| status := if run then RUN_ERROR else INPUTS_GENERATION_ERROR |> in
  F ← create_log ("worker-monitor error:" +:+ String "010" " " +:+ traceback) (random +:+ ".txt");
  a ← (if run then delete_prev_output i [RunLog] (a <| run_traceback_file := Some F |>)
       else mret (a <| input_generation_traceback_file := Some F |>));
  save_all i a.

(** A task with [LogTaskError] as its base: when it raises, the handler runs, and
    an exception of the handler is logged. *)
Definition with_handler (run : bool) (i initiator : Z) (traceback random : string) (m : M Db unit) : M Db unit :=
  try_except m (λ e,
    try_except (handle_task_failure run i initiator traceback random) (λ _, mret tt);;
    raise e).
End tasks.

Inductive message :=
  | TaskStatus (i : Z) (st : status_choices)
  | RunResult (res : json) (i initiator : Z) (traceback random : string)
  | GenerateResult (res : json) (i initiator : Z) (traceback random : string)
  | RunFailure (i initiator : Z) (traceback : string)
  | GenerateFailure (i initiator : Z) (traceback : string).

Definition deliver (remote : json → string → option (result string)) (text_of : string → string)
    (json_of : string → result json) (m : message) : M Db unit :=
  match m with
  | TaskStatus i st => set_task_status i st
  | RunResult res i u tb r => with_handler true i u tb r (record_run_analysis_result remote text_of json_of res i u)
  | GenerateResult res i u tb r => with_handler false i u tb r (record_generate_input_result remote text_of json_of res i u)
  | RunFailure i u tb => record_run_analysis_failure i u tb
  | GenerateFailure i u tb => record_generate_input_failure i u tb
  end.

Definition deliver_all (remote : json → string → option (result string)) (text_of : string → string)
    (json_of : string → result json) (ms : list message) (d : Db) : Db :=
  foldl (λ d m, exec (deliver remote text_of json_of m) d) d ms.

(** ** No result deletes an analysis *)

(** The log and the traceback of a run may be the same file. *)
Definition slot (f : file_field) : file_field := match f with RunLog => RunTraceback | f => f end.

(** Every reference is to a file that exists; keys are not reused; and two fields
    name the same file only if they are the log and traceback of one run. *)
Record db_ok (d : Db) : Prop := {
  refs_exist : ∀ i a f F, analyses d !! i = Some a → get_field f a = Some F → is_Some (files d !! file_pk F);
  keys_bound : ∀ k, is_Some (files d !! k) → k < next_file d;
  unshared : ∀ i j a b f g F G, analyses d !! i = Some a → analyses d !! j = Some b →
    get_field f a = Some F → get_field g b = Some G → file_pk F = file_pk G → i = j ∧ slot f = slot g;
}.

(** An analysis that was read and changed may be saved as [i]. *)
Record fits (D : gset Z) (i : Z) (a : Analysis) (d : Db) : Prop := {
  fits_ok : db_ok d;
  fits_dom : dom (analyses d) = D;
  fits_in : i ∈ D;
  fits_bound : ∀ f F, get_field f a = Some F → file_pk F < next_file d;
  fits_self : ∀ f g F G, get_field f a = Some F → get_field g a = Some G → file_pk F = file_pk G → slot f = slot g;
  fits_others : ∀ j b f g F G, analyses d !! j = Some b → get_field f b = Some F → get_field g a = Some G →
    file_pk F = file_pk G → j = i ∧ slot f = slot g;
}.
Definition safe (D : gset Z) (d : Db) : Prop := db_ok d ∧ dom (analyses d) = D.

Lemma fits_safe D i a d : fits D i a d → safe D d.
Proof. by intros []. Qed.

Lemma get_set_field f g v a : get_field g (set_field f v a) = if decide (f = g) then v else get_field g a.
Proof. by destruct f, g. Qed.

Lemma fits_same D i a a' d : (∀ f, get_field f a' = get_field f a) → fits D i a d → fits D i a' d.
Proof. intros E []. split; try done; intros *; rewrite ?E; eauto. Qed.

Lemma fits_clear D i a f d : fits D i a d → fits D i (set_field f None a) d.
Proof.
  intros []. split; try done; intros *; rewrite ?get_set_field; repeat case_decide; try done; eauto.
Qed.

Lemma fits_clears D i l a d : fits D i a d → fits D i (foldl (λ a f, set_field f None a) a l) d.
Proof. revert a. induction l as [|f l IH]; intros a H; cbn; [done|]. apply IH. by apply fits_clear. Qed.

Lemma get_foldl_clear l a g :
  get_field g (foldl (λ a f, set_field f None a) a l) = if decide (g ∈ l) then None else get_field g a.
Proof.
  revert a. induction l as [|f l IH]; intros a; cbn; [by rewrite decide_False by apply not_elem_of_nil|].
  rewrite IH, get_set_field. repeat case_decide; set_solver.
Qed.

Lemma get_analysis_fits D i :
  hoare (safe D) (get_analysis i) (λ a, fits D i a) (safe D).
Proof.
  intros d [Hd HD]. unfold get_analysis. rewrite get_bind. unfold lift.
  destruct (analyses d !! i) as [a|] eqn:E; [|done]. split; try done.
  - rewrite <- HD. apply elem_of_dom. eauto.
  - intros f F H. eapply keys_bound; [done|]. eapply refs_exist; eauto.
  - intros f g F G H1 H2 H3. by destruct (unshared _ Hd i i a a f g F G).
  - intros j b f g F G Hb H1 H2 H3. by destruct (unshared _ Hd j i b a f g F G).
Qed.

(** A new file: no field names it yet. *)
Lemma create_file_ok text n link j d : db_ok d → db_ok (create_file text n link j d).2.
Proof.
  intros []. split; cbn.
  - intros i a f F Ha HF. destruct (refs_exist0 i a f F Ha HF). rewrite lookup_insert. case_decide; eauto.
  - intros k. rewrite lookup_insert. case_decide; [lia|]. intros Hk. specialize (keys_bound0 k Hk). lia.
  - done.
Qed.

Lemma create_file_fits D i a f text n link j :
  hoare (fits D i a) (create_file text n link j) (λ F, fits D i (set_field f (Some F) a)) (λ _, False).
Proof.
  intros d Hd. cbn. destruct Hd as [Hok HD Hi Hb Hs Ho]. split; cbn; try done.
  - by apply (create_file_ok text n link j d).
  - intros g G. rewrite get_set_field. case_decide; [intros [= <-]; cbn; lia|]. intros HG. specialize (Hb g G HG). lia.
  - intros g h G G'. rewrite !get_set_field. repeat case_decide; subst; try done; intros; simplify_eq; cbn in *;
      try (by eapply Hs); exfalso;
      match goal with E : get_field _ a = Some _ |- _ => apply Hb in E; lia end.
  - intros m b g h G G' Hm HG. rewrite get_set_field. case_decide; subst; [|by eapply Ho]. intros [= <-] E. cbn in E.
    assert (file_pk G < next_file d) as Hlt; [|lia]. eapply keys_bound; [done|]. by eapply refs_exist.
Qed.

(** Rows whose references shrink. *)
Definition fewer (d d' : Db) : Prop :=
  ∀ j b', analyses d' !! j = Some b' → ∃ b, analyses d !! j = Some b ∧
    ∀ f F, get_field f b' = Some F → get_field f b = Some F.

Lemma fits_fewer D i a d d' :
  fewer d d' → dom (analyses d') = dom (analyses d) → next_file d' = next_file d →
  (∀ k, is_Some (files d' !! k) → is_Some (files d !! k)) →
  (∀ j b' f F, analyses d' !! j = Some b' → get_field f b' = Some F → is_Some (files d' !! file_pk F)) →
  fits D i a d → fits D i a d'.
Proof.
  intros Hf Hdom Hn Hk Hr [Hok HD Hi Hb Hs Ho]. split; try done.
  - destruct Hok as [Hr0 Hk0 Hu0]. split; [done| |].
    + intros k H. rewrite Hn. auto.
    + intros j j' b1 b2 f g F G H1 H2 HF HG. destruct (Hf _ _ H1) as (? & ? & ?), (Hf _ _ H2) as (? & ? & ?). eauto.
  - by rewrite Hdom.
  - intros f F H. rewrite Hn. eauto.
  - intros j b f g F G H HF HG. destruct (Hf _ _ H) as (? & ? & ?). eauto.
Qed.

Lemma get_foldl_save l a row g :
  get_field g (foldl (λ row f, set_field f (get_field f a) row) row l) = if decide (g ∈ l) then get_field g a else get_field g row.
Proof.
  revert row. induction l as [|f l IH]; intros row; cbn; [by rewrite decide_False by apply not_elem_of_nil|].
  rewrite IH, get_set_field. repeat case_decide; subst; try done; set_solver.
Qed.

(** Saving fields that were cleared. *)
Lemma save_cleared_fits D i l a d :
  (∀ f, f ∈ l → get_field f a = None) → fits D i a d →
  fits D i a (save_fields i l a d).2
  ∧ (∀ b f, analyses (save_fields i l a d).2 !! i = Some b → f ∈ l → get_field f b = None).
Proof.
  intros Hl Hd. cbn. split.
  - apply (fits_fewer D i a d); cbn; try done.
    + intros j b'. cbn. rewrite lookup_alter_Some. intros [(<- & b & Hb & ->)|[Hne Hb]]; [|by exists b'].
      exists b. split; [done|]. intros f F. rewrite get_foldl_save. case_decide; [|done]. by rewrite Hl.
    + apply dom_alter_L.
    + intros j b' f F. rewrite lookup_alter_Some. destruct Hd as [[Hr _ _] _ _ _ _ _].
      intros [(<- & b & Hb & ->)|[Hne Hb]]; [|by apply (Hr j b' f)].
      rewrite get_foldl_save. case_decide; [by rewrite Hl|]. by apply (Hr i b f).
  - intros b f. rewrite lookup_alter_eq. intros (b0 & Hb0 & ->)%fmap_Some_1 Hf.
    rewrite get_foldl_save. by rewrite decide_True, Hl.
Qed.

(** No analysis falls with the file. *)
Definition safe_to_delete (k : Z) (d : Db) : Prop :=
  ∀ j b f F, analyses d !! j = Some b → cascades f = true → get_field f b = Some F → file_pk F ≠ k.

Lemma get_foldl_without k l a g :
  get_field g (foldl (λ a f, if refers k f a then set_field f None a else a) a l)
  = if refers k g a && bool_decide (g ∈ l) then None else get_field g a.
Proof.
  revert a. induction l as [|f l IH]; intros a; cbn [foldl]; [by rewrite andb_false_r|]. rewrite IH. clear IH.
  destruct (decide (f = g)) as [->|Hne].
  - rewrite (bool_decide_eq_true_2 (g ∈ g :: l)) by left. destruct (refers k g a) eqn:E; [|by rewrite E].
    assert (refers k g (set_field g None a) = false) as -> by (unfold refers; by rewrite get_set_field, decide_True).
    by rewrite get_set_field, decide_True.
  - assert (get_field g (if refers k f a then set_field f None a else a) = get_field g a) as Hg.
    { destruct (refers k f a); [|done]. by rewrite get_set_field, decide_False. }
    assert (refers k g (if refers k f a then set_field f None a else a) = refers k g a) as -> by (unfold refers at 1; by rewrite Hg).
    rewrite Hg. rewrite (bool_decide_ext (g ∈ f :: l) (g ∈ l)) by set_solver. done.
Qed.

Lemma get_without k a g : get_field g (without k a) = if refers k g a then None else get_field g a.
Proof.
  unfold without. rewrite get_foldl_without, bool_decide_eq_true_2, andb_true_r; [done|].
  apply (bool_decide_eq_true_1 _). by destruct g.
Qed.

Lemma falls_with_false k a : falls_with k a = false ↔ ∀ f F, cascades f = true → get_field f a = Some F → file_pk F ≠ k.
Proof.
  unfold falls_with. rewrite <- not_true_iff_false, existsb_exists. split.
  - intros H f F Hc HF <-. apply H. exists f. split; [destruct f; cbn; tauto|]. unfold refers. by rewrite Hc, HF, Z.eqb_refl.
  - intros H (f & _ & [Hc Hr]%andb_true_iff). unfold refers in Hr. destruct (get_field f a) as [F|] eqn:E; [|done].
    apply Z.eqb_eq in Hr. by apply (H f F).
Qed.

Lemma delete_related_fits D i a k d :
  safe_to_delete k d → fits D i a d →
  fits D i a (delete_related k d).2 ∧ fewer d (delete_related k d).2.
Proof.
  intros Hk Hd. set (d' := (delete_related k d).2).
  assert (analyses d' = without k <$> analyses d) as Ha.
  { cbn. f_equal. apply map_filter_id. intros j b Hb. apply falls_with_false. intros f F Hc HF. by eapply Hk. }
  assert (fewer d d') as Hf.
  { intros j b'. rewrite Ha, lookup_fmap. intros (b & Hb & ->)%fmap_Some_1. exists b. split; [done|].
    intros f F. rewrite get_without. by destruct (refers k f b). }
  split; [|done]. apply (fits_fewer D i a d); try done.
  - by rewrite Ha, dom_fmap_L.
  - intros j. cbn. intros [? [_ ?]%lookup_delete_Some]. eauto.
  - intros j b' f F. rewrite Ha, lookup_fmap. intros (b & Hb & ->)%fmap_Some_1. rewrite get_without.
    destruct (refers k f b) eqn:E; [done|]. intros HF. cbn. rewrite lookup_delete_ne.
    + destruct Hd as [[Hr _ _] _ _ _ _ _]. by apply (Hr j b f).
    + unfold refers in E. rewrite HF in E. by apply Z.eqb_neq in E.
Qed.

Lemma delete_files_fits D i a l d :
  (∀ F, F ∈ l → safe_to_delete (file_pk F) d) → fits D i a d →
  ∃ d', for_each l (λ F, delete_related (file_pk F)) d = (Ok tt, d') ∧ fits D i a d' ∧ users d' = users d
    ∧ ∀ k, (∀ F, F ∈ l → file_pk F ≠ k) → files d' !! k = files d !! k.
Proof.
  revert d. induction l as [|F l IH]; intros d Hl Hd; [by exists d|].
  destruct (delete_related_fits D i a (file_pk F) d) as [Hd1 Hf]; [apply Hl; left|done|].
  destruct (IH (delete_related (file_pk F) d).2) as (d' & Hrun & Hd' & Hu & Hk); [|done|].
  { intros G HG j b' f H Hb Hc HF. destruct (Hf _ _ Hb) as (b & Hb0 & Hfb).
    eapply (Hl G); [by right|exact Hb0|exact Hc|]. by apply Hfb. }
  exists d'. split; [exact Hrun|]. split_and!; [done|done|]. intros k Hne. rewrite Hk by (intros; apply Hne; by right).
  cbn. rewrite lookup_delete_ne; [done|]. apply Hne. left.
Qed.

Definition cleared (l : list file_field) (a : Analysis) : Analysis := foldl (λ a f, set_field f None a) a l.

Lemma delete_prev_output_fits D i l a d :
  fits D i a d →
  ∃ d', delete_prev_output i l a d = (Ok (cleared l a), d') ∧ fits D i (cleared l a) d' ∧ users d' = users d
    ∧ ∀ k, (∀ f F, f ∈ l → get_field f a = Some F → file_pk F ≠ k) → files d' !! k = files d !! k.
Proof.
  intros Hd. unfold delete_prev_output. fold (cleared l a).
  destruct (save_cleared_fits D i l (cleared l a) d) as [Hd1 Hrow]; [|by apply fits_clears|].
  { intros f Hf. unfold cleared. by rewrite get_foldl_clear, decide_True. }
  set (d1 := (save_fields i l (cleared l a) d).2) in *.
  destruct (delete_files_fits D i (cleared l a) (omap (λ f, get_field f a) l) d1) as (d' & Hrun & Hd' & Hu & Hk); [|done|].
  - intros F (f & Hf & HF)%list_elem_of_omap j b1 g G Hb1 Hc HG Hpk. cbn in Hb1. rewrite lookup_alter in Hb1.
    assert (∃ b, analyses d !! j = Some b ∧ get_field g b = Some G ∧ (j = i → g ∉ l)) as (b & Hb & HGb & Hnin).
    { case_decide as E; [|by exists b1]. subst j. apply fmap_Some_1 in Hb1 as (b & Hb & ->).
      rewrite get_foldl_save in HG. case_decide as El.
      - unfold cleared in HG. by rewrite get_foldl_clear, decide_True in HG.
      - by exists b. }
    destruct (fits_others D i a d Hd j b g f G F Hb HGb HF Hpk) as [-> Hslot].
    specialize (Hnin eq_refl). destruct f, g; cbn in *; try discriminate; auto.
  - exists d'. split_and!; [|done|by rewrite Hu|].
    + rewrite (bind_step _ _ _ tt d1) by done. by rewrite (bind_step _ _ _ tt d').
    + intros k Hne. rewrite Hk; [done|]. intros F (f & Hf & HF)%list_elem_of_omap. by eapply Hne.
Qed.

Lemma hoare_delete_prev_output D i l a :
  hoare (fits D i a) (delete_prev_output i l a) (λ a', fits D i a') (λ _, False).
Proof. intros d Hd. by destruct (delete_prev_output_fits D i l a d Hd) as (d' & -> & Hd' & _). Qed.

(** Saving: the foreign keys are checked, so every reference exists afterwards. *)
Lemma not_dangling d a f F : dangling d a = false → get_field f a = Some F → is_Some (files d !! file_pk F).
Proof.
  intros Hd HF. unfold dangling in Hd. rewrite <- not_true_iff_false, existsb_exists in Hd.
  destruct (files d !! file_pk F) eqn:E; [eauto|]. exfalso. apply Hd. exists f.
  split; [destruct f; cbn; tauto|]. rewrite HF. by apply bool_decide_eq_true.
Qed.

Lemma save_all_safe D i a : hoare (fits D i a) (save_all i a) (λ _, safe D) (safe D).
Proof.
  intros d Hd. unfold save_all. rewrite get_bind. destruct (dangling d a) eqn:E; [by apply fits_safe in Hd|]. cbn.
  pose proof Hd as [[Hr Hk Hu] HD Hi Hb Hs Ho]. split; [|cbn; rewrite dom_insert_L; set_solver].
  assert (∀ j b, <[i:=a]> (analyses d) !! j = Some b → (j = i ∧ b = a) ∨ analyses d !! j = Some b) as Hin.
  { intros j b. rewrite lookup_insert_Some. intuition congruence. }
  split; cbn; [|done|].
  - intros j b f F [[-> ->]|H]%Hin HF; [by eapply not_dangling|eauto].
  - intros j j' b b' f g F G [[-> ->]|H]%Hin [[-> ->]|H']%Hin HF HG Hpk; [by eauto|..|by eauto].
    + destruct (Ho j' b' g f G F); [done..|]. by subst.
    + destruct (Ho j b f g F G); done.
Qed.

Section kept.
Context (remote : json → string → option (result string)) (text_of : string → string) (json_of : string → result json).
Context (D : gset Z).

Lemma store_fits i a f reference required n :
  hoare (fits D i a) (store remote text_of json_of reference required n) (λ v, fits D i (set_field f v a)) (safe D).
Proof.
  unfold store. eapply hoare_bind; [apply (hoare_lift _ _ (λ _, fits D i a)); [done|apply fits_safe]|].
  intros [s|]; [|apply hoare_ret; intros; by apply fits_clear].
  eapply hoare_bind; [eapply hoare_weaken; [apply (create_file_fits D i a f)|done|done|done]|].
  intros F. by apply hoare_ret.
Qed.

Lemma when_fits i a f reference m :
  hoare (fits D i a) m (λ v, fits D i (set_field f v a)) (safe D) →
  hoare (fits D i a) (when reference m (get_field f a)) (λ v, fits D i (set_field f v a)) (safe D).
Proof.
  intros Hm. unfold when. destruct (truthy reference); [done|]. apply hoare_ret. intros d.
  apply fits_same. intros g. rewrite get_set_field. by case_decide; subst.
Qed.

Lemma when_none_fits i a f reference m :
  hoare (fits D i a) m (λ v, fits D i (set_field f v a)) (safe D) →
  hoare (fits D i a) (when reference m None) (λ v, fits D i (set_field f v a)) (safe D).
Proof.
  intros Hm. unfold when. destruct (truthy reference); [done|]. apply hoare_ret. intros d. apply fits_clear.
Qed.

Lemma get_user_kept (P : Db → Prop) u : preserves P (get_user u).
Proof. unfold get_user. keep. Qed.

Lemma get_state_fits i a : hoare (fits D i a) get_state (λ _, fits D i a) (safe D).
Proof. by apply hoare_get. Qed.

Lemma cleared_same i a l : hoare (fits D i a) (delete_prev_output i l a) (λ a', fits D i a') (safe D).
Proof. eapply hoare_weaken; [apply hoare_delete_prev_output|done..]. Qed.

Lemma create_log_fits i a f text n : hoare (fits D i a) (create_log text n) (λ F, fits D i (set_field f (Some F) a)) (safe D).
Proof. eapply hoare_weaken; [apply (create_file_fits D i a f)|done..]. Qed.

(** The status and the times of an analysis are no references. *)
Lemma retimed_fits i a d st t : fits D i a d → fits D i (a <| status := st |> <| task_finished := t |>) d.
Proof. apply fits_same. by intros []. Qed.

Lemma record_run_analysis_result_safe res i u :
  preserves (safe D) (record_run_analysis_result remote text_of json_of res i u).
Proof.
  unfold record_run_analysis_result. apply preserves_bind; [apply preserves_lift|]. intros l.
  destruct l as [|o [|tb [|lg [|rc [|]]]]]; try apply preserves_raise.
  apply preserves_bind; [apply get_user_kept|]. intros [].
  eapply hoare_bind; [apply get_analysis_fits|]. intros a0.
  eapply hoare_bind; [apply get_state_fits|]. intros d0. cbv zeta.
  eapply hoare_bind.
  { eapply hoare_weaken; [apply cleared_same|intros d; apply retimed_fits|intros a d H; exact H|done]. }
  intros a.
  eapply (hoare_bind _ _ _ (λ v, fits D i (set_field OutputFile v a))).
  { destruct (py_eq rc (JInt 0)); [apply store_fits|]. apply hoare_ret. intros d. apply fits_same. by intros []. }
  intros output.
  eapply hoare_bind; [apply (when_fits i (set_field OutputFile output a) RunLog), store_fits|]. intros log.
  eapply hoare_bind; [apply (when_fits i (set_field RunLog log (set_field OutputFile output a)) RunTraceback), store_fits|].
  intros trace. eapply hoare_weaken; [apply save_all_safe|intros d; apply fits_same; by intros []|done..].
Qed.

Lemma record_generate_input_result_safe res i u :
  preserves (safe D) (record_generate_input_result remote text_of json_of res i u).
Proof.
  unfold record_generate_input_result. apply preserves_bind; [apply preserves_lift|]. intros l.
  destruct l as [|inp [|le [|ls [|lv [|sl [|tb [|rc more]]]]]]]; try apply preserves_raise. cbv zeta.
  set (fp := match more with x :: _ => x | [] => JNull end).
  eapply hoare_bind; [apply get_analysis_fits|]. intros a0.
  eapply hoare_bind; [eapply hoare_weaken; [apply (get_user_kept (fits D i a0))|done|done|apply fits_safe]|]. intros [].
  eapply hoare_bind; [apply cleared_same|]. intros a.
  set (st := if py_eq rc (JInt 0) then READY else _).
  eapply hoare_bind; [apply (when_none_fits i a InputFile), store_fits|]. intros input. set (a1 := set_field InputFile input a).
  eapply hoare_bind; [apply (when_none_fits i a1 LookupSuccess), store_fits|]. intros success. set (a2 := set_field LookupSuccess success a1).
  eapply hoare_bind; [apply (when_none_fits i a2 LookupErrors), store_fits|]. intros errors. set (a3 := set_field LookupErrors errors a2).
  eapply hoare_bind; [apply (when_none_fits i a3 LookupValidation), store_fits|]. intros validation. set (a4 := set_field LookupValidation validation a3).
  eapply hoare_bind; [apply (when_none_fits i a4 SummaryLevels), store_fits|]. intros levels. set (a5 := set_field SummaryLevels levels a4).
  eapply hoare_bind; [apply get_state_fits|]. intros d0.
  eapply hoare_bind; [apply (when_fits i a5 SettingsFile), store_fits|]. intros settings. set (a6 := set_field SettingsFile settings a5).
  eapply hoare_bind; [apply (when_fits i a6 GenerationTraceback), store_fits|]. intros trace.
  eapply hoare_weaken; [apply save_all_safe|intros d; apply fits_same; by intros []|done..].
Qed.

(** The file of a log is named by no cascading field. *)
Lemma log_safe_to_delete i a d F : fits D i a d → run_log_file a = Some F → safe_to_delete (file_pk F) d.
Proof.
  intros Hd HF j b f G Hb Hc HG Hpk. destruct (fits_others D i a d Hd j b f RunLog G F Hb HG HF Hpk) as [_ Hs].
  by destruct f.
Qed.

Lemma delete_log_fits i a :
  hoare (fits D i a) (match run_log_file a with Some F => delete_related (file_pk F) | None => mret tt end)
    (λ _, fits D i a) (safe D).
Proof.
  destruct (run_log_file a) as [F|] eqn:E; [|by apply hoare_ret]. intros d Hd.
  destruct (delete_related_fits D i a (file_pk F) d) as [H _]; [by eapply log_safe_to_delete|done|]. exact H.
Qed.

Lemma record_run_analysis_failure_safe i u tb : preserves (safe D) (record_run_analysis_failure i u tb).
Proof.
  unfold record_run_analysis_failure. apply preserves_try; [|intros; apply preserves_ret].
  eapply hoare_bind; [apply get_analysis_fits|]. intros a0.
  eapply hoare_bind; [apply get_state_fits|]. intros d0. cbv zeta.
  set (a := a0 <| status := RUN_ERROR |> <| task_finished := Some (now d0) |>).
  eapply (hoare_bind _ _ _ (λ v, fits D i (set_field RunTraceback v a))).
  { destruct (String.eqb tb EmptyString).
    - apply hoare_ret. intros d. apply fits_same. by intros [].
    - eapply hoare_bind; [eapply hoare_weaken; [apply (get_user_kept (fits D i a0))|done|done|apply fits_safe]|]. intros [].
      eapply hoare_bind; [eapply hoare_weaken; [apply (create_log_fits i a RunTraceback)|intros d; apply retimed_fits|intros ? ? H; exact H|done]|].
      intros F. by apply hoare_ret. }
  intros trace. eapply hoare_bind; [apply (delete_log_fits i (set_field RunTraceback trace a))|]. intros [].
  eapply hoare_weaken; [apply save_all_safe|intros d H; apply (fits_clear _ _ _ RunLog) in H; exact H|done..].
Qed.

Lemma record_generate_input_failure_safe i u tb : preserves (safe D) (record_generate_input_failure i u tb).
Proof.
  unfold record_generate_input_failure. apply preserves_try; [|intros; apply preserves_ret].
  eapply hoare_bind; [apply get_analysis_fits|]. intros a0.
  eapply hoare_bind; [apply get_state_fits|]. intros d0. cbv zeta.
  set (a := a0 <| status := INPUTS_GENERATION_ERROR |> <| task_finished := Some (now d0) |>).
  eapply (hoare_bind _ _ _ (λ v, fits D i (set_field GenerationTraceback v a))).
  { destruct (String.eqb tb EmptyString).
    - apply hoare_ret. intros d. apply fits_same. by intros [].
    - eapply hoare_bind; [eapply hoare_weaken; [apply (get_user_kept (fits D i a0))|done|done|apply fits_safe]|]. intros [].
      eapply hoare_bind; [eapply hoare_weaken; [apply (create_log_fits i a GenerationTraceback)|intros d; apply retimed_fits|intros ? ? H; exact H|done]|].
      intros F. by apply hoare_ret. }
  intros trace. eapply hoare_weaken; [apply save_all_safe|intros d H; exact H|done..].
Qed.

Lemma handle_task_failure_safe run i u tb r : preserves (safe D) (handle_task_failure run i u tb r).
Proof.
  unfold handle_task_failure. apply preserves_bind; [apply get_user_kept|]. intros [].
  eapply hoare_bind; [apply get_analysis_fits|]. intros a0.
  eapply hoare_bind; [apply get_state_fits|]. intros d0. cbv zeta.
  set (a := a0 <| task_finished := Some (now d0) |> <| status := if run then RUN_ERROR else INPUTS_GENERATION_ERROR |>).
  assert (∀ d, fits D i a0 d → fits D i a d) as Ha by (intros d; apply fits_same; by intros []).
  eapply hoare_bind.
  { eapply hoare_weaken; [apply (create_log_fits i a (if run then RunTraceback else GenerationTraceback))|exact Ha|intros ? ? H; exact H|done]. }
  intros F. destruct run.
  - eapply hoare_bind; [apply (cleared_same i (set_field RunTraceback (Some F) a))|]. intros a'. apply save_all_safe.
  - eapply hoare_bind; [apply (hoare_ret _ _ (λ a', fits D i a')); intros d H; exact H|]. intros a'. apply save_all_safe.
Qed.

Lemma set_task_status_safe i st : preserves (safe D) (set_task_status i st).
Proof.
  unfold set_task_status. keep. intros d [[Hr Hk Hu] HD].
  assert (∀ j b', alter (λ row, row <| status := st |> <| task_started := Some (now d) |>) i (analyses d) !! j = Some b' →
    ∃ b, analyses d !! j = Some b ∧ ∀ f, get_field f b' = get_field f b) as Hin.
  { intros j b'. rewrite lookup_alter_Some. intros [(<- & b & Hb & ->)|[_ Hb]]; [|by exists b'].
    exists b. split; [done|]. by intros []. }
  split; [split; cbn; [|done|]|cbn; by rewrite dom_alter_L].
  - intros j b f F Hj. destruct (Hin _ _ Hj) as (b0 & Hb0 & ->). eauto.
  - intros j j' b b' f g F G Hj Hj'. destruct (Hin _ _ Hj) as (b0 & Hb0 & ->), (Hin _ _ Hj') as (b1 & Hb1 & ->). eauto.
Qed.

Lemma with_handler_safe run i u tb r m : preserves (safe D) m → preserves (safe D) (with_handler run i u tb r m).
Proof.
  intros Hm. unfold with_handler. apply preserves_try; [done|]. intros e.
  apply preserves_bind; [|intros; apply preserves_raise].
  apply preserves_try; [apply handle_task_failure_safe|intros; apply preserves_ret].
Qed.

Lemma deliver_safe m : preserves (safe D) (deliver remote text_of json_of m).
Proof.
  destruct m as [i st|res i u tb r|res i u tb r|i u tb|i u tb]; cbn.
  - apply set_task_status_safe.
  - apply with_handler_safe, record_run_analysis_result_safe.
  - apply with_handler_safe, record_generate_input_result_safe.
  - apply record_run_analysis_failure_safe.
  - apply record_generate_input_failure_safe.
Qed.

Lemma deliver_all_safe ms d : safe D d → safe D (deliver_all remote text_of json_of ms d).
Proof.
  revert d. induction ms as [|m ms IH]; intros d Hd; cbn; [done|]. apply IH. apply preserves_exec; [apply deliver_safe|done].
Qed.
End kept.

(** ** What the results leave *)

Lemma bind_inv {S A B} (m : M S A) (f : A → M S B) s b s' :
  (m ≫= f) s = (Ok b, s') → ∃ a s1, m s = (Ok a, s1) ∧ f a s1 = (Ok b, s').
Proof. unfold mbind, M_bind. destruct (m s) as [[a|e] s1]; [eauto|done]. Qed.

(** No message adds users or moves the clock. *)
Definition same_world (U : gset Z) (T : Z) (d : Db) : Prop := users d = U ∧ now d = T.

Section world.
Context (remote : json → string → option (result string)) (text_of : string → string) (json_of : string → result json).
Context (U : gset Z) (T : Z).

Lemma get_analysis_world i : preserves (same_world U T) (get_analysis i).
Proof. unfold get_analysis. keep. Qed.

Lemma delete_prev_output_world i l a : preserves (same_world U T) (delete_prev_output i l a).
Proof.
  unfold delete_prev_output. apply preserves_bind; [by apply preserves_modify|]. intros [].
  apply preserves_bind; [|intros; apply preserves_ret]. apply hoare_for_each. intros F _. by apply preserves_modify.
Qed.

Lemma store_world reference required n : preserves (same_world U T) (store remote text_of json_of reference required n).
Proof.
  unfold store. apply preserves_bind; [apply preserves_lift|]. intros [s|]; [|apply preserves_ret].
  apply preserves_bind; [intros d Hd; exact Hd|]. intros F. apply preserves_ret.
Qed.

Lemma when_world {A} reference (m : M Db A) x : preserves (same_world U T) m → preserves (same_world U T) (when reference m x).
Proof. intros Hm. unfold when. by destruct (truthy reference); [|apply preserves_ret]. Qed.

Lemma save_all_world i a : preserves (same_world U T) (save_all i a).
Proof. unfold save_all. keep. by apply preserves_modify. Qed.
End world.
#[export] Hint Resolve get_analysis_world delete_prev_output_world store_world when_world save_all_world : preserves.

Lemma world_now {A} (m : M Db A) d r d' : (∀ U T, preserves (same_world U T) m) → m d = (r, d') → now d' = now d ∧ users d' = users d.
Proof.
  intros Hm E. assert (same_world (users d) (now d) d') as [? ?]; [|done].
  pose proof (Hm (users d) (now d) d) as H. rewrite E in H. destruct r; by apply H.
Qed.

Lemma save_all_row i a d d' : save_all i a d = (Ok tt, d') → analyses d' !! i = Some a.
Proof.
  unfold save_all. rewrite get_bind. destruct (dangling d a); [done|]. intros [= <-]. cbn. apply lookup_insert_eq.
Qed.

(** Clearing fields leaves the rest of the analysis alone. *)
Lemma cleared_status l a : status (cleared l a) = status a ∧ task_finished (cleared l a) = task_finished a.
Proof.
  revert a. induction l as [|f l IH]; intros a; [done|]. cbn. destruct (IH (set_field f None a)) as [H1 H2].
  unfold cleared in *. rewrite H1, H2. by destruct f.
Qed.

Lemma delete_prev_output_result i l a d a' d' : delete_prev_output i l a d = (Ok a', d') → a' = cleared l a.
Proof.
  unfold delete_prev_output. intros (? & ? & _ & (? & ? & _ & [= <- _])%bind_inv)%bind_inv. done.
Qed.

Lemma get_analysis_result i d a d' : get_analysis i d = (Ok a, d') → d' = d ∧ analyses d !! i = Some a.
Proof. unfold get_analysis. rewrite get_bind. unfold lift. destruct (analyses d !! i); [|done]. by intros [= -> <-]. Qed.

Lemma get_user_result u d a d' : get_user u d = (Ok a, d') → d' = d.
Proof. unfold get_user. rewrite get_bind. case_bool_decide; by intros [= _ <-]. Qed.

(** The failure handler does not fail: its file is new, and only the log is
    deleted, after the field that may name the same file was replaced. *)
Definition trace_field (run : bool) : file_field := if run then RunTraceback else GenerationTraceback.
Definition failed (run : bool) : status_choices := if run then RUN_ERROR else INPUTS_GENERATION_ERROR.
Definition worker_monitor_error (traceback : string) : string :=
  "worker-monitor error:" +:+ String "010" " " +:+ traceback.

Lemma save_all_ok i a d :
  (∀ f F, get_field f a = Some F → is_Some (files d !! file_pk F)) →
  save_all i a d = (Ok tt, d <| analyses := <[i := a]> (analyses d) |>).
Proof.
  intros H. unfold save_all. rewrite get_bind. destruct (dangling d a) eqn:E; [|done]. exfalso.
  apply existsb_exists in E as (f & _ & Hf). destruct (get_field f a) as [F|] eqn:HF; [|done].
  apply bool_decide_eq_true in Hf. destruct (H f F HF). congruence.
Qed.

Lemma handle_task_failure_total run i u tb r d a0 :
  db_ok d → analyses d !! i = Some a0 → u ∈ users d →
  ∃ d' a F, handle_task_failure run i u tb r d = (Ok tt, d') ∧ analyses d' !! i = Some a
    ∧ status a = failed run ∧ task_finished a = Some (now d)
    ∧ get_field (trace_field run) a = Some F ∧ files d' !! file_pk F = Some (worker_monitor_error tb).
Proof.
  intros Hok Ha0 Hu. unfold handle_task_failure.
  rewrite (bind_step _ _ d tt d) by (unfold get_user; rewrite get_bind, bool_decide_eq_true_2; done).
  rewrite (bind_step _ _ d a0 d) by (unfold get_analysis; rewrite get_bind, Ha0; done).
  rewrite get_bind. cbv zeta.
  set (a := a0 <| task_finished := Some (now d) |> <| status := if run then RUN_ERROR else INPUTS_GENERATION_ERROR |>).
  fold (worker_monitor_error tb).
  set (F := {| file_pk := next_file d; file_link := r +:+ ".txt"; file_name := r +:+ ".txt";
               file_json := Raise (ValueError "Expecting value") |}).
  set (d1 := d <| files := <[next_file d := worker_monitor_error tb]> (files d) |> <| next_file := next_file d + 1 |>).
  rewrite (bind_step _ _ d F d1) by done.
  assert (fits (dom (analyses d)) i a d) as Hfits.
  { pose proof (get_analysis_fits (dom (analyses d)) i d) as Hg. unfold get_analysis in Hg. rewrite get_bind, Ha0 in Hg.
    cbn in Hg. apply (fits_same _ _ a0); [by intros []|]. by apply Hg. }
  pose proof (create_file_fits _ _ _ (trace_field run) (worker_monitor_error tb) (r +:+ ".txt") (r +:+ ".txt")
    (Raise (ValueError "Expecting value")) d Hfits) as H1. cbn in H1. fold F d1 in H1.
  assert (∀ f G, get_field f a0 = Some G → is_Some (files d !! file_pk G) ∧ file_pk G < next_file d) as Hold.
  { intros f G HG. assert (is_Some (files d !! file_pk G)) by by eapply refs_exist. split; [done|]. by eapply keys_bound. }
  assert (∀ f, get_field f a = get_field f a0) as Haa by (by intros []).
  assert (∀ f G, get_field f (set_field (trace_field run) (Some F) a) = Some G → is_Some (files d1 !! file_pk G)) as Hex.
  { intros f G. rewrite get_set_field, Haa. case_decide; cbn; rewrite lookup_insert.
    - intros [= <-]. cbn. rewrite decide_True; eauto.
    - intros HG. case_decide; [eauto|]. by apply (Hold f G). }
  destruct run; cbn [trace_field failed] in *.
  - destruct (delete_prev_output_fits _ i [RunLog] _ _ H1) as (d2 & Hrun & Hf2 & _ & Hkeep).
    rewrite (bind_step _ _ d1 _ d2 Hrun).
    assert (∀ k, (∀ G, get_field RunLog a0 = Some G → file_pk G ≠ k) → files d2 !! k = files d1 !! k) as Hk.
    { intros k Hne. apply Hkeep. intros f G ->%list_elem_of_singleton HG. apply Hne. rewrite <- Haa. exact HG. }
    assert (files d2 !! next_file d = Some (worker_monitor_error tb)) as Hnew.
    { rewrite Hk; [apply lookup_insert_eq|]. intros G HG Hpk. destruct (Hold RunLog G HG). lia. }
    rewrite save_all_ok; [by eexists _, _, F; split_and!; [reflexivity|cbn; apply lookup_insert_eq|..]|].
    intros f G. unfold cleared. rewrite get_foldl_clear. case_decide as Hn; [done|]. intros HG.
    destruct (decide (RunTraceback = f)) as [<-|Hne].
    + rewrite get_set_field, decide_True in HG by done. injection HG as <-. cbn. by rewrite Hnew.
    + rewrite Hk; [by eapply Hex|]. intros G' HG' Hpk. rewrite get_set_field, decide_False, Haa in HG by done.
      destruct (unshared _ Hok i i a0 a0 RunLog f G' G) as [_ Hs]; [done..|]. by destruct f; set_solver.
  - rewrite (bind_step _ _ d1 (set_field GenerationTraceback (Some F) a) d1) by done.
    rewrite save_all_ok by done. eexists _, _, F. split_and!; [reflexivity|cbn; apply lookup_insert_eq|done|done|done|].
    cbn. apply lookup_insert_eq.
Qed.

(** Return code zero, at its place in the reply of the worker. *)
Definition run_succeeded (res : json) : bool :=
  match py_iter res with Ok [_; _; _; return_code] => py_eq return_code (JInt 0) | _ => false end.
Definition generation_succeeded (res : json) : bool :=
  match py_iter res with Ok (_ :: _ :: _ :: _ :: _ :: _ :: return_code :: _) => py_eq return_code (JInt 0) | _ => false end.

Section outcome.
Context (remote : json → string → option (result string)) (text_of : string → string) (json_of : string → result json).

Lemma store_required reference n d v d' :
  store remote text_of json_of reference true n d = (Ok v, d') → is_Some v.
Proof.
  unfold store. rewrite lift_bind. destruct (store_file remote reference true n) as [s|] eqn:E; [|done].
  apply store_file_some in E as (x & -> & _). intros (F & d1 & _ & [= <- _])%bind_inv. eauto.
Qed.

Lemma record_run_ok res i u d d' :
  record_run_analysis_result remote text_of json_of res i u d = (Ok tt, d') →
  ∃ a, analyses d' !! i = Some a ∧ task_finished a = Some (now d)
    ∧ status a = (if run_succeeded res then RUN_COMPLETED else RUN_ERROR)
    ∧ (run_succeeded res = true → is_Some (output_file a)) ∧ (run_succeeded res = false → output_file a = None).
Proof.
  unfold record_run_analysis_result, run_succeeded. rewrite lift_bind. destruct (py_iter res) as [l|]; [|done].
  destruct l as [|o [|tb [|lg [|rc [|]]]]]; try done.
  intros (_ & d1 & ->%get_user_result & H)%bind_inv. apply bind_inv in H as (a0 & d1 & (-> & _)%get_analysis_result & H).
  rewrite get_bind in H. cbv zeta in H. apply bind_inv in H as (a & d1 & ->%delete_prev_output_result & H).
  set (a := cleared _ _) in H. apply bind_inv in H as (output & d2 & Ho & H). apply bind_inv in H as (log & d3 & _ & H).
  apply bind_inv in H as (trace & d4 & _ & H). apply save_all_row in H. eexists. split; [exact H|]. cbn.
  destruct (cleared_status [OutputFile; RunLog; RunTraceback]
    (a0 <| status := if py_eq rc (JInt 0) then RUN_COMPLETED else RUN_ERROR |> <| task_finished := Some (now d) |>)) as [Hs Ht].
  split_and!; [exact Ht|exact Hs|..]; destruct (py_eq rc (JInt 0)); try done.
  - intros _. by eapply store_required.
  - injection Ho as <- _. done.
Qed.

Lemma record_generate_ok res i u d d' :
  record_generate_input_result remote text_of json_of res i u d = (Ok tt, d') →
  ∃ a0 a, analyses d !! i = Some a0 ∧ analyses d' !! i = Some a ∧ task_finished a = Some (now d)
    ∧ status a = (if generation_succeeded res then READY
                  else if decide (status a0 = INPUTS_GENERATION_NO_KEYS) then INPUTS_GENERATION_NO_KEYS
                  else INPUTS_GENERATION_ERROR)
    ∧ output_file a = None ∧ run_log_file a = None ∧ run_traceback_file a = None.
Proof.
  unfold record_generate_input_result, generation_succeeded. rewrite lift_bind. destruct (py_iter res) as [l|]; [|done].
  destruct l as [|inp [|le [|ls [|lv [|sl [|tb [|rc more]]]]]]]; try done. cbv zeta.
  intros (a0 & d1 & (-> & Ha0)%get_analysis_result & H)%bind_inv. apply bind_inv in H as (_ & d1 & ->%get_user_result & H).
  set (l := generation_outputs ++ _) in H.
  apply bind_inv in H as (a & d1 & Hdel & H).
  pose proof (world_now _ _ _ _ (λ U T, delete_prev_output_world U T i l a0) Hdel) as [Hnow _].
  apply delete_prev_output_result in Hdel as ->.
  do 5 (let Hw := fresh "Hw" in apply bind_inv in H as (? & ? & Hw & H);
    apply (world_now _ _ _ _ ltac:(intros; apply when_world, store_world)) in Hw as [Hw _]).
  rewrite get_bind in H. apply bind_inv in H as (settings & ? & _ & H). apply bind_inv in H as (trace & ? & _ & H).
  apply save_all_row in H. assert (∀ f, f ∈ l → get_field f (cleared l a0) = None) as Hnone.
  { intros f Hf. unfold cleared. by rewrite get_foldl_clear, decide_True. }
  destruct (cleared_status l a0) as [Hs _]. set (a := cleared l a0) in *. clearbody a.
  exists a0. eexists. split_and!; [done|exact H|cbn..].
  - congruence.
  - destruct (py_eq rc (JInt 0)); [done|]. rewrite Hs.
    repeat case_bool_decide; repeat case_decide; congruence.
  - by apply (Hnone OutputFile), elem_of_app; left; apply (bool_decide_eq_true_1 _).
  - by apply (Hnone RunLog), elem_of_app; left; apply (bool_decide_eq_true_1 _).
  - by apply (Hnone RunTraceback), elem_of_app; left; apply (bool_decide_eq_true_1 _).
Qed.
End outcome.

Section recorded.
Context (remote : json → string → option (result string)) (text_of : string → string) (json_of : string → result json).

Lemma record_run_world U T res i u : preserves (same_world U T) (record_run_analysis_result remote text_of json_of res i u).
Proof.
  unfold record_run_analysis_result, store_tar. apply preserves_bind; [apply preserves_lift|]. intros l.
  destruct l as [|o [|tb [|lg [|rc [|]]]]]; try apply preserves_raise.
  apply preserves_bind; [apply get_user_kept|]. intros _. cbv zeta. keep.
Qed.

Lemma record_generate_world U T res i u : preserves (same_world U T) (record_generate_input_result remote text_of json_of res i u).
Proof.
  unfold record_generate_input_result, store_tar, store_lookup_success_file, store_lookup_errors_file.
  apply preserves_bind; [apply preserves_lift|]. intros l.
  destruct l as [|inp [|le [|ls [|lv [|sl [|tb [|rc more]]]]]]]; try apply preserves_raise. cbv zeta.
  apply preserves_bind; [apply get_analysis_world|]. intros a0. apply preserves_bind; [apply get_user_kept|]. intros _.
  repeat first [apply preserves_bind; [solve [auto with preserves]|intros ?]].
  apply preserves_if; [apply preserves_raise|by apply preserves_modify].
Qed.

(** A task that raises leaves the failure status and the traceback. *)
Lemma with_handler_raised run i u tb r (m : M Db unit) d a0 e d1 :
  (∀ D, preserves (safe D) m) → (∀ U T, preserves (same_world U T) m) →
  db_ok d → analyses d !! i = Some a0 → u ∈ users d → m d = (Raise e, d1) →
  ∃ d' a F, with_handler run i u tb r m d = (Raise e, d') ∧ analyses d' !! i = Some a
    ∧ status a = failed run ∧ task_finished a = Some (now d)
    ∧ get_field (trace_field run) a = Some F ∧ files d' !! file_pk F = Some (worker_monitor_error tb).
Proof.
  intros Hs Hw Hok Ha Hu E. destruct (world_now m d (Raise e) d1 Hw E) as [Hn Hus].
  pose proof (Hs (dom (analyses d)) d (conj Hok eq_refl)) as Hd1. rewrite E in Hd1. destruct Hd1 as [Hok1 Hdom].
  assert (is_Some (analyses d1 !! i)) as [a1 Ha1] by (apply elem_of_dom; rewrite Hdom; apply elem_of_dom; eauto).
  destruct (handle_task_failure_total run i u tb r d1 a1) as (d' & a & F & Hrun & Hrow & Hst & Hfin & HF & Htext);
    [done|done|by rewrite Hus|].
  exists d', a, F. split_and!; [|done|done|by rewrite Hfin, Hn|done|done].
  unfold with_handler, try_except. rewrite E. unfold mbind, M_bind. by rewrite Hrun.
Qed.

Lemma with_handler_ok run i u tb r (m : M Db unit) d d1 :
  m d = (Ok tt, d1) → with_handler run i u tb r m d = (Ok tt, d1).
Proof. intros E. unfold with_handler, try_except. by rewrite E. Qed.

(** C38: However many messages of the v1 workers arrive, in any order, no analysis is
    deleted: the files of the earlier outputs are deleted only when no row cascades
    from them any more, and afterwards every reference is to a file that exists. *)
Theorem results_keep_analyses ms d :
  db_ok d →
  dom (analyses (deliver_all remote text_of json_of ms d)) = dom (analyses d)
  ∧ db_ok (deliver_all remote text_of json_of ms d).
Proof. intros Hok. by destruct (deliver_all_safe remote text_of json_of (dom (analyses d)) ms d) as [H1 H2]. Qed.

(** A run of a v1 worker always ends: after its result was handled the analysis is
    RUN_COMPLETED, with its output file, exactly when the task did not raise and the
    return code is zero, and RUN_ERROR otherwise; if the task raised, a file with
    the traceback is stored. *)
Theorem run_result_recorded res i u tb r d a0 :
  db_ok d → analyses d !! i = Some a0 → u ∈ users d →
  ∃ out d' a, deliver remote text_of json_of (RunResult res i u tb r) d = (out, d') ∧ analyses d' !! i = Some a
    ∧ task_finished a = Some (now d)
    ∧ status a = (if is_ok out && run_succeeded res then RUN_COMPLETED else RUN_ERROR)
    ∧ (status a = RUN_COMPLETED → is_Some (output_file a))
    ∧ (is_ok out = false →
       ∃ F, run_traceback_file a = Some F ∧ files d' !! file_pk F = Some (worker_monitor_error tb)).
Proof.
  intros Hok Ha Hu. cbn [deliver].
  destruct (record_run_analysis_result remote text_of json_of res i u d) as [[[]|e] d1] eqn:E.
  - rewrite (with_handler_ok _ _ _ _ _ _ _ _ E). destruct (record_run_ok _ _ _ _ _ _ _ _ E) as (a & Hrow & Hfin & Hst & Hout & _).
    exists (Ok tt), d1, a. split_and!; try done. rewrite Hst. by destruct (run_succeeded res); [auto|].
  - destruct (with_handler_raised true i u tb r _ d a0 e d1 (λ D, record_run_analysis_result_safe remote text_of json_of D res i u)
      (λ U T, record_run_world U T res i u) Hok Ha Hu E) as (d' & a & F & -> & Hrow & Hst & Hfin & HF & Ht).
    exists (Raise e), d', a. split_and!; try done; [by rewrite Hst|eauto].
Qed.

(** A generation of inputs by a v1 worker always ends: after its result was handled
    the analysis is READY exactly when the task did not raise and the return code is
    zero; an analysis without keys stays so; otherwise it has failed, with the
    traceback in a file if the task raised. A result that was stored leaves no
    output, log or traceback of an earlier run. *)
Theorem generate_result_recorded res i u tb r d a0 :
  db_ok d → analyses d !! i = Some a0 → u ∈ users d →
  ∃ out d' a, deliver remote text_of json_of (GenerateResult res i u tb r) d = (out, d') ∧ analyses d' !! i = Some a
    ∧ task_finished a = Some (now d)
    ∧ status a = (if negb (is_ok out) then INPUTS_GENERATION_ERROR
                  else if generation_succeeded res then READY
                  else if decide (status a0 = INPUTS_GENERATION_NO_KEYS) then INPUTS_GENERATION_NO_KEYS
                  else INPUTS_GENERATION_ERROR)
    ∧ (if is_ok out then output_file a = None ∧ run_log_file a = None ∧ run_traceback_file a = None
       else ∃ F, input_generation_traceback_file a = Some F ∧ files d' !! file_pk F = Some (worker_monitor_error tb)).
Proof.
  intros Hok Ha Hu. cbn [deliver].
  destruct (record_generate_input_result remote text_of json_of res i u d) as [[[]|e] d1] eqn:E.
  - rewrite (with_handler_ok _ _ _ _ _ _ _ _ E).
    destruct (record_generate_ok _ _ _ _ _ _ _ _ E) as (a1 & a & Ha1 & Hrow & Hfin & Hst & Ho).
    rewrite Ha in Ha1. injection Ha1 as <-. by exists (Ok tt), d1, a.
  - destruct (with_handler_raised false i u tb r _ d a0 e d1
      (λ D, record_generate_input_result_safe remote text_of json_of D res i u)
      (λ U T, record_generate_world U T res i u) Hok Ha Hu E) as (d' & a & F & -> & Hrow & Hst & Hfin & HF & Ht).
    exists (Raise e), d', a. cbn. split_and!; try done. by exists F.
Qed.
End recorded.

(** ** A concrete state *)

Definition stored_at (k : Z) : option RelatedFile :=
  Some {| file_pk := k; file_link := "f"; file_name := "f"; file_json := Ok (JObj []) |}.
(** Started again after a run that left an output, a log and a traceback; the
    second analysis has inputs only. *)
Definition restarted : Analysis :=
  ready <| status := RUN_STARTED |> <| output_file := stored_at 5 |> <| run_log_file := stored_at 6 |>
    <| run_traceback_file := stored_at 6 |>.
Definition other_analysis : Analysis :=
  new_analysis "other" with_locations <| status := INPUTS_GENERATION_NO_KEYS |> <| input_file := stored_at 7 |>.
Definition stored_files : gmap Z string := list_to_map ((λ k, (k, "text"%string)) <$> [3; 4; 5; 6; 7]).
Definition two_analyses : Db := {|
  analyses := <[1 := restarted]> {[2 := other_analysis]};
  files := stored_files;
  next_file := 8; users := {[7]}; now := 100 |}.

Lemma two_analyses_lookup i a :
  analyses two_analyses !! i = Some a → i = 1 ∧ a = restarted ∨ i = 2 ∧ a = other_analysis.
Proof. cbn. rewrite lookup_insert_Some, lookup_singleton_Some. intuition congruence. Qed.

Lemma two_analyses_ok : db_ok two_analyses.
Proof.
  split.
  - intros i a f F [[-> ->]|[-> ->]]%two_analyses_lookup; destruct f; intros [= <-]; vm_compute; eauto.
  - intros k [x Hx]. change (stored_files !! k = Some x) in Hx. unfold stored_files in Hx.
    apply elem_of_list_to_map_2 in Hx. cbn in Hx. set_unfold in Hx. cbn. intuition (simplify_eq; lia).
  - intros i j a b f g F G [[-> ->]|[-> ->]]%two_analyses_lookup [[-> ->]|[-> ->]]%two_analyses_lookup;
      destruct f; intros [= <-]; destruct g; intros [= <-]; cbn; intros; try done; split; done.
Qed.

Definition local_run : json := JList [JStr "out.tar.gz"; JNull; JStr "logs.tar.gz"; JInt 0].
(** The output of a failed run is no reference. *)
Definition broken_run : json := JList [JNull; JNull; JStr "logs.tar.gz"; JInt 0].
Definition failed_generation : json :=
  JList [JStr "inputs.tar.gz"; JStr "errors.csv"; JStr "map.csv"; JNull; JNull; JStr "trace.txt"; JInt 1].

Definition nowhere (r : json) (n : string) : option (result string) := None.
Definition text_at (n : string) : string := "text of " +:+ n.
Definition json_at (n : string) : result json := Ok (JObj []).

Lemma results_keep_analyses_witness :
  dom (analyses (deliver_all nowhere text_at json_at
    [RunResult local_run 1 7 "trace" "9f"; GenerateResult failed_generation 2 7 "trace" "9e"; RunFailure 1 7 "trace"] two_analyses))
  = {[1; 2]}.
Proof.
  rewrite (proj1 (results_keep_analyses nowhere text_at json_at _ two_analyses two_analyses_ok)). vm_compute. reflexivity.
Defined.

Lemma run_result_recorded_witness :
  (∃ out d' a, deliver nowhere text_at json_at (RunResult local_run 1 7 "trace" "9f") two_analyses = (out, d')
    ∧ analyses d' !! 1 = Some a ∧ status a = RUN_COMPLETED)
  ∧ ∃ out d' a, deliver nowhere text_at json_at (RunResult broken_run 1 7 "trace" "9f") two_analyses = (out, d')
    ∧ analyses d' !! 1 = Some a ∧ status a = RUN_ERROR.
Proof.
  split.
  - destruct (run_result_recorded nowhere text_at json_at local_run 1 7 "trace" "9f" two_analyses restarted two_analyses_ok)
      as (out & d' & a & E & Ha & _ & Hs & _); [reflexivity|set_solver|].
    exists out, d', a. split; [exact E|split; [exact Ha|]]. rewrite Hs.
    assert (out = Ok tt) as ->; [|reflexivity]. transitivity (deliver nowhere text_at json_at (RunResult local_run 1 7 "trace" "9f") two_analyses).1;
      [by rewrite E|vm_compute; reflexivity].
  - destruct (run_result_recorded nowhere text_at json_at broken_run 1 7 "trace" "9f" two_analyses restarted two_analyses_ok)
      as (out & d' & a & E & Ha & _ & Hs & _); [reflexivity|set_solver|].
    exists out, d', a. split; [exact E|split; [exact Ha|]]. rewrite Hs.
    assert (out = Raise TypeError) as ->; [|reflexivity]. transitivity (deliver nowhere text_at json_at (RunResult broken_run 1 7 "trace" "9f") two_analyses).1;
      [by rewrite E|vm_compute; reflexivity].
Defined.

Lemma generate_result_recorded_witness :
  ∃ out d' a, deliver nowhere text_at json_at (GenerateResult failed_generation 2 7 "trace" "9f") two_analyses = (out, d')
    ∧ analyses d' !! 2 = Some a ∧ status a = INPUTS_GENERATION_NO_KEYS.
Proof.
  destruct (generate_result_recorded nowhere text_at json_at failed_generation 2 7 "trace" "9f" two_analyses other_analysis two_analyses_ok)
    as (out & d' & a & E & Ha & _ & Hs & _); [reflexivity|set_solver|].
  exists out, d', a. split; [exact E|split; [exact Ha|]]. rewrite Hs.
  assert (out = Ok tt) as ->; [|reflexivity].
  transitivity (deliver nowhere text_at json_at (GenerateResult failed_generation 2 7 "trace" "9f") two_analyses).1;
    [by rewrite E|vm_compute; reflexivity].
Defined.

(** The status report of a v1 worker does not look at a cancellation, as that of a
    v2 worker does: one that arrives late starts the analysis again. *)
Example late_status_undoes_cancellation :
  let d := two_analyses <| analyses := <[1 := restarted <| status := RUN_CANCELLED |>]> (analyses two_analyses) |> in
  status <$> analyses (exec (deliver nowhere text_at json_at (TaskStatus 1 RUN_STARTED)) d) !! 1 = Some RUN_STARTED.
Proof. vm_compute. reflexivity. Qed.
