(* ===== verification/IniConf.v ===== *)
(** * The configuration

    src/conf/iniconf.py, class [Settings]: the options of the configuration file, which the
    variables of the environment override, first those of a section, then those for every
    section. The parser is the one of the standard library, [configparser.ConfigParser];
    what the source uses of it is written out: the order of the places an option is looked
    for in, and references to other options, [%(name)s]. Reading the file itself and the set
    up of the log are not modelled, nor is the patcher that the tests use. *)

From S2P Require Import Prelude PyData.
Local Open Scope Z_scope.

(** ** The parser *)

(** Dicts keep the order in which their keys were set. *)
Definition dict : Type := list (string * string).
Fixpoint dict_set {A} (k : string) (v : A) (d : list (string * A)) : list (string * A) :=
  match d with [] => [(k, v)] | (k', w) :: d => if String.eqb k k' then (k, v) :: d else (k', w) :: dict_set k v d end.
Definition update {A} (d e : list (string * A)) : list (string * A) := foldl (λ d kv, dict_set kv.1 kv.2 d) d e.

(** The sections of the file, their options in lower case, and the default section. *)
Record config := { _sections : list (string * dict); _defaults : dict }.
Definition default_section : string := "default".
Definition NoSectionError : exn := OtherError "NoSectionError".
Definition NoOptionError : exn := OtherError "NoOptionError".
Definition InterpolationSyntaxError : exn := OtherError "InterpolationSyntaxError".
Definition InterpolationDepthError : exn := OtherError "InterpolationDepthError".
Definition InterpolationMissingOptionError : exn := OtherError "InterpolationMissingOptionError".

(** [_unify_values]: where options are looked for. *)
Definition section_dict (p : config) (section : string) : result dict :=
  match assoc section (_sections p) with
  | Some d => Ok d
  | None => if String.eqb section default_section then Ok [] else Raise NoSectionError
  end.
Definition first_of {A} (x y : option A) : option A := match x with Some _ => x | None => y end.
Definition _unify_values (p : config) (section : string) (vars : dict) : result (string → option string) :=
  sectiondict ← section_dict p section;
  let vardict := update [] ((λ kv, (lower kv.1, kv.2)) <$> vars) in
  Ok (λ o, first_of (assoc o vardict) (first_of (assoc o sectiondict) (assoc o (_defaults p)))).

(** [BasicInterpolation]: one pass over a value, which looks the names up with [value]. *)
Inductive place := Text | Percent | Name (n : string) | Close (n : string).
Fixpoint references (value : string → result string) (at_ : place) (s : string) : result string :=
  match s with
  | EmptyString => match at_ with Text => Ok EmptyString | _ => Raise InterpolationSyntaxError end
  | String c t =>
      match at_ with
      | Text => if bool_decide (c = "%"%char) then references value Percent t else String c <$> references value Text t
      | Percent =>
          if bool_decide (c = "%"%char) then String c <$> references value Text t
          else if bool_decide (c = "("%char) then references value (Name EmptyString) t else Raise InterpolationSyntaxError
      | Name n =>
          if bool_decide (c = ")"%char) then match n with EmptyString => Raise InterpolationSyntaxError | _ => references value (Close n) t end
          else references value (Name (n +:+ String c EmptyString)) t
      | Close n => if bool_decide (c = "s"%char) then v ← value n; append v <$> references value Text t else Raise InterpolationSyntaxError
      end
  end.
(** [_interpolate_some]; [depth] levels are left. *)
Definition MAX_INTERPOLATION_DEPTH : nat := 10.
Fixpoint _interpolate_some (map : string → option string) (depth : nat) (rest : string) : result string :=
  match depth with
  | O => Raise InterpolationDepthError
  | S depth => references (λ n,
      match map (lower n) with
      | None => Raise InterpolationMissingOptionError
      | Some v => if has_char "%" v then _interpolate_some map depth v else Ok v
      end) Text rest
  end.

(** The sections that the source relies on are added when the file has them not. *)
Definition required_sections : list string := ["celery"; "server"; "worker"; "worker.model_data"; "worker.default_reader_engine_options"]%string.
Definition has_section (p : config) (section : string) : bool := match assoc section (_sections p) with Some _ => true | None => false end.
Definition init (file : config) : config :=
  foldl (λ p sec, if has_section p sec then p else {| _sections := _sections p ++ [(sec, [])]; _defaults := _defaults p |}) file required_sections.

Section parser.
Context (p : config).
(** [ConfigParser.get]. *)
Definition parser_get (vars : dict) (section opt : string) (fallback : option json) : result json :=
  let missing e := match fallback with Some j => Ok j | None => Raise e end in
  match _unify_values p section vars with
  | Raise e => missing e
  | Ok d => match d (lower opt) with
            | None => missing NoOptionError
            | Some v => JStr <$> _interpolate_some d MAX_INTERPOLATION_DEPTH v
            end
  end.

(** ** [Settings] *)

(** [os.environ], and whether the variables for every section count. *)
Context (environ : dict) (global_env : bool).
(** [k.replace(prefix, '')]: every occurrence is removed. *)
Fixpoint erase (prefix : string) (skip : nat) (s : string) : string :=
  match s with
  | EmptyString => EmptyString
  | String c t =>
      match skip with
      | S n => erase prefix n t
      | O => if String.prefix prefix s then erase prefix (String.length prefix - 1) t else String c (erase prefix 0 t)
      end
  end.
Definition _section_to_env_prefix (section : string) : string := upper (join "_" (split_on "." section)).
Definition section_env_prefix (section : string) : string := "OASIS_" +:+ _section_to_env_prefix section +:+ "_".
Definition from_env (prefix : string) : dict :=
  (λ kv, (erase prefix 0 kv.1, kv.2)) <$> List.filter (λ kv, String.prefix prefix kv.1) environ.
(** The items of the [ChainMap]: the keys of the last dict come first, the values of the
    first dict count. *)
Definition _get_section_env_vars (section : string) : dict :=
  let section_env_prefix := section_env_prefix section in
  let global_env_prefix := if global_env then "OASIS_"%string else section_env_prefix in
  update (update [] (from_env global_env_prefix)) (update [] (from_env section_env_prefix)).

(** [get] of one option. *)
Definition get (section opt : string) (fallback : option json) : result json :=
  parser_get (_get_section_env_vars section) section opt fallback.
(** [get] without an option: all of a section. *)
Definition options (section : string) : list string :=
  match assoc section (_sections p) with Some d => (update d (_defaults p)).*1 | None => (_defaults p).*1 end.
Definition items (section : string) : result (list (string * json)) :=
  mapM (λ o, pair o <$> get section o None) (options section).
Definition get_all (section : string) : result (list (string * json)) :=
  res ← (if has_section p section || String.eqb section default_section then items section else Ok []);
  Ok (update res ((λ kv, (lower kv.1, JStr kv.2)) <$> from_env (section_env_prefix section))).

(** [getint] and [getboolean]: only options that are missing fall back. *)
Definition converted {A} (conv : string → result A) (section opt : string) (fallback : option A) : result A :=
  match v ← get section opt None; match v with JStr s => conv s | _ => Raise TypeError end with
  | Ok a => Ok a
  | Raise e => match e, fallback with
               | OtherError "NoSectionError", Some a | OtherError "NoOptionError", Some a => Ok a
               | _, _ => Raise e
               end
  end.
Definition getint : string → string → option Z → result Z :=
  converted (λ s, match int_of_string s with Some n => Ok n | None => Raise (ValueError "invalid literal for int() with base 10") end).
Definition BOOLEAN_STATES : list (string * bool) :=
  [("1", true); ("yes", true); ("true", true); ("on", true); ("0", false); ("no", false); ("false", false); ("off", false)]%string.
Definition getboolean : string → string → option bool → result bool :=
  converted (λ s, match assoc (lower s) BOOLEAN_STATES with Some b => Ok b | None => Raise (ValueError "Not a boolean") end).

(** [timedelta], in microseconds. *)
Definition units : list (string * Z) :=
  [("days", 86400000000); ("seconds", 1000000); ("microseconds", 1); ("milliseconds", 1000); ("minutes", 60000000); ("hours", 3600000000); ("weeks", 604800000000)]%string.
Definition total (kwargs : list (string * Z)) : result Z :=
  foldr (λ kn acc, t ← acc; match assoc kn.1 units with Some u => Ok (t + u * kn.2) | None => Raise TypeError end) (Ok 0) kwargs.
Definition timedelta (kwargs : list (string * Z)) : result Z :=
  t ← total kwargs;
  if (-999999999 * 86400000000 <=? t) && (t <? 1000000000 * 86400000000) then Ok t else Raise (OtherError "OverflowError").
(** The keyword arguments in a text such as [days=1, hours=2]. *)
Definition kwarg (d : list (string * Z)) (k : string) : result (list (string * Z)) :=
  match split_on "=" k with
  | name :: number :: _ => match int_of_string number with
                           | Some n => Ok (dict_set (strip name) n d)
                           | None => Raise (ValueError "invalid literal for int() with base 10")
                           end
  | _ => Raise IndexError
  end.
Definition kwargs_of (s : string) : result (list (string * Z)) := foldl (λ acc k, d ← acc; kwarg d k) (Ok []) (split_on "," s).
Definition kwargs_of_value (j : json) : result (list (string * Z)) := match j with JStr s => kwargs_of s | _ => Raise AttributeError end.
Definition get_timedelta (section opt : string) (fallback : option json) : result Z :=
  kwargs_string ← get section opt fallback;
  kwargs ← match kwargs_of_value kwargs_string with
           | Raise TypeError | Raise IndexError => match fallback with Some j => kwargs_of_value j | None => Raise (KeyError "fallback") end
           | r => r
           end;
  timedelta kwargs.
End parser.

(** ** Where an option comes from *)

Lemma first_of_none {A} (x : option A) : first_of x None = x.
Proof. by destruct x. Qed.
Lemma first_of_assoc {A} (x y z : option A) : first_of (first_of x y) z = first_of x (first_of y z).
Proof. by destruct x. Qed.
Lemma assoc_app {A} k (d e : list (string * A)) : assoc k (d ++ e) = first_of (assoc k d) (assoc k e).
Proof. induction d as [|[k' v] d IH]; [done|]. cbn. by destruct (String.eqb k k'). Qed.
Lemma assoc_in {A} k (v : A) d : assoc k d = Some v → (k, v) ∈ d.
Proof. induction d as [|[k' w] d IH]; [done|]. cbn. destruct (String.eqb_spec k k') as [->|]; [intros [= ->]; left|right; by apply IH]. Qed.
Lemma assoc_none {A} k (d : list (string * A)) : assoc k d = None ↔ k ∉ d.*1.
Proof.
  induction d as [|[k' w] d IH]; cbn; [split; [intros _; apply not_elem_of_nil|done]|].
  rewrite not_elem_of_cons. destruct (String.eqb_spec k k') as [->|]; [naive_solver|]. rewrite IH. naive_solver.
Qed.
(** Without a key that occurs twice the order does not matter. *)
Lemma assoc_reverse {A} k (d : list (string * A)) : NoDup d.*1 → assoc k (reverse d) = assoc k d.
Proof.
  induction d as [|[k' v] d IH]; [done|]. rewrite reverse_cons, assoc_app, fmap_cons. intros [Hn Hd]%NoDup_cons. rewrite IH by done. cbn.
  destruct (String.eqb_spec k k') as [->|]; [|by rewrite first_of_none]. by rewrite (proj2 (assoc_none k' d) Hn).
Qed.
Lemma assoc_map {A} (f : string → string) j k0 (d : list (string * A)) :
  (∀ k v, (k, v) ∈ d → f k = j ↔ k = k0) → assoc j ((λ kv, (f kv.1, kv.2)) <$> d) = assoc k0 d.
Proof.
  induction d as [|[k v] d IH]; [done|]. intros H. cbn. rewrite IH by (intros ? ? ?; eapply H; by right).
  specialize (H k v ltac:(left)). destruct (String.eqb_spec j (f k)), (String.eqb_spec k0 k); naive_solver.
Qed.
Lemma assoc_set {A} k k' (v : A) d : assoc k (dict_set k' v d) = if String.eqb k k' then Some v else assoc k d.
Proof.
  induction d as [|[k1 w] d IH]; cbn; [done|]. destruct (String.eqb_spec k' k1) as [->|]; cbn; [by destruct (String.eqb k k1)|].
  rewrite IH. destruct (String.eqb_spec k k1) as [->|]; [|done]. destruct (String.eqb_spec k1 k'); [congruence|done].
Qed.
Lemma assoc_update {A} k (d e : list (string * A)) : assoc k (update d e) = first_of (assoc k (reverse e)) (assoc k d).
Proof.
  revert d. induction e as [|[k' v] e IH]; intros d; [done|]. unfold update in *. cbn [foldl]. rewrite IH, reverse_cons, assoc_app, assoc_set. cbn [fst snd assoc].
  destruct (assoc k (reverse e)); [done|]. cbn. by destruct (String.eqb k k').
Qed.
Lemma assoc_built {A} k (e : list (string * A)) : assoc k (update [] e) = assoc k (reverse e).
Proof. rewrite assoc_update. apply first_of_none. Qed.
Lemma set_keys {A} k (v : A) d x : x ∈ (dict_set k v d).*1 ↔ x = k ∨ x ∈ d.*1.
Proof.
  induction d as [|[k' w] d IH]; cbn; [rewrite list_elem_of_singleton; pose proof (not_elem_of_nil x); tauto|].
  destruct (String.eqb_spec k k') as [->|]; cbn; rewrite !elem_of_cons; [tauto|]. rewrite IH. tauto.
Qed.
Lemma update_keys {A} (d e : list (string * A)) : NoDup d.*1 → NoDup (update d e).*1.
Proof.
  assert (∀ k (v : A) d, NoDup d.*1 → NoDup (dict_set k v d).*1) as Hset.
  { intros k v d0. induction d0 as [|[k' w] d0 IH]; cbn; [intros _; apply NoDup_singleton|]. intros [Hn Hd]%NoDup_cons.
    destruct (String.eqb_spec k k') as [->|]; cbn; constructor; auto. rewrite set_keys. naive_solver. }
  revert d. induction e as [|[k v] e IH]; intros d Hd; [done|]. unfold update in *. cbn. by apply IH, Hset.
Qed.
(** The keys of an updated dict are those of either. *)
Lemma update_in {A} (d e : list (string * A)) x : x ∈ (update d e).*1 → x ∈ d.*1 ∨ x ∈ e.*1.
Proof.
  revert d. induction e as [|[k v] e IH]; intros d H; [by left|]. unfold update in *. cbn in H. apply IH in H as [H|H]; cbn; rewrite elem_of_cons; [|tauto].
  apply set_keys in H. tauto.
Qed.

(** Every required section exists, and those of the file are as they were. *)
Lemma init_sections file section :
  assoc section (_sections (init file)) = first_of (assoc section (_sections file)) (if bool_decide (section ∈ required_sections) then Some [] else None).
Proof.
  unfold init. generalize required_sections. intros l. revert file. induction l as [|sec l IH]; intros file; cbn [foldl]; [symmetry; apply first_of_none|].
  rewrite IH. unfold has_section. destruct (assoc sec (_sections file)) eqn:E.
  - destruct (decide (section = sec)) as [->|Hn]; [by rewrite E|]. f_equal. by rewrite (bool_decide_ext (section ∈ sec :: l) (section ∈ l)) by (rewrite elem_of_cons; tauto).
  - cbn [_sections]. rewrite assoc_app, first_of_assoc. f_equal. cbn. destruct (String.eqb_spec section sec) as [->|Hn]; cbn.
    + by rewrite bool_decide_eq_true_2 by left.
    + by rewrite (bool_decide_ext (section ∈ sec :: l) (section ∈ l)) by (rewrite elem_of_cons; tauto).
Qed.

(** *** Names of variables *)

Lemma prefix_spec p s : String.prefix p s = true ↔ ∃ r, s = p +:+ r.
Proof.
  revert s. induction p as [|c p IH]; intros s; cbn.
  - split; [|by destruct s]. intros _. by exists s.
  - destruct s as [|c' s]; [split; [done|]; by intros [? [=]]|].
    change (String.prefix (String c p) (String c' s)) with (if ascii_dec c c' then String.prefix p s else false).
    destruct (ascii_dec c c') as [->|].
    + rewrite IH. split; intros [r H]; exists r; [by rewrite H|by injection H as ->].
    + split; [done|]. intros [r H]. by injection H as -> _.
Qed.
Fixpoint occurs (p s : string) : bool := String.prefix p s || match s with EmptyString => false | String _ t => occurs p t end.
Lemma erase_none p s : occurs p s = false → erase p 0 s = s.
Proof. induction s as [|c s IH]; [done|]. cbn [occurs erase]. intros [-> H]%orb_false_iff. by rewrite IH. Qed.
Lemma erase_skip p a r : erase p (String.length a) (a +:+ r) = erase p 0 r.
Proof. induction a as [|c a IH]; [done|]. cbn. apply IH. Qed.
Lemma erase_prefix p r : p ≠ EmptyString → occurs p r = false → erase p 0 (p +:+ r) = r.
Proof.
  destruct p as [|c p]; [done|]. intros _ Hr. cbn -[String.prefix]. rewrite (proj2 (prefix_spec _ _)) by (by exists r). cbn.
  rewrite Nat.sub_0_r, erase_skip. by apply erase_none.
Qed.
Lemma upper_lower s : upper (lower s) = upper s.
Proof. unfold upper, lower. induction s as [|c s IH]; [done|]. cbn. rewrite IH. f_equal. by destruct c as [[] [] [] [] [] [] [] []]. Qed.
Lemma lower_upper s : lower (upper s) = lower s.
Proof. unfold upper, lower. induction s as [|c s IH]; [done|]. cbn. rewrite IH. f_equal. by destruct c as [[] [] [] [] [] [] [] []]. Qed.


(** *** Names that differ in case *)

(** The entries for one name in lower case, and what the last of them says. *)
Definition lowered (d : dict) : dict := (λ kv, (lower kv.1, kv.2)) <$> d.
Definition entries (o : string) (d : dict) : dict := List.filter (λ kv, String.eqb (lower kv.1) o) d.
Lemma entries_set o k v d : entries o (dict_set k v d) = if String.eqb (lower k) o then dict_set k v (entries o d) else entries o d.
Proof.
  unfold entries in *. induction d as [|[k' w] d IH]; cbn; [by destruct (String.eqb (lower k) o)|]. destruct (String.eqb_spec k k') as [->|Hk]; cbn.
  - destruct (String.eqb (lower k') o) eqn:E; [|done]. cbn. by rewrite String.eqb_refl.
  - rewrite IH. destruct (String.eqb (lower k') o), (String.eqb (lower k) o); try done. cbn. by destruct (String.eqb_spec k k').
Qed.
Lemma entries_update o d e : entries o (update d e) = update (entries o d) (entries o e).
Proof.
  revert d. induction e as [|[k v] e IH]; intros d; [done|]. unfold update in *. cbn [foldl fst snd]. rewrite IH, entries_set. cbn. by destruct (String.eqb (lower k) o).
Qed.
Lemma last_entry o d : assoc o (reverse (lowered d)) = snd <$> last (entries o d).
Proof.
  induction d as [|[k v] d IH] using rev_ind; [done|]. unfold lowered, entries in *. rewrite fmap_app, reverse_app, List.filter_app. cbn.
  rewrite (String.eqb_sym o). destruct (String.eqb (lower k) o); [by rewrite last_snoc|]. by rewrite app_nil_r.
Qed.
Lemma one_entry o d : NoDup (lowered d).*1 → entries o d = [] ∨ ∃ kv, entries o d = [kv].
Proof.
  induction d as [|[k v] d IH]; [by left|]. cbn. intros [Hn Hd]%NoDup_cons. destruct (String.eqb_spec (lower k) o) as [<-|]; [|by apply IH].
  right. exists (k, v). f_equal. destruct (entries (lower k) d) as [|[k' w] l] eqn:E; [done|]. exfalso. apply Hn.
  assert ((k', w) ∈ entries (lower k) d) as H by (rewrite E; left). apply list_elem_of_In, filter_In in H as [H <-%String.eqb_eq].
  apply list_elem_of_In in H. apply list_elem_of_fmap. exists (lower k', w). split; [done|]. apply list_elem_of_fmap. by exists (k', w).
Qed.
Lemma update_same d : NoDup (lowered d).*1 → ∀ o, entries o (update [] d) = entries o d.
Proof. intros Hd o. rewrite entries_update. by destruct (one_entry o d Hd) as [->|[[k v] ->]]. Qed.
(** Two dicts without such names, the second over the first: the second comes first. *)
Lemma chained o d e : NoDup (lowered d).*1 → NoDup (lowered e).*1 →
  assoc o (update [] (lowered (update (update [] d) (update [] e)))) = first_of (assoc o (lowered e)) (assoc o (lowered d)).
Proof.
  intros Hd He. rewrite assoc_built, last_entry, entries_update, !update_same by done. rewrite <- (assoc_reverse o (lowered e)), <- (assoc_reverse o (lowered d)), !last_entry by done.
  destruct (one_entry o d Hd) as [->|[[k v] ->]], (one_entry o e He) as [->|[[k' w] ->]]; [done..|]. cbn. by destruct (String.eqb k' k).
Qed.

(** *** The order of the places *)

Section order.
Context (p : config) (environ : dict) (global_env : bool) (section : string).
(** No two of the variables that start with a prefix have, without it, names that differ in
    case only. *)
Definition distinct (prefix : string) : Prop := NoDup (lowered (from_env environ prefix)).*1.
Context (Hown : distinct (section_env_prefix section)) (Hall : global_env = true → distinct "OASIS_").

(** What the variables with a prefix say of an option, in any case. *)
Definition variable (prefix opt : string) : option string := assoc (lower opt) (lowered (from_env environ prefix)).
Definition env_value (opt : string) : option string :=
  first_of (variable (section_env_prefix section) opt) (if global_env then variable "OASIS_" opt else None).
(** An option is looked for in the variables of the section, in those for every section
    where they count, in the section and in the default section. *)
Definition source (d : dict) (opt : string) : option string :=
  first_of (env_value opt) (first_of (assoc (lower opt) d) (assoc (lower opt) (_defaults p))).

Abbreviation vars := (_get_section_env_vars environ global_env).
Lemma vars_value opt : assoc (lower opt) (update [] (lowered (vars section))) = env_value opt.
Proof.
  unfold _get_section_env_vars, env_value, variable. destruct global_env; rewrite chained by (exact Hown || exact (Hall eq_refl)); [done|]. cbv zeta. by destruct (assoc (lower opt) (lowered (from_env environ (section_env_prefix section)))).
Qed.
Lemma unify_source d :
  section_dict p section = Ok d → ∃ f, _unify_values p section (vars section) = Ok f ∧ ∀ opt, f (lower opt) = source d opt.
Proof.
  intros Hd. unfold _unify_values. rewrite Hd. eexists. split; [done|]. intros opt. cbn beta. unfold source. f_equal. apply vars_value.
Qed.

Lemma references_ext f g at_ s : (∀ n, f n = g n) → references f at_ s = references g at_ s.
Proof.
  intros H. revert at_. induction s as [|c s IH]; intros at_; [done|]. cbn. by destruct at_; repeat case_bool_decide; rewrite ?IH, ?H.
Qed.
Lemma interpolate_ext f g depth s : (∀ n, f (lower n) = g (lower n)) → _interpolate_some f depth s = _interpolate_some g depth s.
Proof. intros H. revert s. induction depth as [|depth IH]; intros s; [done|]. cbn. apply references_ext. intros n. rewrite H. destruct (g _); [|done]. by rewrite IH. Qed.
Lemma source_lower d opt : source d (lower opt) = source d opt.
Proof. unfold source, env_value, variable. by rewrite lower_idemp. Qed.

(** The value of an option. *)
Lemma value_of opt fallback :
  get p environ global_env section opt fallback =
    match section_dict p section with
    | Raise e => match fallback with Some j => Ok j | None => Raise e end
    | Ok d => match source d opt with
              | None => match fallback with Some j => Ok j | None => Raise NoOptionError end
              | Some v => JStr <$> _interpolate_some (source d) 10 v
              end
    end.
Proof.
  unfold get, parser_get. destruct (section_dict p section) as [d|e] eqn:Hd; [|unfold _unify_values; by rewrite Hd].
  destruct (unify_source d Hd) as (f & -> & Hf). rewrite Hf. destruct (source d opt) as [v|]; [|done]. f_equal.
  apply interpolate_ext. intros n. by rewrite Hf, source_lower.
Qed.
(** C9: Where an option comes from. If no two variables of the environment that start with
    the prefix of the section, or with OASIS_ where these count, have without it names
    that differ in case only, then an option of a section of the file has the value
    of the variable for that section, or else, where those count, of the variable
    for every section, or else of the section of the file, or else of its default
    section, in this order and whatever the case of its letters in any of them; the references
    in it are looked for in the same places, at most ten levels deep. The fallback is
    used exactly when the option is in none of them, or when the file has no such
    section. *)
Theorem setting_source opt fallback :
  get p environ global_env section opt fallback =
    let missing e := match fallback with Some j => Ok j | None => Raise e end in
    match section_dict p section with
    | Raise e => missing e
    | Ok d => match source d opt with
              | None => missing NoOptionError
              | Some v => JStr <$> _interpolate_some (source d) 10 v
              end
    end.
Proof. apply value_of. Qed.
End order.

(** ** Percent signs *)

Fixpoint escape (s : string) : string :=
  match s with
  | EmptyString => EmptyString
  | String c t => if bool_decide (c = "%"%char) then String c (String c (escape t)) else String c (escape t)
  end.
Lemma references_escaped f v : references f Text (escape v) = Ok v.
Proof.
  induction v as [|c v IH]; [done|]. cbn. case_bool_decide as E; cbn; [rewrite !(bool_decide_eq_true_2 _ E)|rewrite (bool_decide_eq_false_2 _ E)];
    by rewrite IH.
Qed.
Lemma references_lone f a c b : has_char "%" a = false → c ∉ ["%"; "("]%char → references f Text (a +:+ String "%" (String c b)) = Raise InterpolationSyntaxError.
Proof.
  intros Ha Hc. induction a as [|x a IH]; cbn.
  - rewrite (bool_decide_eq_false_2 (c = "%"%char)) by (intros ->; apply Hc; left).
    by rewrite (bool_decide_eq_false_2 (c = "("%char)) by (intros ->; apply Hc; right; left).
  - cbn in Ha. apply orb_false_iff in Ha as [Hx Ha]. by rewrite Hx, IH.
Qed.

Section values.
Context (p : config) (environ : dict) (global_env : bool) (section : string) (d : dict).
Context (Hown : distinct environ (section_env_prefix section)) (Hall : global_env = true → distinct environ "OASIS_").
Context (Hd : section_dict p section = Ok d).
(** The variable of the environment for an option of the section. *)
Definition set_to (opt v : string) : Prop :=
  ∃ name, (section_env_prefix section +:+ name, v) ∈ environ ∧ lower name = lower opt ∧ occurs (section_env_prefix section) name = false.

Lemma set_variable opt v : set_to opt v → source p environ global_env section d opt = Some v.
Proof.
  intros (name & Hin & Hn & Ho). unfold source, env_value, variable. enough (assoc (lower opt) (lowered (from_env environ (section_env_prefix section))) = Some v) as -> by done.
  assert ((name, v) ∈ from_env environ (section_env_prefix section)) as H.
  { apply list_elem_of_fmap. exists (section_env_prefix section +:+ name, v). cbn [fst snd]. split; [by rewrite erase_prefix|].
    apply list_elem_of_In, filter_In. split; [by apply list_elem_of_In|]. apply prefix_spec. eauto. }
  unfold distinct in Hown. rewrite <- Hn. clear -Hown H. induction (from_env _ _) as [|[k w] l IH]; [by apply elem_of_nil in H|]. cbn in Hown |- *. apply NoDup_cons in Hown as [Hk Hl].
  apply elem_of_cons in H as [[= <- <-]|H]; [by rewrite String.eqb_refl|]. destruct (String.eqb_spec (lower name) (lower k)) as [E|_]; [|by apply IH].
  exfalso. apply Hk. rewrite <- E. apply list_elem_of_fmap. exists (lower name, v). split; [done|]. apply list_elem_of_fmap. by exists (name, v).
Qed.

(** C10: A variable for an option of a section that the file has (those the code needs are
    always there), with every percent sign doubled, is read back as it was written,
    whatever else the file says and whatever the fallback is: a number as that number, a
    word for a truth value as that. The name may be in any case, but no other variable with
    the prefix of the section, or with OASIS_ where those count, may differ from another in
    case only, and the prefix must not occur in the name again. *)
Theorem variables_read_back opt v :
  set_to opt (escape v) →
  (∀ fallback, get p environ global_env section opt fallback = Ok (JStr v)) ∧
  (∀ n fallback, int_of_string v = Some n → getint p environ global_env section opt fallback = Ok n) ∧
  (∀ b fallback, assoc (lower v) BOOLEAN_STATES = Some b → getboolean p environ global_env section opt fallback = Ok b).
Proof.
  intros Hv. assert (∀ fallback, get p environ global_env section opt fallback = Ok (JStr v)) as Hg.
  { intros fallback. rewrite value_of, Hd, (set_variable opt (escape v)) by done. cbn. by rewrite references_escaped. }
  split; [done|]. split; intros x fallback Hx; unfold getint, getboolean, converted; rewrite Hg; cbn [mbind result_bind]; by rewrite Hx.
Qed.

(** A variable with a percent sign that is not doubled cannot be read, a password for one. *)
Lemma lone_percent opt a c b fallback :
  set_to opt (a +:+ String "%" (String c b)) → has_char "%" a = false → c ∉ ["%"; "("]%char →
  get p environ global_env section opt fallback = Raise InterpolationSyntaxError.
Proof.
  intros Hv Ha Hc. rewrite value_of, Hd, (set_variable opt _ Hv) by done. cbn -[references append].
  by rewrite references_lone.
Qed.
End values.

(** ** Spans of time *)

(** A part of a text such as [days=1, hours=2]: the name as it is written, the number as it
    is written, and the number. *)
Definition part : Type := string * string * Z.
Definition part_text (x : part) : string := x.1.1 +:+ "=" +:+ x.1.2.
Definition part_ok (x : part) : Prop :=
  has_char "," (part_text x) = false ∧ has_char "=" x.1.1 = false ∧ has_char "=" x.1.2 = false ∧
  int_of_string x.1.2 = Some x.2 ∧ is_Some (assoc (strip x.1.1) units).
Definition span (x : part) : Z := default 0 (assoc (strip x.1.1) units) * x.2.
Definition spans (l : list part) : Z := foldr (λ x n, span x + n) 0 l.

Lemma dict_set_new {A} k (v : A) d : k ∉ d.*1 → dict_set k v d = d ++ [(k, v)].
Proof.
  induction d as [|[k' w] d IH]; [done|]. cbn. intros [Hk Hd]%not_elem_of_cons. destruct (String.eqb_spec k k'); [done|]. by rewrite IH.
Qed.
Lemma kwarg_part x d : part_ok x → kwarg d (part_text x) = Ok (dict_set (strip x.1.1) x.2 d).
Proof.
  destruct x as [[k t] n]. intros (_ & Hk & Ht & Hn & _). cbn [fst snd] in *. unfold kwarg, part_text. cbn [fst snd].
  assert (split_on "=" (k +:+ "=" +:+ t) = [k; t]) as -> by (etrans; [by apply split_on_app|by rewrite split_on_nodash]). by rewrite Hn.
Qed.
Lemma kwargs_of_parts l :
  l ≠ [] → Forall part_ok l → NoDup ((λ x, strip x.1.1) <$> l) → kwargs_of (join "," (part_text <$> l)) = Ok ((λ x, (strip x.1.1, x.2)) <$> l).
Proof.
  intros Hn Hl Hd. unfold kwargs_of. rewrite split_on_join; [|by destruct l|by apply Forall_fmap; eapply Forall_impl; [exact Hl|intros x Hx; apply Hx]].
  assert (∀ l d, Forall part_ok l → NoDup (d.*1 ++ ((λ x, strip x.1.1) <$> l)) →
    foldl (λ acc k, d ← acc; kwarg d k) (Ok d) (part_text <$> l) = Ok (d ++ ((λ x, (strip x.1.1, x.2)) <$> l))) as H; [|by rewrite (H l [])].
  clear. induction l as [|x l IH]; intros d Hl Hd; [cbn; by rewrite app_nil_r|]. apply List.Forall_cons_iff in Hl as [Hx Hl].
  rewrite fmap_cons in *. cbn [foldl mbind result_bind]. rewrite kwarg_part, dict_set_new by (done || intros Hin; apply NoDup_app in Hd as (_ & Hy & _); destruct (Hy _ Hin); left).
  rewrite IH; [by rewrite <- app_assoc|done|]. by rewrite fmap_app, <- app_assoc.
Qed.
Lemma sum_of_parts l : Forall part_ok l → total ((λ x, (strip x.1.1, x.2)) <$> l) = Ok (spans l).
Proof.
  induction 1 as [|x l (_ & _ & _ & _ & u & Hu) _ IH]; [done|]. cbn -[units]. unfold span at 1. unfold total in IH. rewrite IH. cbn -[units]. rewrite Hu. cbn -[Z.mul]. f_equal. apply Z.add_comm.
Qed.

(** A span of time is the sum of its parts. If an option is a list of distinct units
    with numbers, it is read as the sum of them, if that is in the range of
    [timedelta]; the fallback is not looked at. *)
Theorem timedelta_sum p environ global_env section opt l fallback :
  l ≠ [] → Forall part_ok l → NoDup ((λ x, strip x.1.1) <$> l) →
  get p environ global_env section opt fallback = Ok (JStr (join "," (part_text <$> l))) →
  -999999999 * 86400000000 <= spans l < 1000000000 * 86400000000 →
  get_timedelta p environ global_env section opt fallback = Ok (spans l).
Proof.
  intros Hn Hl Hd Hg Hr. unfold get_timedelta. rewrite Hg. cbn [mbind result_bind kwargs_of_value]. rewrite kwargs_of_parts by done.
  cbn [mbind result_bind]. unfold timedelta. rewrite sum_of_parts by done. cbn [mbind result_bind].
  by rewrite (proj2 (Z.leb_le _ _)), (proj2 (Z.ltb_lt _ _)) by lia.
Qed.

(** ** A whole section *)

Lemma assoc_values {A B} (g : A → B) j (d : list (string * A)) : assoc j ((λ kv, (kv.1, g kv.2)) <$> d) = g <$> assoc j d.
Proof. induction d as [|[k v] d IH]; [done|]. cbn. by destruct (String.eqb j k). Qed.
Lemma items_assoc (f : string → result json) l r o :
  mapM (λ o, pair o <$> f o) l = Ok r → assoc o r = if bool_decide (o ∈ l) then match f o with Ok j => Some j | Raise _ => None end else None.
Proof.
  revert r. induction l as [|k l IH]; intros r; cbn [mapM]; [by intros [= <-]|].
  intros ([k' j] & (j' & Hj & [= <- <-])%fmap_Ok & (r' & Hr & [= <-])%bind_Ok)%bind_Ok. cbn. rewrite (IH _ Hr).
  destruct (String.eqb_spec o k) as [->|Hk]; [by rewrite bool_decide_eq_true_2, Hj by left|].
  by rewrite (bool_decide_ext (o ∈ k :: l) (o ∈ l)) by (rewrite elem_of_cons; tauto).
Qed.

(** All of a section agrees with its options one by one. What [get] without an option
    gives has, for each option, the value of its own variable, and otherwise, if the file
    has the option, the value that [get] gives; variables for every section count for
    the options of the file alone. *)
Theorem section_agrees p environ global_env section r o :
  distinct environ (section_env_prefix section) → get_all p environ global_env section = Ok r → lower o = o →
  assoc o r = match variable environ (section_env_prefix section) o with
              | Some v => Some (JStr v)
              | None => if (has_section p section || String.eqb section default_section) && bool_decide (o ∈ options p section)
                        then match get p environ global_env section o None with Ok j => Some j | Raise _ => None end else None
              end.
Proof.
  intros Henv. unfold get_all. intros (res & Hres & [= <-])%bind_Ok Ho. rewrite assoc_update.
  assert (assoc o (reverse ((λ kv : string * string, (lower kv.1, JStr kv.2)) <$> from_env environ (section_env_prefix section)))
    = JStr <$> variable environ (section_env_prefix section) o) as ->.
  { unfold variable. rewrite Ho, <- (assoc_reverse o (lowered _)) by done. rewrite <- assoc_values. unfold lowered. rewrite <- !fmap_reverse. by rewrite <- list_fmap_compose. }
  destruct (variable environ (section_env_prefix section) o) as [v|]; [done|]. cbn [fmap option_fmap option_map first_of].
  destruct (has_section p section || _); [cbn [orb andb]; by apply (items_assoc (λ o, get p environ global_env section o None))|]. by injection Hres as <-.
Qed.

(** ** An environment *)

Definition example_config : config :=
  {| _sections := [("server", [("db_pass", "file"); ("url", "http://%(host)s/%%x"); ("lifetime", "days=1, hours=2")]); ("worker", [])]%string;
     _defaults := [("host", "localhost"); ("a", "%(b)s"); ("b", "%(a)s")]%string |}.
Definition example_environ : dict := [("OASIS_SERVER_db_pass", "50%%"); ("OASIS_HOST", "h"); ("OASIS_host_name", "n"); ("OASIS_WORKER_X", "5"); ("PATH", "/bin")]%string.
Lemma example_distinct section : section ∈ ["server"; "worker"]%string → distinct example_environ (section_env_prefix section) ∧ distinct example_environ "OASIS_".
Proof.
  rewrite !elem_of_cons. unfold distinct. intros [->|[->|H]]; [..|by apply elem_of_nil in H]; (split; [|vm_compute; repeat constructor; set_solver]); vm_compute; repeat constructor; set_solver.
Qed.
Lemma setting_source_witness :
  distinct example_environ (section_env_prefix "server") ∧ get example_config example_environ true "server" "HOST" None = Ok (JStr "h").
Proof.
  destruct (example_distinct "server" ltac:(by left)) as [H1 H2]. split; [exact H1|].
  rewrite (setting_source example_config example_environ true "server" H1 (λ _, H2)). vm_compute. reflexivity.
Defined.
Lemma variables_read_back_witness : get example_config example_environ true "server" "DB_PASS" None = Ok (JStr "50%").
Proof.
  destruct (example_distinct "server" ltac:(by left)) as [H1 H2].
  destruct (variables_read_back example_config example_environ true "server" _ H1 (λ _, H2) eq_refl "DB_PASS" "50%") as [H _]; [|exact (H None)].
  exists "db_pass"%string. split; [left|split; reflexivity].
Defined.
(** Two variables that differ in case: the one for every section wins over the one of the
    section. *)
Example case_confuses :
  get example_config [("OASIS_SERVER_X", "own"); ("OASIS_X", "every"); ("OASIS_x", "other")]%string true "server" "x" None = Ok (JStr "other").
Proof. vm_compute. reflexivity. Qed.
Lemma timedelta_sum_witness : get_timedelta example_config [] true "server" "lifetime" (Some (JStr "hours=1")) = Ok 93600000000.
Proof.
  apply (timedelta_sum example_config [] true "server" "lifetime" [("days", "1", 1); (" hours", "2", 2)]%string); [done| | |vm_compute; reflexivity|vm_compute; by split].
  - repeat constructor; vm_compute; eauto.
  - vm_compute. repeat constructor; set_solver.
Defined.
Definition plain_config : config := {| _sections := [("worker", [])]%string; _defaults := [("host", "localhost")]%string |}.
Lemma section_agrees_witness : get_all plain_config example_environ true "worker" = Ok [("host", JStr "h"); ("x", JStr "5")]%string
  ∧ assoc "x" [("host", JStr "h"); ("x", JStr "5")]%string = Some (JStr "5").
Proof.
  assert (get_all plain_config example_environ true "worker" = Ok [("host", JStr "h"); ("x", JStr "5")]%string) as E by (vm_compute; reflexivity).
  split; [exact E|]. rewrite (section_agrees plain_config example_environ true "worker" _ "x" (proj1 (example_distinct "worker" ltac:(right; by left))) E eq_refl). vm_compute. reflexivity.
Defined.
Example get_ex :
  let g := get example_config example_environ true in
  g "server" "DB_PASS" None = Ok (JStr "50%") ∧ g "server" "url" None = Ok (JStr "http://h/%x") ∧ g "worker" "x" None = Ok (JStr "5")
  ∧ g "server" "a" None = Raise InterpolationDepthError ∧ g "other" "host" (Some (JStr "f")) = Ok (JStr "f").
Proof. vm_compute. split_and!; reflexivity. Qed.
