(* ===== verification/OidcUsers.v ===== *)
(** * Users of an identity provider

    src/server/oasisapi/oidc/generic_auth.py: what a login with the claims of an identity
    provider does to the users of the platform. The rows of the database are lists; a
    login runs in transactions whose statements interleave with what other requests
    commit. The check of the token and the request for the claims are the library's. *)

From stdpp Require Import sorting.
From S2P Require Import Prelude PyData Groups.

(** ** The database *)

(** A row of the user table; the groups of a user are rows of their own. *)
Record account := { pk : nat; name : string; is_active : bool; superuser : bool; staff : bool }.
(** [OIDCUserId]: one per user, who is its key. *)
Record binding := { owner : nat; oidc_sub : string }.
Record db := {
  accounts : list account; oidc_user_ids : list binding; members : list (nat * string); group_names : list string;
  next_pk : nat }.

Definition with_name (n : string) (a : account) : account :=
  {| pk := pk a; name := n; is_active := is_active a; superuser := superuser a; staff := staff a |}.
Definition with_roles (b : bool) (a : account) : account :=
  {| pk := pk a; name := name a; is_active := is_active a; superuser := b; staff := b |}.
Definition with_accounts (l : list account) (d : db) : db :=
  {| accounts := l; oidc_user_ids := oidc_user_ids d; members := members d; group_names := group_names d; next_pk := next_pk d |}.

(** [__iexact]. *)
Definition iexact (a b : string) : bool := String.eqb (lower a) (lower b).
Definition account_of (i : nat) (d : db) : option account := List.find (λ a, (pk a =? i)%nat) (accounts d).
Definition exists_account (i : nat) (d : db) : bool := existsb (λ a, (pk a =? i)%nat) (accounts d).
(** The names of the groups of a user. *)
Definition groups_of (i : nat) (d : db) : list string := (List.filter (λ m, (m.1 =? i)%nat) (members d)).*2.
#[global] Arguments groups_of : simpl never.

(** [user.save()]: names are unique; a row that is gone is inserted again. *)
Definition save (a : account) : M db unit := λ d,
  if existsb (λ b, negb (pk b =? pk a)%nat && String.eqb (name b) (name a)) (accounts d) then (Raise IntegrityError, d)
  else if exists_account (pk a) d then (Ok tt, with_accounts ((λ b, if (pk b =? pk a)%nat then a else b) <$> accounts d) d)
  else (Ok tt, with_accounts (accounts d ++ [a]) d).
(** [UserModel.objects.get_or_create(username=username)]. *)
Definition get_or_create_account (n : string) : M db account := λ d,
  match List.find (λ a, String.eqb (name a) n) (accounts d) with
  | Some a => (Ok a, d)
  | None =>
      let a := {| pk := next_pk d; name := n; is_active := true; superuser := false; staff := false |} in
      (Ok a, {| accounts := accounts d ++ [a]; oidc_user_ids := oidc_user_ids d; members := members d;
                group_names := group_names d; next_pk := S (next_pk d) |})
  end.
(** Deleting users takes what belongs to them along. *)
Definition delete_accounts (p : account → bool) (d : db) : db :=
  let kept := List.filter (λ a, negb (p a)) (accounts d) in
  let stays i := existsb (λ a, (pk a =? i)%nat) kept in
  {| accounts := kept; oidc_user_ids := List.filter (λ b, stays (owner b)) (oidc_user_ids d);
     members := List.filter (λ m, stays m.1) (members d); group_names := group_names d; next_pk := next_pk d |}.
Fixpoint add_new (l : list string) (gs : list string) : list string :=
  match l with [] => gs | g :: l => add_new l (if bool_decide (g ∈ gs) then gs else gs ++ [g]) end.
(** [user.groups.clear()], then each group is created if need be and joined. *)
Definition set_groups (i : nat) (l : list string) : M db unit := λ d,
  if exists_account i d then
    (Ok tt, {| accounts := accounts d; oidc_user_ids := oidc_user_ids d;
               members := List.filter (λ m, negb (m.1 =? i)%nat) (members d) ++ (pair i <$> add_new l []);
               group_names := add_new l (group_names d); next_pk := next_pk d |})
  else (Raise IntegrityError, d).

(** ** Transactions

    Before each statement of a transaction others may commit, and a statement may find
    that it lost a race. What a transaction sees is what is committed with its own
    writes; when it raises only the commits of others are left. *)
Record moment := { commits : db → db; conflict : bool }.
Record session := { seen : db; committed : db; later : list moment }.
Definition quiet : moment := {| commits := λ d, d; conflict := false |}.
Definition statement {A} (m : M db A) : M session A := λ s,
  let '(o, l) := match later s with o :: l => (o, l) | [] => (quiet, []) end in
  let '(r, d) := if conflict o then (Raise IntegrityError, commits o (seen s)) else m (commits o (seen s)) in
  (r, {| seen := d; committed := commits o (committed s); later := l |}).
(** [with transaction.atomic()]. *)
Definition atomic {A} (m : M session A) : M session A := λ s,
  match m {| seen := committed s; committed := committed s; later := later s |} with
  | (Ok a, s) => (Ok a, {| seen := seen s; committed := seen s; later := later s |})
  | (Raise e, s) => (Raise e, {| seen := committed s; committed := committed s; later := later s |})
  end.

(** ** The claims of an identity *)

Inductive groups_claim := Missing | Null | Listed (l : list string).
Record claims := { sub : option string; preferred_username : option string; is_service_account : bool; groups : groups_claim }.
Definition SuspiciousOperation (msg : string) : exn := OtherError ("SuspiciousOperation: " +:+ msg).
(** How [sub] appears in a name. *)
Definition sub_text (s : option string) : string := default "None"%string s.
(** [g.lstrip('/')]. *)
Fixpoint lstrip_slash (g : string) : string :=
  match g with String c r => if bool_decide (c = "/"%char) then lstrip_slash r else g | EmptyString => g end.
Definition sort : list string → list string := merge_sort String.le.

(** ** [GenericOIDCAuthenticationBackend] *)

(** Of an identity, when one user is bound to it. *)
Definition get_user_by_oidc_id (i : option string) : M session (option account) :=
  match i with
  | Some (String _ _ as i) =>
      statement (λ d, (Ok (match List.filter (λ b, iexact (oidc_sub b) i) (oidc_user_ids d) with
                           | [b] => account_of (owner b) d | _ => None end), d))
  | _ => mret None
  end.
Definition is_admin (l : list string) (c : claims) : bool := bool_decide ("admin"%string ∈ (lstrip_slash <$> l)) || is_service_account c.
Definition update_roles (u : account) (c : claims) : M session account :=
  l ← lift (match groups c with Missing => Ok [] | Null => Raise TypeError | Listed l => Ok l end);
  if negb (Bool.eqb (is_admin l c) (superuser u)) || negb (Bool.eqb (is_admin l c) (staff u))
  then let u := with_roles (is_admin l c) u in statement (save u);; mret u
  else mret u.
Definition update_groups (u : account) (c : claims) : M session unit :=
  l ← lift (match groups c with
            | Listed l => Ok l
            | _ => if superuser u || staff u || is_service_account c then Ok []
                   else Raise (SuspiciousOperation "No group found in claim / user_info")
            end);
  let oidc_groups := sort (lstrip_slash <$> l) in
  own ← statement (λ d, (Ok (sort (groups_of (pk u) d)), d));
  if bool_decide (oidc_groups = own) then mret tt else statement (set_groups (pk u) oidc_groups).
Definition update_user (u : account) (n : string) (c : claims) : M session account :=
  u ← (if String.eqb (name u) n then mret u else let u := with_name n u in statement (save u);; mret u);
  u ← update_roles u c;
  update_groups u c;; mret u.
Definition bind_user (i : nat) (s : option string) : M db unit := λ d,
  match List.find (λ b, (owner b =? i)%nat) (oidc_user_ids d) with
  | Some b => if bool_decide (Some (oidc_sub b) = s) then (Ok tt, d) else (Raise (PermissionDenied "OIDC subject mismatch for user"), d)
  | None =>
      match s with
      | Some s => if exists_account i d then
                    (Ok tt, {| accounts := accounts d; oidc_user_ids := oidc_user_ids d ++ [{| owner := i; oidc_sub := s |}];
                               members := members d; group_names := group_names d; next_pk := next_pk d |})
                  else (Raise IntegrityError, d)
      | None => (Raise IntegrityError, d)
      end
  end.
Definition create_oidc_user_id (u : account) (s : option string) : M session unit := statement (bind_user (pk u) s).
Definition create_user (n : string) (c : claims) : M session account :=
  u ← statement (get_or_create_account n);
  u ← update_roles u c;
  update_groups u c;;
  create_oidc_user_id u (sub c);; mret u.
(** The users bound to an identity. *)
Definition same_identity (s : option string) (d : db) (a : account) : bool :=
  match s with
  | Some s => existsb (λ b, iexact (oidc_sub b) s && (owner b =? pk a)%nat) (oidc_user_ids d)
  | None => false
  end.
Definition archived_name (s : option string) (a : account) : string := name a +:+ "-" +:+ sub_text s.
Definition archived (s : option string) (a : account) : account :=
  {| pk := pk a; name := archived_name s a; is_active := false; superuser := superuser a; staff := staff a |}.
Definition archive (s : option string) (a : account) : M session unit :=
  statement (modify (λ d, delete_accounts (λ b, String.eqb (name b) (archived_name s a) && negb (same_identity s d b)) d));;
  statement (save (archived s a)).
Definition archive_old_user (n : string) (s : option string) : M session unit :=
  old ← statement (λ d, (Ok (List.filter (λ a, iexact (name a) n && negb (same_identity s d a)) (accounts d)), d));
  for_each old (archive s).
Definition login_name (c : claims) : result string :=
  match preferred_username c with
  | Some (String _ _ as n) => Ok n
  | _ => if is_service_account c then Ok ("svc-" +:+ sub_text (sub c))%string
         else Raise (SuspiciousOperation "Required key not found in claim: preferred_username")
  end.
Definition sign_in (n : string) (c : claims) : M session account :=
  atomic (u ← get_user_by_oidc_id (sub c);
          match u with
          | Some u => update_user u n c
          | None => archive_old_user n (sub c);; create_user n c
          end).
Definition get_or_create_user (c : claims) : M session account :=
  n ← lift (login_name c);
  try_except (sign_in n c) (λ e, match e with IntegrityError => sign_in n c | e => raise e end).
(** [is_oidc_user_id_same]. *)
Definition is_oidc_user_id_same (i : nat) (s : string) (d : db) : bool :=
  match List.filter (λ b, (owner b =? i)%nat) (oidc_user_ids d) with [b] => String.eqb (oidc_sub b) s | _ => false end.

(** ** Examples *)

Definition empty_db : db := {| accounts := []; oidc_user_ids := []; members := []; group_names := []; next_pk := 1 |}.
Definition alone (d : db) : session := {| seen := d; committed := d; later := [] |}.
Definition as_user (s n : string) (l : list string) : claims :=
  {| sub := Some s; preferred_username := Some n; is_service_account := false; groups := Listed l |}.
(** Log in one after the other. *)
Definition logins (l : list claims) (d : db) : list (result nat) * db :=
  foldl (λ '(rs, d) c, let '(r, s) := get_or_create_user c (alone d) in (rs ++ [pk <$> r], committed s)) ([], d) l.
Definition overview (d : db) : list (nat * string * bool * list string) := (λ a, (pk a, name a, superuser a, groups_of (pk a) d)) <$> accounts d.
Example logins_ex :
  let '(rs, d) := logins [as_user "s1" "ann" ["/uk"; "eu"]; as_user "s2" "bob" ["admin"]; as_user "s1" "anna" ["eu"]; as_user "s3" "Bob" []] empty_db in
  rs = [Ok 1; Ok 2; Ok 1; Ok 3]%nat ∧
  overview d = [(1, "anna", false, ["eu"]); (2, "bob-s3", true, ["admin"]); (3, "Bob", false, [])]%nat%string.
Proof. vm_compute. done. Qed.

(** ** Reasoning about sessions

    [I] is kept by what others commit, and [inside R] is a session whose transaction
    sees [R]. *)

Section sessions.
Context (I : db → Prop) (ok : moment → Prop).
Context (ok_I : ∀ o d, ok o → I d → I (commits o d)) (quiet_ok : ok quiet).
Definition stable (R : db → Prop) : Prop := ∀ o d, ok o → I d → R d → R (commits o d).
Definition inside (R : db → Prop) (s : session) : Prop := I (seen s) ∧ R (seen s) ∧ I (committed s) ∧ Forall ok (later s).
Definition outside : session → Prop := inside (λ _, True).

Lemma inside_outside R s : inside R s → outside s.
Proof. intros (? & ? & ? & ?). by repeat split. Qed.
Lemma statement_inside {A} (m : M db A) R (Q : A → db → Prop) :
  stable R → hoare (λ d, I d ∧ R d) m (λ a d, I d ∧ Q a d) I → hoare (inside R) (statement m) (λ a, inside (Q a)) outside.
Proof.
  intros HR Hm s (H1 & H2 & H3 & H4). unfold statement.
  assert (∃ o l, (match later s with o :: l => (o, l) | [] => (quiet, []) end) = (o, l) ∧ ok o ∧ Forall ok l) as (o & l & -> & Ho & Hl).
  { destruct (later s) as [|o l]; [by exists quiet, []|]. apply Forall_cons in H4 as [? ?]. by exists o, l. }
  assert (I (commits o (seen s))) as Hs by by apply ok_I.
  assert (I (commits o (committed s))) as Hc by by apply ok_I.
  destruct (conflict o); [by repeat split|]. specialize (Hm _ (conj Hs (HR _ _ Ho H1 H2))).
  destruct (m (commits o (seen s))) as [[a|e] d]; [destruct Hm|]; by repeat split.
Qed.
Lemma atomic_inside {A} (m : M session A) (Q : A → db → Prop) :
  hoare outside m (λ a, inside (Q a)) outside → hoare outside (atomic m) (λ a s, inside (Q a) s ∧ seen s = committed s) outside.
Proof.
  intros Hm s (H1 & _ & H3 & H4). unfold atomic.
  assert (outside {| seen := committed s; committed := committed s; later := later s |}) as H by by repeat split.
  specialize (Hm _ H). destruct (m _) as [[a|e] s']; destruct Hm as (? & ? & ? & ?); by repeat split.
Qed.
Lemma inside_weaken R R' s : (∀ d, I d → R d → R' d) → inside R s → inside R' s.
Proof. intros H (? & ? & ? & ?). split; [done|]. split; [by apply H|done]. Qed.
(** From an account to the next. *)
Lemma inside_bind {A B} R (m : M session A) (f : A → M session B) T Q :
  hoare (inside R) m (λ a, inside (T a)) outside → (∀ a, hoare (inside (T a)) (f a) (λ b, inside (Q b)) outside) →
  hoare (inside R) (m ≫= f) (λ b, inside (Q b)) outside.
Proof. intros. by eapply hoare_bind. Qed.
Lemma inside_ret {A} R (a : A) (Q : A → db → Prop) : (∀ d, I d → R d → Q a d) → hoare (inside R) (mret a) (λ b, inside (Q b)) outside.
Proof. intros H. apply hoare_ret. intros s. by apply inside_weaken. Qed.
Lemma inside_lift {A} R (r : result A) (Q : A → db → Prop) :
  (∀ a d, r = Ok a → I d → R d → Q a d) → hoare (inside R) (lift r) (λ b, inside (Q b)) outside.
Proof. intros H. apply hoare_lift; [|intros s; apply inside_outside]. intros a s Ha. apply inside_weaken. intros d. by apply H. Qed.
(** Logging in, when one transaction does [Q]. *)
Lemma login_inside c (Q : account → db → Prop) :
  (∀ n, login_name c = Ok n → hoare outside (sign_in n c) (λ a s, inside (Q a) s ∧ seen s = committed s) outside) →
  hoare outside (get_or_create_user c) (λ a s, inside (Q a) s ∧ seen s = committed s) outside.
Proof.
  intros H. unfold get_or_create_user. destruct (login_name c) as [n|e]; [|by intros s Hs].
  specialize (H n eq_refl). intros s Hs. rewrite lift_bind. unfold try_except.
  pose proof (H s Hs) as H'. destruct (sign_in n c s) as [[a|e] s']; [done|].
  destruct e; try exact H'. by apply H.
Qed.
End sessions.

(** ** Well-formed databases *)

Record wf (d : db) : Prop := {
  wf_pks : NoDup (pk <$> accounts d);
  wf_names : NoDup (name <$> accounts d);
  wf_next : ∀ a, a ∈ accounts d → (pk a < next_pk d)%nat;
  wf_owners : NoDup (owner <$> oidc_user_ids d);
  wf_owned : ∀ b, b ∈ oidc_user_ids d → exists_account (owner b) d = true;
  wf_joined : ∀ m, m ∈ members d → exists_account m.1 d = true ∧ m.2 ∈ group_names d;
  wf_members : NoDup (members d);
  wf_groups : NoDup (group_names d) }.

Lemma exists_account_in i d : exists_account i d = true ↔ i ∈ pk <$> accounts d.
Proof.
  unfold exists_account. rewrite existsb_exists, list_elem_of_fmap. split.
  - intros (a & Ha & E%Nat.eqb_eq). exists a. split; [done|]. by apply list_elem_of_In.
  - intros (a & -> & Ha). exists a. split; [by apply list_elem_of_In|]. by apply Nat.eqb_eq.
Qed.
Lemma elem_of_filterb {A} (p : A → bool) (l : list A) x : x ∈ List.filter p l ↔ x ∈ l ∧ p x = true.
Proof. by rewrite !list_elem_of_In, filter_In. Qed.
Lemma NoDup_filterb {A} (p : A → bool) (l : list A) : NoDup l → NoDup (List.filter p l).
Proof. intros H. induction H as [|x l Hx _ IH]; cbn; [constructor|]. destruct (p x); [|done]. constructor; [|done]. by rewrite elem_of_filterb; intros []. Qed.
Lemma NoDup_fmap_filterb {A B} (f : A → B) (p : A → bool) (l : list A) : NoDup (f <$> l) → NoDup (f <$> List.filter p l).
Proof.
  induction l as [|x l IH]; cbn; [done|]. intros [Hx H]%NoDup_cons. destruct (p x); [|by apply IH].
  apply NoDup_cons. split; [|by apply IH]. intros (y & E & [Hy _]%elem_of_filterb)%list_elem_of_fmap. apply Hx, list_elem_of_fmap. by exists y.
Qed.
Lemma fmap_inj {A B} (f : A → B) (l : list A) x y : NoDup (f <$> l) → x ∈ l → y ∈ l → f x = f y → x = y.
Proof.
  induction l as [|z l IH]; [by intros _ ?%elem_of_nil|]. cbn. intros [Hz H]%NoDup_cons. rewrite !elem_of_cons.
  intros [->|Hx] [->|Hy] E; try done; [rewrite E in Hz|rewrite <- E in Hz|by apply IH]; by destruct Hz; apply list_elem_of_fmap_2.
Qed.

(** *** Saving *)

Definition replaced (a : account) (l : list account) : list account := (λ b, if (pk b =? pk a)%nat then a else b) <$> l.
Lemma replaced_pks a l : pk <$> replaced a l = pk <$> l.
Proof. unfold replaced. rewrite <- list_fmap_compose. apply list_fmap_ext. intros _ b _. cbn. by case_match eqn:E; [apply Nat.eqb_eq in E|]. Qed.
Lemma replaced_in a l b : b ∈ replaced a l ↔ (b = a ∧ pk a ∈ pk <$> l) ∨ (b ∈ l ∧ pk b ≠ pk a).
Proof.
  unfold replaced. rewrite !list_elem_of_fmap. split.
  - intros (x & -> & Hx). case_match eqn:E; [apply Nat.eqb_eq in E; left; split; [done|]; by exists x|apply Nat.eqb_neq in E; by right].
  - intros [[-> (x & E & Hx)]|[Hb Hn]]; [exists x; split; [|done]; by rewrite (proj2 (Nat.eqb_eq _ _))|exists b; split; [|done]; by rewrite (proj2 (Nat.eqb_neq _ _))].
Qed.
Lemma replaced_names a l : NoDup (pk <$> l) → NoDup (name <$> l) → (∀ b, b ∈ l → pk b ≠ pk a → name b ≠ name a) → NoDup (name <$> replaced a l).
Proof.
  intros Hp Hn Ht. induction l as [|b l IH]; [constructor|]. cbn in Hp, Hn |- *. apply NoDup_cons in Hp as [Hbp Hp], Hn as [Hbn Hn].
  assert (NoDup (name <$> replaced a l)) as H by (apply IH; [done..|intros; apply Ht; [by right|done]]).
  apply NoDup_cons. split; [|done]. rewrite list_elem_of_fmap. intros (x & E & Hx%replaced_in). destruct (Nat.eqb_spec (pk b) (pk a)) as [Eb|Eb].
  - destruct Hx as [[_ H']|[Hx Hxn]]; [by rewrite <- Eb in H'|]. by apply (Ht x); [right|done|].
  - destruct Hx as [[-> _]|[Hx Hxn]]; [by apply (Ht b); [left| |]|]. apply Hbn. rewrite E. by apply list_elem_of_fmap_2.
Qed.
(** What [save] does when it does not raise. *)
Lemma save_spec a d : match save a d with
  | (Ok _, d') => (∀ b, b ∈ accounts d → pk b ≠ pk a → name b ≠ name a) ∧
      d' = with_accounts (if exists_account (pk a) d then replaced a (accounts d) else accounts d ++ [a]) d
  | (Raise e, d') => e = IntegrityError ∧ d' = d
  end.
Proof.
  unfold save. destruct (existsb _ _) eqn:E; [done|].
  assert (∀ b, b ∈ accounts d → pk b ≠ pk a → name b ≠ name a).
  { intros b Hb Hp Hn. apply not_true_iff_false in E. apply E, existsb_exists. exists b. split; [by apply list_elem_of_In|].
    rewrite (proj2 (Nat.eqb_neq _ _) Hp). by rewrite Hn, String.eqb_refl. }
  by destruct (exists_account (pk a) d).
Qed.
Lemma exists_saved a i l d : exists_account i d = true → exists_account i (with_accounts (if exists_account (pk a) d then replaced a (accounts d) else accounts d ++ l) d) = true.
Proof.
  rewrite !exists_account_in. cbn. destruct (exists_account (pk a) d); [by rewrite replaced_pks|]. rewrite fmap_app. set_solver.
Qed.
Lemma save_wf a d : wf d → (pk a < next_pk d)%nat → let '(_, d') := save a d in wf d' ∧ next_pk d' = next_pk d ∧ oidc_user_ids d' = oidc_user_ids d.
Proof.
  intros Hwf Ha. pose proof (save_spec a d) as H. destruct (save a d) as [[[]|e] d']; [|by destruct H as [_ ->]].
  destruct H as [Hn ->], Hwf. split; [|done]. split; cbn; try done.
  - destruct (exists_account (pk a) d) eqn:E; [by rewrite replaced_pks|]. rewrite fmap_app. apply NoDup_app. split; [done|]. split; [|apply NoDup_singleton].
    intros x Hx ->%list_elem_of_singleton. rewrite <- exists_account_in in Hx. by rewrite E in Hx.
  - destruct (exists_account (pk a) d) eqn:E; [by apply replaced_names|]. rewrite fmap_app. apply NoDup_app. split; [done|]. split; [|apply NoDup_singleton].
    intros x (b & -> & Hb)%list_elem_of_fmap Ex%list_elem_of_singleton. apply (Hn b Hb); [|done]. intros Ep.
    apply not_true_iff_false in E. apply E, exists_account_in. rewrite <- Ep. by apply list_elem_of_fmap_2.
  - intros b. destruct (exists_account (pk a) d); [rewrite replaced_in; intros [[-> _]|[Hb _]]; auto|].
    rewrite elem_of_app, list_elem_of_singleton. intros [Hb| ->]; auto.
  - intros b Hb. apply (exists_saved a _ [a]). auto.
  - intros m Hm. destruct (wf_joined0 m Hm). split; [|done]. by apply (exists_saved a _ [a]).
Qed.

(** *** The other writes *)

Lemma get_or_create_wf n d : wf d → match get_or_create_account n d with
  | (Ok a, d') => wf d' ∧ a ∈ accounts d' ∧ name a = n ∧ (next_pk d ≤ next_pk d')%nat ∧ oidc_user_ids d' = oidc_user_ids d
  | (Raise _, _) => False
  end.
Proof.
  intros Hwf. unfold get_or_create_account. destruct (List.find _ _) as [a|] eqn:E.
  - apply find_some in E as [Ha En]. apply String.eqb_eq in En. split; [done|]. split; [by apply list_elem_of_In|done].
  - destruct Hwf. cbn. assert (∀ i, exists_account i d = true → existsb (λ a, (pk a =? i)%nat) (accounts d ++ [{| pk := next_pk d; name := n; is_active := true; superuser := false; staff := false |}]) = true) as H.
    { intros i Hi. rewrite existsb_app. unfold exists_account in Hi. by rewrite Hi. }
    split; [|split; [by apply elem_of_app; right; left|split; [done|split; [lia|done]]]]. split; cbn; try done.
    + rewrite fmap_app. apply NoDup_app. split; [done|]. split; [|apply NoDup_singleton].
      intros x (a & -> & Ha)%list_elem_of_fmap Ex%list_elem_of_singleton. specialize (wf_next0 a Ha). cbn in Ex. lia.
    + rewrite fmap_app. apply NoDup_app. split; [done|]. split; [|apply NoDup_singleton].
      intros x (a & -> & Ha)%list_elem_of_fmap Ex%list_elem_of_singleton. apply list_elem_of_In in Ha.
      pose proof (find_none _ _ E a Ha) as Hn. cbn in Hn. apply String.eqb_neq in Hn. done.
    + intros a. rewrite elem_of_app, list_elem_of_singleton. intros [Ha| ->]; [specialize (wf_next0 a Ha); lia|cbn; lia].
    + intros b Hb. by apply H, wf_owned0.
    + intros m Hm. destruct (wf_joined0 m Hm). split; [by apply H|done].
Qed.
Lemma delete_wf p d : wf d → wf (delete_accounts p d).
Proof.
  intros []. split; cbn.
  - by apply NoDup_fmap_filterb.
  - by apply NoDup_fmap_filterb.
  - intros a [Ha _]%elem_of_filterb. auto.
  - by apply NoDup_fmap_filterb.
  - intros b [_ Hb]%elem_of_filterb. done.
  - intros m [Hm Hs]%elem_of_filterb. split; [done|]. by apply wf_joined0.
  - by apply NoDup_filterb.
  - done.
Qed.
Lemma add_new_in l gs g : g ∈ add_new l gs ↔ g ∈ l ∨ g ∈ gs.
Proof. revert gs. induction l as [|h l IH]; intros gs; cbn; [set_solver|]. rewrite IH. case_bool_decide; set_solver. Qed.
Lemma add_new_NoDup l gs : NoDup gs → NoDup (add_new l gs).
Proof.
  revert gs. induction l as [|h l IH]; intros gs H; cbn; [done|]. apply IH. case_bool_decide; [done|].
  apply NoDup_app. split; [done|]. split; [|apply NoDup_singleton]. set_solver.
Qed.
Lemma groups_of_in i d g : g ∈ groups_of i d ↔ (i, g) ∈ members d.
Proof.
  unfold groups_of. rewrite list_elem_of_fmap. split.
  - intros ([j h] & -> & [Hm E]%elem_of_filterb). cbn in *. by apply Nat.eqb_eq in E as ->.
  - intros Hm. exists (i, g). split; [done|]. apply elem_of_filterb. split; [done|]. apply Nat.eqb_refl.
Qed.
Lemma set_groups_wf i l d : wf d → match set_groups i l d with
  | (Ok _, d') => wf d' ∧ accounts d' = accounts d ∧ next_pk d' = next_pk d ∧ oidc_user_ids d' = oidc_user_ids d ∧
      (∀ g, g ∈ groups_of i d' ↔ g ∈ l) ∧ (∀ j, j ≠ i → groups_of j d' = groups_of j d)
  | (Raise _, d') => d' = d
  end.
Proof.
  intros Hwf. unfold set_groups. destruct (exists_account i d) eqn:Ei; [|done]. cbn.
  split; [|do 3 (split; [done|]); split].
  - destruct Hwf. split; cbn; try done.
    + intros m. rewrite elem_of_app. intros [[Hm _]%elem_of_filterb|(g & -> & Hg)%list_elem_of_fmap].
      * destruct (wf_joined0 m Hm). split; [done|]. apply add_new_in. by right.
      * split; [done|]. apply add_new_in. left. apply add_new_in in Hg as [Hg|Hg]; [done|by apply elem_of_nil in Hg].
    + apply NoDup_app. split; [by apply NoDup_filterb|]. split.
      * intros m [_ Hm]%elem_of_filterb (g & -> & _)%list_elem_of_fmap. cbn in Hm. by rewrite Nat.eqb_refl in Hm.
      * apply NoDup_fmap_2; [intros ? ? [= ->]; done|]. apply add_new_NoDup, NoDup_nil_2.
    + by apply add_new_NoDup.
  - intros g. rewrite groups_of_in. cbn. rewrite elem_of_app, elem_of_filterb, list_elem_of_fmap. cbn. split.
    + intros [[_ H]|(h & [= ->] & H)]; [by rewrite Nat.eqb_refl in H|]. apply add_new_in in H as [H|H]; [done|by apply elem_of_nil in H].
    + intros H. right. exists g. split; [done|]. apply add_new_in. by left.
  - intros j Hj. unfold groups_of. cbn. rewrite List.filter_app, fmap_app.
    assert (List.filter (λ m : nat * string, (m.1 =? j)%nat) (pair i <$> add_new l []) = []) as ->.
    { generalize (add_new l []) as k. intros k. induction k as [|g k IH]; cbn; [done|]. by rewrite (proj2 (Nat.eqb_neq i j)) by done. }
    rewrite app_nil_r. f_equal. generalize (members d) as k. intros k. induction k as [|[x g] k IH]; cbn; [done|].
    destruct (Nat.eqb_spec x i) as [->|Hx]; cbn; [by rewrite (proj2 (Nat.eqb_neq i j)) by done|].
    destruct (Nat.eqb_spec x j); cbn; by rewrite IH.
Qed.
Definition bound (s : option string) (i : nat) (d : db) : Prop := ∃ b, b ∈ oidc_user_ids d ∧ owner b = i ∧ Some (oidc_sub b) = s.
Lemma bind_user_wf i s d : wf d → match bind_user i s d with
  | (Ok _, d') => wf d' ∧ accounts d' = accounts d ∧ members d' = members d ∧ next_pk d' = next_pk d ∧ bound s i d' ∧
      (d' = d ∨ ∃ t, s = Some t ∧ oidc_user_ids d' = oidc_user_ids d ++ [{| owner := i; oidc_sub := t |}])
  | (Raise _, d') => d' = d
  end.
Proof.
  intros Hwf. unfold bind_user. destruct (List.find _ _) as [b|] eqn:E.
  - case_bool_decide as Hs; [|done]. do 4 (split; [done|]). split; [|by left].
    apply find_some in E as [Hb Ei]. apply Nat.eqb_eq in Ei. exists b. split; [by apply list_elem_of_In|done].
  - destruct s as [s|]; [|done]. destruct (exists_account i d) eqn:Ei; [|done].
    split; [|do 3 (split; [done|]); split; [|right; by exists s]].
    + destruct Hwf. split; cbn; try done.
      * rewrite fmap_app. apply NoDup_app. split; [done|]. split; [|apply NoDup_singleton].
        intros x (b & -> & Hb)%list_elem_of_fmap Ex%list_elem_of_singleton. apply list_elem_of_In in Hb.
        pose proof (find_none _ _ E b Hb) as Hn. cbn in Hn, Ex. rewrite Ex, Nat.eqb_refl in Hn. done.
      * intros b. rewrite elem_of_app, list_elem_of_singleton. intros [Hb| ->]; [by apply wf_owned0|done].
    + exists {| owner := i; oidc_sub := s |}. split; [apply elem_of_app; right; left|done].
Qed.

(** ** Whatever others commit *)

(** A user bound to the identity of the claims. *)
Definition known (c : claims) (i : nat) (d : db) : Prop :=
  ∃ b s, b ∈ oidc_user_ids d ∧ owner b = i ∧ sub c = Some s ∧ iexact (oidc_sub b) s = true.
(** Others keep the database well formed, reuse no key, and keep some bindings. *)
Definition respects (keep : binding → Prop) (o : moment) : Prop := ∀ d, wf d →
  wf (commits o d) ∧ (next_pk d ≤ next_pk (commits o d))%nat ∧ ∀ b, keep b → b ∈ oidc_user_ids d → b ∈ oidc_user_ids (commits o d).

Lemma iexact_refl s : iexact s s = true.
Proof. apply String.eqb_refl. Qed.

(** What archiving users needs of what others commit. *)
Section archiving.
Context (ok : moment → Prop) (ok_wf : ∀ o d, ok o → wf d → wf (commits o d) ∧ (next_pk d ≤ next_pk (commits o d))%nat) (quiet_ok : ok quiet).
Lemma archive_around n s : hoare (outside wf ok) (archive_old_user n s) (λ _, outside wf ok) (outside wf ok).
Proof.
  assert (∀ o d, ok o → wf d → wf (commits o d)) as Hok by (intros o d Ho Hd; by apply ok_wf).
  assert (∀ k : list account, stable wf ok (λ d, ∀ a, a ∈ k → pk a < next_pk d)%nat) as Hst.
  { intros k o d Ho Hd H a Ha. destruct (ok_wf o d Ho Hd) as [_ Hn]. specialize (H a Ha). lia. }
  unfold archive_old_user. eapply hoare_bind with (R := λ l, inside wf ok (λ d, ∀ a, a ∈ l → pk a < next_pk d)%nat).
  { apply statement_inside; auto; [by intros ?|]. intros d [Hwf _]. cbn. split; [done|]. intros a [Ha _]%elem_of_filterb. by apply (wf_next d Hwf). }
  intros l. induction l as [|u l IH]; cbn [for_each]; [apply hoare_ret; intros x; apply inside_outside|].
  eapply hoare_bind with (R := λ _, inside wf ok (λ d, ∀ a, a ∈ l → pk a < next_pk d)%nat); [|intros []; apply IH]. unfold archive.
  eapply (inside_bind wf ok _ _ _ (λ _ d, ∀ a, a ∈ u :: l → pk a < next_pk d)%nat).
  - apply statement_inside; auto. intros d [Hwf Hd]. split; [by apply delete_wf|done].
  - intros []. apply statement_inside; auto. intros d [Hwf Hd].
    pose proof (save_wf (archived s u) d Hwf (Hd u ltac:(left))) as H. destruct (save (archived s u) d) as [[[]|e] d']; destruct H as (? & E & ?); [|done].
    split; [done|]. intros a Ha. rewrite E. apply Hd. by right.
Qed.
End archiving.

Section others.
Context (keep : binding → Prop) (c : claims).
Let ok := respects keep.
Definition all_kept : Prop := ∀ b s, sub c = Some s → iexact (oidc_sub b) s = true → keep b.
(** A key in use, of a user bound to the identity or not yet. *)
Definition held (sure : bool) (i : nat) (d : db) : Prop := (i < next_pk d)%nat ∧ (sure = true → all_kept → known c i d).
Local Lemma ok_wf o d : ok o → wf d → wf (commits o d).
Proof. intros Ho Hd. apply (Ho d Hd). Qed.
Local Lemma quiet_respects : ok quiet.
Proof. intros d Hd. by split. Qed.
Let within : (db → Prop) → session → Prop := inside wf ok.
Let around : session → Prop := outside wf ok.
Local Lemma held_stable sure i : stable wf ok (held sure i).
Proof.
  intros o d Ho Hd [H1 H2]. destruct (Ho d Hd) as (_ & Hn & Hk). split; [lia|]. intros Hs Ha. destruct (H2 Hs Ha) as (b & s & Hb & E & Es & Ei).
  exists b, s. repeat split; try done. apply Hk; [|done]. by apply (Ha b s).
Qed.
Local Lemma held_same sure i d d' : next_pk d' = next_pk d → oidc_user_ids d' = oidc_user_ids d → held sure i d → held sure i d'.
Proof. intros E1 E2. unfold held, known. by rewrite E1, E2. Qed.
Local Lemma anything : stable wf ok (λ _, True).
Proof. by intros. Qed.
#[local] Hint Resolve ok_wf quiet_respects held_stable anything : core.
(** One statement of a transaction. *)
Local Ltac step := apply statement_inside; auto; intros d [Hwf Hd].

Lemma save_held sure i u : pk u = i → hoare (within (held sure i)) (statement (save u)) (λ _, within (held sure i)) around.
Proof.
  intros <-. step. pose proof (save_wf u d Hwf ltac:(apply Hd)) as H. destruct (save u d) as [[[]|e] d']; destruct H as (? & ? & ?); [|done].
  split; [done|]. by eapply held_same.
Qed.
Lemma update_roles_held sure u : hoare (within (held sure (pk u))) (update_roles u c) (λ a, within (held sure (pk a))) around.
Proof.
  unfold update_roles. eapply (inside_bind wf ok _ _ _ (λ _, held sure (pk u))); [by apply inside_lift|]. intros l.
  destruct (_ || _); [|by apply inside_ret]. eapply (inside_bind wf ok _ _ _ (λ _, held sure (pk u))); [by apply save_held|].
  intros []. by apply inside_ret.
Qed.
Lemma update_groups_held sure u : hoare (within (held sure (pk u))) (update_groups u c) (λ _, within (held sure (pk u))) around.
Proof.
  unfold update_groups. eapply (inside_bind wf ok _ _ _ (λ _, held sure (pk u))); [by apply inside_lift|]. intros l.
  eapply (inside_bind wf ok _ _ _ (λ _, held sure (pk u))); [by step|]. intros own. case_bool_decide; [by apply inside_ret|].
  step. pose proof (set_groups_wf (pk u) (sort (lstrip_slash <$> l)) d Hwf) as H'. destruct (set_groups _ _ d) as [[[]|e] d']; [|by subst].
  destruct H' as (? & _ & ? & ? & _). split; [done|]. by eapply held_same.
Qed.
Lemma get_user_held : hoare around (get_user_by_oidc_id (sub c)) (λ u, within (λ d, match u with Some a => held true (pk a) d | None => True end)) around.
Proof.
  unfold get_user_by_oidc_id. destruct (sub c) as [[|ch s]|] eqn:Es; [by apply inside_ret| |by apply inside_ret].
  step. cbn. split; [done|]. destruct (List.filter _ _) as [|b [|]] eqn:E; [done| |done]. unfold account_of. destruct (List.find _ _) as [a|] eqn:Ea; [|done].
  apply find_some in Ea as [Ha Ei]. apply Nat.eqb_eq in Ei. assert (b ∈ oidc_user_ids d ∧ iexact (oidc_sub b) (String ch s) = true) as [Hb Hi].
  { assert (b ∈ [b]) as H by left. rewrite <- E in H. by apply elem_of_filterb in H. }
  split; [apply (wf_next d Hwf), list_elem_of_In, Ha|]. intros _ _. by exists b, (String ch s).
Qed.
Lemma create_held n : hoare around (create_user n c) (λ a, within (held true (pk a))) around.
Proof.
  unfold create_user. eapply (inside_bind wf ok _ _ _ (λ u, held false (pk u))).
  { step. pose proof (get_or_create_wf n d Hwf) as H. destruct (get_or_create_account n d) as [[a|] d']; [|done]. destruct H as (? & Ha & _ & ? & _).
    split; [done|]. split; [|done]. by apply (wf_next d'). }
  intros u. eapply (inside_bind wf ok _ _ _ (λ u, held false (pk u))); [apply update_roles_held|]. clear u. intros u.
  eapply (inside_bind wf ok _ _ _ (λ _, held false (pk u))); [apply update_groups_held|]. intros [].
  eapply (inside_bind wf ok _ _ _ (λ _, held true (pk u))); [|intros []; by apply inside_ret].
  unfold create_oidc_user_id. step. pose proof (bind_user_wf (pk u) (sub c) d Hwf) as H. destruct (bind_user _ _ d) as [[[]|e] d']; [|by subst].
  destruct H as (? & _ & _ & En & (b & Hb & Ei & Es) & _). split; [done|]. split; [rewrite En; apply Hd|]. intros _ _. exists b, (oidc_sub b).
  repeat split; [done..|]. apply iexact_refl.
Qed.
Lemma update_user_held u n : hoare (within (held true (pk u))) (update_user u n c) (λ a, within (held true (pk a))) around.
Proof.
  unfold update_user. eapply (inside_bind wf ok _ _ _ (λ u, held true (pk u))).
  { destruct (String.eqb _ _); [by apply inside_ret|]. eapply (inside_bind wf ok _ _ _ (λ _, held true (pk u))); [by apply save_held|]. intros []. by apply inside_ret. }
  intros v. eapply (inside_bind wf ok _ _ _ (λ u, held true (pk u))); [apply update_roles_held|]. clear u v. intros u.
  eapply (inside_bind wf ok _ _ _ (λ _, held true (pk u))); [apply update_groups_held|]. intros []. by apply inside_ret.
Qed.
Lemma login_held : hoare around (get_or_create_user c) (λ a s, within (held true (pk a)) s ∧ seen s = committed s) around.
Proof.
  apply (login_inside wf ok c (λ a, held true (pk a))). intros n _. apply (atomic_inside wf ok _ (λ a, held true (pk a))). eapply hoare_bind; [apply get_user_held|].
  intros [u|]; [apply update_user_held|]. eapply hoare_bind; [apply archive_around; [|done]|intros []; apply create_held].
  intros o d Ho Hd. destruct (Ho d Hd) as (? & ? & _). done.
Qed.
End others.

(** The bindings of the identity itself. *)
Definition of_identity (c : claims) (b : binding) : Prop := ∃ s, sub c = Some s ∧ iexact (oidc_sub b) s = true.
Definition request (d : db) (l : list moment) : session := {| seen := d; committed := d; later := l |}.
Lemma request_outside ok d l : wf d → Forall ok l → outside wf ok (request d l).
Proof. by intros ? ?; split; [|split; [|split]]. Qed.

(** C5: A login ends in an account that is bound to the identity of the claims, up to
    the case of its subject, whatever other requests commit between its statements and
    whichever races it loses, as long as they take no binding of that identity away; a
    name alone never gives access to an account. *)
Theorem own_identity c d l a s :
  wf d → Forall (respects (of_identity c)) l → get_or_create_user c (request d l) = (Ok a, s) →
  known c (pk a) (committed s) ∧ wf (committed s).
Proof.
  intros Hd Hl E. pose proof (login_held (of_identity c) c (request d l) (request_outside _ d l Hd Hl)) as H. rewrite E in H.
  destruct H as [(? & [_ Hk] & ? & _) <-]. split; [|done]. apply Hk; [done|]. intros b s' Hs Hi. by exists s'.
Qed.

(** Logins keep the database well formed, whether they succeed or raise: users have
    one key and one name each, identities and groups belong to users that exist, and no
    user has two. *)
Theorem logins_keep_wf c d l : wf d → Forall (respects (λ _, False)) l → wf (committed (get_or_create_user c (request d l)).2).
Proof.
  intros Hd Hl. pose proof (login_held (λ _, False) c (request d l) (request_outside _ d l Hd Hl)) as H.
  destruct (get_or_create_user c (request d l)) as [[a|e] s]; [destruct H as [H _]|]; apply H.
Qed.

(** ** All or nothing *)

(** What is committed are the commits of others. *)
Definition by_others (d : db) (l : list moment) (s : session) : Prop :=
  ∃ past, l = past ++ later s ∧ committed s = foldl (λ d o, commits o d) d past.
Section transactions.
Context (d : db) (l : list moment).
Lemma statement_by_others {A} (m : M db A) : preserves (by_others d l) (statement m).
Proof.
  intros s (past & El & Ec). unfold statement. destruct (later s) as [|o k] eqn:E.
  - assert (by_others d l {| seen := seen s; committed := committed s; later := [] |}) as H by (by exists past).
    destruct (conflict quiet); [by exists past|]. destruct (m _) as [[a|e] d']; by exists past.
  - assert (∀ x, by_others d l {| seen := x; committed := commits o (committed s); later := k |}) as H.
    { intros x. exists (past ++ [o]). split; [by rewrite El, <- app_assoc|]. rewrite foldl_app. cbn. by rewrite <- Ec. }
    destruct (conflict o); [apply H|]. destruct (m _) as [[a|e] d']; apply H.
Qed.
#[local] Hint Resolve statement_by_others : preserves.
Lemma atomic_by_others {A} (m : M session A) :
  preserves (by_others d l) m → hoare (by_others d l) (atomic m) (λ _ _, True) (λ s, by_others d l s ∧ seen s = committed s).
Proof.
  intros Hm s (past & El & Ec). unfold atomic. specialize (Hm {| seen := committed s; committed := committed s; later := later s |}).
  destruct (m _) as [[a|e] s']; [done|]. split; [|done]. destruct Hm as (past' & El' & Ec'); [by exists past|by exists past'].
Qed.
Lemma for_each_by_others {A} (f : A → M session unit) (k : list A) :
  (∀ x, preserves (by_others d l) (f x)) → preserves (by_others d l) (for_each k f).
Proof. intros H. by apply hoare_for_each. Qed.
Lemma sign_in_by_others n c : hoare (by_others d l) (sign_in n c) (λ _ _, True) (λ s, by_others d l s ∧ seen s = committed s).
Proof.
  assert (∀ u, preserves (by_others d l) (update_roles u c)) as Hr by (intros u; unfold update_roles; keep).
  assert (∀ u, preserves (by_others d l) (update_groups u c)) as Hg by (intros u; unfold update_groups; keep).
  apply atomic_by_others. apply preserves_bind; [unfold get_user_by_oidc_id; keep|]. intros [u|].
  - unfold update_user. keep.
  - apply preserves_bind; [|intros []; unfold create_user, create_oidc_user_id; keep].
    unfold archive_old_user. apply preserves_bind; [keep|]. intros k. apply for_each_by_others. intros x. unfold archive. keep.
Qed.
End transactions.

(** C7: A login that raises leaves nothing behind: what is committed afterwards is what
    others committed meanwhile, in their order, even when an identity was refused after
    its roles and groups had been written. *)
Theorem login_all_or_nothing c d l e s :
  get_or_create_user c (request d l) = (Raise e, s) →
  ∃ past, l = past ++ later s ∧ committed s = foldl (λ d o, commits o d) d past.
Proof.
  intros E. assert (by_others d l (request d l)) as H0 by by exists [].
  enough (by_others d l s) as H by done. revert E. unfold get_or_create_user. destruct (login_name c) as [n|e']; [|by intros [= _ <-]].
  rewrite lift_bind. unfold try_except. pose proof (sign_in_by_others d l n c _ H0) as H. destruct (sign_in n c (request d l)) as [[a|e'] s']; [done|].
  destruct H as [H _]. destruct e'; try by intros [= _ <-]. intros E. pose proof (sign_in_by_others d l n c _ H) as H'. rewrite E in H'. by destruct H'.
Qed.

(** ** What a login grants *)

(** The names of the groups that the claims list. *)
Definition listed_groups (c : claims) : list string := match groups c with Listed l => lstrip_slash <$> l | _ => [] end.
Definition administrator (c : claims) : bool := bool_decide ("admin"%string ∈ listed_groups c) || is_service_account c.
(** The user as the group checks see it. *)
Definition profile (a : account) (d : db) : User :=
  {| user_id := pk a; username := name a; is_superuser := superuser a; is_staff := staff a; user_groups := groups_of (pk a) d |}.
Definition has_roles (c : claims) (a : account) : Prop := superuser a = administrator c ∧ staff a = administrator c ∧ groups c ≠ Null.
Definition has_groups (c : claims) (i : nat) (d : db) : Prop :=
  (∀ g, g ∈ groups_of i d ↔ g ∈ listed_groups c) ∧ (groups c = Missing → is_service_account c = true).
Definition granted (n : string) (c : claims) (a : account) (d : db) : Prop :=
  a ∈ accounts d ∧ name a = n ∧ has_roles c a ∧ has_groups c (pk a) d.

Lemma sort_same l k g : sort l = sort k → g ∈ l ↔ g ∈ k.
Proof.
  intros E. pose proof (merge_sort_Permutation String.le l) as Hl. pose proof (merge_sort_Permutation String.le k) as Hk.
  unfold sort in E. rewrite E in Hl. by rewrite <- Hl, Hk.
Qed.
Lemma sorted_in l g : g ∈ sort l ↔ g ∈ l.
Proof. unfold sort. by rewrite merge_sort_Permutation. Qed.

Section alone.
Context (c : claims).
Let quietly : (db → Prop) → session → Prop := inside wf (λ o, o = quiet).
Let rest : session → Prop := outside wf (λ o, o = quiet).
Local Lemma quiet_stable R : stable wf (λ o, o = quiet) R.
Proof. by intros o d -> _. Qed.
Local Lemma quiet_wf o d : o = quiet → wf d → wf (commits o d).
Proof. by intros ->. Qed.
#[local] Hint Resolve quiet_stable quiet_wf : core.
Local Ltac step := apply statement_inside; auto; intros d [Hwf Hd].

Lemma saved_in u d d' : save u d = (Ok tt, d') → u ∈ accounts d'.
Proof.
  pose proof (save_spec u d) as H. intros E. rewrite E in H. destruct H as [_ ->]. cbn. destruct (exists_account _ d) eqn:Ee; [|by apply elem_of_app; right; left].
  apply replaced_in. left. split; [done|]. by apply exists_account_in.
Qed.
(** Saving an account with another name or other roles. *)
Lemma save_granted u v : pk v = pk u → hoare (quietly (λ d, u ∈ accounts d)) (statement (save v)) (λ _, quietly (λ d, v ∈ accounts d)) rest.
Proof.
  intros Ep. step. assert (pk v < next_pk d)%nat as Hv by (rewrite Ep; by apply (wf_next d)).
  pose proof (save_wf v d Hwf Hv) as H. destruct (save v d) as [[[]|e] d'] eqn:E; destruct H as (? & _); [|done].
  split; [done|]. by apply saved_in with d.
Qed.
Lemma update_roles_granted u n :
  hoare (quietly (λ d, u ∈ accounts d ∧ name u = n)) (update_roles u c) (λ a, quietly (λ d, a ∈ accounts d ∧ name a = n ∧ has_roles c a)) rest.
Proof.
  unfold update_roles. eapply (inside_bind wf _ _ _ _ (λ l d, u ∈ accounts d ∧ name u = n ∧ is_admin l c = administrator c ∧ groups c ≠ Null)).
  { apply inside_lift. intros l d El _ [Hu Hn]. do 2 (split; [done|]). unfold administrator, listed_groups, is_admin. by destruct (groups c); simplify_eq. }
  intros l. apply hoare_start. intros s Hs. assert (name u = n ∧ is_admin l c = administrator c ∧ groups c ≠ Null) as (Hn & El & Hg) by apply Hs.
  apply (hoare_weaken _ (quietly (λ d, u ∈ accounts d ∧ name u = n ∧ is_admin l c = administrator c ∧ groups c ≠ Null))) with (Q' := λ a, quietly (λ d, a ∈ accounts d ∧ name a = n ∧ has_roles c a)) (E' := rest); [|by intros ? ->|done|done].
  clear s Hs. rewrite El. destruct (negb _ || negb _) eqn:E.
  - eapply (inside_bind wf _ _ _ _ (λ _ d, with_roles (administrator c) u ∈ accounts d)).
    + eapply hoare_weaken; [by apply (save_granted u)|intros s; apply inside_weaken; by intros d _ [Hu _]|done|done].
    + intros []. by apply inside_ret.
  - apply orb_false_iff in E as [E1%negb_false_iff%eqb_prop E2%negb_false_iff%eqb_prop]. apply inside_ret. by intros d _ [Hu _].
Qed.
Lemma update_groups_granted u n :
  hoare (quietly (λ d, u ∈ accounts d ∧ name u = n ∧ has_roles c u)) (update_groups u c) (λ _, quietly (granted n c u)) rest.
Proof.
  unfold update_groups.
  eapply (inside_bind wf _ _ _ _ (λ l d, (u ∈ accounts d ∧ name u = n ∧ has_roles c u) ∧ lstrip_slash <$> l = listed_groups c ∧ (groups c = Missing → is_service_account c = true))).
  { apply inside_lift. intros l d El _ Hu. split; [done|]. destruct Hu as (_ & _ & Es & Et & Hn). revert El. unfold listed_groups.
    rewrite Es, Et. unfold administrator, listed_groups. destruct (groups c); [|done|by intros [= ->]].
    rewrite bool_decide_eq_false_2 by apply not_elem_of_nil. destruct (is_service_account c); by intros [= <-]. }
  intros l. eapply (inside_bind wf _ _ _ _ (λ own d, ((u ∈ accounts d ∧ name u = n ∧ has_roles c u) ∧ lstrip_slash <$> l = listed_groups c ∧ (groups c = Missing → is_service_account c = true)) ∧ own = sort (groups_of (pk u) d))).
  { by step. }
  intros own. case_bool_decide as Eo.
  - apply inside_ret. intros d _ [((Hu & Hn & Hr) & El & Hs) ->]. split; [done|]. split; [done|]. split; [done|]. split; [|done].
    intros g. rewrite <- El. symmetry. by apply sort_same.
  - step. destruct Hd as [((Hu & Hn & Hr) & El & Hs) _]. pose proof (set_groups_wf (pk u) (sort (lstrip_slash <$> l)) d Hwf) as H.
    destruct (set_groups _ _ d) as [[[]|e] d']; [|by subst]. destruct H as (? & Ea & _ & _ & Hg & _). split; [done|]. unfold granted. rewrite Ea.
    split; [done|]. split; [done|]. split; [done|]. split; [|done]. intros g. by rewrite Hg, sorted_in, El.
Qed.
Lemma roles_and_groups u n :
  hoare (quietly (λ d, u ∈ accounts d ∧ name u = n)) (a ← update_roles u c; update_groups a c;; mret a) (λ a, quietly (granted n c a)) rest.
Proof.
  eapply (inside_bind wf _ _ _ _ _ _ (update_roles_granted u n)). intros a.
  eapply (inside_bind wf _ _ _ _ _ _ (update_groups_granted a n)). intros []. by apply inside_ret.
Qed.
Lemma sign_in_granted n : hoare rest (sign_in n c) (λ a s, quietly (granted n c a) s ∧ seen s = committed s) rest.
Proof.
  apply (atomic_inside wf _ _ (granted n c)). eapply hoare_bind with (R := λ u, quietly (λ d, match u with Some a => a ∈ accounts d | None => True end)).
  - unfold get_user_by_oidc_id. destruct (sub c) as [[|ch s]|]; [by apply inside_ret| |by apply inside_ret].
    step. cbn. split; [done|]. destruct (List.filter _ _) as [|b [|]]; [done| |done]. unfold account_of. destruct (List.find _ _) as [a|] eqn:Ea; [|done].
    apply find_some in Ea as [Ha _]. by apply list_elem_of_In.
  - intros [u|].
    + unfold update_user. eapply (inside_bind wf _ _ _ _ (λ u d, u ∈ accounts d ∧ name u = n)); [|intros v; apply roles_and_groups].
      destruct (String.eqb_spec (name u) n); [by apply inside_ret|].
      eapply (inside_bind wf _ _ _ _ (λ _ d, with_name n u ∈ accounts d)); [by apply (save_granted u)|]. intros []. by apply inside_ret.
    + eapply hoare_bind; [apply archive_around; [by intros o d ->|done]|]. intros []. unfold create_user.
      eapply (inside_bind wf _ _ _ _ (λ u d, u ∈ accounts d ∧ name u = n)).
      { step. pose proof (get_or_create_wf n d Hwf) as H. destruct (get_or_create_account n d) as [[a|] d']; [|done]. by destruct H as (? & ? & ? & _). }
      intros u. eapply (inside_bind wf _ _ _ _ _ _ (update_roles_granted u n)). clear u. intros u.
      eapply (inside_bind wf _ _ _ _ _ _ (update_groups_granted u n)). intros [].
      eapply (inside_bind wf _ _ _ _ (λ _, granted n c u)); [|intros []; by apply inside_ret].
      unfold create_oidc_user_id. step. pose proof (bind_user_wf (pk u) (sub c) d Hwf) as H. destruct (bind_user _ _ d) as [[[]|e] d']; [|by subst].
      destruct H as (? & Ea & Em & _). split; [done|]. revert Hd. unfold granted, has_groups, groups_of. by rewrite Ea, Em.
Qed.
End alone.

(** C6: The claims decide what a user may do: when no other request interferes, the
    account of a login has the name of the claims, is a superuser and staff exactly for
    administrators and service accounts, and is in the groups of the claims and no
    others, so that it owns an object when it is an administrator, the object has no
    groups, or the claims list one of them. Without groups only a service account
    can log in. *)
Theorem access_follows_claims c d a s :
  wf d → get_or_create_user c (request d []) = (Ok a, s) →
  let d' := committed s in
  a ∈ accounts d' ∧ login_name c = Ok (name a) ∧ superuser a = administrator c ∧ staff a = administrator c ∧
  (∀ g, g ∈ groups_of (pk a) d' ↔ g ∈ listed_groups c) ∧
  (groups c = Missing ∧ is_service_account c = true ∨ ∃ l, groups c = Listed l) ∧
  ∀ gs, validate_user_is_owner (profile a d') (Some gs)
    = administrator c || bool_decide (gs = []) || existsb (λ g, bool_decide (g ∈ gs)) (listed_groups c).
Proof.
  intros Hd E d'. pose proof (login_inside wf (λ o, o = quiet) c (λ a d, ∃ n, login_name c = Ok n ∧ granted n c a d)) as H.
  specialize (λ H1, H H1 _ (request_outside _ d [] Hd (List.Forall_nil _))). rewrite E in H. destruct H as [(_ & (n & En & Ha & Ename & (Es & Et & Hn) & Hg & Hm) & _) Ed].
  { intros n En. eapply hoare_weaken; [apply (sign_in_granted c n)|done| |done]. intros x y [Hq ->]. split; [|done]. revert Hq. apply inside_weaken. eauto. }
  rewrite Ed in *. subst n. do 4 (split; [done|]). split; [done|]. split.
  { destruct (groups c); [left; by auto|done|right; eauto]. }
  intros gs. destruct (administrator c) eqn:Ea.
  - unfold validate_user_is_owner, privileged. cbn. by rewrite Es.
  - rewrite owner_spec by (unfold privileged; cbn; by rewrite Es, Et). f_equal. unfold shares_group. cbn.
    apply eq_true_iff_eq. rewrite !existsb_exists. split; intros (g & Hin%list_elem_of_In & Hb); exists g; (split; [|done]); by apply list_elem_of_In, Hg.
Qed.

(** ** The accounts of others *)

Lemma append_cancel a b s : (a +:+ s = b +:+ s → a = b)%string.
Proof.
  revert b. induction a as [|x a IH]; intros [|y b] E; cbn in E; [done| | |].
  - apply (f_equal String.length) in E. cbn in E. rewrite string_length_app in E. lia.
  - apply (f_equal String.length) in E. cbn in E. rewrite string_length_app in E. lia.
  - injection E as -> E. by rewrite (IH b E).
Qed.

Section untouched.
Context (c : claims) (n : string) (d0 : db) (v : account).
Context (Hd0 : wf d0) (Hv : v ∈ accounts d0).
(** [v] was archived for this identity before. *)
Definition was_archived : Prop := ∃ m, iexact m n = true ∧ name v = (m +:+ ("-" +:+ sub_text (sub c)))%string.
Context (Hnot : ¬ was_archived).
(** An account with its groups and its identity. *)
Definition same_rows (v' : account) (d : db) : Prop :=
  v' ∈ accounts d ∧ groups_of (pk v') d = groups_of (pk v') d0 ∧ ∀ b, owner b = pk v' → (b ∈ oidc_user_ids d ↔ b ∈ oidc_user_ids d0).
Definition fate (l : list account) (d : db) : Prop :=
  same_rows v d ∨ (iexact (name v) n = true ∧ (v ∉ l) ∧ same_rows (archived (sub c) v) d).
Let quietly : (db → Prop) → session → Prop := inside wf (λ o, o = quiet).
Let rest : session → Prop := outside wf (λ o, o = quiet).
Local Lemma quiet_keeps R : stable wf (λ o, o = quiet) R.
Proof. by intros o d -> _. Qed.
Local Lemma quiet_commits o d : o = quiet → wf d → wf (commits o d).
Proof. by intros ->. Qed.
#[local] Hint Resolve quiet_keeps quiet_commits : core.
Local Ltac step := apply statement_inside; auto; intros d [Hwf Hd].

Lemma fate_weaken l d : fate l d → fate [] d.
Proof. intros [H|(Hi & _ & H)]; [by left|right]. split; [done|]. split; [apply not_elem_of_nil|done]. Qed.
(** Steps that touch other accounts only. *)
Lemma same_rows_saved u d d' v' : save u d = (Ok tt, d') → pk v' ≠ pk u → same_rows v' d → same_rows v' d'.
Proof.
  intros E Hn (Ha & Hg & Hb). pose proof (save_spec u d) as H. rewrite E in H. destruct H as [_ ->]. split; [|done]. cbn.
  destruct (exists_account _ d); [apply replaced_in; by right|apply elem_of_app; by left].
Qed.
Lemma same_rows_deleted p d v' : p v' = false → same_rows v' d → same_rows v' (delete_accounts p d).
Proof.
  intros Hp (Ha & Hg & Hb). assert (v' ∈ List.filter (λ a, negb (p a)) (accounts d)) as Hin by (apply elem_of_filterb; by rewrite Hp).
  assert (existsb (λ a, (pk a =? pk v')%nat) (List.filter (λ a, negb (p a)) (accounts d)) = true) as Hs.
  { apply existsb_exists. exists v'. split; [by apply list_elem_of_In|apply Nat.eqb_refl]. }
  split; [done|]. split.
  - rewrite <- Hg. unfold groups_of. cbn. f_equal. induction (members d) as [|[i g] l IH]; cbn; [done|].
    destruct (Nat.eqb_spec i (pk v')) as [->|Hi]; [rewrite Hs; cbn; by rewrite Nat.eqb_refl, IH|].
    destruct (existsb (λ a, (pk a =? i)%nat) _); cbn; by rewrite ?(proj2 (Nat.eqb_neq i (pk v')) Hi).
  - intros b Eb. cbn. rewrite elem_of_filterb, Eb, Hs, <- (Hb b Eb). tauto.
Qed.
Lemma same_rows_groups u l d d' v' : wf d → set_groups (pk u) l d = (Ok tt, d') → pk v' ≠ pk u → same_rows v' d → same_rows v' d'.
Proof.
  intros Hwf E Hn (Ha & Hg & Hb). pose proof (set_groups_wf (pk u) l d Hwf) as H. rewrite E in H. destruct H as (_ & Ea & _ & Ei & _ & H).
  unfold same_rows. by rewrite Ea, Ei, H.
Qed.
Lemma fate_saved u l d d' : save u d = (Ok tt, d') → pk v ≠ pk u → fate l d → fate l d'.
Proof. intros E Hn [H|(Hi & Hl & H)]; [left; by eapply same_rows_saved|right]. do 2 (split; [done|]). by eapply same_rows_saved. Qed.

Lemma archive_fate u l : u ∈ accounts d0 → iexact (name u) n = true → NoDup (u :: l) →
  hoare (quietly (λ d, fate (u :: l) d ∧ (next_pk d0 ≤ next_pk d)%nat)) (archive (sub c) u) (λ _, quietly (λ d, fate l d ∧ (next_pk d0 ≤ next_pk d)%nat)) rest.
Proof.
  intros Hu Hi [Hul _]%NoDup_cons. unfold archive.
  eapply (inside_bind wf _ _ _ _ (λ _ d, fate (u :: l) d ∧ (next_pk d0 ≤ next_pk d)%nat)).
  - step. destruct Hd as [Hf Hn]. split; [by apply delete_wf|]. split; [|done]. destruct Hf as [H|(Hiv & Hl & H)].
    + left. apply same_rows_deleted; [|done]. destruct (String.eqb_spec (name v) (archived_name (sub c) u)) as [E|]; [|done].
      destruct Hnot. by exists (name u).
    + right. do 2 (split; [done|]). apply same_rows_deleted; [|done].
      destruct (String.eqb_spec (name (archived (sub c) v)) (archived_name (sub c) u)) as [E|]; [|done].
      apply append_cancel, (fmap_inj name (accounts d0)) in E; [|by apply wf_names|done..]. destruct Hl. rewrite E. by left.
  - intros []. step. destruct Hd as [Hf Hn]. pose proof (save_wf (archived (sub c) u) d Hwf) as Hsave.
    destruct (save (archived (sub c) u) d) as [[[]|e] d'] eqn:E; (destruct Hsave as (? & En & ?); [apply (wf_next d0 Hd0) in Hu; cbn; lia|]); [|done].
    split; [done|]. split; [|by rewrite En]. destruct (decide (pk u = pk v)) as [Ep|Ep].
    + apply (fmap_inj pk (accounts d0)) in Ep; [|by apply wf_pks|done..]. subst u. right. split; [done|]. split; [done|].
      destruct Hf as [(_ & Hg & Hb)|(_ & [] & _)]; [|by left]. split; [by apply saved_in with d|].
      pose proof (save_spec (archived (sub c) v) d) as H'. rewrite E in H'. by destruct H' as [_ ->].
    + destruct Hf as [H'|(Hiv & Hl & H')]; [left|right; split; [done|]; split; [by intros ?; apply Hl; right|]]; by eapply same_rows_saved; [..|apply H'].
Qed.
Lemma archive_old_fate : hoare (quietly (λ d, d = d0)) (archive_old_user n (sub c)) (λ _, quietly (fate [])) rest.
Proof.
  unfold archive_old_user. eapply hoare_bind with (R := λ l, quietly (λ d, (∀ u, u ∈ l → u ∈ accounts d0 ∧ iexact (name u) n = true) ∧ NoDup l ∧ fate l d ∧ (next_pk d0 ≤ next_pk d)%nat)).
  { step. subst d. cbn. split; [done|]. split; [by intros u [Hu [Hi _]%andb_true_iff]%elem_of_filterb|]. split; [|split; [by left|done]].
    apply NoDup_filterb. apply (NoDup_fmap_1 pk), Hd0. }
  intros l. apply hoare_start. intros s (Hwf & (Hl & HN & Hf) & Hrest).
  apply (hoare_weaken _ (quietly (λ d, fate l d ∧ (next_pk d0 ≤ next_pk d)%nat))) with (Q' := λ _, quietly (fate [])) (E' := rest); [|by intros ? ->|done|done].
  clear s Hwf Hf Hrest. induction l as [|u l IH]; cbn [for_each]; [apply inside_ret; by intros d _ [? _]|].
  eapply inside_bind; [apply archive_fate; [by apply Hl; left..|done]|]. intros []. apply IH; [intros w Hw; apply Hl; by right|by apply NoDup_cons in HN as [_ ?]].
Qed.
(** Steps on the account [u]: a key in use, and [v] as before unless it is [u]. *)
Definition apart (i : nat) (d : db) : Prop := (i < next_pk d)%nat ∧ (pk v ≠ i → fate [] d).
Lemma save_apart u : hoare (quietly (apart (pk u))) (statement (save u)) (λ _, quietly (apart (pk u))) rest.
Proof.
  step. destruct Hd as [Hu Hf]. pose proof (save_wf u d Hwf Hu) as Hs. destruct (save u d) as [[[]|e] d'] eqn:E; destruct Hs as (? & En & ?); [|done].
  split; [done|]. split; [by rewrite En|]. intros Hn. by apply (fate_saved u _ d); [..|apply Hf].
Qed.
Lemma update_roles_apart u : hoare (quietly (apart (pk u))) (update_roles u c) (λ a, quietly (apart (pk a))) rest.
Proof.
  unfold update_roles. eapply (inside_bind wf _ _ _ _ (λ _, apart (pk u))); [by apply inside_lift|]. intros l.
  destruct (_ || _); [|by apply inside_ret]. eapply (inside_bind wf _ _ _ _ (λ _, apart (pk u))); [|intros []; by apply inside_ret].
  apply (save_apart (with_roles (is_admin l c) u)).
Qed.
Lemma update_groups_apart u : hoare (quietly (apart (pk u))) (update_groups u c) (λ _, quietly (apart (pk u))) rest.
Proof.
  unfold update_groups. eapply (inside_bind wf _ _ _ _ (λ _, apart (pk u))); [by apply inside_lift|]. intros l.
  eapply (inside_bind wf _ _ _ _ (λ _, apart (pk u))); [by step|]. intros own. case_bool_decide; [by apply inside_ret|].
  step. destruct Hd as [Hu Hf]. pose proof (set_groups_wf (pk u) (sort (lstrip_slash <$> l)) d Hwf) as Hs.
  destruct (set_groups _ _ d) as [[[]|e] d'] eqn:E; [|by subst]. destruct Hs as (? & _ & En & _). split; [done|]. split; [by rewrite En|].
  intros Hn. destruct (Hf Hn) as [H'|(Hi & Hl & H')]; [left|right; do 2 (split; [done|])]; by apply (same_rows_groups u (sort (lstrip_slash <$> l)) d).
Qed.
Lemma create_apart : hoare (quietly (λ d, fate [] d)) (create_user n c) (λ a, quietly (apart (pk a))) rest.
Proof.
  unfold create_user. eapply (inside_bind wf _ _ _ _ (λ u, apart (pk u))).
  { step. pose proof (get_or_create_wf n d Hwf) as Hg. destruct (get_or_create_account n d) as [[a|] d'] eqn:E; [|done]. destruct Hg as (? & Ha & _ & _ & Eb).
    split; [done|]. split; [by apply (wf_next d')|]. intros _. revert E. unfold get_or_create_account. destruct (List.find _ _); [by intros [= _ <-]|].
    intros [= _ <-]. destruct Hd as [(H1 & H2 & H3)|(Hi & Hl & H1 & H2 & H3)]; [left|right; do 2 (split; [done|])];
      (split; [cbn; apply elem_of_app; by left|split; [exact H2|exact H3]]). }
  intros u. eapply (inside_bind wf _ _ _ _ (λ u, apart (pk u))); [apply update_roles_apart|]. clear u. intros u.
  eapply (inside_bind wf _ _ _ _ (λ _, apart (pk u))); [apply update_groups_apart|]. intros [].
  eapply (inside_bind wf _ _ _ _ (λ _, apart (pk u))); [|intros []; by apply inside_ret].
  unfold create_oidc_user_id. step. destruct Hd as [Hu Hf]. pose proof (bind_user_wf (pk u) (sub c) d Hwf) as Hb. destruct (bind_user _ _ d) as [[[]|e] d']; [|by subst].
  destruct Hb as (? & Ea & Em & En & _ & Hi). split; [done|]. split; [by rewrite En|]. intros Hn. specialize (Hf Hn).
  assert (∀ w, pk w = pk v → same_rows w d → same_rows w d') as Hw.
  { intros w Ew (H1 & H2 & H3). unfold same_rows, groups_of. rewrite Ea, Em. split; [done|]. split; [done|]. intros b Eo. rewrite <- (H3 b Eo).
    destruct Hi as [->|(t & _ & ->)]; [done|]. rewrite elem_of_app, list_elem_of_singleton. split; [|by left]. intros [H'| ->]; [done|]. cbn in Eo. by rewrite Eo in Hn. }
  destruct Hf as [H'|(Hx & Hl & H')]; [left|right; do 2 (split; [done|])]; by apply Hw.
Qed.
Lemma sign_in_apart s a s' : s = request d0 [] → sign_in n c s = (Ok a, s') → apart (pk a) (committed s').
Proof.
  intros ->. unfold sign_in, atomic. cbn [committed later request]. set (body := get_user_by_oidc_id (sub c) ≫= _).
  assert (hoare (quietly (λ d, d = d0)) body (λ a, quietly (apart (pk a))) rest) as H; [subst body|].
  - eapply hoare_bind with (R := λ u, quietly (λ d, match u with Some a => apart (pk a) d | None => d = d0 end)).
    + unfold get_user_by_oidc_id. destruct (sub c) as [[|ch t]|]; [by apply inside_ret| |by apply inside_ret].
      step. cbn. split; [done|]. destruct (List.filter _ _) as [|b [|]]; [done| |done]. unfold account_of. destruct (List.find _ _) as [w|] eqn:Ea; [|done].
      apply find_some in Ea as [Hw _]. subst d. split; [by apply (wf_next d0), list_elem_of_In|]. intros _. left. by split; [|split].
    + intros [u|].
      * unfold update_user. eapply (inside_bind wf _ _ _ _ (λ u, apart (pk u))).
        { destruct (String.eqb _ _); [by apply inside_ret|]. eapply (inside_bind wf _ _ _ _ (λ _, apart (pk u))); [apply (save_apart (with_name n u))|]. intros []. by apply inside_ret. }
        intros w. eapply (inside_bind wf _ _ _ _ (λ u, apart (pk u))); [apply update_roles_apart|]. clear u w. intros u.
        eapply (inside_bind wf _ _ _ _ (λ _, apart (pk u))); [apply update_groups_apart|]. intros []. by apply inside_ret.
      * eapply hoare_bind; [apply archive_old_fate|]. intros []. apply create_apart.
  - specialize (H (request d0 [])). unfold request in H. destruct (body _) as [[x|e] y]; [|done]. intros [= -> <-]. cbn. apply H.
    by split; [|split; [|split]].
Qed.
End untouched.

(** A login takes nothing from others. When no other request interferes, every other
    user keeps roles, groups and identity, and the whole row unless the name is the one
    that logs in (up to case): then that user is renamed after the new identity and is
    no longer active. (Only a user whose name says that it was renamed for this very
    identity before can be removed.) *)
Theorem others_untouched c d a s n v :
  wf d → login_name c = Ok n → get_or_create_user c (request d []) = (Ok a, s) → v ∈ accounts d → pk v ≠ pk a →
  (∀ m, iexact m n = true → name v ≠ m +:+ ("-" +:+ sub_text (sub c)))%string →
  ∃ v', v' ∈ accounts (committed s) ∧ (v' = v ∨ iexact (name v) n = true ∧ v' = archived (sub c) v) ∧
      groups_of (pk v) (committed s) = groups_of (pk v) d ∧ ∀ b, owner b = pk v → (b ∈ oidc_user_ids (committed s) ↔ b ∈ oidc_user_ids d).
Proof.
  intros Hd En E Hv Hn Hnot. unfold get_or_create_user in E. rewrite En, lift_bind in E.
  assert (∃ s0, s0 = request d [] ∧ sign_in n c s0 = (Ok a, s)) as (s0 & -> & E').
  { unfold try_except in E. assert (by_others d [] (request d [])) as H0 by by exists [].
    pose proof (sign_in_by_others d [] n c _ H0) as H. destruct (sign_in n c (request d [])) as [[x|e] s0] eqn:Es; [exists (request d []); by rewrite Es|].
    destruct H as [(past & Ep & Ec) Eq]. symmetry in Ep. apply app_nil in Ep as [-> El]. cbn in Ec.
    assert (s0 = request d []) as -> by (destruct s0; cbn in *; by subst). destruct e; try done. eauto. }
  destruct (sign_in_apart c n d v Hd Hv) with (request d []) a s as [_ Hf]; [by intros (m & Hm & Em); apply (Hnot m)|done..|].
  destruct (Hf Hn) as [(H1 & H2 & H3)|(Hi & _ & H1 & H2 & H3)]; [exists v|exists (archived (sub c) v)]; by repeat (split; [by auto|]).
Qed.

(** ** Witnesses and what goes wrong *)

Definition after (c : claims) (d : db) : db := committed (get_or_create_user c (request d [])).2.
Definition two_users : db := after (as_user "s2" "bob" ["admin"])%string (after (as_user "s1" "ann" ["/uk"; "eu"])%string empty_db).
Lemma two_users_wf : wf two_users.
Proof.
  assert (wf empty_db) as H0 by (split; cbn; first [apply NoDup_nil_2|by intros ? ?%elem_of_nil]).
  unfold two_users. set (c := as_user "s2" _ _). set (c' := as_user "s1" _ _). do 2 (apply logins_keep_wf; [|constructor]). done.
Qed.
(** Another request creates a user and wins a race. *)
Definition zoe_first : moment := {| commits := λ d, (get_or_create_account "zoe" d).2; conflict := true |}.
Lemma zoe_respects keep : respects keep zoe_first.
Proof.
  intros d Hd. pose proof (get_or_create_wf "zoe" d Hd) as H. cbn. destruct (get_or_create_account "zoe" d) as [[a|e] d']; [|done].
  destruct H as (? & _ & _ & ? & E). split; [done|]. split; [done|]. cbn. by rewrite E.
Qed.
Definition ann_again : claims := as_user "S1" "ann" ["us"]%string.
Lemma own_identity_witness :
  match get_or_create_user ann_again (request two_users [quiet; zoe_first]) with
  | (Ok a, s) => pk a = 1%nat ∧ known ann_again (pk a) (committed s) ∧ overview (committed s) =
      [(1, "ann", false, ["us"]); (2, "bob", true, ["admin"]); (3, "zoe", false, [])]%nat%string
  | _ => False
  end.
Proof.
  pose proof (own_identity ann_again two_users [quiet; zoe_first]) as H.
  destruct (get_or_create_user ann_again (request two_users [quiet; zoe_first])) as [[a|e] s] eqn:E; [|by vm_compute in E].
  destruct (H a s two_users_wf) as [Hk _]; [|done|split; [|split; [done|]]; vm_compute in E; by injection E as <- <-].
  apply Forall_cons. split; [by split|]. apply Forall_singleton, zoe_respects.
Defined.
Lemma login_all_or_nothing_witness :
  let '(r, s) := get_or_create_user (as_user "s3" "bob" [])%string (request two_users [quiet; quiet; quiet; zoe_first; zoe_first]) in
  r = Raise IntegrityError ∧ overview (committed s) = [(1, "ann", false, ["eu"; "uk"]); (2, "bob", true, ["admin"]); (3, "zoe", false, [])]%nat%string ∧
  ∃ past, [quiet; quiet; quiet; zoe_first; zoe_first] = past ++ later s ∧ committed s = foldl (λ d o, commits o d) two_users past.
Proof.
  destruct (get_or_create_user _ _) as [[a|e] s] eqn:E; [by vm_compute in E|].
  split; [vm_compute in E; by injection E as <- <-|]. split; [vm_compute in E; by injection E as <- <-|].
  by apply (login_all_or_nothing _ _ _ _ _ E).
Defined.
Lemma access_follows_claims_witness :
  match get_or_create_user ann_again (request two_users []) with
  | (Ok a, s) => (∀ g, g ∈ groups_of (pk a) (committed s) ↔ g ∈ ["us"]%string) ∧
      validate_user_is_owner (profile a (committed s)) (Some ["eu"; "us"]%string) = true ∧ validate_user_is_owner (profile a (committed s)) (Some ["eu"]%string) = false
  | _ => False
  end.
Proof.
  destruct (get_or_create_user ann_again (request two_users [])) as [[a|e] s] eqn:E; [|by vm_compute in E].
  destruct (access_follows_claims ann_again two_users a s two_users_wf E) as (_ & _ & _ & _ & Hg & _ & Ho).
  split; [exact Hg|]. split; by rewrite Ho.
Defined.
Lemma others_untouched_witness :
  match get_or_create_user (as_user "s3" "Bob" [])%string (request two_users []) with
  | (Ok a, s) => pk a = 3%nat ∧ ∃ v, v ∈ accounts (committed s) ∧ name v = "bob-s3"%string ∧ is_active v = false ∧ superuser v = true ∧ groups_of 2 (committed s) = ["admin"]%string
  | _ => False
  end.
Proof.
  destruct (get_or_create_user _ _) as [[a|e] s] eqn:E; [|by vm_compute in E].
  set (bob := {| pk := 2; name := "bob"; is_active := true; superuser := true; staff := true |}).
  assert (pk a = 3%nat ∧ groups_of 2 two_users = ["admin"]%string ∧ bob ∉ accounts (committed s)) as (Ea & Eg & Hb).
  { vm_compute in E. injection E as <- <-. split; [done|]. split; [done|]. rewrite list_elem_of_In. cbn. naive_solver. }
  split; [done|]. destruct (others_untouched (as_user "s3" "Bob" [])%string two_users a s "Bob" bob two_users_wf) as (v & Hv & Hw & Hg & _);
    [done|done|vm_compute; by right; left|by rewrite Ea|..].
  - intros m Hm%(f_equal (λ b, b)) En. apply String.eqb_eq, (f_equal String.length) in Hm.
    assert (∀ t, String.length (lower t) = String.length t) as Hl by (intros t; induction t; cbn; congruence).
    rewrite !Hl in Hm. apply (f_equal String.length) in En. rewrite !string_length_app, Hm in En. done.
  - destruct Hw as [->|[_ ->]]; [by destruct Hb|]. exists (archived (Some "s3"%string) bob). split; [exact Hv|]. split; [done|]. split; [done|]. split; [done|]. exact (eq_trans Hg Eg).
Defined.

(** Subjects that differ in case are one identity. *)
Lemma subjects_ignore_case :
  let '(rs, d) := logins [as_user "aB3" "ann" ["admin"]; as_user "Ab3" "eve" ["admin"]]%string empty_db in
  rs = [Ok 1; Ok 1]%nat ∧ overview d = [(1, "eve", true, ["admin"])]%nat%string.
Proof. vm_compute. done. Qed.
(** A superuser whose claims have no groups is made an ordinary user first, and then
    refused for having no groups. *)
Lemma superuser_without_groups :
  (logins [{| sub := Some "s2"; preferred_username := Some "bob"; is_service_account := false; groups := Missing |}]%string two_users).1
  = [Raise (SuspiciousOperation "No group found in claim / user_info")].
Proof. vm_compute. done. Qed.
(** A new name that is taken is never given, and every login fails. *)
Lemma taken_name : (logins [as_user "s1" "bob" []; as_user "s1" "bob" []]%string two_users).1 = [Raise IntegrityError; Raise IntegrityError].
Proof. vm_compute. done. Qed.
(** Claims without a subject pass the check for it and fail in the database. *)
Lemma subject_missing :
  (logins [{| sub := None; preferred_username := Some "dan"; is_service_account := false; groups := Listed [] |}]%string two_users).1 = [Raise IntegrityError].
Proof. vm_compute. done. Qed.
(** Someone who was archived and comes back stays inactive. *)
Lemma archived_stays_inactive :
  let '(rs, d) := logins [as_user "s3" "Bob" []; as_user "s2" "bob" ["admin"]]%string two_users in
  rs = [Ok 3; Ok 2]%nat ∧ (λ a, (name a, is_active a)) <$> accounts d = [("ann", true); ("bob", false); ("Bob", true)]%string.
Proof. vm_compute. done. Qed.
