(* ===== verification/Portfolios.v ===== *)
(** * Portfolios

    src/server/oasisapi/portfolios: a portfolio holds the exposure files of a user
    (models.py), which requests upload, replace and remove (v2_api/viewsets.py,
    v2_api/serializers.py, and [handle_related_file] of files/v2_api/views.py), and starts
    jobs of the internal worker that validate, run and transform them, whose results are
    recorded by tasks (v2_api/tasks.py). A request or a report is one step here: what
    others do between its statements is not modelled, nor are serializers and uploads to
    S3 or Azure. Of the conversion of files, which [FileConversion] models, only the
    mapping file is here, since its deletion cascades to files and portfolios. *)

From stdpp Require Import functions.
From S2P Require Import Prelude PyData Groups Files.
Local Open Scope Z_scope.

(** ** State *)

(** The file fields of a portfolio. *)
Inductive slot :=
  | accounts_file | location_file | reinsurance_info_file | reinsurance_scope_file
  | exposure_run_file | transform_file | mapping_file | run_errors_file | currency_conversion_json.
#[export] Instance slot_eq_dec : EqDecision slot.
Proof. solve_decision. Defined.
Definition oed_files : list slot := [accounts_file; location_file; reinsurance_info_file; reinsurance_scope_file].
Definition all_slots : list slot := oed_files ++ [exposure_run_file; transform_file; mapping_file; run_errors_file; currency_conversion_json].

(** The choices of the three status fields. *)
Inductive run_status := NONE | INSUFFICIENT_DATA | STARTED | ERROR | RUN_COMPLETED.
#[export] Instance run_status_eq_dec : EqDecision run_status.
Proof. solve_decision. Defined.

Record RelatedFile := { file : string; filename : string; file_groups : list string; oed_validated : bool; converted_with : option Z }.
#[export] Instance RelatedFile_settable : Settable RelatedFile := λ f,
  {| file := file f; filename := filename f; file_groups := file_groups f; oed_validated := oed_validated f; converted_with := converted_with f |}.
Record Portfolio := {
  refs : slot → option Z; portfolio_groups : list string; reporting_currency : string;
  exposure_status : run_status; validation_status : run_status; exposure_transform_status : run_status }.
#[export] Instance Portfolio_settable : Settable Portfolio := λ p,
  {| refs := refs p; portfolio_groups := portfolio_groups p; reporting_currency := reporting_currency p;
     exposure_status := exposure_status p; validation_status := validation_status p; exposure_transform_status := exposure_transform_status p |}.
Definition setattr (s : slot) (v : option Z) (p : Portfolio) : Portfolio := p <| refs := <[s := v]> (refs p) |>.

(** What a job of the internal worker is given, and the report that is linked to it. *)
Record exposure := {
  location : option string; account : option string; ri_info : option string; ri_scope : option string;
  currency_conversion : option string; currency : string }.
Inductive job :=
  | run_oed_validation (x : exposure) (portfolio_pk user_pk : Z)
  | run_exposure_run (x : exposure) (params : json) (portfolio_pk user_pk : Z)
  | run_exposure_transform (filepath mapping : option string) (portfolio_pk user_pk : Z) (file_type : string) (validate : exposure).

Record Db := { portfolios : gmap Z Portfolio; related : gmap Z RelatedFile; next_file : Z; users : gmap Z User; queue : list job }.
#[export] Instance Db_settable : Settable Db := λ d,
  {| portfolios := portfolios d; related := related d; next_file := next_file d; users := users d; queue := queue d |}.

Definition found {A} (x : option A) : M Db A := lift (match x with Some a => Ok a | None => Raise ObjectDoesNotExist end).
Definition get_portfolio (i : Z) : M Db Portfolio := d ← get_state; found (portfolios d !! i).
Definition get_user (k : Z) : M Db User := d ← get_state; found (users d !! k).
(** [portfolio.save()], of what was read in the same step. *)
Definition save (i : Z) (f : Portfolio → Portfolio) : M Db unit := modify (λ d, d <| portfolios := alter f i (portfolios d) |>).
(** [RelatedFile.objects.create]. *)
Definition create_file (f : RelatedFile) : M Db Z := λ d,
  (Ok (next_file d), d <| related := <[next_file d := f]> (related d) |> <| next_file := next_file d + 1 |>).
Definition new_file (f n : string) (groups : list string) : RelatedFile := {| file := f; filename := n; file_groups := groups; oed_validated := false; converted_with := None |}.
(** [f.delete()]: portfolios that refer to it are deleted too; their own handlers are not
    followed. *)
Definition refers (k : Z) (p : Portfolio) : bool := existsb (λ s, bool_decide (refs p s = Some k)) all_slots.
Definition delete_file (k : Z) : M Db unit := modify (λ d, d
  <| related := base.delete k (related d) |> <| portfolios := filter (λ ip, refers k ip.2 = false) (portfolios d) |>).
(** A conversion notes the mapping file in the row, and the deletion of a mapping file deletes
    the rows that name it, and the portfolios that refer to one of these. *)
Definition note_mapping (k m : Z) : M Db unit := modify (λ d, d <| related := alter (λ f, f <| converted_with := Some m |>) k (related d) |>).
Definition delete_mapping (m : Z) : M Db unit := modify (λ d,
  let gone := dom (filter (λ kf, converted_with kf.2 = Some m) (related d)) in
  d <| related := filter (λ kf, kf.1 ∉ gone) (related d) |>
    <| portfolios := filter (λ ip, existsb (λ s, match refs ip.2 s with Some k => bool_decide (k ∈ gone) | None => false end) all_slots = false) (portfolios d) |>).
Definition send (j : job) : M Db unit := modify (λ d, d <| queue := queue d ++ [j] |>).

Section portfolio.
(** The path or the address of a stored file, and the names the storage gives. *)
Context (address : string → string) (alternative_name : string → string).

(** [get_path_or_url]. *)
Definition get_path_or_url (p : Portfolio) (s : slot) (d : Db) : option string :=
  k ← refs p s; f ← related d !! k; Some (address (file f)).
Definition exposure_of (p : Portfolio) (d : Db) : exposure := {|
  location := get_path_or_url p location_file d; account := get_path_or_url p accounts_file d;
  ri_info := get_path_or_url p reinsurance_info_file d; ri_scope := get_path_or_url p reinsurance_scope_file d;
  currency_conversion := get_path_or_url p currency_conversion_json d; currency := reporting_currency p |}.

(** ** Files *)

(** [_delete_related_file]. *)
Definition _delete_related_file (i : Z) (s : slot) (user : User) : M Db unit :=
  p ← get_portfolio i;
  match refs p s with
  | Some k =>
      d ← get_state; current ← found (related d !! k);
      lift (verify_user_is_in_obj_groups user (Some (file_groups current)) "You do not have permission to delete this file");;
      save i (setattr s None);; delete_file k
  | None => mret tt
  end.
(** [_handle_post_related_file] and [_handle_delete_related_file]. *)
Definition post_file (i : Z) (s : slot) (content name : string) (user : User) : M Db unit :=
  p ← get_portfolio i;
  instance ← create_file (new_file content name (portfolio_groups p));
  _delete_related_file i s user;;
  save i (setattr s (Some instance)).
Definition remove_file (i : Z) (s : slot) (user : User) : M Db unit :=
  p ← get_portfolio i;
  match refs p s with None => raise (OtherError "Http404") | Some _ => _delete_related_file i s user end.
(** [PortfolioStorageSerializer.update], on the shared file system: the files that were
    given, the portfolio with all of them, and then the previous files, without a look at
    their groups. *)
Definition storage_links (i : Z) (l : list (slot * string)) (user : User) : M Db unit :=
  p ← get_portfolio i;
  new ← fold_m (λ new sf, k ← create_file (new_file (alternative_name (basename sf.2)) (basename sf.2) (user_groups user)); mret (new ++ [(sf.1, k)])) l [];
  save i (λ p, foldl (λ p sk, setattr sk.1 (Some sk.2) p) p new);;
  for_each (omap (λ sf, refs p sf.1) l) delete_file.
(** Deleting a portfolio deletes its exposure files, [delete_connected_files]. *)
Definition destroy (i : Z) : M Db unit :=
  p ← get_portfolio i;
  modify (λ d, d <| portfolios := base.delete i (portfolios d) |>);;
  for_each (omap (refs p) oed_files) delete_file.
(** The view [reporting_currency]. *)
Definition set_currency (i : Z) (c : string) : M Db unit := _ ← get_portfolio i; save i (λ p, p <| reporting_currency := c |>).
Definition delete_currency (i : Z) : M Db unit :=
  p ← get_portfolio i;
  if String.eqb (reporting_currency p) EmptyString then raise (OtherError "Http404") else save i (λ p, p <| reporting_currency := EmptyString |>).

(** ** Jobs *)

Definition validate (i user_pk : Z) : M Db unit :=
  p ← get_portfolio i; d ← get_state;
  save i (λ p, p <| validation_status := STARTED |>);;
  send (run_oed_validation (exposure_of p d) i user_pk).
Definition exposure_run (i : Z) (params : json) (user_pk : Z) : M Db unit :=
  p ← get_portfolio i; d ← get_state;
  match refs p location_file, refs p accounts_file with
  | Some _, Some _ =>
      save i (λ p, p <| exposure_status := STARTED |>);;
      send (run_exposure_run (exposure_of p d) params i user_pk)
  | _, _ =>
      save i (λ p, p <| exposure_status := INSUFFICIENT_DATA |>);;
      raise (ValidationError (DetailList ["Exposure run requires a location file and an accounts file!"%string]))
  end.
(** The view [exposure_transform]: the job for the validation is made here, with the files
    of the portfolio as they are now. *)
Definition exposure_transform (i user_pk : Z) (file_type transform mapping : string) : M Db unit :=
  _ ← get_portfolio i;
  t ← create_file (new_file transform "transform_file_delete_on_use" []);
  m ← create_file (new_file mapping "mapping_file_delete_on_use" []);
  p ← get_portfolio i; d ← get_state;
  let p := setattr mapping_file (Some m) (setattr transform_file (Some t) p) in
  save i (λ _, p <| exposure_transform_status := STARTED |> <| validation_status := STARTED |>);;
  send (run_exposure_transform (get_path_or_url p transform_file d) (get_path_or_url p mapping_file d) i user_pk file_type (exposure_of p d)).

(** ** Reports *)

Definition file_base (i : Z) : string := "portfolio_" +:+ pretty i.
Definition record_exposure_output (result : string * bool) (i user_pk : Z) : M Db unit :=
  _ ← get_portfolio i; _ ← get_user user_pk;
  if result.2 then
    k ← create_file (new_file result.1 (file_base i +:+ "_exposure_run.csv") []);
    save i (λ p, setattr exposure_run_file (Some k) (p <| exposure_status := RUN_COMPLETED |>))
  else
    k ← create_file (new_file result.1 (file_base i +:+ "_errors.txt") []);
    save i (λ p, setattr run_errors_file (Some k) (p <| exposure_status := ERROR |>)).
Definition set_portfolio_valid (i : Z) : M Db unit :=
  p ← get_portfolio i;
  for_each (omap (refs p) oed_files) (λ k, modify (λ d, d <| related := alter (λ f, f <| oed_validated := true |>) k (related d) |>));;
  save i (λ p, p <| validation_status := RUN_COMPLETED |>).
Definition record_validation_output (text : json → string) (validation_errors : json) (i user_pk : Z) : M Db unit :=
  _ ← get_portfolio i; _ ← get_user user_pk;
  if truthy validation_errors then
    k ← create_file (new_file (text validation_errors) (file_base i +:+ "_errors.txt") []);
    save i (λ p, setattr run_errors_file (Some k) (p <| validation_status := ERROR |>));;
    raise (ValidationError (DetailList ["Invalid input."%string]))
  else set_portfolio_valid i.
Definition selection : list (string * slot) :=
  [("location", location_file); ("accounts", accounts_file); ("ri_info", reinsurance_info_file); ("ri_scope", reinsurance_scope_file)]%string.
Definition slot_name (s : slot) : string :=
  match s with
  | location_file => "location_file" | accounts_file => "accounts_file" | reinsurance_info_file => "reinsurance_info_file"
  | reinsurance_scope_file => "reinsurance_scope_file" | _ => ""
  end.
Definition record_transform_output (result : string * bool) (i user_pk : Z) (file_type : string) : M Db unit :=
  _ ← get_portfolio i; initiator ← get_user user_pk;
  _delete_related_file i transform_file initiator;;
  _delete_related_file i mapping_file initiator;;
  if result.2 then
    s ← lift (match assoc file_type selection with Some s => Ok s | None => Raise (KeyError file_type) end);
    k ← create_file (new_file result.1 (file_base i +:+ "_" +:+ slot_name s +:+ ".csv") []);
    save i (λ p, setattr s (Some k) (p <| exposure_transform_status := RUN_COMPLETED |>))
  else
    k ← create_file (new_file result.1 (file_base i +:+ "_errors.txt") []);
    save i (λ p, setattr run_errors_file (Some k) (p <| exposure_transform_status := ERROR |> <| validation_status := ERROR |>));;
    raise (OtherError "Transformation failed!").

(** ** The internal worker *)

(** What it answers: the errors of a validation, the output of a run or a transformation
    with its success. *)
Context (check : exposure → json) (run : exposure → json → string * bool) (transform : option string → option string → string * bool) (text : json → string).
(** A job is done: its report is made, and after a transformation the validation is sent. *)
Definition finish (j : job) : M Db unit :=
  match j with
  | run_oed_validation x i u => record_validation_output text (check x) i u
  | run_exposure_run x params i u => record_exposure_output (run x params) i u
  | run_exposure_transform f m i u ft x => record_transform_output (transform f m) i u ft;; send (run_oed_validation x i u)
  end.
(** What happens: requests, jobs that end in any order, conversions of files, and deletions of
    mapping files. *)
Inductive event :=
  | Post (i : Z) (s : slot) (content name : string) (user : User) | Remove (i : Z) (s : slot) (user : User)
  | StorageLinks (i : Z) (l : list (slot * string)) (user : User) | Destroy (i : Z)
  | SetCurrency (i : Z) (c : string) | DeleteCurrency (i : Z)
  | Validate (i user_pk : Z) | ExposureRun (i : Z) (params : json) (user_pk : Z)
  | ExposureTransform (i user_pk : Z) (file_type transform mapping : string) | Finish (n : nat)
  | Convert (k m : Z) | DeleteMapping (m : Z).
Definition step (e : event) : M Db unit :=
  match e with
  | Post i s content name user => post_file i s content name user
  | Remove i s user => remove_file i s user
  | StorageLinks i l user => storage_links i l user
  | Destroy i => destroy i
  | SetCurrency i c => set_currency i c
  | DeleteCurrency i => delete_currency i
  | Validate i u => validate i u
  | ExposureRun i params u => exposure_run i params u
  | ExposureTransform i u ft t m => exposure_transform i u ft t m
  | Finish n =>
      d ← get_state;
      match queue d !! n with
      | Some j => modify (λ d, d <| queue := base.delete n (queue d) |>);; finish j
      | None => mret tt
      end
  | Convert k m => note_mapping k m
  | DeleteMapping m => delete_mapping m
  end.
Definition steps (es : list event) (d : Db) : Db := foldl (λ d e, exec (step e) d) d es.
End portfolio.

(** ** Files belong to one field of one portfolio *)

Definition holds (d : Db) (i : Z) (s : slot) (k : Z) : Prop := ∃ p, portfolios d !! i = Some p ∧ refs p s = Some k.
(** The portfolios are those of [D], what they refer to exists, and no two fields share a
    file; the files of [L] exist too, and no field refers to them. *)
Record linked (D : gset Z) (L : list Z) (d : Db) : Prop := {
  linked_dom : dom (portfolios d) = D;
  linked_new : ∀ k, k ∈ dom (related d) → k < next_file d;
  linked_found : ∀ i s k, holds d i s k → k ∈ dom (related d);
  linked_once : ∀ i s j t k, holds d i s k → holds d j t k → i = j ∧ s = t;
  linked_loose : ∀ k, k ∈ L → k ∈ dom (related d) ∧ ∀ i s, ¬ holds d i s k;
  linked_nodup : NoDup L;
}.

Section links.
Context (D : gset Z).
Lemma linked_sub L K d : K `sublist_of` L → linked D L d → linked D K d.
Proof. intros Hs []. split; try done; [|by eapply sublist_NoDup]. intros k Hk. apply linked_loose0. by eapply elem_of_sublist. Qed.
Lemma linked_nil L d : linked D L d → linked D [] d.
Proof. apply linked_sub, sublist_nil_l. Qed.
Lemma linked_perm L K d : L ≡ₚ K → linked D L d → linked D K d.
Proof. intros Hp []. split; try done; [|by rewrite <- Hp]. intros k Hk. apply linked_loose0. by rewrite Hp. Qed.

(** Saving a portfolio: new references are to loose files, and references that are no
    longer there leave their files loose. *)
Lemma save_linked i f new L K d :
  linked D (new.*2 ++ L) d →
  (∀ p s k, portfolios d !! i = Some p → refs (f p) s = Some k → refs p s = Some k ∨ (s, k) ∈ new) →
  (∀ k, k ∈ K → ∃ p s, portfolios d !! i = Some p ∧ refs p s = Some k ∧ ∀ t, refs (f p) t ≠ Some k) → NoDup K →
  linked D (K ++ L) (d <| portfolios := alter f i (portfolios d) |>).
Proof.
  intros [Hdom Hnew Hfound Honce Hloose Hnd] Hf HK HnK. apply NoDup_app in Hnd as (Hn1 & Hn2 & Hn3).
  assert (∀ j s k, holds (d <| portfolios := alter f i (portfolios d) |>) j s k → holds d j s k ∨ j = i ∧ (s, k) ∈ new) as Hold.
  { intros j s k (p & Hp & Hk). cbn in Hp. destruct (decide (j = i)) as [->|Hj]; [|rewrite lookup_alter_ne in Hp by done; left; by exists p].
    rewrite lookup_alter_eq in Hp. destruct (portfolios d !! i) as [q|] eqn:E; [|done]. injection Hp as <-.
    destruct (Hf q s k eq_refl Hk) as [H|H]; [left; by exists q|by right]. }
  assert (∀ s k, (s, k) ∈ new → k ∈ new.*2) as Hin by (intros s k H; apply list_elem_of_fmap; by exists (s, k)).
  split; cbn.
  - by rewrite dom_alter_L.
  - done.
  - intros j s k [H|[_ H]]%Hold; [by eapply Hfound|]. apply Hloose. apply elem_of_app. left. by eapply Hin.
  - intros j s j' t k [H|[-> H]]%Hold [H'|[-> H']]%Hold; [by eapply Honce| | |].
    + exfalso. apply (proj2 (Hloose k ltac:(apply elem_of_app; left; by eapply Hin)) j s H).
    + exfalso. apply (proj2 (Hloose k ltac:(apply elem_of_app; left; by eapply Hin)) j' t H').
    + split; [done|]. clear -H H' Hn1. induction new as [|[s0 k0] new IH]; [by apply elem_of_nil in H|]. cbn in Hn1. apply NoDup_cons in Hn1 as [Hk0 Hn].
      assert (∀ x, (x, k0) ∈ new → k0 ∈ new.*2) as Hx by (intros x Hx; apply list_elem_of_fmap; by exists (x, k0)).
      rewrite elem_of_cons in H, H'. destruct H as [H|H], H' as [H'|H'].
      * congruence.
      * injection H as -> ->. by destruct Hk0; eapply Hx.
      * injection H' as -> ->. by destruct Hk0; eapply Hx.
      * by apply IH.
  - intros k [Hk|Hk]%elem_of_app.
    + destruct (HK k Hk) as (p & s & Hp & Hs & Hgone). split; [apply (Hfound i s); by exists p|].
      intros j t (q & Hq & Ht). cbn in Hq. destruct (decide (j = i)) as [->|Hj].
      * rewrite lookup_alter_eq, Hp in Hq. injection Hq as <-. by apply (Hgone t).
      * rewrite lookup_alter_ne in Hq by done. destruct (Honce i s j t k); [by exists p|by exists q|congruence].
    + destruct (Hloose k) as [Hd Hno]; [apply elem_of_app; by right|]. split; [done|]. intros j t [H|[-> H]]%Hold; [by eapply Hno|].
      apply (Hn2 k); [by eapply Hin|done].
  - apply NoDup_app. split; [done|]. split; [|done]. intros k Hk HL. destruct (HK k Hk) as (p & s & Hp & Hs & _).
    apply (proj2 (Hloose k ltac:(apply elem_of_app; by right)) i s). by exists p.
Qed.

(** *** The operations, one by one *)

Abbreviation kept L m := (hoare (linked D L) m (λ _, linked D L) (linked D [])).
Lemma create_linked f L : hoare (linked D L) (create_file f) (λ k, linked D (k :: L)) (linked D []).
Proof.
  intros d [Hdom Hnew Hfound Honce Hloose Hnd]. cbn. split; cbn; try done.
  - intros k. rewrite dom_insert_L, elem_of_union, elem_of_singleton. intros [->|Hk%Hnew]; lia.
  - intros i s k H%Hfound. set_solver.
  - intros k [->|Hk]%elem_of_cons; [|destruct (Hloose k Hk); split; [set_solver|done]]. split; [set_solver|].
    intros i s H%Hfound%Hnew. lia.
  - constructor; [|done]. intros H%Hloose. destruct H as [H%Hnew _]. lia.
Qed.
Lemma delete_linked k L : hoare (linked D (k :: L)) (delete_file k) (λ _, linked D L) (linked D []).
Proof.
  intros d [Hdom Hnew Hfound Honce Hloose Hnd]. destruct (Hloose k) as [_ Hno]; [left|]. apply NoDup_cons in Hnd as [Hk Hnd].
  assert (delete_file k d = (Ok tt, d <| related := base.delete k (related d) |>)) as ->.
  { unfold delete_file, modify. rewrite map_filter_id; [by destruct d|]. intros i p Hp. cbn [snd]. apply not_true_iff_false. unfold refers.
    intros (s & _ & Hs%bool_decide_eq_true)%existsb_exists. apply (Hno i s). by exists p. }
  split; cbn; try done.
  - intros x Hx. apply Hnew. set_solver.
  - intros i s x H. rewrite dom_delete_L. apply elem_of_difference. split; [by eapply Hfound|]. intros ->%elem_of_singleton. by apply (Hno i s).
  - intros x Hx. destruct (Hloose x) as [Hd Hn]; [by right|]. split; [|done]. rewrite dom_delete_L. set_solver.
Qed.
Lemma save_kept L i f : (∀ p, refs (f p) = refs p) → kept L (save i f).
Proof.
  intros Hf d Hd. cbn. apply (save_linked i f [] L [] d Hd); [|by intros k ?%elem_of_nil|constructor]. intros p s k _. rewrite Hf. auto.
Qed.
Lemma link_linked L i s k f : (∀ p, refs (f p) = <[s := Some k]> (refs p)) → hoare (linked D (k :: L)) (save i f) (λ _, linked D L) (linked D []).
Proof.
  intros Hf d Hd. cbn. apply (save_linked i f [(s, k)] L [] d Hd); [|by intros x ?%elem_of_nil|constructor]. intros p t x _. rewrite Hf.
  destruct (decide (s = t)) as [->|Hn]; [rewrite fn_lookup_insert; intros [= ->]; right; left|rewrite fn_lookup_insert_ne by done; auto].
Qed.
Lemma get_kept L {A} (f : Portfolio → M Db A) i Q :
  (∀ p, hoare (λ d, linked D L d ∧ portfolios d !! i = Some p) (f p) Q (linked D [])) → hoare (linked D L) (get_portfolio i ≫= f) Q (linked D []).
Proof.
  intros Hf d Hd. unfold get_portfolio, found, mbind, M_bind, get_state, lift. destruct (portfolios d !! i) as [p|] eqn:E; [by apply Hf|by eapply linked_nil].
Qed.

(** What only reads keeps everything. *)
Lemma read_kept {A B} P (m : M Db A) (f : A → M Db B) Q :
  (∀ d, (m d).2 = d) → (∀ d, P d → linked D [] d) → (∀ a, hoare P (f a) Q (linked D [])) → hoare P (m ≫= f) Q (linked D []).
Proof.
  intros Hm HE Hf d Hd. unfold mbind, M_bind. specialize (Hm d). destruct (m d) as [[a|e] d']; cbn in Hm; subst d'; [by apply Hf|by apply HE].
Qed.
Lemma get_reads i d : (get_portfolio i d).2 = d.
Proof. unfold get_portfolio, found, mbind, M_bind, get_state, lift. by destruct (portfolios d !! i). Qed.
Lemma user_reads i d : (get_user i d).2 = d.
Proof. unfold get_user, found, mbind, M_bind, get_state, lift. by destruct (users d !! i). Qed.
Lemma read_linked L {A B} (m : M Db A) (f : A → M Db B) :
  (∀ d, (m d).2 = d) → (∀ a, kept L (f a)) → kept L (m ≫= f).
Proof. intros Hm Hf. apply read_kept; [done|apply linked_nil|done]. Qed.
Lemma raise_kept L {A} e Q : hoare (linked D L) (raise e : M Db A) Q (linked D []).
Proof. apply hoare_raise, linked_nil. Qed.
Lemma modify_kept L f : (∀ d, portfolios (f d) = portfolios d ∧ dom (related (f d)) = dom (related d) ∧ next_file (f d) = next_file d) → kept L (modify f).
Proof.
  intros Hf d [Hdom Hnew Hfound Honce Hloose Hnd]. cbn. destruct (Hf d) as (Hp & Hr & Hn).
  assert (∀ i s k, holds (f d) i s k ↔ holds d i s k) as Hh by (intros; unfold holds; by rewrite Hp).
  split; rewrite ?Hp, ?Hr, ?Hn; try done.
  - intros i s k H%Hh. by eapply Hfound.
  - intros i s j t k H%Hh H'%Hh. by eapply Honce.
  - intros k Hk. destruct (Hloose k Hk) as [H1 H2]. split; [done|]. intros i s H%Hh. by eapply H2.
Qed.
Lemma delete_all_linked l L : hoare (linked D (l ++ L)) (for_each l delete_file) (λ _, linked D L) (linked D []).
Proof.
  induction l as [|k l IH]; cbn; [by apply hoare_ret|]. eapply hoare_bind; [apply delete_linked|]. by intros [].
Qed.

Lemma delete_related_kept L i s user : kept L (_delete_related_file i s user).
Proof.
  unfold _delete_related_file. apply get_kept. intros p. destruct (refs p s) as [k|] eqn:E; [|apply hoare_ret; tauto].
  do 2 (apply read_kept; [intros d; try (by destruct (related _ !! k)); done|intros d [H _]; by eapply linked_nil|]; intros ?).
  apply read_kept; [done|intros d [H _]; by eapply linked_nil|]. intros _.
  eapply (hoare_bind _ _ _ (λ _, linked D (k :: L))); [|intros []; apply delete_linked]. intros d [Hd Hp]. cbn. apply (save_linked i (setattr s None) [] L [k] d Hd).
  - intros q t x Hq. cbn. destruct (decide (s = t)) as [->|Hn]; [by rewrite fn_lookup_insert|rewrite fn_lookup_insert_ne by done; auto].
  - intros x ->%list_elem_of_singleton. exists p, s. split_and!; [done..|]. intros t Ht. cbn in Ht.
    destruct (decide (s = t)) as [->|Hn]; [by rewrite fn_lookup_insert in Ht|rewrite fn_lookup_insert_ne in Ht by done].
    destruct (linked_once _ _ _ Hd i s i t k) as [_ Hst]; [by exists p..|done].
  - apply NoDup_singleton.
Qed.

(** *** Requests and reports *)

Section requests.
Context (address : string → string) (alternative_name : string → string).
Context (check : exposure → json) (run : exposure → json → string * bool) (transform : option string → option string → string * bool) (text : json → string).

Lemma created_linked {A} L x (f : Z → M Db A) Q :
  (∀ k, hoare (linked D (k :: L)) (f k) Q (linked D [])) → hoare (linked D L) (create_file x ≫= f) Q (linked D []).
Proof. intros Hf. eapply hoare_bind; [apply create_linked|exact Hf]. Qed.
Lemma kept_then L {A B} (m : M Db A) (f : A → M Db B) Q : kept L m → (∀ a, hoare (linked D L) (f a) Q (linked D [])) → hoare (linked D L) (m ≫= f) Q (linked D []).
Proof. intros Hm Hf. eapply hoare_bind; [exact Hm|exact Hf]. Qed.
Lemma send_kept L j : kept L (send j).
Proof. by apply modify_kept. Qed.

Lemma post_kept L i s c n u : kept L (post_file i s c n u).
Proof.
  unfold post_file. apply read_linked; [apply get_reads|]. intros p. apply created_linked. intros k.
  apply kept_then; [apply delete_related_kept|]. intros _. by apply (link_linked L i s k).
Qed.
Lemma remove_kept L i s u : kept L (remove_file i s u).
Proof.
  unfold remove_file. apply read_linked; [apply get_reads|]. intros p. destruct (refs p s); [apply delete_related_kept|apply raise_kept].
Qed.
Lemma currency_kept L i c : kept L (set_currency i c).
Proof. unfold set_currency. apply read_linked; [apply get_reads|]. intros _. by apply save_kept. Qed.
Lemma delete_currency_kept L i : kept L (delete_currency i).
Proof.
  unfold delete_currency. apply read_linked; [apply get_reads|]. intros p. destruct (String.eqb _ _); [apply raise_kept|by apply save_kept].
Qed.
Lemma validate_kept L i u : kept L (validate address i u).
Proof.
  unfold validate. do 2 (apply read_linked; [done || apply get_reads|]; intros ?). apply kept_then; [by apply save_kept|]. intros _. apply send_kept.
Qed.
Lemma exposure_run_kept L i x u : kept L (exposure_run address i x u).
Proof.
  unfold exposure_run. apply read_linked; [apply get_reads|]. intros p. apply read_linked; [done|]. intros d.
  destruct (refs p location_file), (refs p accounts_file); (apply kept_then; [by apply save_kept|]; intros _); apply raise_kept || apply send_kept.
Qed.
Lemma set_valid_kept L i : kept L (set_portfolio_valid i).
Proof.
  unfold set_portfolio_valid. apply read_linked; [apply get_reads|]. intros p. apply kept_then; [|intros _; by apply save_kept].
  induction (omap _ _) as [|k l IH]; cbn; [by apply hoare_ret|]. apply kept_then; [|by intros _]. apply modify_kept. intros d. cbn. by rewrite dom_alter_L.
Qed.
Lemma record_exposure_kept L r i u : kept L (record_exposure_output r i u).
Proof.
  unfold record_exposure_output. apply read_linked; [apply get_reads|]. intros _. apply read_linked; [apply user_reads|]. intros _.
  by destruct r.2; apply created_linked; intros k; eapply link_linked.
Qed.
Lemma transform_kept L i u ft t m : kept L (exposure_transform address i u ft t m).
Proof.
  unfold exposure_transform. apply read_linked; [apply get_reads|]. intros _. apply created_linked. intros t'. apply created_linked. intros m'.
  apply get_kept. intros p. apply read_kept; [done|intros d [H _]; by eapply linked_nil|]. intros d.
  eapply (hoare_bind _ _ _ (λ _, linked D L)); [|intros []; apply send_kept]. intros d0 [Hd Hp]. cbn.
  apply (save_linked i _ [(transform_file, t'); (mapping_file, m')] L [] d0); [|intros q s k Hq|by intros x ?%elem_of_nil|constructor].
  - eapply linked_perm; [|exact Hd]. apply Permutation_swap.
  - rewrite Hp in Hq. injection Hq as <-. cbn. destruct (decide (mapping_file = s)) as [<-|H1]; [rewrite fn_lookup_insert; intros [= ->]; right; right; left|].
    rewrite fn_lookup_insert_ne by done. destruct (decide (transform_file = s)) as [<-|H2]; [rewrite fn_lookup_insert; intros [= ->]; right; left|].
    rewrite fn_lookup_insert_ne by done. auto.
Qed.
Lemma record_validation_kept L e i u : kept L (record_validation_output text e i u).
Proof.
  unfold record_validation_output. apply read_linked; [apply get_reads|]. intros _. apply read_linked; [apply user_reads|]. intros _.
  destruct (truthy e); [|apply set_valid_kept]. apply created_linked. intros k. eapply (hoare_bind _ _ _ (λ _, linked D L)); [by eapply link_linked|]. intros []. apply raise_kept.
Qed.
Lemma record_transform_kept L r i u ft : kept L (record_transform_output r i u ft).
Proof.
  unfold record_transform_output. apply read_linked; [apply get_reads|]. intros _. apply read_linked; [apply user_reads|]. intros v.
  do 2 (apply kept_then; [apply delete_related_kept|]; intros _). destruct r.2.
  - apply read_linked; [by intros d; unfold lift|]. intros s. apply created_linked. intros k. by eapply link_linked.
  - apply created_linked. intros k. eapply (hoare_bind _ _ _ (λ _, linked D L)); [by eapply link_linked|]. intros []. apply raise_kept.
Qed.
Lemma finish_kept L j : kept L (finish check run transform text j).
Proof.
  destruct j; cbn [finish]; [apply record_validation_kept|apply record_exposure_kept|].
  apply kept_then; [apply record_transform_kept|]. intros _. apply send_kept.
Qed.

(** The fields of [setattr] one after the other. *)
Lemma set_all new p s k :
  refs (foldl (λ p sk, setattr sk.1 (Some sk.2) p) p new) s = Some k → (refs p s = Some k ∧ s ∉ new.*1) ∨ (s, k) ∈ new.
Proof.
  revert p. induction new as [|[t x] new IH]; intros p; cbn; [intros H; left; split; [done|apply not_elem_of_nil]|].
  intros [[H Hn]|H]%IH; [|by right; right]. cbn in H. destruct (decide (t = s)) as [->|Hts].
  - rewrite fn_lookup_insert in H. injection H as ->. right. left.
  - rewrite fn_lookup_insert_ne in H by done. left. split; [done|]. by apply not_elem_of_cons.
Qed.
Lemma storage_kept L i l u : NoDup l.*1 → kept L (storage_links alternative_name i l u).
Proof.
  intros Hl. unfold storage_links. apply get_kept. intros p. set (P := λ (new : list (slot * Z)) d, linked D (new.*2 ++ L) d ∧ portfolios d !! i = Some p).
  assert (∀ l new, hoare (P new) (fold_m (λ new sf, k ← create_file (new_file (alternative_name (basename sf.2)) (basename sf.2) (user_groups u)); mret (new ++ [(sf.1, k)])) l new)
    (λ new', λ d, P new' d ∧ new'.*1 = new.*1 ++ l.*1) (linked D [])) as Hfold.
  { clear. induction l as [|sf l IH]; intros new; cbn [fold_m]; [apply hoare_ret; intros d Hd; by rewrite app_nil_r|].
    eapply (hoare_bind _ _ _ (λ new', λ d, P new' d ∧ new'.*1 = new.*1 ++ [sf.1])).
    - intros d [Hd Hp]. pose proof (create_linked (new_file (alternative_name (basename sf.2)) (basename sf.2) (user_groups u)) _ d Hd) as H. cbn in H |- *.
      split; [|by rewrite fmap_app]. split; [|done]. eapply linked_perm; [|exact H]. rewrite fmap_app, <- app_assoc. cbn. by rewrite Permutation_middle.
    - intros new' d [Hd Hn]. specialize (IH new' d Hd). destruct (fold_m _ l new' d) as [[new''|e] d']; [|done]. destruct IH as [H1 H2]. split; [done|].
      by rewrite H2, Hn, <- app_assoc. }
  eapply hoare_bind; [eapply hoare_weaken; [apply (Hfold l [])|intros d Hd; exact Hd|intros ? ? H; exact H|done]|]. clear Hfold.
  intros new. eapply (hoare_bind _ _ _ (λ _, linked D (omap (λ sf, refs p sf.1) l ++ L))); [|intros []; apply delete_all_linked].
  intros d [[Hd Hp] Hn]. cbn in Hn. cbn. apply save_linked with (new := new); [done| | |].
  - intros q s k _ [[H _]|H]%set_all; auto.
  - intros k (sf & Hin & Hk)%list_elem_of_omap. exists p, sf.1. split_and!; [done..|]. intros t [[H Hnt]|H]%set_all.
    + destruct (linked_once _ _ _ Hd i sf.1 i t k) as [_ <-]; [by exists p..|]. apply Hnt. rewrite Hn. by apply list_elem_of_fmap_2.
    + destruct (linked_loose _ _ _ Hd k) as [_ Hno]; [apply elem_of_app; left; by apply (list_elem_of_fmap_2 snd) in H|]. apply (Hno i sf.1). by exists p.
  - clear -Hl Hd Hp. induction l as [|[s f] l IH]; [constructor|]. cbn in Hl |- *. apply NoDup_cons in Hl as [Hs Hl]. specialize (IH Hl).
    destruct (refs p s) as [k|] eqn:E; [|done]. constructor; [|done]. intros ([t g] & Hin & Hk)%list_elem_of_omap. cbn in Hk.
    destruct (linked_once _ _ _ Hd i s i t k) as [_ <-]; [by exists p..|]. apply Hs. by apply (list_elem_of_fmap_2 fst) in Hin.
Qed.
End requests.
End links.

Lemma destroy_linked D i d : linked D [] d → linked (D ∖ {[i]}) [] (exec (destroy i) d).
Proof.
  intros Hd. unfold exec, destroy, get_portfolio, found. unfold mbind at 1, M_bind at 1. unfold mbind at 1, M_bind at 1. unfold get_state, lift.
  destruct (portfolios d !! i) as [p|] eqn:Hp; cbn [snd].
  - set (d1 := d <| portfolios := base.delete i (portfolios d) |>). rewrite (bind_step _ _ _ tt d1) by done.
    set (l := omap (refs p) oed_files). enough (linked (D ∖ {[i]}) (l ++ []) d1) as H1.
    { pose proof (delete_all_linked (D ∖ {[i]}) l [] d1 H1) as H. by destruct (for_each l delete_file d1) as [[]]. }
    assert (NoDup oed_files) as Hs by (vm_compute; repeat constructor; set_solver). subst l. generalize dependent oed_files. intros l Hs.
    destruct Hd as [Hdom Hnew Hfound Honce _ _]. rewrite app_nil_r.
    assert (∀ j s k, holds d1 j s k → j ≠ i ∧ holds d j s k) as Hh.
    { intros j s k (q & Hq & Hk). cbn in Hq. apply lookup_delete_Some in Hq as [Hj Hq]. split; [done|by exists q]. }
    split; cbn; try done.
    + by rewrite dom_delete_L, Hdom.
    + intros j s k [_ H]%Hh. by eapply Hfound.
    + intros j s j' t k [_ H]%Hh [_ H']%Hh. by eapply Honce.
    + intros k (s & _ & Hk)%list_elem_of_omap. split; [apply (Hfound i s); by exists p|]. intros j t [Hj H]%Hh.
      destruct (Honce i s j t k) as [-> _]; [by exists p|done|done].
    + induction l as [|s l IH]; [constructor|].
      cbn. apply NoDup_cons in Hs as [Hs Hl]. destruct (refs p s) as [k|] eqn:E; [|by apply IH]. constructor; [|by apply IH].
      intros (t & Hin & Hk)%list_elem_of_omap. destruct (Honce i s i t k) as [_ ->]; [by exists p..|done].
  - replace (D ∖ {[i]}) with D; [done|]. apply not_elem_of_dom in Hp. rewrite (linked_dom _ _ _ Hd) in Hp. set_solver.
Qed.

(** The portfolios with a file that was converted with the mapping file [m]. *)
Definition mapped_with (m : Z) (d : Db) (p : Portfolio) : bool :=
  existsb (λ s, match refs p s ≫= λ k, related d !! k with Some f => bool_decide (converted_with f = Some m) | None => false end) all_slots.
Definition cascaded_with (m : Z) (d : Db) : gset Z := dom (filter (λ ip, mapped_with m d ip.2 = true) (portfolios d)).
Lemma mapping_linked D m d : linked D [] d → linked (D ∖ cascaded_with m d) [] (exec (delete_mapping m) d).
Proof.
  intros [Hdom Hnew Hfound Honce _ _]. unfold exec, delete_mapping. cbn -[all_slots].
  set (gone := dom (filter (λ kf, converted_with kf.2 = Some m) (related d))).
  assert (∀ k, k ∈ gone ↔ ∃ f, related d !! k = Some f ∧ converted_with f = Some m) as Hg.
  { intros k. subst gone. rewrite elem_of_dom. split; [intros [f Hf]; apply map_lookup_filter_Some in Hf; by exists f|].
    intros (f & H1 & H2). exists f. by apply map_lookup_filter_Some. }
  assert (∀ p, existsb (λ s, match refs p s with Some k => bool_decide (k ∈ gone) | None => false end) all_slots = mapped_with m d p) as Hp.
  { intros p. unfold mapped_with. induction all_slots as [|s l IH]; [done|]. cbn [existsb]. rewrite IH. f_equal. destruct (refs p s) as [k|]; [|done]. cbn.
    destruct (related d !! k) as [f|] eqn:E; [|apply bool_decide_eq_false; intros (f & Hf & _)%Hg; congruence].
    apply bool_decide_ext. rewrite Hg. rewrite E. naive_solver. }
  assert (∀ i p, filter (λ ip, existsb (λ s, match refs ip.2 s with Some k => bool_decide (k ∈ gone) | None => false end) all_slots = false) (portfolios d) !! i = Some p
    ↔ portfolios d !! i = Some p ∧ mapped_with m d p = false) as Hl by (intros i p; rewrite map_lookup_filter_Some; cbn [snd]; by rewrite Hp).
  assert (∀ k, k ∈ dom (filter (λ kf, kf.1 ∉ gone) (related d)) ↔ k ∈ dom (related d) ∧ k ∉ gone) as Hr.
  { intros k. rewrite !elem_of_dom. split; [intros [f Hf]; apply map_lookup_filter_Some in Hf as [Hf ?]; by split; [exists f|]|].
    intros [[f Hf] H]. exists f. by apply map_lookup_filter_Some. }
  split; cbn -[all_slots].
  - apply set_eq. intros i. rewrite elem_of_dom, elem_of_difference, <- Hdom. unfold cascaded_with. rewrite !elem_of_dom. split.
    + intros [p Hi]. apply Hl in Hi as [Hi Hm]. split; [by exists p|]. intros [q Hq]. apply map_lookup_filter_Some in Hq as [Hq Ht]. cbn [snd] in Ht. congruence.
    + intros [[p Hi] Hn]. exists p. apply Hl. split; [done|]. apply not_true_iff_false. intros Ht. apply Hn. exists p. by apply map_lookup_filter_Some.
  - intros k [Hk _]%Hr. by apply Hnew.
  - intros i s k (p & Hi & Hk). apply Hl in Hi as [Hi Hm]. apply Hr. split; [apply (Hfound i s); by exists p|].
    intros (f & Hf & Hc)%Hg. apply not_true_iff_false in Hm. apply Hm. unfold mapped_with. apply existsb_exists. exists s.
    split; [destruct s; cbn; tauto|]. rewrite Hk. cbn. rewrite Hf. by apply bool_decide_eq_true_2.
  - intros i s j t k (p & Hi & Hk) (q & Hj & Hk'). apply Hl in Hi as [Hi _]. apply Hl in Hj as [Hj _]. apply (Honce i s j t k); [by exists p|by exists q].
  - by intros k ?%elem_of_nil.
  - constructor.
Qed.

Section survival.
Context (address : string → string) (alternative_name : string → string).
Context (check : exposure → json) (run : exposure → json → string * bool) (transform : option string → option string → string * bool) (text : json → string).
(** The files of one request are for distinct fields, as the keys of a dict. *)
Definition event_ok (e : event) : Prop := match e with StorageLinks _ l _ => NoDup l.*1 | _ => True end.
Definition destroyed (es : list event) : list Z := omap (λ e, match e with Destroy i => Some i | _ => None end) es.

Lemma exec_kept D {A} (m : M Db A) d : hoare (linked D []) m (λ _, linked D []) (linked D []) → linked D [] d → linked D [] (exec m d).
Proof. intros Hm Hd. unfold exec. specialize (Hm d Hd). by destruct (m d) as [[]]. Qed.
(** Those that go with a mapping file, one event after the other. *)
Fixpoint cascaded (es : list event) (d : Db) : gset Z :=
  match es with
  | [] => ∅
  | e :: es => match e with DeleteMapping m => cascaded_with m d | _ => ∅ end
               ∪ cascaded es (exec (step address alternative_name check run transform text e) d)
  end.
Lemma step_linked D e d :
  event_ok e → linked D [] d → linked (D ∖ list_to_set (destroyed [e]) ∖ match e with DeleteMapping m => cascaded_with m d | _ => ∅ end) []
    (exec (step address alternative_name check run transform text e) d).
Proof.
  intros He Hd. assert (∀ D, D ∖ list_to_set (C := gset Z) [] = D) as Hnil by set_solver. assert (∀ D : gset Z, D ∖ ∅ = D) as Hnil' by set_solver.
  destruct e; cbn [step destroyed omap list_omap]; rewrite ?Hnil, ?Hnil'.
  4: { replace (list_to_set [i]) with ({[i]} : gset Z) by set_solver. by apply destroy_linked. }
  11: by apply mapping_linked.
  all: apply exec_kept; [|done].
  - apply post_kept.
  - apply remove_kept.
  - by apply storage_kept.
  - apply currency_kept.
  - apply delete_currency_kept.
  - apply validate_kept.
  - apply exposure_run_kept.
  - apply transform_kept.
  - apply read_linked; [done|]. intros d0. destruct (queue d0 !! n); [|by apply hoare_ret]. apply kept_then; [by apply modify_kept|]. intros _. apply finish_kept.
  - apply modify_kept. intros d0. cbn. by rewrite dom_alter_L.
Qed.

End survival.

(** ** What a validation says *)

Definition mark (f : RelatedFile) : RelatedFile := f <| oed_validated := true |>.
Definition marked (l : list Z) (m : gmap Z RelatedFile) : gmap Z RelatedFile := foldl (λ m k, alter mark k m) m l.
Lemma marked_lookup l m k : marked l m !! k = if bool_decide (k ∈ l) then mark <$> m !! k else m !! k.
Proof.
  revert m. induction l as [|x l IH]; intros m; [done|]. unfold marked in *. cbn [foldl]. rewrite IH.
  destruct (decide (k = x)) as [->|Hk].
  - rewrite lookup_alter_eq, (bool_decide_eq_true_2 (x ∈ x :: l)) by left. case_bool_decide; [|done]. by destruct (m !! x).
  - rewrite lookup_alter_ne by done. by rewrite (bool_decide_ext (k ∈ x :: l) (k ∈ l)) by (rewrite elem_of_cons; tauto).
Qed.
Lemma mark_all l d : for_each l (λ k, modify (λ d, d <| related := alter mark k (related d) |>)) d = (Ok tt, d <| related := marked l (related d) |>).
Proof. revert d. induction l as [|k l IH]; intros d; [by destruct d|]. cbn [for_each]. rewrite modify_bind. by rewrite IH. Qed.
Definition sent_file (x : exposure) (s : slot) : option string :=
  match s with
  | location_file => location x | accounts_file => account x | reinsurance_info_file => ri_info x | reinsurance_scope_file => ri_scope x
  | _ => None
  end.
Lemma sent_path address p d s : s ∈ oed_files → sent_file (exposure_of address p d) s = get_path_or_url address p s d.
Proof. unfold oed_files. rewrite !elem_of_cons. intros [->|[->|[->|[->|H]]]]; [done..|by apply elem_of_nil in H]. Qed.

Section validation.
Context (address : string → string).
Context (check : exposure → json) (run : exposure → json → string * bool) (transform : option string → option string → string * bool) (text : json → string).

(** C12: What a validation without errors covers. The request sends the paths of all exposure
    files that are attached. When the answer comes without errors and portfolio and user are
    still there, the portfolio is valid and exactly the exposure files attached at that moment
    are marked as validated, and no other file, whether they were sent or not; each of them
    that was attached in the same field when the request was made, with the same content,
    was among those sent. *)
Theorem validation_covers i u v d1 p1 d2 p2 :
  portfolios d1 !! i = Some p1 → portfolios d2 !! i = Some p2 → users d2 !! u = Some v →
  let x := exposure_of address p1 d1 in
  truthy (check x) = false →
  queue (exec (validate address i u) d1) = queue d1 ++ [run_oed_validation x i u] ∧
  let d3 := exec (finish check run transform text (run_oed_validation x i u)) d2 in
  portfolios d3 = <[i := p2 <| validation_status := RUN_COMPLETED |>]> (portfolios d2) ∧
  (∀ k, (∀ s, s ∈ oed_files → refs p2 s ≠ Some k) → related d3 !! k = related d2 !! k) ∧
  ∀ s k f, s ∈ oed_files → refs p2 s = Some k → related d2 !! k = Some f →
    related d3 !! k = Some (f <| oed_validated := true |>) ∧
    (refs p1 s = Some k → file <$> related d1 !! k = Some (file f) → sent_file x s = Some (address (file f))).
Proof.
  intros H1 H2 Hu x Hx. split.
  { unfold exec, validate, get_portfolio, found. unfold mbind at 1, M_bind at 1. unfold mbind at 1, M_bind at 1. unfold get_state at 1, lift. by rewrite H1. }
  intros d3. set (l := omap (refs p2) oed_files).
  assert (d3 = d2 <| related := marked l (related d2) |> <| portfolios := alter (λ p, p <| validation_status := RUN_COMPLETED |>) i (portfolios d2) |>) as ->.
  { subst d3. unfold exec. cbn [finish]. unfold record_validation_output. rewrite (bind_step _ _ d2 p2 d2), (bind_step _ _ d2 v d2), Hx.
    - unfold set_portfolio_valid. rewrite (bind_step _ _ d2 p2 d2).
      + by rewrite (bind_step _ _ _ _ _ (mark_all l d2)).
      + unfold get_portfolio, found, mbind, M_bind, get_state, lift. by rewrite H2.
    - unfold get_user, found, mbind, M_bind, get_state, lift. by rewrite Hu.
    - unfold get_portfolio, found, mbind, M_bind, get_state, lift. by rewrite H2. }
  assert (∀ k, k ∈ l ↔ ∃ s, s ∈ oed_files ∧ refs p2 s = Some k) as Hl by (intros k; apply list_elem_of_omap).
  cbn -[marked l]. split; [|split].
  - apply map_eq. intros j. destruct (decide (j = i)) as [->|Hj]; [by rewrite lookup_alter_eq, lookup_insert_eq, H2|by rewrite lookup_alter_ne, lookup_insert_ne].
  - intros k Hk. rewrite marked_lookup, bool_decide_eq_false_2; [done|]. intros (s & Hs & Hr)%Hl. by apply (Hk s).
  - intros s k f Hs Hr Hf. split; [rewrite marked_lookup, bool_decide_eq_true_2, Hf; [done|apply Hl; by exists s]|].
    intros Hr1 Hf1. subst x. rewrite sent_path by done. unfold get_path_or_url. rewrite Hr1. cbn.
    destruct (related d1 !! k) as [g|]; [|done]. cbn in *. by injection Hf1 as ->.
Qed.
End validation.

(** ** A portfolio *)

Definition user : User := {| user_id := 1; username := "ada"; is_superuser := false; is_staff := false; user_groups := [] |}.
Definition empty_portfolio : Portfolio := {| refs := λ _, None; portfolio_groups := []; reporting_currency := "";
  exposure_status := NONE; validation_status := NONE; exposure_transform_status := NONE |}.
Definition new_db : Db := {| portfolios := {[1 := empty_portfolio]}; related := ∅; next_file := 1; users := {[1 := user]}; queue := [] |}.
Definition check_location (x : exposure) : json := if bool_decide (location x = Some "loc.csv"%string) then JList [] else JList [JStr "error"].
Definition run_out (x : exposure) (params : json) : string * bool := ("out", true)%string.
Definition transform_out (f m : option string) : string * bool := ("transformed.csv", true)%string.
Definition answers : list event → Db → Db := steps id id check_location run_out transform_out (λ _, "error"%string).
Lemma new_db_linked : linked (dom (portfolios new_db)) [] new_db.
Proof.
  assert (∀ i s k, ¬ holds new_db i s k) as Hno by (intros i s k (p & Hp & Hk); unfold new_db in Hp; cbn [portfolios] in Hp; by apply lookup_singleton_Some in Hp as [_ <-]).
  split; [done|by intros k ?%elem_of_empty| | |by intros k ?%elem_of_nil|constructor]; intros * H; by destruct (Hno _ _ _ H).
Qed.
Definition with_location : Db := answers [Post 1 location_file "loc.csv" "loc.csv" user]%string new_db.
Lemma validation_covers_witness : let x := {| location := Some "loc.csv"; account := None; ri_info := None; ri_scope := None; currency_conversion := None; currency := "" |}%string in
  queue (exec (validate id 1 1) with_location) = [run_oed_validation x 1 1] ∧
  related (exec (finish (λ _, JList []) run_out transform_out (λ _, "error"%string) (run_oed_validation x 1 1)) with_location) !! 1 =
    Some (new_file "loc.csv" "loc.csv" [] <| oed_validated := true |>).
Proof.
  intros x. assert (∃ p, portfolios with_location !! 1 = Some p ∧ refs p location_file = Some 1 ∧ exposure_of id p with_location = x) as (p & Hp & Hs & Hx).
  { eexists. split; [vm_compute; reflexivity|]. split; vm_compute; reflexivity. }
  destruct (validation_covers id (λ _, JList []) run_out transform_out (λ _, "error"%string) 1 1 user with_location p with_location p) as [H H']; [done..|].
  rewrite Hx in H, H'. split; [exact H|]. destruct H' as (_ & _ & H').
  apply (H' location_file); [right; left|exact Hs|vm_compute; reflexivity].
Defined.
(** A file that is attached between the request and the answer is marked though it was not
    sent. *)
Lemma attached_unchecked :
  let d := answers [Post 1 location_file "loc.csv" "loc.csv" user; Validate 1 1; Post 1 accounts_file "acc.csv" "acc.csv" user; Finish 0]%string new_db in
  oed_validated <$> related d !! 2 = Some true.
Proof. vm_compute. reflexivity. Qed.
(** A mapping file takes the portfolios along whose files it converted. *)
Lemma mapping_cascades :
  let d := answers [Post 1 location_file "loc.csv" "loc.csv" user; Convert 1 5; DeleteMapping 5]%string new_db in portfolios d = ∅ ∧ related d = ∅.
Proof. split; vm_compute; reflexivity. Qed.

(** A transformation is followed by a validation of the file that was there before it: the
    new file is marked as validated though nothing looked at it. *)
Lemma transformed_unchecked :
  let d := answers [Post 1 location_file "loc.csv" "loc.csv" user; ExposureTransform 1 1 "location" "t.csv" "m.yml"; Finish 0; Finish 0]%string new_db in
  ∃ p k, portfolios d !! 1 = Some p ∧ refs p location_file = Some k ∧ validation_status p = RUN_COMPLETED ∧
    related d !! k = Some {| file := "transformed.csv"; filename := "portfolio_1_location_file.csv"; file_groups := []; oed_validated := true; converted_with := None |}%string.
Proof. do 2 eexists. split; [vm_compute; reflexivity|]. split; [vm_compute; reflexivity|]. split; vm_compute; reflexivity. Qed.
(** With a type of file that is not known the report raises, and the portfolio waits for
    ever. *)
Lemma unknown_type_waits :
  let d := answers [ExposureTransform 1 1 "locations" "t.csv" "m.yml"; Finish 0]%string new_db in
  ∃ p, portfolios d !! 1 = Some p ∧ exposure_transform_status p = STARTED ∧ validation_status p = STARTED ∧ queue d = [].
Proof. eexists. split; [vm_compute; reflexivity|]. split_and!; vm_compute; reflexivity. Qed.
