(* ===== verification/FileConversion.v ===== *)
(** * The conversion of files

    A file of the platform can be converted to another format by a mapping file: the
    request (files/v2_api/viewsets.py, [convert]), the row of the file that says how far the
    conversion is (files/models.py, [RelatedFile.ConversionState]), and the task that does it
    (files/v2_api/tasks.py; files/v1_api/tasks.py is the same). Nothing is locked: a request,
    a task and a validation each read the row, check it and save it later, and a conversion is
    long; what happens in between is a sequence of events. The converter itself and the
    storage are parameters. *)

From S2P Require Import Prelude PyData Groups.
Local Open Scope Z_scope.

(** ** State *)

Inductive ConversionState := NONE | PENDING | IN_PROGRESS | DONE | ERROR.
#[export] Instance ConversionState_eq_dec : EqDecision ConversionState.
Proof. solve_decision. Defined.
Definition is_ready (s : ConversionState) : bool := bool_decide (s ∈ [NONE; ERROR; DONE]).

(** A mapping file: what [yaml.load] reads of it, its name in the storage and those of its
    validation files, and its groups. *)
Record MappingFile := {
  yaml : result json; mapping_name : string; input_validation_file : option string; output_validation_file : option string;
  mapping_groups : list string }.
Record RelatedFile := {
  file : string; groups : list string; oed_validated : bool; mapping_file : option Z; converted_file : option string;
  conversion_log_file : option string; conversion_time : option Z; conversion_state : ConversionState }.
#[export] Instance RelatedFile_settable : Settable RelatedFile := λ f,
  {| file := file f; groups := groups f; oed_validated := oed_validated f; mapping_file := mapping_file f; converted_file := converted_file f;
     conversion_log_file := conversion_log_file f; conversion_time := conversion_time f; conversion_state := conversion_state f |}.

(** A conversion under way: the key of its file, how often it was tried, the row as it was
    read, the mapping with its content, the addresses of input and mapping, and the name
    and the address of the output. *)
Record task := {
  file_id : Z; tried : nat; instance : RelatedFile; mapping : MappingFile; mapping_content : json;
  signed_input_url : string; signed_mapping_url : string; output_filename : string; signed_output_url : string }.
(** What has read a row and is about to save it: a request, with its mapping, a task, with
    its tries, and a validation. *)
Inductive purpose := ToConvert (m : Z) | ToStart (tries : nat) | ToMark.
(** The rows, the files that each portfolio refers to, the messages for the worker with
    the number of tries, the rows that were read to be saved, and what the worker works on. *)
Record Db := {
  related : gmap Z RelatedFile; mapping_files : gmap Z MappingFile; portfolio_files : gmap Z (gset Z);
  queue : list (Z * nat); held : list (Z * RelatedFile * purpose); running : list task; now : Z }.
#[export] Instance Db_settable : Settable Db := λ d,
  {| related := related d; mapping_files := mapping_files d; portfolio_files := portfolio_files d; queue := queue d; held := held d; running := running d; now := now d |}.

(** [instance.save()] writes the whole row but its groups, which are a table of their own,
    and inserts it if it is gone; a mapping file that is gone breaks the foreign key. *)
Definition dangling (d : Db) (f : RelatedFile) : bool :=
  match mapping_file f with Some m => match mapping_files d !! m with Some _ => false | None => true end | None => false end.
Definition stored_groups (d : Db) (k : Z) : list string := match related d !! k with Some f => groups f | None => [] end.
Definition save (k : Z) (f : RelatedFile) : M Db unit := λ d,
  if dangling d f then (Raise IntegrityError, d)
  else (Ok tt, d <| related := <[k := f <| groups := stored_groups d k |>]> (related d) |>).
Definition delay (k : Z) (n : nat) : M Db unit := modify (λ d, d <| queue := queue d ++ [(k, n)] |>).
(** What goes with deleted files: the portfolios that refer to them. *)
Definition delete_files (p : Z → RelatedFile → bool) (d : Db) : Db :=
  let gone := dom (filter (λ kf, p kf.1 kf.2 = true) (related d)) in
  d <| related := filter (λ kf, p kf.1 kf.2 = false) (related d) |>
    <| portfolio_files := filter (λ ik, ik.2 ## gone) (portfolio_files d) |>.

(** ** The request *)

(** [convert] up to [start_conversion]: what it reads and checks. *)
Definition shares (a b c : list string) : bool := bool_decide ((list_to_set a ∩ list_to_set b ∩ list_to_set c : gset string) ≠ ∅).
Definition convert_check (k m : Z) (user : User) : M Db RelatedFile :=
  d ← get_state;
  instance ← lift (match related d !! k with Some f => Ok f | None => Raise (OtherError "Http404") end);
  mapping ← lift (match mapping_files d !! m with Some x => Ok x | None => Raise (ValidationError (DetailList ["Mapping file does not exist."%string])) end);
  lift (verify_user_is_in_obj_groups user (Some (groups instance)) "You dont have permission to run a conversion on the file");;
  lift (verify_user_is_in_obj_groups user (Some (mapping_groups mapping)) "You dont have permission to use the mapping file");;
  if negb (bool_decide (groups instance = [])) && negb (bool_decide (mapping_groups mapping = []))
     && negb (shares (groups instance) (mapping_groups mapping) (user_groups user))
  then raise (PermissionDenied "The file and mapping do not share a group you are part of")
  else if negb (is_ready (conversion_state instance))
  then raise (ValidationError (DetailList ["File is not in a convertable state. Current conversion state is "%string]))
  else mret instance.
(** [start_conversion]. *)
Definition start_conversion (k m : Z) (instance : RelatedFile) : M Db unit :=
  save k (instance <| mapping_file := Some m |> <| conversion_state := PENDING |>);; delay k 0.
Definition convert (k m : Z) (user : User) : M Db unit := instance ← convert_check k m user; start_conversion k m instance.
Definition hold (k : Z) (f : RelatedFile) (p : purpose) : M Db unit := modify (λ d, d <| held := held d ++ [(k, f, p)] |>).

(** ** Names *)

(** [Path(name).suffixes] joined, for a name without a directory. *)
Fixpoint drop_dots (s : string) : string := match s with String "." t => drop_dots t | _ => s end.
Definition suffixes (name : string) : string :=
  let final_dot := match string_rev name with String "." _ => true | _ => false end in
  if final_dot then EmptyString
  else match split_on "." (drop_dots name) with
       | [] | [_] => EmptyString
       | _ :: l => String "." (join "." l)
       end.
(** [name[0:-n]]: with [n = 0] that is nothing. *)
Definition without_last (n : nat) (name : string) : string := if (n =? 0)%nat then EmptyString else String.substring 0 (String.length name - n) name.
Definition converted_name (name : string) : string :=
  without_last (String.length (suffixes name)) name +:+ "-converted" +:+ suffixes name.

(** ** The task *)

(** What the converter is given. *)
Record conversion := {
  file_type : string; extractor_path : string; input_format : json; output_format : json; loader_path : string;
  file_override : string; validation : list (json * string) }.
Section worker.
(** The storage: the name and the address of a file, and the address of a validation file;
    the converter, and the log it writes. *)
Context (get_storage_url : string → result (string * string)) (run : conversion → result unit) (log_of : task → string).

Definition take_message (n : nat) : M Db (option (Z * nat)) := λ d,
  (Ok (queue d !! n), d <| queue := base.delete n (queue d) |>).
(** The task up to its check, and from there to its [try]. *)
Definition check_state (k : Z) : M Db (option RelatedFile) :=
  d ← get_state;
  instance ← lift (match related d !! k with Some f => Ok f | None => Raise ObjectDoesNotExist end);
  if negb (is_ready (conversion_state instance) || bool_decide (conversion_state instance = PENDING)) then mret None else mret (Some instance).
Definition start_task (k : Z) (tries : nat) (instance : RelatedFile) : M Db unit :=
    d ← get_state;
    let instance := instance <| conversion_time := Some (now d) |> <| conversion_state := IN_PROGRESS |> in
    save k instance;;
    mapping ← lift (match mapping_file instance ≫= λ m, mapping_files d !! m with Some m => Ok m | None => Raise AttributeError end);
    content ← lift (yaml mapping);
    input ← lift (get_storage_url (file instance));
    output ← lift (get_storage_url (converted_name (file instance)));
    map_url ← lift (get_storage_url (mapping_name mapping));
    modify (λ d, d <| running := running d ++ [{| file_id := k; tried := tries; instance := instance; mapping := mapping; mapping_content := content;
      signed_input_url := input.2; signed_mapping_url := map_url.2; output_filename := output.1; signed_output_url := output.2 |}] |>).
(** A validation file is named by the format it is for; of two under one name the later is kept. *)
Definition validation_of (content : json) (format : string) (f : option string) : result (list (json * string)) :=
  match f with
  | Some (String c n) =>
      url ← get_storage_url (String c n);
      fmt ← py_item content format; name ← py_item fmt "name"; name ← py_hashable name; Ok [(name, url.2)]
  | _ => Ok []
  end.
Definition do_conversion (t : task) : result unit :=
  v ← validation_of (mapping_content t) "input_format" (input_validation_file (mapping t));
  w ← validation_of (mapping_content t) "output_format" (output_validation_file (mapping t));
  type ← py_item (mapping_content t) "file_type";
  type ← match type with JStr s => Ok (lower s) | _ => Raise AttributeError end;
  i ← py_item (mapping_content t) "input_format"; o ← py_item (mapping_content t) "output_format";
  run {| file_type := type; extractor_path := signed_input_url t; input_format := i; output_format := o; loader_path := signed_output_url t;
         file_override := signed_mapping_url t; validation := v ++ w |}.
(** The [try] with its [except] and [finally]. *)
Definition end_conversion (t : task) : M Db unit :=
  let r := do_conversion t in
  let instance := match r with
                  | Ok _ => instance t <| converted_file := Some (output_filename t) |> <| conversion_state := DONE |>
                  | Raise _ => instance t <| conversion_state := ERROR |>
                  end in
  save (file_id t) (instance <| conversion_log_file := Some (log_of t) |>);; lift r.
(** Celery tries a task that raised again, twice. *)
Definition max_retries : nat := 2.
Definition retried (k : Z) (tries : nat) (m : M Db unit) : M Db unit :=
  try_except m (λ e, if (tries <? max_retries)%nat then delay k (S tries) else raise e).

(** What is done with a row that was read. *)
Definition store (k : Z) (f : RelatedFile) (p : purpose) : M Db unit :=
  match p with
  | ToConvert m => start_conversion k m f
  | ToStart tries => retried k tries (start_task k tries f)
  | ToMark => save k (f <| oed_validated := true |>)
  end.

(** What happens: a request or a message that is taken reads a row, and so does a validation,
    and what they read is stored or lost; a conversion ends, or is lost with its worker, whose
    message may come again; and files are deleted, one that its portfolio has let go of, or
    all that were converted with a mapping file that is deleted. *)
Inductive event :=
  | Ask (k m : Z) (user : User) | Take (n : nat) | Validated (k : Z) | Store (n : nat) | Drop (n : nat) (again : bool)
  | End (n : nat) | Lose (n : nat) (again : bool) | DeleteFile (i k : Z) | DeleteMapping (m : Z).
Definition step (e : event) : M Db unit :=
  match e with
  | Ask k m user => instance ← convert_check k m user; hold k instance (ToConvert m)
  | Take n =>
      x ← take_message n;
      match x with
      | Some (k, tries) => retried k tries (f ← check_state k; match f with Some f => hold k f (ToStart tries) | None => mret tt end)
      | None => mret tt
      end
  | Validated k => d ← get_state; match related d !! k with Some f => hold k f ToMark | None => mret tt end
  | Store n =>
      d ← get_state;
      match held d !! n with
      | Some (k, f, p) => modify (λ d, d <| held := base.delete n (held d) |>);; store k f p
      | None => mret tt
      end
  | Drop n again =>
      d ← get_state;
      modify (λ d, d <| held := base.delete n (held d) |>);;
      match held d !! n with Some (k, _, ToStart tries) => if again then delay k tries else mret tt | _ => mret tt end
  | End n =>
      d ← get_state;
      match running d !! n with
      | Some t => modify (λ d, d <| running := base.delete n (running d) |>);; retried (file_id t) (tried t) (end_conversion t)
      | None => mret tt
      end
  | Lose n again =>
      d ← get_state;
      match running d !! n with
      | Some t => modify (λ d, d <| running := base.delete n (running d) |>);; if again then delay (file_id t) (tried t) else mret tt
      | None => mret tt
      end
  | DeleteFile i k => modify (λ d, delete_files (λ j _, j =? k) (d <| portfolio_files := alter (.∖ {[k]}) i (portfolio_files d) |>))
  | DeleteMapping m => modify (λ d, delete_files (λ _ f, bool_decide (mapping_file f = Some m)) (d <| mapping_files := base.delete m (mapping_files d) |>))
  end.
Definition steps (es : list event) (d : Db) : Db := foldl (λ d e, exec (step e) d) d es.
End worker.

(** ** What a step does to the rows *)

Section conversions.
Context (get_storage_url : string → result (string * string)) (run : conversion → result unit) (log_of : task → string).
Abbreviation advance := (step get_storage_url run log_of).
Abbreviation history := (steps get_storage_url run log_of).

(** The rows, the tasks and the rows that were read, and how a step may change them: a row
    is read, by a request or a task if no task holds the file; what was read is dropped or
    stored, with which a task may begin or fail at once; a task ends or is lost; and the
    rest deletes rows. *)
Definition view : Type := gmap Z RelatedFile * list task * list (Z * RelatedFile * purpose).
Definition seen (d : Db) : view := (related d, running d, held d).
Definition held_ids (v : view) : list Z := (λ x, x.1.1) <$> v.2.
Inductive move : view → view → Prop :=
  | Stays v : move v v
  | Read k f p m l h : m !! k = Some f → p = ToMark ∨ conversion_state f ≠ IN_PROGRESS → move (m, l, h) (m, l, h ++ [(k, f, p)])
  | Dropped n m l h : move (m, l, h) (m, l, base.delete n h)
  | Asked n k f j g m l h : h !! n = Some (k, f, ToConvert j) → conversion_state g = PENDING → move (m, l, h) (<[k := g]> m, l, base.delete n h)
  | Marked n k f g m l h : h !! n = Some (k, f, ToMark) → conversion_state g = conversion_state f → move (m, l, h) (<[k := g]> m, l, base.delete n h)
  | Started n k f i g l' m l h : h !! n = Some (k, f, ToStart i) → conversion_state g = IN_PROGRESS →
      (l' = [] ∨ ∃ t, l' = [t] ∧ file_id t = k) → move (m, l, h) (<[k := g]> m, l ++ l', base.delete n h)
  | Ended n t g m l h : l !! n = Some t → conversion_state g = DONE ∨ conversion_state g = ERROR → move (m, l, h) (<[file_id t := g]> m, base.delete n l, h)
  | Lost n m l h : move (m, l, h) (m, base.delete n l, h)
  | Kept m' m l h : (∀ k f, m' !! k = Some f → m !! k = Some f) → move (m, l, h) (m', l, h).
Lemma move_same v v' : v' = v → move v v'.
Proof. intros ->. constructor. Qed.

Lemma shares_spec a b c : shares a b c = true ↔ ∃ g, g ∈ a ∧ g ∈ b ∧ g ∈ c.
Proof.
  unfold shares. rewrite bool_decide_eq_true. split.
  - intros H. apply set_choose_L in H as (g & Hg). exists g. set_solver.
  - intros (g & H). apply (non_empty_inhabited_L g). set_solver.
Qed.
Lemma check_reads k m u d : (convert_check k m u d).2 = d.
Proof.
  unfold convert_check. rewrite get_bind, lift_bind. destruct (related d !! k); [|done]. rewrite lift_bind. destruct (mapping_files d !! m); [|done].
  do 2 (rewrite lift_bind; destruct (verify_user_is_in_obj_groups _ _ _); [|done]). destruct (_ && _); [done|]. by destruct (is_ready _).
Qed.
Lemma check_ready k m u d f : (convert_check k m u d).1 = Ok f → related d !! k = Some f ∧ is_ready (conversion_state f) = true.
Proof.
  unfold convert_check. rewrite get_bind, lift_bind. destruct (related d !! k) as [g|]; [|done]. rewrite lift_bind. destruct (mapping_files d !! m) as [x|]; [|done].
  do 2 (rewrite lift_bind; destruct (verify_user_is_in_obj_groups _ _ _); [|done]). destruct (_ && _); [done|]. destruct (is_ready (conversion_state g)) eqn:E; [|done].
  cbn. by intros [= ->].
Qed.

Lemma ask_moves k m u d : move (seen d) (seen (exec (advance (Ask k m u)) d)).
Proof.
  unfold exec. cbn [step]. destruct (convert_check k m u d) as [r d'] eqn:E. pose proof (check_reads k m u d) as Hd. rewrite E in Hd. cbn in Hd. subst d'.
  destruct r as [f|e]; [|rewrite (bind_raise _ _ _ _ _ E); apply move_same; done]. rewrite (bind_step _ _ _ _ _ E).
  destruct (check_ready k m u d f) as [Hf Hr]; [by rewrite E|]. apply Read; [done|]. right. intros Hs. by rewrite Hs in Hr.
Qed.
Lemma retried_seen k n m d : seen (retried k n m d).2 = seen (m d).2.
Proof. unfold retried, try_except. destruct (m d) as [[a|e] d']; [done|]. by destruct (n <? max_retries)%nat. Qed.
Lemma take_moves k n d : move (seen d) (seen (exec (f ← check_state k; match f with Some f => hold k f (ToStart n) | None => mret tt end) d)).
Proof.
  unfold exec, check_state, mbind, M_bind. cbn. destruct (related d !! k) as [f|] eqn:Ef; [|by apply move_same]. cbn.
  destruct (negb _) eqn:Hr; [by apply move_same|]. apply Read; [done|]. right. intros E. by rewrite E in Hr.
Qed.
Lemma start_moves n k f i d : held d !! n = Some (k, f, ToStart i) →
  move (seen d) (seen (start_task get_storage_url k i f (d <| held := base.delete n (held d) |>)).2).
Proof.
  intros Hn. unfold start_task. rewrite get_bind. unfold save at 1, mbind at 1, M_bind at 1. destruct (dangling _ _); [by apply Dropped|].
  assert (∀ l' g, (l' = [] ∨ ∃ t, l' = [t] ∧ file_id t = k) → conversion_state g = IN_PROGRESS → move (seen d) (<[k := g]> (related d), running d ++ l', base.delete n (held d))) as H by (intros; by eapply Started).
  match goal with |- context [<[k := ?g]> _] => pose proof (H [] g (or_introl eq_refl) eq_refl) as H0 end. rewrite app_nil_r in H0.
  do 5 (rewrite lift_bind; match goal with |- context [match ?r with Ok _ => _ | Raise _ => _ end] => destruct r; [|exact H0] end).
  apply H; [right; by eexists|done].
Qed.
Lemma store_moves n k f p d : held d !! n = Some (k, f, p) →
  move (seen d) (seen (store get_storage_url k f p (d <| held := base.delete n (held d) |>)).2).
Proof.
  intros Hn. destruct p as [m|i|]; cbn [store].
  - unfold start_conversion, save, mbind, M_bind. destruct (dangling _ _); [by apply Dropped|]. by eapply Asked.
  - rewrite retried_seen. by apply start_moves.
  - unfold save. destruct (dangling _ _); [by apply Dropped|]. by eapply Marked.
Qed.
Lemma end_moves n t d : running d !! n = Some t →
  move (seen d) (seen (exec (end_conversion get_storage_url run log_of t) (d <| running := base.delete n (running d) |>))).
Proof.
  intros Ht. unfold exec, end_conversion, save, mbind, M_bind. destruct (dangling _ _); [by apply Lost|].
  destruct (do_conversion _ _ t); (eapply Ended; [done|]); [by left|by right].
Qed.
Theorem step_moves e d : move (seen d) (seen (exec (advance e) d)).
Proof.
  destruct e as [k m u|n|k|n|n again|n|n again|i k|m]; [by apply ask_moves|..]; unfold exec; cbn [step].
  - unfold take_message, mbind at 1, M_bind at 1. destruct (queue d !! n) as [[k tries]|]; [|by apply move_same]. rewrite retried_seen. 
    match goal with |- context [seen (_ ?d').2] => change (seen d) with (seen d'); apply (take_moves k tries d') end.
  - rewrite get_bind. destruct (related d !! k) as [f|] eqn:E; [|by apply move_same]. apply Read; [done|by left].
  - rewrite get_bind. destruct (held d !! n) as [[[k f] p]|] eqn:E; [|by apply move_same]. rewrite modify_bind. by apply store_moves.
  - rewrite get_bind, modify_bind. destruct (held d !! n) as [[[k f] [m|i|]]|]; try apply Dropped. destruct again; apply Dropped.
  - rewrite get_bind. destruct (running d !! n) as [t|] eqn:E; [|by apply move_same]. rewrite modify_bind, retried_seen. by apply end_moves.
  - rewrite get_bind. destruct (running d !! n) as [t|] eqn:E; [|by apply move_same]. rewrite modify_bind. destruct again; apply Lost.
  - apply Kept. intros j f Hj. cbn in Hj. by apply map_lookup_filter_Some in Hj as [Hj _].
  - apply Kept. intros j f Hj. cbn in Hj. by apply map_lookup_filter_Some in Hj as [Hj _].
Qed.

(** ** One conversion of a file at a time *)

(** No two tasks convert one file, the row of a file that is converted says so, and what was
    read before to convert it is gone. *)
Definition J (v : view) : Prop :=
  NoDup (file_id <$> v.1.2) ∧ (∀ t f, t ∈ v.1.2 → v.1.1 !! file_id t = Some f → conversion_state f = IN_PROGRESS)
  ∧ ∀ t f p, t ∈ v.1.2 → (file_id t, f, p) ∈ v.2 → p = ToMark ∧ conversion_state f = IN_PROGRESS.
(** Nothing converts the file [k] or is about to, and its row, if there is one, says that
    something does. *)
Definition stuck (k : Z) (v : view) : Prop :=
  (∀ t, t ∈ v.1.2 → file_id t ≠ k) ∧ (∀ f, v.1.1 !! k = Some f → conversion_state f = IN_PROGRESS)
  ∧ ∀ f p, (k, f, p) ∈ v.2 → p = ToMark ∧ conversion_state f = IN_PROGRESS.

Lemma elem_of_delete {A} n (l : list A) t : t ∈ base.delete n l → t ∈ l.
Proof. rewrite delete_take_drop, elem_of_app. intros H. rewrite <-(take_drop n l), elem_of_app. destruct H as [H|H]; [by left|]. right. rewrite <-(take_drop 1 (drop n l)), drop_drop, elem_of_app. right. by rewrite Nat.add_1_r. Qed.
Lemma NoDup_delete n (l : list task) : NoDup (file_id <$> l) → NoDup (file_id <$> base.delete n l).
Proof. intros H. eapply sublist_NoDup; [exact H|]. apply fmap_sublist, sublist_delete. Qed.
(** The others have other keys. *)
Lemma deleted_other {A} (key : A → Z) n (l : list A) t u : NoDup (key <$> l) → l !! n = Some t → u ∈ base.delete n l → key u ≠ key t.
Proof.
  intros Hl Ht Hu E. rewrite (delete_Permutation l n t Ht) in Hl. cbn in Hl. apply NoDup_cons in Hl as [Hn _].
  apply Hn. rewrite <- E. by apply list_elem_of_fmap_2.
Qed.
Lemma elem_of_started l l' k t : (l' = [] ∨ ∃ t, l' = [t] ∧ file_id t = k) → t ∈ l ++ l' → t ∈ l ∨ file_id t = k.
Proof.
  intros [->|(u & -> & Hu)]; rewrite elem_of_app; [intros [|H]; [by left|by apply not_elem_of_nil in H]|]. intros [|H]; [by left|]. apply list_elem_of_singleton in H as ->. by right.
Qed.
Lemma inserted_lookup {A} k j (g : A) m f : <[k := g]> (m : gmap Z A) !! j = Some f → j = k ∧ f = g ∨ j ≠ k ∧ m !! j = Some f.
Proof. intros H. apply lookup_insert_Some in H. naive_solver. Qed.

Lemma move_J v v' : move v v' → NoDup (held_ids v) → J v → J v'.
Proof.
  intros [|k f p m l h Hf Hp|n m l h|n k f i g m l h Hn Hg|n k f g m l h Hn Hg|n k f i g l' m l h Hn Hg Hl'|n t g m l h Ht Hg|n m l h|m' m l h Hm] Hnd (Hd & Hs & Hh); [done|..];
    unfold J, held_ids in *; cbn in *; (split; [|split; [intros u x Hu Hx|intros u x q Hu Hx]]); try done.
  - by apply (Hs u).
  - apply elem_of_app in Hx as [Hx|Hx]; [by eapply Hh|]. apply list_elem_of_singleton in Hx as [= <- -> ->]. pose proof (Hs u f Hu Hf). by destruct Hp as [->|Hp].
  - by apply (Hs u).
  - eapply Hh; [done|]. by eapply elem_of_delete.
  - apply inserted_lookup in Hx as [[<- _]|[_ Hx]]; [|by apply (Hs u)]. apply list_elem_of_lookup_2 in Hn. by apply Hh in Hn as [? _].
  - eapply Hh; [done|]. by eapply elem_of_delete.
  - apply inserted_lookup in Hx as [[<- ->]|[_ Hx]]; [|by apply (Hs u)]. rewrite Hg. apply list_elem_of_lookup_2 in Hn. by apply (Hh u f ToMark).
  - eapply Hh; [done|]. by eapply elem_of_delete.
  - assert (∀ t, t ∈ l → file_id t ≠ k) as Hk by (intros t Ht <-; apply list_elem_of_lookup_2 in Hn; by apply Hh in Hn as [? _]).
    rewrite fmap_app. destruct Hl' as [->|(t & -> & <-)]; [by rewrite app_nil_r|]. apply NoDup_app. split; [done|]. split; [|apply NoDup_singleton].
    intros x (u & -> & Hu)%list_elem_of_fmap Hx. apply list_elem_of_singleton in Hx. by apply (Hk u).
  - apply inserted_lookup in Hx as [[_ ->]|[Hne Hx]]; [done|]. apply (elem_of_started _ _ k) in Hu as [Hu|Hu]; [by apply (Hs u)|done|done].
  - pose proof (deleted_other (λ x, x.1.1) n h (k, f, ToStart i) _ Hnd Hn Hx) as Hne. cbn in Hne.
    apply (elem_of_started _ _ k) in Hu as [Hu|Hu]; [|done|done]. eapply Hh; [done|]. by eapply elem_of_delete.
  - by apply NoDup_delete.
  - pose proof (deleted_other file_id n l t u Hd Ht Hu) as Hne. apply inserted_lookup in Hx as [[? _]|[_ Hx]]; [done|]. apply (Hs u); [by eapply elem_of_delete|done].
  - apply (Hh u); [by eapply elem_of_delete|done].
  - by apply NoDup_delete.
  - apply (Hs u); [by eapply elem_of_delete|done].
  - apply (Hh u); [by eapply elem_of_delete|done].
  - by apply (Hs u); [|apply Hm].
  - by apply (Hh u).
Qed.
Lemma move_stuck k v v' : move v v' → stuck k v → stuck k v'.
Proof.
  intros [|j f p m l h Hf Hp|n m l h|n j f i g m l h Hn Hg|n j f g m l h Hn Hg|n j f i g l' m l h Hn Hg Hl'|n t g m l h Ht Hg|n m l h|m' m l h Hm] (Hd & Hs & Hh); [done|..];
    unfold stuck in *; cbn in *; (split; [intros u Hu|split; [intros x Hx|intros x q Hx]]); try by apply Hd.
  - by apply Hs.
  - apply elem_of_app in Hx as [Hx|Hx]; [by eapply Hh|]. apply list_elem_of_singleton in Hx as [= <- -> ->]. pose proof (Hs f Hf). by destruct Hp as [->|Hp].
  - by apply Hs.
  - eapply Hh. by eapply elem_of_delete.
  - apply inserted_lookup in Hx as [[<- _]|[_ Hx]]; [|by apply Hs]. apply list_elem_of_lookup_2 in Hn. by apply Hh in Hn as [? _].
  - eapply Hh. by eapply elem_of_delete.
  - apply inserted_lookup in Hx as [[<- ->]|[_ Hx]]; [|by apply Hs]. rewrite Hg. apply list_elem_of_lookup_2 in Hn. by apply (Hh f ToMark).
  - eapply Hh. by eapply elem_of_delete.
  - apply (elem_of_started _ _ j) in Hu as [Hu|Hu]; [by apply Hd| |done]. intros <-. apply list_elem_of_lookup_2 in Hn. rewrite <- Hu in Hn. by apply Hh in Hn as [? _].
  - apply inserted_lookup in Hx as [[_ ->]|[Hne Hx]]; [done|by apply Hs].
  - eapply Hh. by eapply elem_of_delete.
  - apply Hd. by eapply elem_of_delete.
  - apply inserted_lookup in Hx as [[-> _]|[_ Hx]]; [|by apply Hs]. by destruct (Hd t); [eapply list_elem_of_lookup_2|].
  - by apply (Hh x).
  - apply Hd. by eapply elem_of_delete.
  - by apply Hs.
  - by apply (Hh x).
  - apply Hs, Hm, Hx.
  - by apply (Hh x).
Qed.
(** While no two requests, tasks or validations of one file are between the reading and the
    storing of its row. *)
Definition apart (es : list event) (d : Db) : Prop := ∀ n, NoDup (held_ids (seen (history (take n es) d))).
Lemma history_J es d : apart es d → J (seen d) → J (seen (history es d)).
Proof.
  revert d. induction es as [|e es IH]; [done|]. intros d Ha Hd. apply IH; [intros n; apply (Ha (S n))|]. apply (move_J _ _ (step_moves e d)); [apply (Ha 0%nat)|done].
Qed.
Lemma history_stuck k es d : stuck k (seen d) → stuck k (seen (history es d)).
Proof. revert d. induction es as [|e es IH]; [done|]. intros d Hd. apply IH. by apply (move_stuck k _ _ (step_moves e d)). Qed.
Lemma idle_J d : running d = [] → J (seen d).
Proof. intros Hd. unfold J. cbn. rewrite Hd. split; [constructor|]. split; intros t f; [|intros p]; intros Ht; by apply not_elem_of_nil in Ht. Qed.
Lemma lost_stuck d n again t : J (seen d) → running d !! n = Some t → stuck (file_id t) (seen (exec (advance (Lose n again)) d)).
Proof.
  intros (Hd & Hs & Hh) Ht. unfold exec. cbn [step]. rewrite get_bind, Ht, modify_bind. cbn in *. pose proof (list_elem_of_lookup_2 _ _ _ Ht) as Hin.
  assert (stuck (file_id t) (related d, base.delete n (running d), held d)) as H; [|by destruct again]. split; [|split]; cbn.
  - intros u Hu. by apply (deleted_other file_id n (running d)).
  - intros f Hf. by apply (Hs t).
  - intros f p Hp. by apply (Hh t).
Qed.

(** C13: One conversion of a file at a time. Whatever requests, messages for the worker,
    conversions that end, workers that are lost and messages that come again, validations
    and deletions follow each other: if at no moment two of the requests, tasks and
    validations of one file are both between the reading and the storing of its row, which
    the code does not lock, then no two conversions of one file are ever under way at a time,
    and the row of a file that is converted, unless it was deleted, says IN_PROGRESS. *)
Theorem one_conversion es d : running d = [] → apart es d →
  NoDup (file_id <$> running (history es d))
  ∧ ∀ t f, t ∈ running (history es d) → related (history es d) !! file_id t = Some f → conversion_state f = IN_PROGRESS.
Proof. intros Hd Ha. destruct (history_J es d Ha (idle_J d Hd)) as (H1 & H2 & _). by split. Qed.
(** A conversion that is lost with its worker leaves its file marked for good: whatever
    follows, its message included if it comes again, the row says IN_PROGRESS until it is
    deleted, and nothing converts the file any more. *)
Theorem lost_stays es fs d n again t : running d = [] → apart es d → running (history es d) !! n = Some t →
  let d' := history fs (exec (advance (Lose n again)) (history es d)) in
  (∀ u, u ∈ running d' → file_id u ≠ file_id t) ∧ ∀ f, related d' !! file_id t = Some f → conversion_state f = IN_PROGRESS.
Proof.
  intros Hd Ha Ht d'. destruct (history_stuck (file_id t) fs _ (lost_stuck _ n again t (history_J es d Ha (idle_J d Hd)) Ht)) as (H1 & H2 & _). by split.
Qed.

(** ** What a conversion leaves *)

(** C14: What the end of a conversion leaves, whatever happened. If the mapping file of the
    row as it was read is still there, the file is ready for another conversion and keeps
    the log: if the converter ran through, the row says DONE and names the output; if
    anything raised, it says ERROR and keeps the name it had. If the mapping file was
    deleted meanwhile, nothing is stored. Unless all went well the task is sent again, or
    raises if this was the third try. No other row changes. *)
Theorem conversion_recorded d n t : running d !! n = Some t →
  let d' := exec (advance (End n)) d in
  let again := queue d ++ (if (tried t <? max_retries)%nat then [(file_id t, S (tried t))] else []) in
  running d' = base.delete n (running d) ∧ held d' = held d ∧ (∀ j, j ≠ file_id t → related d' !! j = related d !! j)
  ∧ if dangling d (instance t) then related d' = related d ∧ queue d' = again
    else ∃ f, related d' !! file_id t = Some f ∧ is_ready (conversion_state f) = true ∧ conversion_log_file f = Some (log_of t)
      ∧ file f = file (instance t) ∧ groups f = stored_groups d (file_id t)
      ∧ match do_conversion get_storage_url run t with
        | Ok _ => conversion_state f = DONE ∧ converted_file f = Some (output_filename t) ∧ queue d' = queue d
        | Raise _ => conversion_state f = ERROR ∧ converted_file f = converted_file (instance t) ∧ queue d' = again
        end.
Proof.
  intros Ht d' again. subst d' again. unfold exec. cbn [step]. rewrite get_bind, Ht, modify_bind. unfold retried, try_except, end_conversion, save, mbind, M_bind.
  destruct (dangling d (instance t)) eqn:Hf; unfold dangling in *; destruct (do_conversion _ _ t), (tried t <? max_retries)%nat; cbn; rewrite Hf; cbn; rewrite ?app_nil_r.
  1-4: done.
  all: split; [done|]; split; [done|]; split; [intros j Hj; by apply lookup_insert_ne|].
  all: eexists; split; [apply lookup_insert_eq|]; cbn; repeat split.
Qed.
(** Whoever is told that the conversion starts belongs to the groups of both files, and the
    row is marked and a message sent. *)
Theorem convert_accepted d k m user : (convert k m user d).1 = Ok tt →
  ∃ f x, related d !! k = Some f ∧ mapping_files d !! m = Some x ∧ is_ready (conversion_state f) = true
  ∧ validate_user_is_owner user (Some (groups f)) = true ∧ validate_user_is_owner user (Some (mapping_groups x)) = true
  ∧ (groups f = [] ∨ mapping_groups x = [] ∨ ∃ g, g ∈ groups f ∧ g ∈ mapping_groups x ∧ g ∈ user_groups user)
  ∧ exec (convert k m user) d = d <| related := <[k := f <| mapping_file := Some m |> <| conversion_state := PENDING |>]> (related d) |> <| queue := queue d ++ [(k, 0%nat)] |>.
Proof.
  intros H. unfold exec. unfold convert in *. destruct (convert_check k m user d) as [r d'] eqn:E. pose proof (check_reads k m user d) as Hd. rewrite E in Hd. cbn in Hd. subst d'.
  destruct r as [f|e]; [|rewrite (bind_raise _ _ _ _ _ E) in H; done]. rewrite (bind_step _ _ _ _ _ E).
  unfold convert_check in E. rewrite get_bind, lift_bind in E. destruct (related d !! k) as [g|] eqn:Ef; [|done]. rewrite lift_bind in E. destruct (mapping_files d !! m) as [x|] eqn:Ex; [|done].
  unfold verify_user_is_in_obj_groups in E. rewrite lift_bind in E. destruct (validate_user_is_owner user (Some (groups g))) eqn:E1; [|done].
  rewrite lift_bind in E. destruct (validate_user_is_owner user (Some (mapping_groups x))) eqn:E2; [|done]. destruct (_ && _) eqn:E3; [done|]. destruct (is_ready _) eqn:E4; [|done].
  cbn in E. injection E as ->. exists f, x. repeat (split; [done|]). split.
  - destruct (groups f) as [|a l]; [by left|right]. destruct (mapping_groups x) as [|b l']; [by left|right]. cbn [negb andb bool_decide] in E3.
    apply andb_false_iff in E3 as [E3|E3]; [done|]. apply negb_false_iff in E3. by apply shares_spec.
  - unfold start_conversion, save, dangling, stored_groups, mbind, M_bind. cbn. rewrite Ex. cbn. rewrite Ef. by destruct d, f.
Qed.

(** ** Where the code surprises *)

(** A name without a suffix: every such file is converted to one and the same name. *)
Lemma no_suffix name : suffixes name = EmptyString → converted_name name = "-converted"%string.
Proof. intros H. unfold converted_name. by rewrite H. Qed.
(** A mapping that cannot be read: the task that starts leaves the file marked for good. *)
Lemma unreadable_stays d n k tries f m x e : held d !! n = Some (k, f, ToStart tries) → mapping_file f = Some m → mapping_files d !! m = Some x → yaml x = Raise e →
  (∀ t, t ∈ running d → file_id t ≠ k) → (∀ f p, (k, f, p) ∈ base.delete n (held d) → p = ToMark ∧ conversion_state f = IN_PROGRESS) →
  stuck k (seen (exec (advance (Store n)) d)).
Proof.
  intros Hn Hm Hx Hy Hk Hh. unfold exec. cbn [step]. rewrite get_bind, Hn, modify_bind. cbn [store]. rewrite retried_seen. unfold start_task.
  rewrite get_bind. unfold save at 1, mbind at 1, M_bind at 1, dangling. cbn. rewrite Hm, Hx, lift_bind. cbn. rewrite ?Hm. cbn. rewrite ?Hx. cbn. rewrite ?lift_bind, Hy. cbn.
  split; [done|]. split; [|exact Hh]. intros g Hg. cbn in Hg. rewrite lookup_insert_eq in Hg. by injection Hg as <-.
Qed.
(** A privileged user owns every object, and yet may not convert a file with a mapping when
    both have groups of which he shares none. *)
Lemma admin_refused d k m user f x : related d !! k = Some f → mapping_files d !! m = Some x → user_groups user = [] → groups f ≠ [] → mapping_groups x ≠ [] →
  privileged user = true → (convert k m user d).1 = Raise (PermissionDenied "The file and mapping do not share a group you are part of").
Proof.
  intros Hf Hx Hu Hg Hm Hp. unfold convert, convert_check, verify_user_is_in_obj_groups, validate_user_is_owner. rewrite Hp.
  unfold mbind, M_bind. cbn. rewrite Hf, Hx, !bool_decide_eq_false_2 by done. cbn. rewrite Hu. unfold shares. rewrite bool_decide_eq_false_2 by set_solver. done.
Qed.
End conversions.

(** ** An example *)

(** A user of group a converts the file 1 of portfolio 7 with the mapping 5; the mapping 6
    cannot be read. *)
Definition example_mapping (y : result json) : MappingFile :=
  {| yaml := y; mapping_name := "mapping.yaml"; input_validation_file := Some "check.yaml"%string; output_validation_file := None; mapping_groups := [] |}.
Definition example_format : json := JObj [("name", JStr "AIR")]%string.
Definition example_db : Db := {|
  related := {[1 := {| file := "locations.csv"; groups := ["a"]%string; oed_validated := false; mapping_file := None; converted_file := None;
                       conversion_log_file := None; conversion_time := None; conversion_state := NONE |}]};
  mapping_files := {[5 := example_mapping (Ok (JObj [("file_type", JStr "Location"); ("input_format", example_format); ("output_format", JObj [])]%string));
                     6 := example_mapping (Raise (OtherError "ScannerError"))]};
  portfolio_files := {[7 := {[1]}; 8 := {[2]}]}; queue := []; held := []; running := []; now := 100 |}.
Definition example_user : User := {| user_id := 1; username := "u"; is_superuser := false; is_staff := false; user_groups := ["a"]%string |}.
Definition example_url (name : string) : result (string * string) := Ok (name, "https://store/" +:+ name)%string.
Definition example_run (c : conversion) : result unit :=
  match validation c with
  | [(JStr format, url)] => if bool_decide ([file_type c; loader_path c; format; url] = ["location"; "https://store/locations-converted.csv"; "AIR"; "https://store/check.yaml"])%string
                            then Ok tt else Raise (OtherError "failed")
  | _ => Raise (OtherError "failed")
  end.
Definition example_history (es : list event) : Db := steps example_url example_run (λ _, "log"%string) es example_db.
Definition row (d : Db) (k : Z) : option (ConversionState * option string * list string * bool) :=
  (λ f, (conversion_state f, converted_file f, groups f, oed_validated f)) <$> related d !! k.

Definition asked : list event := [Ask 1 5 example_user; Store 0].
Definition taken : list event := [Take 0; Store 0].
Definition converting : Db := example_history (asked ++ taken).
Lemma apart_bounded es d : forallb (λ n, bool_decide (NoDup (held_ids (seen (steps example_url example_run (λ _, "log"%string) (take n es) d))))) (seq 0 (S (length es))) = true →
  apart example_url example_run (λ _, "log"%string) es d.
Proof.
  rewrite forallb_forall. intros H n. destruct (decide (n ≤ length es)%nat) as [Hn|Hn].
  - eapply bool_decide_eq_true_1, H, in_seq. lia.
  - rewrite take_ge by lia. rewrite <- (firstn_all es). eapply bool_decide_eq_true_1, H, in_seq. lia.
Qed.
Lemma one_conversion_witness : apart example_url example_run (λ _, "log"%string) (asked ++ taken) example_db ∧ length (running converting) = 1%nat ∧ NoDup (file_id <$> running converting)
  ∧ ∀ t f, t ∈ running converting → related converting !! file_id t = Some f → conversion_state f = IN_PROGRESS.
Proof.
  assert (apart example_url example_run (λ _, "log"%string) (asked ++ taken) example_db) as H by (apply apart_bounded; vm_compute; reflexivity).
  split; [exact H|]. split; [vm_compute; reflexivity|]. exact (one_conversion example_url example_run (λ _, "log"%string) _ example_db eq_refl H).
Defined.
Lemma conversion_recorded_witness : ∃ t f, running converting !! 0%nat = Some t ∧ dangling converting (instance t) = false
  ∧ related (exec (step example_url example_run (λ _, "log"%string) (End 0)) converting) !! file_id t = Some f ∧ conversion_state f = DONE.
Proof.
  destruct (running converting !! 0%nat) as [t|] eqn:Ht; [|by vm_compute in Ht].
  assert (dangling converting (instance t) = false) as Hd by (vm_compute in Ht; injection Ht as <-; vm_compute; reflexivity).
  assert (do_conversion example_url example_run t = Ok tt) as Hr by (vm_compute in Ht; injection Ht as <-; vm_compute; reflexivity).
  destruct (conversion_recorded example_url example_run (λ _, "log"%string) converting 0 t Ht) as (_ & _ & _ & H).
  rewrite Hd, Hr in H. destruct H as (f & Hf & _ & _ & _ & _ & Hs). exists t, f. split; [done|]. split; [done|]. split; [exact Hf|]. apply Hs.
Defined.
Example converted : row (example_history (asked ++ taken ++ [End 0])) 1 = Some (DONE, Some "locations-converted.csv"%string, ["a"]%string, false).
Proof. vm_compute. reflexivity. Qed.
(** A second request while the first is under way is refused. *)
Example refused : held (example_history (asked ++ taken ++ [Ask 1 5 example_user])) = [].
Proof. vm_compute. reflexivity. Qed.
(** Two requests at once are both accepted, and two conversions of the file run at once. *)
Example two_at_once : file_id <$> running (example_history ([Ask 1 5 example_user; Ask 1 5 example_user; Store 0; Take 0; Store 1; Store 0] ++ taken)) = [1; 1].
Proof. vm_compute. reflexivity. Qed.
(** A file deleted while it is converted comes back, without its groups: for everyone. *)
Example deleted_returns : row (example_history (asked ++ taken ++ [DeleteFile 7 1; End 0])) 1 = Some (DONE, Some "locations-converted.csv"%string, [], false).
Proof. vm_compute. reflexivity. Qed.
(** A validation that ends while the file is converted is forgotten. *)
Example validation_lost : row (example_history (asked ++ taken ++ [Validated 1; Store 0; End 0])) 1 = Some (DONE, Some "locations-converted.csv"%string, ["a"]%string, false).
Proof. vm_compute. reflexivity. Qed.
(** A validation that read the row before the conversion ended puts the state back. *)
Example state_put_back : row (example_history (asked ++ taken ++ [Validated 1; End 0; Store 0])) 1 = Some (IN_PROGRESS, None, ["a"]%string, true).
Proof. vm_compute. reflexivity. Qed.
(** With a mapping file go the files that were ever converted with it and their portfolios. *)
Example mapping_deleted : let d := example_history (asked ++ taken ++ [End 0; DeleteMapping 5]) in
  row d 1 = None ∧ portfolio_files d !! 7 = None ∧ portfolio_files d !! 8 ≠ None.
Proof. vm_compute. repeat split. discriminate. Qed.
(** The mapping that cannot be read: the tasks that follow and a request with another mapping
    find the file in progress, and it stays so. *)
Example unreadable : row (example_history ([Ask 1 6 example_user; Store 0] ++ taken ++ taken ++ taken ++ asked)) 1 = Some (IN_PROGRESS, None, ["a"]%string, false).
Proof. vm_compute. reflexivity. Qed.
Example names : converted_name "a.tar.gz" = "a-converted.tar.gz"%string ∧ converted_name "locations" = "-converted"%string ∧ converted_name ".csv" = "-converted"%string.
Proof. vm_compute. auto. Qed.
