(* ===== verification/LookupChunks.v ===== *)
(** * The chunks of a lookup

    src/model_execution_worker/distributed_tasks.py: how the rows of an exposure are split
    into chunks that are looked up on different workers, how the chunks are stored and
    loaded, and how what they give is merged. pandas and numpy are an interface with the
    laws their documentation states; the exposure is a list of rows. *)

From stdpp Require Import sorting stringmap.
From S2P Require Import Prelude PyData.

(** ** numpy and pandas *)

(** Parts of a list that end where an index says. *)
Fixpoint parts {A} (from : nat) (ends : list nat) (l : list A) : list (list A) :=
  match ends with
  | [] => [drop from l]
  | e :: ends => take (e - from) (drop from l) :: parts e ends l
  end.
(** Positions in the order of their values, equal ones as they come. *)
Definition before_in (l : list nat) (i j : nat) : Prop := let a := default 0 (l !! i) in let b := default 0 (l !! j) in a < b ∨ a = b ∧ i ≤ j.
#[export] Instance before_in_dec l i j : Decision (before_in l i j) := ltac:(unfold before_in; apply _).

Class numpy := {
  factorize : list Z → list nat * list Z;
  array_split : list nat → nat → list (list nat);
  repeat_each : list nat → list nat → list nat;
  argsort : list nat → list nat;
  searchsorted : list nat → list nat → list nat;
  split_at : list nat → list nat → list (list nat) }.
(** What their documentation says. *)
Class numpy_laws (N : numpy) : Prop := {
  factorize_law l : let '(codes, ids) := factorize l in
    NoDup ids ∧ length codes = length l ∧ (∀ i x, l !! i = Some x → ∃ c, codes !! i = Some c ∧ ids !! c = Some x) ∧
    (∀ c x, ids !! c = Some x → x ∈ l);
  array_split_law l k : 0 < k → concat (array_split l k) = l ∧ length (array_split l k) = k ∧
    ∀ i part, array_split l k !! i = Some part → length part = length l / k + (if decide (i < length l mod k) then 1 else 0);
  repeat_law l times : repeat_each l times = concat (zip_with (λ x n, replicate n x) l times);
  argsort_law l : argsort l ≡ₚ seq 0 (length l) ∧ StronglySorted (before_in l) (argsort l);
  searchsorted_law l v : StronglySorted (≤) l → searchsorted l v = (λ x, length (filter (λ y, y < x) l)) <$> v;
  split_law l ends : split_at l ends = parts 0 ends l }.

Section chunks.
Context `{N : numpy}.

(** [a[codes]]: the values at some positions. *)
Fixpoint at_all {A} (l : list A) (codes : list nat) : result (list A) :=
  match codes with
  | [] => Ok []
  | c :: codes => match l !! c with Some x => cons x <$> at_all l codes | None => Raise IndexError end
  end.
(** [subject_at_risk_chunk_rows], of the column of subjects. *)
Definition subject_at_risk_chunk_rows (loc_ids : list Z) (num_chunks : nat) : result (list (list nat)) :=
  let '(codes, sar_ids) := factorize loc_ids in
  if decide (num_chunks = 0) then Raise (ValueError "number sections must be larger than 0.")
  else
    let chunk_sizes := length <$> array_split (seq 0 (length sar_ids)) num_chunks in
    row_chunks ← at_all (repeat_each (seq 0 num_chunks) chunk_sizes) codes;
    let rows := argsort row_chunks in
    sorted ← at_all row_chunks rows;
    Ok (split_at rows (searchsorted sorted (seq 1 (num_chunks - 1)))).

(** A table: the subject of each row, and the rest of it. *)
Definition table : Type := list (Z * json).
Definition iloc (df : table) (rows : list nat) : result table := at_all df rows.
(** [split_subject_at_risk_data]. *)
Definition split_subject_at_risk_data (df : table) (num_chunks chunk_idx : nat) : result table :=
  chunks ← subject_at_risk_chunk_rows df.*1 num_chunks;
  match chunks !! chunk_idx with Some rows => iloc df rows | None => Raise IndexError end.

(** ** Stored chunks *)

(** A store of files under names it gives. *)
Context {store : Type} (put : string → table → store → string * store) (read : string → store → result table).
Fixpoint store_chunks (i : nat) (df : table) (chunks : list (list nat)) (s : store) : result (list string) * store :=
  match chunks with
  | [] => (Ok [], s)
  | rows :: chunks =>
      match iloc df rows with
      | Ok chunk =>
          let '(ref, s) := put ("sar-chunk-" +:+ pretty (S i) +:+ ".parquet") chunk s in
          let '(refs, s) := store_chunks (S i) df chunks s in (cons ref <$> refs, s)
      | Raise e => (Raise e, s)
      end
  end.
Definition store_subject_at_risk_chunks (df : table) (num_chunks : nat) (s : store) : result (list string) * store :=
  match subject_at_risk_chunk_rows df.*1 num_chunks with
  | Ok chunks => store_chunks 0 df chunks s
  | Raise e => (Raise e, s)
  end.
(** [load_subject_at_risk_chunk]: of the stored chunks, or of the whole exposure. *)
Definition load_subject_at_risk_chunk (sar_chunks : option (list string)) (whole : result table) (num_chunks chunk_idx : nat) (s : store) : result table :=
  let refs := default [] sar_chunks in
  if decide (length refs = num_chunks) then
    match refs !! chunk_idx with Some ref => read ref s | None => Raise IndexError end
  else df ← whole; split_subject_at_risk_data df num_chunks chunk_idx.
End chunks.

(** ** One implementation *)

Fixpoint position (x : Z) (l : list Z) : nat := match l with [] => 0 | y :: l => if decide (x = y) then 0 else S (position x l) end.
Definition uniques (l : list Z) : list Z := foldl (λ u x, if decide (x ∈ u) then u else u ++ [x]) [] l.
Fixpoint cut (sizes : list nat) (l : list nat) : list (list nat) :=
  match sizes with [] => [] | s :: sizes => take s l :: cut sizes (drop s l) end.
Definition even_sizes (n k : nat) : list nat := (λ i, n / k + (if decide (i < n mod k) then 1 else 0)) <$> seq 0 k.
#[export] Instance plain_numpy : numpy := {|
  factorize l := ((λ x, position x (uniques l)) <$> l, uniques l);
  array_split l k := cut (even_sizes (length l) k) l;
  repeat_each l times := concat (zip_with (λ x n, replicate n x) l times);
  argsort l := merge_sort (before_in l) (seq 0 (length l));
  searchsorted l v := (λ x, length (filter (λ y, y < x) l)) <$> v;
  split_at l ends := parts 0 ends l |}.

Example chunks_ex : subject_at_risk_chunk_rows [7; 7; 3; 9; 3; 7; 5]%Z 3 = Ok [[0; 1; 2; 4; 5]; [3]; [6]] ∧
  subject_at_risk_chunk_rows [7; 7]%Z 3 = Ok [[0; 1]; []; []].
Proof. vm_compute. done. Qed.

(** ** Lists by classes *)

Section classes.
Context {A : Type} (g : A → nat).
Definition class (L : list A) (j : nat) : list A := filter (λ i, g i = j) L.
Lemma below_next L k : filter (λ i, g i < S k) L ≡ₚ filter (λ i, g i < k) L ++ class L k.
Proof.
  unfold class. induction L as [|x L IH]; [done|]. rewrite !filter_cons. destruct (lt_eq_lt_dec (g x) k) as [[H|H]|H].
  - rewrite (decide_True (P := g x < S k)), (decide_True (P := g x < k)), (decide_False (P := g x = k)) by lia. cbn. by rewrite IH.
  - rewrite (decide_True (P := g x < S k)), (decide_False (P := g x < k)), (decide_True (P := g x = k)) by lia. cbn. rewrite IH. apply Permutation_middle.
  - by rewrite (decide_False (P := g x < S k)), (decide_False (P := g x < k)), (decide_False (P := g x = k)) by lia.
Qed.
Lemma classes_below L k : concat (class L <$> seq 0 k) ≡ₚ filter (λ i, g i < k) L.
Proof.
  induction k as [|k IH].
  - cbn. induction L as [|x L IH]; [done|]. rewrite filter_cons, decide_False by lia. done.
  - rewrite seq_S, fmap_app, concat_app, below_next, IH. cbn. by rewrite app_nil_r.
Qed.
Lemma classes_all L k : (∀ i, i ∈ L → g i < k) → concat (class L <$> seq 0 k) ≡ₚ L.
Proof.
  intros H. rewrite classes_below. induction L as [|x L IH]; [done|]. rewrite filter_cons, decide_True by (apply H; left).
  constructor. apply IH. intros i Hi. apply H. by right.
Qed.
Lemma count_below L k : length (filter (λ i, g i < S k) L) = length (filter (λ i, g i < k) L) + length (class L k).
Proof. by rewrite below_next, length_app. Qed.
End classes.

(** Positions in the order of their values are the classes one after the other. *)
Lemma StronglySorted_filter {A} (R : A → A → Prop) (P : A → Prop) `{∀ x, Decision (P x)} (l : list A) : StronglySorted R l → StronglySorted R (filter P l).
Proof.
  induction 1 as [|x l Hl IH Hx]; [constructor|]. rewrite filter_cons. case_decide; [|done]. constructor; [done|].
  rewrite Forall_forall in *. intros y [_ Hy]%list_elem_of_filter. by apply Hx.
Qed.
Lemma seq_sorted a n : StronglySorted (≤) (seq a n).
Proof. revert a. induction n as [|n IH]; intros a; cbn; [constructor|]. constructor; [apply IH|]. apply Forall_forall. intros x Hx%elem_of_seq. lia. Qed.
Section sorting.
Context (rc : list nat).
Definition value (i : nat) : nat := default 0 (rc !! i).
#[local] Instance before_antisymm : AntiSymm (=) (before_in rc).
Proof. intros i j. unfold before_in. lia. Qed.
Lemma classes_sorted n k : StronglySorted (before_in rc) (concat (class value (seq 0 n) <$> seq 0 k)).
Proof.
  induction k as [|k IH]; [constructor|]. rewrite seq_S, fmap_app, concat_app. cbn [fmap list_fmap concat]. rewrite app_nil_r.
  apply StronglySorted_app_2; [|done|].
  - intros i j Hi Hj. rewrite (classes_below value) in Hi. apply list_elem_of_filter in Hi as [Hi _], Hj as [Hj _]. left. unfold value in *. lia.
  - assert (StronglySorted (≤) (class value (seq 0 n) k)) as Hs by (apply StronglySorted_filter, seq_sorted).
    assert (Forall (λ i, value i = k) (class value (seq 0 n) k)) as Hv by (apply Forall_forall; by intros i [Hi _]%list_elem_of_filter).
    revert Hs Hv. cbn [Nat.add]. generalize (class value (seq 0 n) k) as L. intros L Hs Hv. induction Hs as [|x l Hl IHl Hx]; [constructor|]. apply Forall_cons in Hv as [Hxk Hv]. constructor; [by apply IHl|].
    rewrite Forall_forall in *. intros y Hy. right. specialize (Hv y Hy). specialize (Hx y Hy). unfold value in *. split; [congruence|done].
Qed.
Lemma argsort_classes `{N : numpy, !numpy_laws N} k : (∀ x, x ∈ rc → x < k) → argsort rc = concat (class value (seq 0 (length rc)) <$> seq 0 k).
Proof.
  intros H. destruct (argsort_law rc) as [Hp Hs]. apply (StronglySorted_unique (before_in rc)); [done|apply classes_sorted|].
  rewrite Hp. symmetry. apply classes_all. intros i Hi%elem_of_seq. destruct (lookup_lt_is_Some_2 rc i) as [x Hx]; [lia|].
  unfold value. rewrite Hx. apply H. by eapply list_elem_of_lookup_2.
Qed.
End sorting.

(** ** The split *)

Lemma at_all_spec {A B} (l : list A) (f : B → A) (codes : list nat) (xs : list B) :
  length codes = length xs → (∀ i x, xs !! i = Some x → ∃ c, codes !! i = Some c ∧ l !! c = Some (f x)) → at_all l codes = Ok (f <$> xs).
Proof.
  revert xs. induction codes as [|c codes IH]; intros [|x xs] Hl H; try done. cbn.
  destruct (H 0 x eq_refl) as (c' & [= <-] & ->). rewrite (IH xs); [done|by injection Hl|]. intros i y Hy. apply (H (S i) y Hy).
Qed.
Lemma at_all_positions (l : list nat) codes : (∀ c, c ∈ codes → c < length l) → at_all l codes = Ok (value l <$> codes).
Proof.
  intros H. apply at_all_spec; [done|]. intros i c Hc. exists c. split; [done|]. unfold value.
  destruct (lookup_lt_is_Some_2 l c) as [x ->]; [apply H; by eapply list_elem_of_lookup_2|done].
Qed.
Lemma positions_all (l : list nat) : value l <$> seq 0 (length l) = l.
Proof.
  apply list_eq. intros i. rewrite list_lookup_fmap. destruct (l !! i) as [x|] eqn:E.
  - rewrite lookup_seq_lt by (by eapply lookup_lt_Some). cbn. unfold value. by rewrite E.
  - apply lookup_ge_None in E. by rewrite lookup_seq_ge.
Qed.
(** The ends of lists one after the other. *)
Fixpoint ends_of {A} (from : nat) (Ks : list (list A)) : list nat :=
  match Ks with [] => [] | K :: Ks => match Ks with [] => [] | _ => (from + length K) :: ends_of (from + length K) Ks end end.
Lemma parts_concat {A} (Ks : list (list A)) (pre : list A) : Ks ≠ [] → parts (length pre) (ends_of (length pre) Ks) (pre ++ concat Ks) = Ks.
Proof.
  revert pre. induction Ks as [|K Ks IH]; intros pre Hn; [done|]. destruct Ks as [|K' Ks].
  - cbn. by rewrite drop_app_length, app_nil_r.
  - cbn [ends_of parts]. rewrite drop_app_length. replace (length pre + length K - length pre) with (length K) by lia.
    change (concat (K :: K' :: Ks)) with (K ++ concat (K' :: Ks)). rewrite take_app_length. f_equal.
    rewrite app_assoc, <- length_app. by apply IH.
Qed.
(** Where the classes end. *)
Lemma ends_classes (g : nat → nat) (L : list nat) a m :
  (λ x, length (filter (λ i, g i < x) L)) <$> seq (S a) m = ends_of (length (filter (λ i, g i < a) L)) (class g L <$> seq a (S m)).
Proof.
  revert a. induction m as [|m IH]; intros a; [done|]. cbn [seq fmap list_fmap ends_of]. rewrite count_below. f_equal.
  rewrite <- count_below. apply (IH (S a)).
Qed.
Lemma filter_fmap_length {A B} (f : A → B) (P : B → Prop) `{∀ x, Decision (P x)} (l : list A) :
  length (filter P (f <$> l)) = length (filter (λ x, P (f x)) l).
Proof. induction l as [|x l IH]; [done|]. cbn [fmap list_fmap]. rewrite !filter_cons. case_decide; cbn; auto. Qed.
Lemma filter_perm_length {A} (P : A → Prop) `{∀ x, Decision (P x)} (l k : list A) : l ≡ₚ k → length (filter P l) = length (filter P k).
Proof. intros H'. by rewrite H'. Qed.
Lemma sorted_values (rc rows : list nat) : StronglySorted (before_in rc) rows → StronglySorted (≤) (value rc <$> rows).
Proof.
  induction 1 as [|x l Hl IH Hx]; cbn; constructor; [done|]. rewrite Forall_forall in *. intros y (z & -> & Hz)%list_elem_of_fmap.
  specialize (Hx z Hz). unfold before_in, value in *. lia.
Qed.

(** The chunk of each row, when the rows are split by it. *)
Lemma split_by_value `{N : numpy, !numpy_laws N} (rc : list nat) k : k ≠ 0 → (∀ x, x ∈ rc → x < k) →
  (let rows := argsort rc in sorted ← at_all rc rows; Ok (split_at rows (searchsorted sorted (seq 1 (k - 1)))))
  = Ok (class (value rc) (seq 0 (length rc)) <$> seq 0 k).
Proof.
  intros Hk H. destruct (argsort_law rc) as [Hp Hs]. cbv zeta.
  rewrite at_all_positions by (intros c Hc; rewrite Hp in Hc; by apply elem_of_seq in Hc as [_ ?]). cbn. f_equal.
  rewrite split_law, searchsorted_law by by apply sorted_values. destruct k as [|m]; [done|]. cbn [Nat.sub]. rewrite Nat.sub_0_r.
  assert (∀ x, length (filter (λ y, y < x) (value rc <$> argsort rc)) = length (filter (λ i, value rc i < x) (seq 0 (length rc)))) as E.
  { intros x. rewrite filter_fmap_length. by apply filter_perm_length. }
  etrans; [apply f_equal2; [apply list_fmap_ext; intros _ x _; apply E|by apply argsort_classes]|].
  rewrite ends_classes. assert (filter (λ i, value rc i < 0) (seq 0 (length rc)) = []) as ->.
  { generalize (seq 0 (length rc)) as L. induction L as [|x L IH]; [done|]. by rewrite filter_cons, decide_False by lia. }
  by apply (parts_concat _ []).
Qed.

Definition runs (a : nat) (sizes : list nat) : list nat := concat (zip_with (λ x n, replicate n x) (seq a (length sizes)) sizes).
Lemma sizes_length a sizes : length (runs a sizes) = sum_list sizes.
Proof. unfold runs. revert a. induction sizes as [|s sizes IH]; intros a; [done|]. cbn. by rewrite length_app, length_replicate, IH. Qed.
Lemma runs_below a sizes x : x ∈ runs a sizes → a ≤ x < a + length sizes.
Proof.
  unfold runs. revert a. induction sizes as [|s sizes IH]; intros a; cbn; [by intros ?%elem_of_nil|].
  rewrite elem_of_app. intros [[-> _]%elem_of_replicate|H%IH]; lia.
Qed.
Lemma runs_count a sizes i n : sizes !! i = Some n → length (filter (λ x, x = a + i) (runs a sizes)) = n.
Proof.
  unfold runs. revert a i. induction sizes as [|s sizes IH]; intros a i Hi; [done|]. cbn [length seq zip_with concat]. rewrite filter_app, length_app.
  assert (∀ b, length (filter (λ x, x = b) (replicate s a)) = if decide (a = b) then s else 0) as Hr.
  { intros b. clear IH Hi. induction s as [|s IHs]; cbn [replicate]; [by destruct (decide (a = b))|]. rewrite filter_cons. destruct (decide (a = b)); cbn; lia. }
  rewrite Hr. destruct i as [|i]; cbn in Hi.
  - injection Hi as ->. rewrite decide_True by lia. enough (filter (λ x, x = a + 0) (runs (S a) sizes) = []) as E by (unfold runs in E; rewrite E; cbn; lia).
    assert (∀ x, x ∈ runs (S a) sizes → x ≠ a + 0) as H by (intros x Hx%runs_below; lia). revert H. generalize (runs (S a) sizes) as L.
    intros L H. induction L as [|x L IHL]; [done|]. rewrite filter_cons, decide_False by (apply H; left). apply IHL. intros y Hy. apply H. by right.
  - rewrite decide_False by lia. cbn. rewrite <- (IH (S a) i Hi). f_equal. apply list_filter_ext. intros x _. lia.
Qed.
Lemma position_spec (ids : list Z) c x : NoDup ids → ids !! c = Some x → position x ids = c.
Proof.
  intros H. revert c. induction H as [|y ids Hy _ IH]; intros c Hc; [done|]. cbn. destruct c as [|c]; cbn in Hc; [injection Hc as ->; by rewrite decide_True|].
  destruct (decide (x = y)) as [->|]; [destruct Hy; by eapply list_elem_of_lookup_2|]. by rewrite (IH c).
Qed.
Lemma split_sizes `{N : numpy, !numpy_laws N} n k : k ≠ 0 → let sizes := length <$> array_split (seq 0 n) k in
  length sizes = k ∧ sum_list sizes = n ∧ ∀ i, i < k → sizes !! i = Some (n / k + if decide (i < n mod k) then 1 else 0).
Proof.
  intros Hk sizes. destruct (array_split_law (seq 0 n) k) as (Hc & Hl & Hs); [lia|]. rewrite length_seq in Hs. subst sizes. rewrite length_fmap. split; [done|]. split.
  - transitivity (length (seq 0 n)); [|apply length_seq]. rewrite <- Hc at 2. clear. induction (array_split (seq 0 n) k) as [|p ps IH]; cbn; [done|]. by rewrite length_app, <- IH.
  - intros i Hi. rewrite list_lookup_fmap. destruct (lookup_lt_is_Some_2 (array_split (seq 0 n) k) i) as [p Hp]; [lia|]. by rewrite Hp; cbn; rewrite (Hs i p Hp).
Qed.

(** There is a chunk for each subject, of all of its rows in their order, and the
    subjects are spread evenly. *)
Definition by_subject (loc_ids : list Z) (k : nat) (chunks : list (list nat)) : Prop :=
  ∃ (chunk_of : Z → nat) (subjects : list Z),
    NoDup subjects ∧ (∀ x, x ∈ subjects ↔ x ∈ loc_ids) ∧ (∀ x, x ∈ loc_ids → chunk_of x < k) ∧
    chunks = (λ j, filter (λ i, chunk_of <$> loc_ids !! i = Some j) (seq 0 (length loc_ids))) <$> seq 0 k ∧
    ∀ j, j < k → length (filter (λ x, chunk_of x = j) subjects) = length subjects / k + if decide (j < length subjects mod k) then 1 else 0.
Lemma chunks_by_subject `{N : numpy, !numpy_laws N} (loc_ids : list Z) k :
  match subject_at_risk_chunk_rows loc_ids k with Ok chunks => by_subject loc_ids k chunks | Raise _ => k = 0 end.
Proof.
  unfold subject_at_risk_chunk_rows. pose proof (factorize_law loc_ids) as Hf. destruct (factorize loc_ids) as [codes ids].
  destruct Hf as (Hids & Hlen & Hcodes & Hback). case_decide as Hk; [done|].
  destruct (split_sizes (length ids) k Hk) as (Hl & Hsum & Hsz). set (sizes := length <$> array_split (seq 0 (length ids)) k) in *.
  rewrite repeat_law. replace (concat (zip_with (λ x n, replicate n x) (seq 0 k) sizes)) with (runs 0 sizes) by (unfold runs; by rewrite Hl). set (R := runs 0 sizes).
  assert (length R = length ids) as HR by (unfold R; by rewrite sizes_length).
  set (chunk_of := λ x, value R (position x ids)).
  assert (∀ c x, ids !! c = Some x → R !! c = Some (chunk_of x)) as HRc.
  { intros c x Hx. unfold chunk_of, value. rewrite (position_spec ids c x Hids Hx). destruct (lookup_lt_is_Some_2 R c) as [y ->]; [|done].
    rewrite HR. by eapply lookup_lt_Some. }
  assert (∀ x, x ∈ loc_ids → chunk_of x < k) as Hbelow.
  { intros x (i & Hi)%list_elem_of_lookup. destruct (Hcodes i x Hi) as (c & _ & Hc). apply HRc, list_elem_of_lookup_2, runs_below in Hc. lia. }
  rewrite (at_all_spec R chunk_of codes loc_ids Hlen); [|intros i x Hi; destruct (Hcodes i x Hi) as (c & Hc & Hx); exists c; by split; [|apply HRc]].
  cbn [mbind result_bind]. rewrite split_by_value; [|done|by intros y (x & -> & Hx)%list_elem_of_fmap; apply Hbelow].
  exists chunk_of, ids. split; [done|]. split.
  { intros x. split; [|intros (i & Hi)%list_elem_of_lookup; destruct (Hcodes i x Hi) as (c & _ & Hc); by eapply list_elem_of_lookup_2].
    intros (c & Hc)%list_elem_of_lookup. by apply (Hback c). }
  split; [done|]. split.
  - rewrite length_fmap. apply list_fmap_ext. intros _ j _. unfold class, value. apply list_filter_ext. intros i Hi%elem_of_seq.
    rewrite list_lookup_fmap. destruct (lookup_lt_is_Some_2 loc_ids i) as [x ->]; [lia|]. cbn. split; [by intros ->|by intros [= ->]].
  - intros j Hj. pose proof (filter_fmap_length chunk_of (λ y, y = j) ids) as E. etrans; [symmetry; exact E|]. clear E. assert (chunk_of <$> ids = R) as ->.
    { apply list_eq. intros c. rewrite list_lookup_fmap. destruct (ids !! c) as [x|] eqn:E; [by rewrite (HRc c x E)|].
      symmetry. apply lookup_ge_None. rewrite HR. by apply lookup_ge_None. }
    apply (runs_count 0). by apply Hsz.
Qed.

(** C8: The chunks of a lookup partition the exposure by subject: there is one chunk for
    each worker; every subject has one chunk, which holds all of its rows; each chunk
    has its rows in their order; and the numbers of subjects differ by at most one,
    the first chunks having more. With a positive number of chunks it never raises. *)
Theorem chunks_partition `{N : numpy, !numpy_laws N} (loc_ids : list Z) k :
  0 < k → ∃ chunks, subject_at_risk_chunk_rows loc_ids k = Ok chunks ∧
  by_subject loc_ids k chunks ∧ length chunks = k ∧ concat chunks ≡ₚ seq 0 (length loc_ids) ∧
  ∀ chunk i j, chunk ∈ chunks → i ∈ chunk → j < length loc_ids → loc_ids !! i = loc_ids !! j → j ∈ chunk.
Proof.
  intros Hk. pose proof (chunks_by_subject loc_ids k) as H. destruct (subject_at_risk_chunk_rows loc_ids k) as [chunks|]; [|lia].
  exists chunks. do 2 (split; [done|]). destruct H as (f & ids & _ & _ & Hf & -> & _).
  split; [by rewrite length_fmap, length_seq|]. split.
  - etrans; [|apply (classes_all (λ i, default 0 (f <$> loc_ids !! i)) _ k)].
    + apply reflexive_eq. f_equal. apply list_fmap_ext. intros _ j _. apply list_filter_ext. intros i Hi%elem_of_seq.
      destruct (lookup_lt_is_Some_2 loc_ids i) as [x ->]; [lia|]. cbn. split; [by intros [= ->]|by intros ->].
    + intros i Hi%elem_of_seq. destruct (lookup_lt_is_Some_2 loc_ids i) as [x Hx]; [lia|]. rewrite Hx. apply Hf. by eapply list_elem_of_lookup_2.
  - intros chunk i j (h & -> & _)%list_elem_of_fmap [Hi _]%list_elem_of_filter Hj Eij. apply list_elem_of_filter. rewrite <- Eij. split; [done|]. apply elem_of_seq. lia.
Qed.

(** ** The laws of the implementation *)

Lemma uniques_spec l : NoDup (uniques l) ∧ ∀ x, x ∈ uniques l ↔ x ∈ l.
Proof.
  unfold uniques. assert (∀ u, NoDup u → let v := foldl (λ u x, if decide (x ∈ u) then u else u ++ [x]) u l in NoDup v ∧ ∀ x, x ∈ v ↔ x ∈ u ∨ x ∈ l) as H.
  { induction l as [|y l IH]; intros u Hu; cbn; [set_solver|]. case_decide as Hy.
    - destruct (IH u Hu) as [H1 H2]. split; [done|]. intros x. rewrite H2. set_solver.
    - destruct (IH (u ++ [y])) as [H1 H2]; [apply NoDup_app; split; [done|]; split; [set_solver|apply NoDup_singleton]|]. split; [done|]. intros x. rewrite H2. set_solver. }
  destruct (H [] NoDup_nil_2) as [H1 H2]. split; [done|]. intros x. rewrite H2. set_solver.
Qed.
Lemma position_lookup ids x : x ∈ ids → ids !! position x ids = Some x.
Proof. induction ids as [|y ids IH]; [by intros ?%elem_of_nil|]. cbn. rewrite elem_of_cons. destruct (decide (x = y)) as [->|]; [done|]. intros [->|H]; [done|]. by apply IH. Qed.
Lemma even_sum n k m : sum_list ((λ i, n + if decide (i < m) then 1 else 0) <$> seq 0 k) = k * n + Nat.min m k.
Proof.
  induction k as [|k IH]; [cbn; lia|]. rewrite seq_S, fmap_app. assert (∀ a b, sum_list (a ++ b) = sum_list a + sum_list b) as Ha by (intros a b; induction a; cbn; lia).
  rewrite Ha, IH. cbn. destruct (decide (k < m)); lia.
Qed.
Lemma cut_spec sizes l : sum_list sizes = length l → concat (cut sizes l) = l ∧ length (cut sizes l) = length sizes ∧ length <$> cut sizes l = sizes.
Proof.
  revert l. induction sizes as [|s sizes IH]; intros l Hs; cbn in *; [by destruct l|]. destruct (IH (drop s l)) as (H1 & H2 & H3); [rewrite length_drop; lia|].
  rewrite H1, take_drop, H2, H3, length_take, Nat.min_l by lia. done.
Qed.
#[local] Instance before_trans l : Transitive (before_in l).
Proof. intros i j h. unfold before_in. lia. Qed.
#[local] Instance before_total l : Total (before_in l).
Proof. intros i j. unfold before_in. lia. Qed.
#[export] Instance plain_numpy_laws : numpy_laws plain_numpy.
Proof.
  split.
  - intros l. cbn. destruct (uniques_spec l) as [H1 H2]. split; [done|]. split; [apply length_fmap|]. split.
    + intros i x Hx. exists (position x (uniques l)). rewrite list_lookup_fmap, Hx. split; [done|]. apply position_lookup, H2. by eapply list_elem_of_lookup_2.
    + intros c x Hx. apply H2. by eapply list_elem_of_lookup_2.
  - intros l k Hk. cbn. destruct (cut_spec (even_sizes (length l) k) l) as (H1 & H2 & H3).
    { unfold even_sizes. rewrite even_sum. pose proof (Nat.mod_upper_bound (length l) k). pose proof (Nat.div_mod (length l) k). lia. }
    split; [done|]. split; [rewrite H2; unfold even_sizes; by rewrite length_fmap, length_seq|]. intros i part Hp.
    assert ((length <$> cut (even_sizes (length l) k) l) !! i = Some (length part)) as E by by rewrite list_lookup_fmap, Hp.
    rewrite H3 in E. unfold even_sizes in E. rewrite list_lookup_fmap in E. destruct (seq 0 k !! i) as [j|] eqn:Ej; [|done]. apply lookup_seq in Ej as [-> _]. cbn in E. by injection E.
  - done.
  - intros l. cbn. split; [apply merge_sort_Permutation|]. apply Sorted_StronglySorted; [apply _|]. apply Sorted_merge_sort, _.
  - done.
  - done.
Qed.
Lemma chunks_partition_witness : let l := [7; 7; 3; 9; 3; 7; 5]%Z in let chunks := [[0; 1; 2; 4; 5]; [3]; [6]] in
  subject_at_risk_chunk_rows l 3 = Ok chunks ∧ by_subject l 3 chunks ∧ length chunks = 3 ∧ concat chunks ≡ₚ seq 0 (length l) ∧
  ∀ chunk i j, chunk ∈ chunks → i ∈ chunk → j < length l → l !! i = l !! j → j ∈ chunk.
Proof.
  intros l chunks. destruct (chunks_partition l 3 ltac:(lia)) as (chunks' & E & H). assert (chunks' = chunks) as -> by (vm_compute in E; by injection E).
  by split.
Defined.

(** ** Stored and loaded *)

Section stored.
Context `{N : numpy, !numpy_laws N} {store : Type} (put : string → table → store → string * store) (read : string → store → result table).
(** A file that was stored can be read, also after others were. *)
Context (read_put : ∀ name c s, read (put name c s).1 (put name c s).2 = Ok c).
Context (read_kept : ∀ name c s ref d, read ref s = Ok d → read ref (put name c s).2 = Ok d).

Lemma store_chunks_read df chunks i s refs s' :
  store_chunks put i df chunks s = (Ok refs, s') → (∀ ref d, read ref s = Ok d → read ref s' = Ok d) ∧
  Forall2 (λ ref rows, ∃ c, iloc df rows = Ok c ∧ read ref s' = Ok c) refs chunks.
Proof.
  revert i s refs. induction chunks as [|rows chunks IH]; intros i s refs; cbn [store_chunks]; [intros [= <- <-]; by split|].
  destruct (iloc df rows) as [c|] eqn:Ec; [|done]. destruct (put _ c s) as [ref s1] eqn:Ep. destruct (store_chunks put (S i) df chunks s1) as [[refs'|] s2] eqn:Es; [|done].
  intros [= <- <-]. destruct (IH _ _ _ Es) as [H1 H2]. match type of Ep with put ?n _ _ = _ => pose proof (read_put n c s) as Hp; pose proof (read_kept n c s) as Hk end.
  rewrite Ep in Hp, Hk. split; [intros r d Hr; by apply H1, Hk|]. constructor; [|done]. exists c. split; [done|]. by apply H1.
Qed.

(** Loading a chunk that was stored ahead gives the same rows as loading the whole
    exposure and splitting it, for every chunk, and the same error for one that is not
    there: a worker may use either. *)
Theorem stored_chunks_same df k s refs s' whole idx :
  store_subject_at_risk_chunks put df k s = (Ok refs, s') →
  load_subject_at_risk_chunk read (Some refs) whole k idx s' = split_subject_at_risk_data df k idx.
Proof.
  unfold store_subject_at_risk_chunks, load_subject_at_risk_chunk, split_subject_at_risk_data. pose proof (chunks_by_subject df.*1 k) as Hc.
  destruct (subject_at_risk_chunk_rows df.*1 k) as [chunks|]; [|done]. destruct Hc as (f & ids & _ & _ & _ & -> & _).
  intros E. apply store_chunks_read in E as [_ H]. pose proof (Forall2_length _ _ _ H) as Hl. rewrite length_fmap, length_seq in Hl. cbn [mbind result_bind].
  change (default [] (Some refs)) with refs. rewrite decide_True by done. destruct (refs !! idx) as [ref|] eqn:Er.
  - destruct (Forall2_lookup_l _ _ _ _ _ H Er) as (rows & -> & c & -> & ->). done.
  - apply lookup_ge_None in Er. rewrite (proj2 (lookup_ge_None _ idx)); [done|]. rewrite length_fmap, length_seq. lia.
Qed.
End stored.

(** A store that gives every file a new name. *)
Definition put_file (name : string) (c : table) (s : stringmap table) : string * stringmap table := let ref := fresh_string name s in (ref, <[ref := c]> s).
Definition read_file (ref : string) (s : stringmap table) : result table := match s !! ref with Some c => Ok c | None => Raise (OtherError "FileNotFoundError") end.
Lemma stored_chunks_same_witness :
  let df := [(7, JNull); (3, JNull); (7, JInt 1); (5, JNull)]%Z in let refs := ["sar-chunk-1.parquet"; "sar-chunk-2.parquet"]%string in
  (store_subject_at_risk_chunks put_file df 2 ∅).1 = Ok refs ∧
  load_subject_at_risk_chunk read_file (Some refs) (Raise IndexError) 2 0 (store_subject_at_risk_chunks put_file df 2 ∅).2 = Ok [(7, JNull); (3, JNull); (7, JInt 1)]%Z.
Proof.
  intros df refs. assert ((store_subject_at_risk_chunks put_file df 2 ∅).1 = Ok refs) as E by (vm_compute; reflexivity). split; [exact E|].
  assert (store_subject_at_risk_chunks put_file df 2 ∅ = (Ok refs, (store_subject_at_risk_chunks put_file df 2 ∅).2)) as Es by (rewrite <- E; apply surjective_pairing).
  rewrite (stored_chunks_same put_file read_file) with (df := df) (s := ∅); [vm_compute; reflexivity| | |exact Es].
  - intros n c s. unfold read_file, put_file. cbv zeta. cbn [fst snd]. by rewrite lookup_insert_eq.
  - intros n c s ref d. unfold read_file, put_file. cbv zeta. cbn [fst snd]. destruct (decide (ref = fresh_string n s)) as [->|Hn].
    + by rewrite fresh_string_fresh.
    + by rewrite lookup_insert_ne.
Defined.
