(* ===== verification/TaskLogs.v ===== *)
(** * The logs of the worker's tasks

    src/model_execution_worker/utils.py: a task writes its own log file by a handler on a
    logger that all threads of the worker share ([LoggingTaskContext]); the level of that
    logger is the lowest one that any running task asks for ([_LevelTracker]). Python's
    logging module is modelled as far as it decides which record reaches which file. *)

From S2P Require Import Prelude PyData.
Local Open Scope Z_scope.

(** ** Levels *)

(** [logging.getLevelNamesMapping()]. *)
Definition level_names : list (string * Z) :=
  [("CRITICAL", 50); ("FATAL", 50); ("ERROR", 40); ("WARN", 30); ("WARNING", 30); ("INFO", 20); ("DEBUG", 10); ("NOTSET", 0)]%string.
Definition DEBUG : Z := 10.
Definition INFO : Z := 20.
(** A level is a number or a name. *)
Definition _level_to_int (level : Z + string) : result Z :=
  match level with inl n => Ok n | inr s => match assoc s level_names with Some n => Ok n | None => Raise (KeyError s) end end.

(** ** Loggers *)

(** The handlers of a [LoggingTaskContext] have a filter for their thread; those that loggers
    had before have none. *)
Record handler := { log_filename : string; handler_level : Z; thread_id : option Z }.
#[export] Instance handler_eq_dec : EqDecision handler := ltac:(solve_decision).
(** Of each logger: its level, the requests for levels with the level before them, its
    handlers, and how many [TaskLogFilter]s it has; and the lines of each file. *)
Record logging := {
  level : gmap string Z; _state : gmap string (Z * list Z); handlers : gmap string (list handler);
  task_filters : gmap string nat; files : gmap string (list string) }.
#[export] Instance logging_settable : Settable logging :=
  λ s, {| level := level s; _state := _state s; handlers := handlers s; task_filters := task_filters s; files := files s |}.
Definition level_of (l : string) (s : logging) : Z := default 0 (level s !! l).
Definition setLevel (l : string) (n : Z) (s : logging) : logging := s <| level := <[l := n]> (level s) |>.
(** [min] of a list that is not empty. *)
Definition min_of (n : Z) (l : list Z) : Z := foldl Z.min n l.

(** *** [_LevelTracker] *)

Definition acquire (l : string) (n : Z) : M logging unit := λ s,
  let '(baseline, requests) := default (level_of l s, []) (_state s !! l) in
  let requests := requests ++ [n] in
  (Ok tt, setLevel l (min_of (default n (head requests)) requests) (s <| _state := <[l := (baseline, requests)]> (_state s) |>)).
Fixpoint remove_one (n : Z) (l : list Z) : option (list Z) :=
  match l with [] => None | x :: l => if decide (x = n) then Some l else cons x <$> remove_one n l end.
Definition release (l : string) (n : Z) : M logging unit := λ s,
  match _state s !! l with
  | None => (Raise (KeyError l), s)
  | Some (baseline, requests) =>
      match remove_one n requests with
      | None => (Raise (ValueError "list.remove(x): x not in list"), s)
      | Some [] => (Ok tt, setLevel l baseline (s <| _state := delete l (_state s) |>))
      | Some (x :: r) => (Ok tt, setLevel l (min_of x (x :: r)) (s <| _state := <[l := (baseline, x :: r)]> (_state s) |>))
      end
  end.

(** *** [LoggingTaskContext] *)

Record context := { logger : string; context_level : option (Z + string); filename : string; thread : Z; delete_on_exit : bool }.
#[export] Instance context_eq_dec : EqDecision context := ltac:(solve_decision).
(** [if self.level]. *)
Definition wanted (c : context) : option (Z + string) :=
  match context_level c with Some (inl 0) | Some (inr EmptyString) => None | l => l end.
Definition handler_of (c : context) : result handler :=
  n ← (match wanted c with
       | Some l => match _level_to_int l with Ok n => Ok n | Raise _ => Raise (ValueError "Unknown level") end
       | None => Ok 0
       end);
  Ok {| log_filename := filename c; handler_level := n; thread_id := Some (thread c) |}.
Definition adds_filter (c : context) : result bool :=
  match wanted c with Some l => n ← _level_to_int l; Ok (n <=? DEBUG) | None => Ok false end.
(** [FileHandler(log_filename, mode='w')]: the file is emptied. *)
Definition open_context (c : context) (s : logging) : logging := s <| files := <[filename c := []]> (files s) |>.
Definition __enter__ (c : context) : M logging unit :=
  h ← lift (handler_of c);
  (match wanted c with Some l => n ← lift (_level_to_int l); acquire (logger c) n | None => mret tt end);;
  f ← lift (adds_filter c);
  (if f : bool then modify (λ s, s <| task_filters := <[logger c := S (default 0%nat (task_filters s !! logger c))]> (task_filters s) |>) else mret tt);;
  modify (λ s, s <| handlers := <[logger c := default [] (handlers s !! logger c) ++ [h]]> (handlers s) |>).
Fixpoint remove_handler (h : handler) (l : list handler) : list handler :=
  match l with [] => [] | x :: l => if decide (x = h) then l else x :: remove_handler h l end.
(** With an exception the file stays. *)
Definition __exit__ (c : context) (failed : bool) : M logging unit :=
  (match wanted c with Some l => n ← lift (_level_to_int l); release (logger c) n | None => mret tt end);;
  f ← lift (adds_filter c);
  (if f : bool then modify (λ s, s <| task_filters := <[logger c := pred (default 0%nat (task_filters s !! logger c))]> (task_filters s) |>) else mret tt);;
  h ← lift (handler_of c);
  modify (λ s, s <| handlers := <[logger c := remove_handler h (default [] (handlers s !! logger c))]> (handlers s) |>);;
  (if delete_on_exit c && negb failed then modify (λ s, s <| files := delete (filename c) (files s) |>) else mret tt).

(** ** Records *)

Record record := { name : string; levelno : Z; from_thread : Z; message : string }.
Definition BLOCKED : list string :=
  ["psycopg"; "django"; "celery"; "kombu"; "amqp"; "billiard"; "urllib3"; "boto3"; "botocore"; "azure"; "numba"]%string.
(** [TaskLogFilter.filter]. *)
Definition task_filter (r : record) : bool :=
  if existsb (λ b, String.eqb (name r) b || String.prefix (b +:+ ".") (name r)) BLOCKED then INFO <=? levelno r else true.
(** [_ThreadScopedFilter.filter], of a handler that has one. *)
Definition thread_filter (h : handler) (r : record) : bool := match thread_id h with Some t => from_thread r =? t | None => true end.
(** A logger and those above it, up to the root logger, whose name is [root] here. *)
Definition above (l : string) : list string :=
  if String.eqb l "root" then ["root"%string]
  else let parts := split_on "." l in
       reverse ((λ n, join "." (take n parts)) <$> seq 1 (length parts)) ++ ["root"%string].
Definition effective_level (l : string) (s : logging) : Z :=
  default 0 (head (List.filter (λ n, negb (n =? 0)) ((λ k, level_of k s) <$> above l))).
(** The filters of the logger a record is made by are asked, and then every handler on
    the way up; the filters of the loggers on the way are not. *)
Definition accepts (r : record) (h : handler) : bool := (handler_level h <=? levelno r) && thread_filter h r.
Definition reached (r : record) (s : logging) : list handler :=
  if (effective_level (name r) s <=? levelno r) && (match default 0%nat (task_filters s !! name r) with O => true | _ => task_filter r end)
  then List.filter (accepts r) (flat_map (λ l, default [] (handlers s !! l)) (above (name r))) else [].
Definition write_line (r : record) (s : logging) (h : handler) : logging :=
  s <| files := <[log_filename h := default [] (files s !! log_filename h) ++ [message r]]> (files s) |>.
Definition log (r : record) (s : logging) : logging := foldl (write_line r) s (reached r s).

(** ** Tasks that come and go *)

(** What happens: a task enters its context or leaves it, with an exception or not. *)
Inductive event := Enter (c : context) | Exit (c : context) (failed : bool).
Definition step (e : event) : M logging unit := match e with Enter c => __enter__ c | Exit c failed => __exit__ c failed end.
(** The contexts that are open, if only open ones are left. *)
Fixpoint remove_context (c : context) (cs : list context) : option (list context) :=
  match cs with [] => None | x :: cs => if decide (x = c) then Some cs else cons x <$> remove_context c cs end.
Definition opened (cs : option (list context)) (e : event) : option (list context) :=
  cs ← cs; match e with Enter c => Some (c :: cs) | Exit c _ => remove_context c cs end.
Definition open_after (es : list event) : option (list context) := foldl opened (Some []) es.

(** The number of the level a context asks for, if it asks for one. *)
Definition numeric (c : context) : option Z := l ← wanted c; match _level_to_int l with Ok n => Some n | Raise _ => None end.
Definition known_level (c : context) : Prop := is_Some (wanted c) → is_Some (numeric c).
Definition filtering (c : context) : bool := match numeric c with Some n => n <=? DEBUG | None => false end.
Definition own_handler (c : context) : handler := {| log_filename := filename c; handler_level := default 0 (numeric c); thread_id := Some (thread c) |}.
(** Of the contexts on a logger. *)
Definition on (l : string) (cs : list context) : list context := List.filter (λ c, String.eqb (logger c) l) cs.
Definition requested (l : string) (cs : list context) : list Z := omap numeric (on l cs).
Definition lowest (n : Z) (l : list Z) : Prop := n ∈ l ∧ ∀ m, m ∈ l → n <= m.

Lemma min_of_lowest x l : lowest (min_of x l) (x :: l).
Proof.
  unfold min_of, lowest. revert x. induction l as [|y l IH]; intros x; cbn.
  - split; [left|]. intros m ->%list_elem_of_singleton. lia.
  - destruct (IH (Z.min x y)) as [H1 H2]. split.
    + apply elem_of_cons in H1 as [->|H1]; [|by do 2 right]. destruct (Z.min_spec x y) as [[_ ->]|[_ ->]]; [left|right; left].
    + intros m. rewrite !elem_of_cons. pose proof (H2 (Z.min x y) ltac:(left)). intros [->|[->|Hm]]; [lia|lia|]. apply H2. by right.
Qed.
Lemma lowest_perm n l k : l ≡ₚ k → lowest n l → lowest n k.
Proof. intros H [H1 H2]. unfold lowest. setoid_rewrite <- H. done. Qed.
Lemma lowest_head x l n : lowest n (x :: x :: l) → lowest n (x :: l).
Proof. intros [H1 H2]. split; [|intros m Hm; apply H2; by right]. apply elem_of_cons in H1 as [->|H1]; [left|done]. Qed.
Lemma remove_one_spec n l : match remove_one n l with Some k => l ≡ₚ n :: k | None => n ∉ l end.
Proof.
  induction l as [|x l IH]; cbn; [apply not_elem_of_nil|]. destruct (decide (x = n)) as [->|Hx]; [done|].
  destruct (remove_one n l) as [k|]; cbn; [rewrite IH; constructor|]. rewrite elem_of_cons. intros [->|?]; done.
Qed.
Lemma remove_context_spec c cs ds : remove_context c cs = Some ds → cs ≡ₚ c :: ds.
Proof.
  revert ds. induction cs as [|x cs IH]; intros ds; cbn; [done|]. destruct (decide (x = c)) as [->|]; [by intros [= ->]|].
  destruct (remove_context c cs) as [k|]; cbn; [|done]. intros [= <-]. rewrite (IH k eq_refl). constructor.
Qed.
Lemma remove_handler_spec h l : h ∈ l → l ≡ₚ h :: remove_handler h l.
Proof.
  induction l as [|x l IH]; [by intros ?%elem_of_nil|]. cbn. destruct (decide (x = h)) as [->|Hx]; [done|].
  rewrite elem_of_cons. intros [->|H]; [done|]. rewrite (IH H) at 1. constructor.
Qed.

(** *** What the loggers remember of the open contexts *)

Definition level_tracks (s0 s : logging) (cs : list context) : Prop := ∀ l,
  match _state s !! l with
  | None => requested l cs = [] ∧ level_of l s = level_of l s0
  | Some (b, rs) => rs ≡ₚ requested l cs ∧ b = level_of l s0 ∧ lowest (level_of l s) rs
  end.
Definition handler_tracks (s0 s : logging) (cs : list context) : Prop := ∀ l,
  default [] (handlers s !! l) ≡ₚ default [] (handlers s0 !! l) ++ (own_handler <$> on l cs) ∧
  default 0%nat (task_filters s !! l) = (default 0%nat (task_filters s0 !! l) + length (List.filter filtering (on l cs)))%nat.
Definition tracks (s0 s : logging) (cs : list context) : Prop := level_tracks s0 s cs ∧ handler_tracks s0 s cs.

Lemma filterb_perm {A} (p : A → bool) (l k : list A) : l ≡ₚ k → List.filter p l ≡ₚ List.filter p k.
Proof. induction 1 as [|x l k _ IH|x y l|l k h _ IH1 _ IH2]; cbn; [done|by destruct (p x); rewrite IH|destruct (p x), (p y); try done; constructor|by rewrite IH1]. Qed.
Lemma tracks_perm s0 s cs ds : cs ≡ₚ ds → tracks s0 s cs → tracks s0 s ds.
Proof.
  intros H [Hl Hh]. assert (∀ l, on l cs ≡ₚ on l ds) as Ho by (intros l; by apply filterb_perm).
  assert (∀ l, requested l cs ≡ₚ requested l ds) as Hr by (intros l; unfold requested; by rewrite Ho).
  split; intros l; [specialize (Hl l)|specialize (Hh l)].
  - destruct (_state s !! l) as [[b rs]|]; [by rewrite <- Hr|]. destruct Hl as [Hl ?]. split; [|done]. specialize (Hr l). rewrite Hl in Hr.
    by apply Permutation_nil_l in Hr.
  - destruct Hh as [H1 H2]. split; [by rewrite <- Ho|]. rewrite H2. f_equal. apply Permutation_length, filterb_perm, Ho.
Qed.
Lemma requested_cons c cs l : requested l (c :: cs) = match numeric c with Some n => if String.eqb (logger c) l then n :: requested l cs else requested l cs | None => requested l cs end.
Proof. unfold requested, on. cbn. destruct (String.eqb (logger c) l); cbn; by destruct (numeric c). Qed.
Lemma level_set l k n s : level_of l (setLevel k n s) = if String.eqb k l then n else level_of l s.
Proof.
  unfold level_of, setLevel. cbn. destruct (String.eqb_spec k l) as [->|H]; [by rewrite lookup_insert_eq|by rewrite lookup_insert_ne].
Qed.

Lemma acquire_tracks s0 s c cs n : numeric c = Some n → tracks s0 s cs →
  ∃ s', acquire (logger c) n s = (Ok tt, s') ∧ level_tracks s0 s' (c :: cs) ∧ handlers s' = handlers s ∧ task_filters s' = task_filters s ∧ files s' = files s.
Proof.
  intros Hn [Hl _]. unfold acquire. destruct (default _ _) as [b rs] eqn:E. eexists. split; [done|]. split; [|done]. intros l.
  rewrite level_set, requested_cons, Hn. cbn [_state setLevel]. specialize (Hl l).
  destruct (String.eqb_spec (logger c) l) as [<-|Hne].
  - cbn. rewrite lookup_insert_eq. assert (b = level_of (logger c) s0 ∧ rs ≡ₚ requested (logger c) cs) as [-> Hrs].
    { destruct (_state s !! logger c) as [[b' rs']|]; cbn in E; injection E as <- <-; [by destruct Hl as (? & ? & _)|]. destruct Hl as [-> ->]. done. }
    split; [rewrite Hrs; symmetry; apply Permutation_cons_append|]. split; [done|].
    destruct rs as [|x rs]; cbn; [rewrite Z.min_id; split; [left|]; intros m ->%list_elem_of_singleton; lia|].
    rewrite Z.min_id. apply (min_of_lowest x (rs ++ [n])).
  - cbn. rewrite lookup_insert_ne by done. exact Hl.
Qed.
Lemma release_tracks s0 s c cs n : numeric c = Some n → tracks s0 s (c :: cs) →
  ∃ s', release (logger c) n s = (Ok tt, s') ∧ level_tracks s0 s' cs ∧ handlers s' = handlers s ∧ task_filters s' = task_filters s ∧ files s' = files s.
Proof.
  intros Hn [Hl _]. unfold release. pose proof (Hl (logger c)) as Hc. rewrite requested_cons, Hn, String.eqb_refl in Hc.
  destruct (_state s !! logger c) as [[b rs]|] eqn:Es; [|by destruct Hc]. destruct Hc as (Hp & -> & _).
  pose proof (remove_one_spec n rs) as Hr. destruct (remove_one n rs) as [k|]; [|by destruct Hr; rewrite Hp; left].
  assert (k ≡ₚ requested (logger c) cs) as Hk by (rewrite Hr in Hp; by apply Permutation_cons_inv in Hp).
  assert (∀ l, logger c ≠ l → match _state s !! l with None => requested l cs = [] ∧ level_of l s = level_of l s0
    | Some (b, rs) => rs ≡ₚ requested l cs ∧ b = level_of l s0 ∧ lowest (level_of l s) rs end) as Hother.
  { intros l Hne. specialize (Hl l). by rewrite requested_cons, Hn, (proj2 (String.eqb_neq _ _) Hne) in Hl. }
  destruct k as [|x k]; eexists; (split; [done|]); (split; [|done]); intros l; rewrite level_set; cbn [_state setLevel]; cbn;
    (destruct (String.eqb_spec (logger c) l) as [<-|Hne]; [rewrite ?lookup_delete_eq, ?lookup_insert_eq|rewrite ?lookup_delete_ne, ?lookup_insert_ne by done; by apply Hother]).
  - split; [by apply Permutation_nil_l in Hk|done].
  - split; [done|]. split; [done|]. rewrite Z.min_id. apply min_of_lowest.
Qed.

Lemma wanted_cases c : known_level c →
  (wanted c = None ∧ numeric c = None) ∨ ∃ l n, wanted c = Some l ∧ _level_to_int l = Ok n ∧ numeric c = Some n.
Proof.
  unfold known_level, numeric. destruct (wanted c) as [l|]; [|by left]. intros H. right. specialize (H ltac:(eauto)). cbn in H |- *.
  destruct (_level_to_int l) as [n|] eqn:E; [by exists l, n|]. by destruct H.
Qed.
Lemma handler_of_known c : known_level c → handler_of c = Ok (own_handler c).
Proof. intros H. unfold handler_of, own_handler. destruct (wanted_cases c H) as [[-> ->]|(l & n & -> & E & ->)]; cbn; [done|by rewrite E]. Qed.
Lemma adds_filter_known c : known_level c → adds_filter c = Ok (filtering c).
Proof. intros H. unfold adds_filter, filtering. destruct (wanted_cases c H) as [[-> ->]|(l & n & -> & E & ->)]; cbn; [done|by rewrite E]. Qed.
Lemma on_cons l c cs : on l (c :: cs) = if String.eqb (logger c) l then c :: on l cs else on l cs.
Proof. done. Qed.

(** Handlers and filters come and go with the contexts. *)
Definition with_filter (b : bool) (f : nat → nat) (k : string) (s : logging) : logging :=
  if b then s <| task_filters := <[k := f (default 0%nat (task_filters s !! k))]> (task_filters s) |> else s.
Definition with_handlers (f : list handler → list handler) (k : string) (s : logging) : logging :=
  s <| handlers := <[k := f (default [] (handlers s !! k))]> (handlers s) |>.
Lemma handlers_set f k l s : default [] (handlers (with_handlers f k s) !! l) = if String.eqb k l then f (default [] (handlers s !! l)) else default [] (handlers s !! l).
Proof. unfold with_handlers. cbn. destruct (String.eqb_spec k l) as [->|]; [by rewrite lookup_insert_eq|by rewrite lookup_insert_ne]. Qed.
Lemma filters_set b f k l s : default 0%nat (task_filters (with_filter b f k s) !! l) = if b && String.eqb k l then f (default 0%nat (task_filters s !! l)) else default 0%nat (task_filters s !! l).
Proof. unfold with_filter. destruct b; [|done]. cbn. destruct (String.eqb_spec k l) as [->|]; [by rewrite lookup_insert_eq|by rewrite lookup_insert_ne]. Qed.

Lemma filters_kept f k s : task_filters (with_handlers f k s) = task_filters s.
Proof. done. Qed.
Lemma handlers_kept b f k s : handlers (with_filter b f k s) = handlers s.
Proof. by destruct b. Qed.

Lemma enter_eq c s : known_level c →
  __enter__ c s = match (match numeric c with Some n => acquire (logger c) n | None => mret tt end) s with
                  | (Ok _, s) => (Ok tt, with_handlers (λ l, l ++ [own_handler c]) (logger c) (with_filter (filtering c) S (logger c) s))
                  | r => r
                  end.
Proof.
  intros H. unfold __enter__. rewrite (handler_of_known c H), lift_bind, (adds_filter_known c H).
  destruct (wanted_cases c H) as [[-> ->]|(l & n & -> & E & ->)]; [|rewrite E; unfold mbind at 1, M_bind at 1; rewrite lift_bind; destruct (acquire _ n s) as [[[]|] s']; [|done]];
    (unfold mbind, M_bind; cbn; by destruct (filtering c)).
Qed.
Lemma exit_eq c b s : known_level c →
  __exit__ c b s = match (match numeric c with Some n => release (logger c) n | None => mret tt end) s with
                   | (Ok _, s) =>
                       let s := with_handlers (remove_handler (own_handler c)) (logger c) (with_filter (filtering c) pred (logger c) s) in
                       (Ok tt, if delete_on_exit c && negb b then s <| files := delete (filename c) (files s) |> else s)
                   | r => r
                   end.
Proof.
  intros H. unfold __exit__. rewrite (handler_of_known c H), (adds_filter_known c H).
  destruct (wanted_cases c H) as [[-> ->]|(l & n & -> & E & ->)]; [|rewrite E; unfold mbind at 1, M_bind at 1; rewrite lift_bind; destruct (release _ n s) as [[[]|] s']; [|done]];
    (unfold mbind, M_bind; cbn; destruct (filtering c), (delete_on_exit c && negb b); done).
Qed.
Lemma enter_tracks s0 s c cs : known_level c → tracks s0 s cs → ∃ s', __enter__ c s = (Ok tt, s') ∧ tracks s0 s' (c :: cs).
Proof.
  intros Hc Ht. rewrite (enter_eq c s Hc).
  assert (∃ s1, (match numeric c with Some n => acquire (logger c) n | None => mret tt end) s = (Ok tt, s1) ∧ level_tracks s0 s1 (c :: cs) ∧
    handlers s1 = handlers s ∧ task_filters s1 = task_filters s) as (s1 & -> & Hl & Eh & Ef).
  { destruct (numeric c) as [n|] eqn:En; [destruct (acquire_tracks s0 s c cs n En Ht) as (s1 & ? & ? & ? & ? & _); eauto 6|].
    exists s. split; [done|]. split; [|done]. intros l. rewrite requested_cons, En. apply Ht. }
  eexists. split; [done|]. destruct Ht as [_ Hh]. split.
  - intros l. specialize (Hl l). unfold with_handlers, with_filter. by destruct (filtering c).
  - intros l. destruct (Hh l) as [H1 H2]. rewrite handlers_set, on_cons, filters_kept, filters_set, handlers_kept.
    rewrite Eh, Ef. destruct (String.eqb (logger c) l); [|by rewrite andb_false_r]. rewrite andb_true_r. cbn. split.
    + rewrite H1. rewrite <- app_assoc. apply Permutation_app_head, Permutation_app_comm.
    + rewrite H2. destruct (filtering c); cbn; lia.
Qed.
Lemma exit_tracks s0 s c b cs : known_level c → tracks s0 s (c :: cs) → ∃ s', __exit__ c b s = (Ok tt, s') ∧ tracks s0 s' cs.
Proof.
  intros Hc Ht. rewrite (exit_eq c b s Hc).
  assert (∃ s1, (match numeric c with Some n => release (logger c) n | None => mret tt end) s = (Ok tt, s1) ∧ level_tracks s0 s1 cs ∧
    handlers s1 = handlers s ∧ task_filters s1 = task_filters s) as (s1 & -> & Hl & Eh & Ef).
  { destruct (numeric c) as [n|] eqn:En; [destruct (release_tracks s0 s c cs n En Ht) as (s1 & ? & ? & ? & ? & _); eauto 6|].
    exists s. split; [done|]. split; [|done]. intros l. destruct Ht as [Ht _]. specialize (Ht l). by rewrite requested_cons, En in Ht. }
  eexists. split; [done|]. destruct Ht as [_ Hh].
  set (s2 := with_handlers _ _ _). assert (tracks s0 s2 cs) as [H1 H2]; [|split; intros l; [specialize (H1 l)|specialize (H2 l)]; by destruct (_ && _)]. split.
  - intros l. specialize (Hl l). subst s2. unfold with_handlers, with_filter. by destruct (filtering c).
  - intros l. destruct (Hh l) as [H1 H2]. subst s2. rewrite handlers_set, filters_kept, filters_set, handlers_kept.
    rewrite on_cons in H1, H2. rewrite Eh, Ef. destruct (String.eqb (logger c) l); [|by rewrite andb_false_r]. rewrite andb_true_r. cbn in H1, H2. split.
    + assert (own_handler c ∈ default [] (handlers s !! l)) as Hin by (rewrite H1; apply elem_of_app; right; left).
      apply remove_handler_spec in Hin. apply (Permutation_cons_inv (a := own_handler c)). rewrite <- Hin, H1. by rewrite Permutation_middle.
    + rewrite H2. destruct (filtering c); cbn; lia.
Qed.

Definition event_context (e : event) : context := match e with Enter c => c | Exit c _ => c end.
Lemma foldl_opened_None es : foldl opened None es = None.
Proof. induction es; [done|]. done. Qed.
Lemma events_track s0 es s ds cs :
  Forall (λ e, known_level (event_context e)) es → tracks s0 s ds → foldl opened (Some ds) es = Some cs →
  ∃ s', for_each es step s = (Ok tt, s') ∧ tracks s0 s' cs.
Proof.
  revert s ds. induction es as [|e es IH]; intros s ds Hk Ht Ho; cbn in Ho |- *; [injection Ho as <-; by exists s|].
  apply Forall_cons in Hk as [He Hk]. destruct e as [c|c b]; cbn in *.
  - destruct (enter_tracks s0 s c ds He Ht) as (s1 & E & Ht'). rewrite (bind_step _ _ _ _ _ E). by apply (IH s1 (c :: ds)).
  - destruct (remove_context c ds) as [ds'|] eqn:Er; [|by rewrite foldl_opened_None in Ho].
    apply remove_context_spec in Er. destruct (exit_tracks s0 s c b ds' He (tracks_perm _ _ _ _ Er Ht)) as (s1 & E & Ht').
    rewrite (bind_step _ _ _ _ _ E). by apply (IH s1 ds').
Qed.
Lemma nothing_open s : _state s = ∅ → tracks s s [].
Proof. intros E. split; intros l; [by rewrite E, lookup_empty|]. cbn. by rewrite app_nil_r, Nat.add_0_r. Qed.

(** However the tasks of a worker enter and leave their logging contexts, on whatever
    threads and with whatever errors, nothing raises, and every logger is what the open
    contexts make it: its level is the lowest one they ask for, its handlers and filters
    are those it had and theirs. When no context is left, levels, handlers and filters are
    what they were before. *)
Theorem loggers_reflect_tasks s es cs :
  _state s = ∅ → Forall (λ e, known_level (event_context e)) es → open_after es = Some cs →
  ∃ s', for_each es step s = (Ok tt, s') ∧ ∀ l,
    (requested l cs = [] → level_of l s' = level_of l s) ∧ (requested l cs ≠ [] → lowest (level_of l s') (requested l cs)) ∧
    default [] (handlers s' !! l) ≡ₚ default [] (handlers s !! l) ++ (own_handler <$> on l cs) ∧
    default 0%nat (task_filters s' !! l) = (default 0%nat (task_filters s !! l) + length (List.filter filtering (on l cs)))%nat.
Proof.
  intros E Hk Ho. destruct (events_track s es s [] cs Hk (nothing_open s E) Ho) as (s' & Hr & Hl & Hh). exists s'. split; [done|]. intros l.
  specialize (Hl l). specialize (Hh l). destruct (_state s' !! l) as [[b rs]|].
  - destruct Hl as (Hp & _ & Hlow). split; [|split; [intros _; by eapply lowest_perm|done]]. intros En. rewrite En in Hp.
    symmetry in Hp. apply Permutation_nil_l in Hp. subst rs. destruct Hlow as [H _]. by apply elem_of_nil in H.
  - destruct Hl as [En Hl]. split; [done|]. split; [by rewrite En|done].
Qed.

(** C16: A record reaches the log of its own task, and of no other task. However tasks enter
    and leave their contexts, one leaving only what it entered, from a state in which none is in
    one, and with levels that are known: while a task is in a context on
    the root logger for which it asked for a level, a record of its thread that this level
    allows is written to the file of that context, whatever the other tasks ask for, if
    no logger from the one the record is made by up to the root logger, which is excepted,
    has a level of its own, and the first of them, unless it is the root, has no
    [TaskLogFilter]. And whatever the
    record is written to takes its level and is a handler of an open context of the same
    thread, or a handler that a logger on the way had before any task came. *)
Theorem own_records_only s es cs :
  _state s = ∅ → Forall (λ e, known_level (event_context e)) es → open_after es = Some cs →
  ∃ s', for_each es step s = (Ok tt, s') ∧
    (∀ c n r, c ∈ cs → logger c = "root"%string → numeric c = Some n → from_thread r = thread c → n <= levelno r →
     (∀ l, l ∈ above (name r) → l ≠ "root"%string → level_of l s' = 0) → (name r = "root"%string ∨ task_filters s' !! name r = None) →
     own_handler c ∈ reached r s') ∧
    ∀ r h, h ∈ reached r s' → handler_level h <= levelno r ∧
      ((∃ c, c ∈ cs ∧ h = own_handler c ∧ thread c = from_thread r) ∨ ∃ l, l ∈ above (name r) ∧ h ∈ default [] (handlers s !! l)).
Proof.
  intros E Hk Ho. destruct (events_track s es s [] cs Hk (nothing_open s E) Ho) as (s' & Hr & Hl & Hh). exists s'. split; [done|]. split.
  2: { intros r h. unfold reached. destruct (_ && _); [|by intros ?%elem_of_nil]. rewrite list_elem_of_In, filter_In, in_flat_map.
    intros ((l & Hin%list_elem_of_In & Hlh%list_elem_of_In) & [Hlev%Z.leb_le Ht]%andb_true_iff). split; [done|]. destruct (Hh l) as [Hp _]. rewrite Hp in Hlh.
    apply elem_of_app in Hlh as [Hlh|(c & -> & Hc)%list_elem_of_fmap]; [right; by exists l|]. left. exists c.
    unfold on in Hc. apply list_elem_of_In, filter_In in Hc as [Hc%list_elem_of_In _]. split; [done|]. split; [done|]. unfold thread_filter in Ht. cbn in Ht. by apply Z.eqb_eq in Ht. }
  intros c n r Hc Hroot Hn Ht Hlev.
  assert (c ∈ on "root" cs) as Hon by (unfold on; apply list_elem_of_In, filter_In; split; [by apply list_elem_of_In|]; by rewrite Hroot).
  assert (n ∈ requested "root" cs) as Hreq by (apply list_elem_of_omap; eauto).
  assert (level_of "root" s' <= n) as Hlow.
  { specialize (Hl "root"%string). destruct (_state s' !! "root"%string) as [[b rs]|]; [|destruct Hl as [Hl _]; rewrite Hl in Hreq; by apply elem_of_nil in Hreq].
    destruct Hl as (Hp & _ & _ & Hl). apply Hl. by rewrite Hp. }
  intros Hplain Hfil. assert ("root"%string ∈ above (name r)) as Hin.
  { unfold above. destruct (String.eqb _ _); [by left|]. apply elem_of_app. right. left. }
  assert (effective_level (name r) s' <= levelno r) as Heff.
  { unfold effective_level. set (levels := List.filter _ _). assert (∀ m, m ∈ levels → m = level_of "root" s') as Hm.
    { intros m (Hf & Hne)%list_elem_of_In%filter_In. apply list_elem_of_In, list_elem_of_fmap in Hf as (l & -> & Hl').
      destruct (decide (l = "root"%string)) as [->|Hx]; [done|]. by rewrite (Hplain l Hl' Hx) in Hne. }
    destruct levels as [|m k] eqn:El; cbn; [|rewrite (Hm m); [lia|left]].
    enough (level_of "root" s' = 0) by lia. destruct (Z.eq_dec (level_of "root" s') 0) as [|Hne]; [done|].
    assert (level_of "root" s' ∈ levels) as H; [|rewrite El in H; by apply elem_of_nil in H].
    subst levels. apply list_elem_of_In, filter_In. split; [apply list_elem_of_In, list_elem_of_fmap; eauto|]. by apply negb_true_iff, Z.eqb_neq. }
  unfold reached. rewrite (proj2 (Z.leb_le _ _) Heff).
  assert ((match default 0%nat (task_filters s' !! name r) with O => true | _ => task_filter r end) = true) as ->.
  { destruct Hfil as [Ename| ->]; [|done]. unfold task_filter. rewrite Ename. by destruct (default _ _). }
  cbn [andb]. apply list_elem_of_In, filter_In. split.
  - apply list_elem_of_In, elem_of_list_bind || apply in_flat_map. exists "root"%string. split; [by apply list_elem_of_In|].
    destruct (Hh "root"%string) as [Hp _]. apply list_elem_of_In. rewrite Hp. apply elem_of_app. right. by apply list_elem_of_fmap_2.
  - unfold accepts, thread_filter, own_handler. cbn. rewrite Hn. cbn. apply andb_true_iff. split; [by apply Z.leb_le|]. by apply Z.eqb_eq.
Qed.

(** ** Two tasks on two threads *)

Definition fresh_logging : logging :=
  {| level := {["root"%string := 30]}; _state := ∅; handlers := {["root"%string := [{| log_filename := "worker.log"; handler_level := 20; thread_id := None |}]]};
     task_filters := ∅; files := ∅ |}.
Definition task_of (n : Z) (l : string) : context :=
  {| logger := "root"; context_level := Some (inr l); filename := "task-" +:+ pretty n; thread := n; delete_on_exit := true |}.
Definition lines (f : string) (s : logging) : list string := default [] (files s !! f).
Definition one : context := task_of 1 "DEBUG".
Definition two : context := task_of 2 "INFO".
Definition debug_record : record := {| name := "oasislmf.lookup"; levelno := 10; from_thread := 1; message := "chunk" |}.
Definition both : list event := [Enter two; Enter one; Enter two; Exit two true]%string.
Example interleaved :
  match for_each both step fresh_logging with
  | (Ok _, s) => level_of "root" s = 10 ∧ lines "task-1" (log debug_record s) = ["chunk"]%string ∧ lines "task-2" (log debug_record s) = []
  | _ => False
  end.
Proof. vm_compute. done. Qed.
Lemma loggers_reflect_tasks_witness :
  let es := (both ++ [Exit one false; Exit two false])%list in
  open_after es = Some [] ∧ ∃ s', for_each es step fresh_logging = (Ok tt, s') ∧ level_of "root" s' = 30 ∧
    default [] (handlers s' !! "root"%string) ≡ₚ [{| log_filename := "worker.log"; handler_level := 20; thread_id := None |}].
Proof.
  intros es. split; [vm_compute; reflexivity|].
  destruct (loggers_reflect_tasks fresh_logging es []) as (s' & E & H); [reflexivity| |vm_compute; reflexivity|].
  - repeat constructor; intros _; vm_compute; by eexists.
  - exists s'. split; [exact E|]. destruct (H "root"%string) as (Hl & _ & Hh & _). split; [rewrite Hl; reflexivity|]. exact Hh.
Defined.
Lemma own_records_only_witness : ∃ s', for_each both step fresh_logging = (Ok tt, s') ∧ own_handler one ∈ reached debug_record s' ∧ own_handler two ∉ reached debug_record s'.
Proof.
  destruct (own_records_only fresh_logging both [one; two]) as (s' & E & H & H'); [reflexivity| |reflexivity|].
  - repeat constructor; intros _; vm_compute; by eexists.
  - exists s'. split; [exact E|]. split.
    + refine (H one 10 debug_record _ eq_refl eq_refl eq_refl _ _ _); [by left|vm_compute; by intros| |right; vm_compute in E; injection E as <-; reflexivity].
      intros l Hl Hne. vm_compute in E. injection E as <-. vm_compute in Hl. apply list_elem_of_In in Hl. cbn in Hl. destruct Hl as [<-|[<-|[<-|[]]]]; [reflexivity|reflexivity|by destruct Hne].
    + intros [_ [(c & Hc & Hh & Ht)|(l & _ & Hl)]]%H'.
      * unfold own_handler in Hh. injection Hh as _ _ Hth. rewrite <- Hth in Ht. discriminate Ht.
      * cbn in Hl. destruct (decide (l = "root"%string)) as [->|Hne]; [|rewrite lookup_singleton_ne in Hl by done; by apply elem_of_nil in Hl].
        rewrite lookup_singleton_eq in Hl. apply list_elem_of_singleton in Hl. discriminate Hl.
Defined.

(** The filter that is to keep other packages' debug output out of a task's log is one of
    the root logger, which only filters records made by the root logger itself: those of
    the packages pass. *)
Definition package_record : record := {| name := "kombu.connection"; levelno := 10; from_thread := 1; message := "heartbeat" |}.
Lemma packages_not_blocked :
  task_filter package_record = false ∧
  match for_each [Enter one] step fresh_logging with
  | (Ok _, s) => task_filters s !! "root"%string = Some 1%nat ∧ lines "task-1" (log package_record s) = ["heartbeat"]%string
  | _ => False
  end.
Proof. vm_compute. done. Qed.
