(* ===== verification/WorkerTasks.v ===== *)
(** * The tasks of a worker

    src/model_execution_worker: what a worker tells the server besides the results of its
    tasks. How it finds the ids of all tasks of a chain (distributed_tasks.py,
    [update_all_tasks_ids]), what it sends when a task was delivered twice or fails
    (celery_error_handler.py, [handle_task_failure]), and the parameters it makes of those
    it is given. What is sent is read by the server as [SubTasks] does. *)

From S2P Require Import Prelude PyData ModelOptions Groups Analysis TaskController Files SubTasks.
Local Open Scope Z_scope.

(** ** The ids of a chain

    [update_all_tasks_ids]: a queue of the tasks still to be looked at; a chord has tasks
    in its header and its body. *)

Definition entry : Type := json * json * json.
Definition own_entry (t : json) : result (list entry) :=
  kwargs ← py_get_or t "kwargs" (JObj []);
  has ← py_in "analysis_id" kwargs;
  if has : bool then
    options ← py_item t "options"; task_id ← py_item options "task_id";
    kwargs ← py_item t "kwargs"; analysis_id ← py_item kwargs "analysis_id"; slug ← py_item kwargs "slug";
    Ok [(task_id, analysis_id, slug)]
  else Ok [].
(** [curr_level["kwargs"][part].get("kwargs", {}).get("tasks", [])], if that part is there. *)
Definition nested (part : string) (t : json) : result (list json) :=
  kwargs ← py_item t "kwargs";
  has ← py_in part kwargs;
  if has : bool then
    p ← py_item kwargs part; k ← py_get_or p "kwargs" (JObj []); tasks ← py_get_or k "tasks" (JList []); py_iter tasks
  else Ok [].
Definition parts (t : json) : result (list json) := b ← nested "body" t; h ← nested "header" t; Ok (b ++ h).
(** The loop, [fuel] rounds at most. *)
Fixpoint collect (fuel : nat) (task_queue : list json) (found : list entry) : option (result (list entry)) :=
  match task_queue with
  | [] => Some (Ok found)
  | t :: task_queue =>
      match fuel with
      | O => None
      | S fuel =>
          match own_entry t with
          | Raise e => Some (Raise e)
          | Ok l => match parts t with
                    | Raise e => Some (Raise e)
                    | Ok new => collect fuel (task_queue ++ new) (found ++ l)
                    end
          end
      end
  end.
(** [task_request.chain[0]] and what is in it; sorting the chain first does nothing, as
    dicts are not ordered. *)
Definition update_all_tasks_ids (fuel : nat) (chain : list json) : option (result (list entry)) :=
  match chain with [] => Some (Raise IndexError) | t :: _ => collect fuel [t] [] end.

(** ** What is sent *)

(** [signature(name, args).delay()]. *)
Record signature := { task : string; args : list json }.
(** How the server reads what a worker sends. *)
Definition status_of (s : string) : option status_choices :=
  List.find (λ st, String.eqb (status_name st) s) [NEW; INPUTS_GENERATION_ERROR; INPUTS_GENERATION_NO_KEYS; INPUTS_GENERATION_CANCELLED;
    INPUTS_GENERATION_STARTED; INPUTS_GENERATION_QUEUED; READY; RUN_QUEUED; RUN_STARTED; RUN_COMPLETED; RUN_CANCELLED; RUN_ERROR].
Definition understood (s : signature) : option message :=
  if String.eqb (task s) "set_subtask_status" then
    match args s with [JInt i; _; JStr slug; JStr "ERROR"; JStr msg] => Some (SubTaskStatus i slug ERROR msg) | _ => None end
  else if String.eqb (task s) "set_task_status_v2" then
    match args s with [JInt i; JStr st; JInt dt] => (λ st, TaskStatus i st dt) <$> status_of st | _ => None end
  else if String.eqb (task s) "subtask_retry_log" then
    match args s with [JInt i; _; JStr slug; _; JStr trace] => Some (RetryLog i slug trace) | _ => None end
  else if String.eqb (task s) "subtask_error_log" then
    match args s with [JInt i; JInt u; JStr slug; JStr id; f] => Some (ErrorLog i u slug id f) | _ => None end
  else if String.eqb (task s) "record_input_error_files" then
    match args s with [JInt i; JInt u; o] => Some (InputErrorFiles i u o JNull) | [JInt i; JInt u; o; e] => Some (InputErrorFiles i u o e) | _ => None end
  else if String.eqb (task s) "record_losses_error_files" then
    match args s with [JInt i; JInt u; o; l] => Some (LossesErrorFiles i u o l) | _ => None end
  else None.

(** ** Tasks that were delivered twice: [OasisWorkerTask] *)

Definition MaxRetriesExceededError : exn := OtherError "MaxRetriesExceededError".
Definition WorkerLostError : exn := OtherError "WorkerLostError".
Definition contains (s sub : string) : bool := match String.index 0 sub s with Some _ => true | None => false end.
(** The task that runs: the name of its function and its own, and its arguments. *)
Record running := { qualname : string; task_name : string; pos_args : list json; kwargs : json }.
Record outbox := { sent : list signature; cancelled : bool }.
#[export] Instance outbox_settable : Settable outbox := λ s, {| sent := sent s; cancelled := cancelled s |}.
Definition send_signature (s : signature) : M outbox unit := modify (λ o, o <| sent := sent o ++ [s] |>).
Definition _get_analyses_error_status (t : running) : json :=
  if contains (qualname t) "keys_generation_task" then JStr "INPUTS_GENERATION_ERROR"
  else if contains (qualname t) "loss_generation_task" then JStr "RUN_ERROR"
  else if String.eqb (task_name t) "generate_input" then JStr "INPUTS_GENERATION_ERROR"
  else if String.eqb (task_name t) "run_analysis" then JStr "RUN_ERROR" else JNull.
Definition notify_subtask_status_v2 (i initiator slug st msg : json) : M outbox unit :=
  send_signature {| task := "set_subtask_status"; args := [i; initiator; slug; st; msg] |}.
Definition notify_api_status_v1 (i st : json) : M outbox unit := send_signature {| task := "set_task_status"; args := [i; st] |}.

Section delivery.
(** The time, and what [self.retry(exc)] raises, which always raises. *)
Context (now : Z) (retry : exn → exn).
Definition notify_api_status_v2 (i st : json) : M outbox unit := send_signature {| task := "set_task_status_v2"; args := [i; st; JInt now] |}.
Definition task_redelivered_guard (redelivered : bool) (t : running) (i initiator slug : json) : M outbox unit :=
  try_except (if redelivered then raise (retry WorkerLostError) else mret tt) (λ e,
    match e with
    | OtherError "MaxRetriesExceededError" =>
        (if truthy slug then
           notify_subtask_status_v2 i initiator slug (JStr "ERROR") (JStr "Task revoked, possible out of memory error or cancellation");;
           notify_api_status_v2 i (_get_analyses_error_status t)
         else notify_api_status_v1 i (_get_analyses_error_status t));;
        modify (λ o, o <| cancelled := true |>)
    | e => raise e
    end).
Definition is_v1 (t : running) : bool := contains (qualname t) "V1_task_logger".
Definition before_start (redelivered : bool) (t : running) : M outbox unit :=
  '(i, initiator, slug) ← lift (
    if is_v1 t then match pos_args t with i :: _ => Ok (i, JNull, JNull) | [] => Raise IndexError end
    else i ← py_get_or (kwargs t) "analysis_id" JNull; u ← py_get_or (kwargs t) "initiator_id" JNull; s ← py_get_or (kwargs t) "slug" JNull; Ok (i, u, s));
  if truthy i then task_redelivered_guard redelivered t i initiator slug else mret tt.
Definition on_retry (t : running) (task_id traceback : string) : M outbox unit :=
  if is_v1 t then mret tt
  else
    i ← lift (py_get_or (kwargs t) "analysis_id" JNull); u ← lift (py_get_or (kwargs t) "initiator_id" JNull); s ← lift (py_get_or (kwargs t) "slug" JNull);
    if truthy i && truthy u && truthy s
    then send_signature {| task := "subtask_retry_log"; args := [i; u; s; JStr task_id; JStr traceback] |}
    else mret tt.
End delivery.

(** ** Tasks that fail: [handle_task_failure] *)

(** [unwrap_task_args]: the first of nested lists, if it is a dict. *)
Fixpoint unwrap_task_args (value : json) : json :=
  match value with JList (v :: _) => unwrap_task_args v | JObj kvs => JObj kvs | _ => JObj [] end.
(** How a value appears in a name. *)
Definition shown (j : json) : string :=
  match j with JStr s => s | JInt n => pretty n | JNull => "None" | JBool true => "True" | JBool false => "False" | _ => "..." end.
(** The formats of the keys files, and their extensions. *)
Definition KEYS_FORMAT_EXT : list (string * string) := [("parquet", "parquet"); ("oasis", "csv")]%string.
Definition get_keys_format (params : json) : result (string * string) :=
  f ← py_get_or params "keys_format" JNull;
  f ← (if truthy f then match f with JStr s => Ok (lower s) | _ => Raise AttributeError end else Ok "parquet"%string);
  Ok (match assoc f KEYS_FORMAT_EXT with Some e => (f, e) | None => ("parquet", "parquet")%string end).
(** [os.path.join]; the directory is no absolute path below another. *)
Definition py_join (dir : json) (f : string) : result string :=
  match dir with
  | JStr d => Ok (if (String.length d =? 0)%nat then f else d +:+ "/" +:+ f)
  | _ => Raise TypeError
  end.

(** The files of a worker, what it sent, and what it deleted from the storage. *)
Record worker := { disk : gset string; messages : list signature; deleted : list json }.
#[export] Instance worker_settable : Settable worker := λ w, {| disk := disk w; messages := messages w; deleted := deleted w |}.
Definition delay (s : signature) : M worker unit := modify (λ w, w <| messages := messages w ++ [s] |>).

Section failure.
(** [filestore.put], the reference of a stored path, and [filestore.delete_dir]. *)
Context (put : json → result json) (remote_subdir : json → json) (TASK_LOG_DIR : string) (keep_remote_data : bool).
Definition stored (p : json) : M worker json := lift (put p).
Definition task_log_file (kwargs : json) : result string :=
  u ← py_get_or kwargs "run_data_uuid" JNull; s ← py_get_or kwargs "slug" JNull; Ok (TASK_LOG_DIR +:+ "/" +:+ shown u +:+ "_" +:+ shown s +:+ ".log").
Definition send_log (i u slug : json) (task_id f : string) : M worker unit :=
  w ← get_state;
  if bool_decide (f ∈ disk w) then
    ref ← stored (JStr f);
    delay {| task := "subtask_error_log"; args := [i; u; slug; JStr task_id; ref] |};;
    modify (λ w, w <| disk := disk w ∖ {[f]} |>)
  else mret tt.
Definition send_files (i u slug params : json) : M worker unit :=
  target ← lift (py_get_or params "target_dir" JNull); run ← lift (py_get_or params "model_run_dir" JNull);
  if py_eq slug (JStr "pre-analysis-hook") then
    o ← stored target; delay {| task := "record_input_error_files"; args := [i; u; o] |}
  else if py_eq slug (JStr "write-input-files") then
    o ← stored target; f ← lift (get_keys_format params); p ← lift (py_join target ("keys-errors." +:+ f.2)); e ← stored (JStr p);
    delay {| task := "record_input_error_files"; args := [i; u; o; e] |}
  else if py_eq slug (JStr "generate-losses-output") then
    p ← lift (py_join run "output"); o ← stored (JStr p); q ← lift (py_join run "log"); l ← stored (JStr q);
    delay {| task := "record_losses_error_files"; args := [i; u; o; l] |}
  else mret tt.
Definition handle_task_failure (task_id : string) (kwargs args : json) : M worker unit :=
  i ← lift (py_get_or kwargs "analysis_id" JNull); u ← lift (py_get_or kwargs "initiator_id" JNull); slug ← lift (py_get_or kwargs "slug" JNull);
  f ← lift (task_log_file kwargs);
  send_log i u slug task_id f;;
  send_files i u slug (unwrap_task_args args);;
  dir ← lift (py_get_or (unwrap_task_args args) "storage_subdir" JNull);
  if keep_remote_data then mret tt else modify (λ w, w <| deleted := deleted w ++ [remote_subdir dir] |>).
End failure.

(** ** The ids of a chain are all found *)

Fixpoint weight (j : json) : nat :=
  match j with
  | JObj kvs => S ((fix go l := match l with [] => O | (_, v) :: l => (weight v + go l)%nat end) kvs)
  | JList l => (fix go l := match l with [] => O | v :: l => (weight v + go l)%nat end) l
  | _ => O
  end.
Definition weights (l : list json) : nat := sum_list_with weight l.
Lemma weight_list l : weight (JList l) = weights l.
Proof. induction l as [|v l IH]; [done|]. cbn in *. by rewrite IH. Qed.
Lemma weight_obj kvs : weight (JObj kvs) = S (weights kvs.*2).
Proof. cbn. f_equal. induction kvs as [|[k v] kvs IH]; [done|]. cbn in *. by rewrite IH. Qed.
Lemma weights_app l k : weights (l ++ k) = (weights l + weights k)%nat.
Proof. unfold weights. by rewrite sum_list_with_app. Qed.
Lemma assoc_weight k kvs v : assoc k kvs = Some v → (weight v ≤ weights kvs.*2)%nat.
Proof. induction kvs as [|[k' w] kvs IH]; [done|]. cbn. destruct (String.eqb k k'); [intros [= ->]; lia|]. intros H%IH. unfold weights in H. lia. Qed.
Lemma assoc_weights k k' kvs v w : k ≠ k' → assoc k kvs = Some v → assoc k' kvs = Some w → (weight v + weight w ≤ weights kvs.*2)%nat.
Proof.
  intros Hn. induction kvs as [|[x y] kvs IH]; [done|]. cbn. unfold weights in *.
  destruct (String.eqb_spec k x) as [->|Hk], (String.eqb_spec k' x) as [->|Hk']; [done| | |].
  - intros [= ->] Hw%assoc_weight. unfold weights in Hw. lia.
  - intros Hv%assoc_weight [= ->]. unfold weights in Hv. lia.
  - intros Hv Hw. specialize (IH Hv Hw). lia.
Qed.
Lemma iter_weight j l : py_iter j = Ok l → (weights l ≤ weight j)%nat.
Proof.
  destruct j as [| | |s|l'|kvs]; cbn [py_iter]; try done; intros [= <-].
  - induction s as [|c s IH]; cbn; [done|]. unfold weights in IH. cbn in IH. lia.
  - by rewrite weight_list.
  - induction kvs as [|[k v] kvs IH]; [cbn; lia|]. rewrite weight_obj in *. unfold weights in *. cbn in *. lia.
Qed.

Lemma get_or_weight j k d v : py_get_or j k d = Ok v → (v = d ∨ weight v ≤ weight j)%nat.
Proof.
  destruct j as [| | | | |kvs]; cbn [py_get_or py_get fmap result_fmap]; try done. intros [= <-]. destruct (assoc k kvs) as [w|] eqn:E; [right|by left].
  rewrite weight_obj. apply assoc_weight in E. cbn. lia.
Qed.
Lemma nested_weight part t l : nested part t = Ok l →
  ∃ kvs kw, t = JObj kvs ∧ assoc "kwargs" kvs = Some kw ∧ (l = [] ∨ ∃ ks p, kw = JObj ks ∧ assoc part ks = Some p ∧ (weights l ≤ weight p)%nat).
Proof.
  unfold nested. intros (kw & Hkw & H)%bind_Ok. destruct t as [| | | | |kvs]; try done. cbn in Hkw. destruct (assoc "kwargs" kvs) as [w|] eqn:Ew; [|done].
  injection Hkw as ->. exists kvs, kw. do 2 (split; [done|]). apply bind_Ok in H as (has & Hhas & H). destruct has; [|left; by injection H].
  apply bind_Ok in H as (p & Hp & H). destruct kw as [| | | | |ks]; try done. cbn in Hp. destruct (assoc part ks) as [p'|] eqn:Ep; [|done]. injection Hp as ->.
  apply bind_Ok in H as (k & Hk & H). apply bind_Ok in H as (tasks & Ht & Hl). apply iter_weight in Hl.
  apply get_or_weight in Hk as [->|Hk].
  - cbn in Ht. injection Ht as <-. cbn in Hl. right. exists ks, p. do 2 (split; [done|]). lia.
  - right. exists ks, p. do 2 (split; [done|]). apply get_or_weight in Ht as [->|Ht]; [cbn in Hl; lia|lia].
Qed.
Lemma parts_weight t l : parts t = Ok l → (S (weights l) ≤ weight t)%nat.
Proof.
  unfold parts. intros (b & Hb & H)%bind_Ok. apply bind_Ok in H as (h & Hh & [= <-]). rewrite weights_app.
  apply nested_weight in Hb as (kvs & kw & -> & Ek & Hb), Hh as (kvs' & kw' & [= <-] & Ek' & Hh). rewrite Ek in Ek'. injection Ek' as <-.
  rewrite weight_obj. apply assoc_weight in Ek. apply le_n_S. etrans; [|exact Ek].
  destruct Hb as [->|(ks & p & -> & Ep & Hb)], Hh as [->|(ks' & q & Eq & Eh & Hh)]; cbn [weights sum_list_with].
  - unfold weights. cbn. lia.
  - subst kw. rewrite weight_obj. apply assoc_weight in Eh. unfold weights in *. cbn. lia.
  - rewrite weight_obj. apply assoc_weight in Ep. unfold weights in *. cbn. lia.
  - injection Eq as <-. rewrite weight_obj. pose proof (assoc_weights "body" "header" ks p q ltac:(done) Ep Eh). unfold weights in *. lia.
Qed.

(** The tasks that a task leads to, itself first. *)
Inductive tasks_in : json → list entry → Prop :=
  | tasks_of t own new found : own_entry t = Ok own → parts t = Ok new → Forall2 tasks_in new found → tasks_in t (own ++ concat found).
Lemma collect_ends fuel q found : (weights q < fuel)%nat → collect fuel q found ≠ None.
Proof.
  revert q found. induction fuel as [|fuel IH]; intros [|t q] found Hf; try done; [lia|]. cbn [collect].
  destruct (own_entry t) as [own|]; [|done]. destruct (parts t) as [new|] eqn:E; [|done]. apply IH.
  apply parts_weight in E. unfold weights in *. rewrite sum_list_with_app. cbn in Hf. lia.
Qed.
Lemma collect_finds fuel q found ls r : Forall2 tasks_in q ls → collect fuel q found = Some r → ∃ l, r = Ok (found ++ l) ∧ l ≡ₚ concat ls.
Proof.
  revert q found ls. induction fuel as [|fuel IH]; intros q found ls Hq; destruct Hq as [|t l0 q ls Ht Hq]; cbn [collect]; try done;
    [intros [= <-]; exists []; by rewrite app_nil_r..|].
  destruct Ht as [t own new sub -> -> Hsub]. intros E. destruct (IH (q ++ new) (found ++ own) (ls ++ sub)) as (l & -> & Hl); [by apply Forall2_app|done|].
  exists (own ++ l). split; [by rewrite app_assoc|]. cbn. rewrite Hl, concat_app, <- !app_assoc. apply Permutation_app_head, Permutation_app_comm.
Qed.

(** Chains as Celery writes them: a task of an analysis has its id among the options, and
    analysis and slug among its keyword arguments, with others; a chord has the tasks of
    its header and those of its body, a chain, among its own. *)
Inductive canvas := Canvas (own : option (json * json * json)) (others : list (string * json)) (header body : list canvas).
Fixpoint encode (c : canvas) : json :=
  let '(Canvas own others header body) := c in
  let group part tasks := match tasks with [] => [] | _ => [(part, JObj [("kwargs", JObj [("tasks", JList tasks)])])] end%string in
  JObj ([("options", JObj (match own with Some (i, _, _) => [("task_id", i)] | None => [] end));
         ("kwargs", JObj (match own with Some (_, a, s) => [("analysis_id", a); ("slug", s)] | None => [] end
                          ++ others ++ group "header" (encode <$> header) ++ group "body" (encode <$> body)))])%string.
(** The tasks of an analysis in it, and that the other arguments have names of their own. *)
Fixpoint task_ids (c : canvas) : list entry :=
  let '(Canvas own _ header body) := c in
  match own with Some e => [e] | None => [] end ++ concat (task_ids <$> header) ++ concat (task_ids <$> body).
Fixpoint named_apart (c : canvas) : Prop :=
  let '(Canvas _ others header body) := c in
  (∀ k, k ∈ ["analysis_id"; "slug"; "header"; "body"]%string → assoc k others = None) ∧
  foldr (λ c P, named_apart c ∧ P) True header ∧ foldr (λ c P, named_apart c ∧ P) True body.
Fixpoint canvas_induction (P : canvas → Prop)
    (H : ∀ own others header body, Forall P header → Forall P body → P (Canvas own others header body)) (c : canvas) : P c :=
  let go := fix go l : Forall P l := match l with [] => Forall_nil_2 P | c :: l => Forall_cons_2 P c l (canvas_induction P H c) (go l) end in
  match c with Canvas own others header body => H own others header body (go header) (go body) end.

Lemma assoc_app_none {A} k (d e : list (string * A)) : assoc k d = None → assoc k (d ++ e) = assoc k e.
Proof. induction d as [|[k' v] d IH]; [done|]. cbn. by destruct (String.eqb k k'). Qed.
Lemma own_encoded own others header body : named_apart (Canvas own others header body) → own_entry (encode (Canvas own others header body)) = Ok (match own with Some e => [e] | None => [] end).
Proof.
  intros [Ho _]. unfold own_entry. destruct own as [[[i a] sl]|]; [done|]. cbn. rewrite assoc_app_none by (apply Ho; set_solver).
  by destruct (encode <$> header), (encode <$> body).
Qed.
Lemma parts_encoded own others header body : named_apart (Canvas own others header body) → parts (encode (Canvas own others header body)) = Ok ((encode <$> body) ++ (encode <$> header)).
Proof.
  intros [Ho _]. assert (∀ part d, part ∈ ["header"; "body"]%string → assoc part (match own with Some (_, a, s) => [("analysis_id"%string, a); ("slug"%string, s)] | None => [] end ++ others ++ d) = assoc part d) as Ha.
  { intros part d Hp. rewrite assoc_app_none; [apply assoc_app_none, Ho; set_solver|]. destruct own as [[[i a] sl]|]; [|done].
    rewrite !elem_of_cons in Hp. by destruct Hp as [->|[->|Hp%elem_of_nil]]. }
  unfold parts, nested. cbn. rewrite !Ha by set_solver. by destruct (encode <$> header), (encode <$> body).
Qed.
Lemma tasks_encoded c : named_apart c → ∃ l, tasks_in (encode c) l ∧ l ≡ₚ task_ids c.
Proof.
  induction c as [own others header body Hh Hb] using canvas_induction. intros Hc. pose proof Hc as (_ & Nh & Nb).
  assert (∀ l, Forall (λ c, named_apart c → ∃ l, tasks_in (encode c) l ∧ l ≡ₚ task_ids c) l → foldr (λ c P, named_apart c ∧ P) True l →
    ∃ found, Forall2 tasks_in (encode <$> l) found ∧ concat found ≡ₚ concat (task_ids <$> l)) as H.
  { clear. induction 1 as [|c l Hc _ IH]; [by exists []|]. cbn. intros [Nc (found & Hf & Hp)%IH]. destruct (Hc Nc) as (x & Hx & Hpx).
    exists (x :: found). split; [by constructor|]. cbn. by rewrite Hpx, Hp. }
  destruct (H header Hh Nh) as (fh & Hfh & Hph), (H body Hb Nb) as (fb & Hfb & Hpb).
  eexists. split; [econstructor; [by apply own_encoded|by apply parts_encoded|by apply Forall2_app]|].
  cbn [task_ids]. apply Permutation_app_head. rewrite concat_app, Hph, Hpb. apply Permutation_app_comm.
Qed.

(** C17: All tasks of a chain are found. The search through nested chords ends, whatever
    the first task of the request's chain is; and of one as Celery writes it, in which tasks
    of an analysis and chords are nested in the headers of chords and in the chains of their
    bodies, and whose other keyword arguments are not called analysis_id, slug, header or
    body, it finds every task of an analysis, each as often as it occurs, with the id among its options
    and the analysis and the slug among its keyword arguments, and nothing else. *)
Theorem chain_ids_found :
  (∀ t chain, ∃ r, update_all_tasks_ids (S (weight t)) (t :: chain) = Some r) ∧
  ∀ c chain, named_apart c → ∃ l, update_all_tasks_ids (S (weight (encode c))) (encode c :: chain) = Some (Ok l) ∧ l ≡ₚ task_ids c.
Proof.
  assert (∀ t chain, ∃ r, update_all_tasks_ids (S (weight t)) (t :: chain) = Some r) as Hends.
  { intros t chain. cbn [update_all_tasks_ids]. destruct (collect (S (weight t)) [t] []) as [r|] eqn:E; [by exists r|]. by apply collect_ends in E; [|unfold weights; cbn; lia]. }
  split; [exact Hends|]. intros c chain Hc. destruct (Hends (encode c) chain) as [r E], (tasks_encoded c Hc) as (l & Hl & Hp). cbn [update_all_tasks_ids] in E |- *.
  destruct (collect_finds _ _ _ [l] r ltac:(by repeat constructor) E) as (l' & -> & Hp'). exists l'. split; [by rewrite E|].
  cbn in Hp'. by rewrite Hp', app_nil_r.
Qed.

(** ** What reaches the server *)

(** Celery's [Task.retry] raises [Retry] while retries are left, and after them the
    exception it was given: the one it would raise without, which is caught here, never
    comes, and nothing is sent. *)
Lemma redelivery_unreported now retry redelivered t o :
  (retry WorkerLostError = RetryTask ∨ retry WorkerLostError = WorkerLostError) → exec (before_start now retry redelivered t) o = o.
Proof.
  intros Hr. unfold exec, before_start. rewrite lift_bind. destruct (if is_v1 t then _ else _) as [[[i u] s]|]; [|done].
  destruct (truthy i); [|done]. unfold task_redelivered_guard, try_except. destruct redelivered; [|done]. by destruct Hr as [-> | ->].
Qed.
(** With the exception that is caught, the sub-task and its analysis would fail. *)
Example redelivery_ex :
  let t := {| qualname := "keys_generation_task.<locals>.run"; task_name := "collect_keys"; pos_args := [];
              kwargs := JObj [("analysis_id", JInt 4); ("initiator_id", JInt 2); ("slug", JStr "collect-keys")] |}%string in
  understood <$> sent (exec (before_start 9 (λ _, MaxRetriesExceededError) true t) {| sent := []; cancelled := false |})
  = [Some (SubTaskStatus 4 "collect-keys" ERROR "Task revoked, possible out of memory error or cancellation"); Some (TaskStatus 4 INPUTS_GENERATION_ERROR 9)]%string.
Proof. vm_compute. reflexivity. Qed.

(** *** The log of a task that fails

    Messages are only added: what is sent stays sent, whatever fails later. *)
Section arrival.
Context (put : json → result json) (remote_subdir : json → json) (TASK_LOG_DIR : string) (keep_remote_data : bool).
Context (remote : json → string → option (result string)) (text_of : string → string) (json_of : string → result json).
Context (keep_local : bool) (run_data_dir : string).

Definition sent_before (l : list signature) (w : worker) : Prop := l `prefix_of` messages w.
Lemma delay_grows l s : preserves (sent_before l) (delay s).
Proof. apply preserves_modify. intros w H. unfold sent_before in *. cbn. by apply prefix_app_r. Qed.
Lemma modify_grows l f : (∀ w, messages (f w) = messages w) → preserves (sent_before l) (modify f).
Proof. intros Hf. apply preserves_modify. intros w. unfold sent_before. by rewrite Hf. Qed.
#[local] Hint Resolve delay_grows : preserves.
Lemma files_grow l i u slug params : preserves (sent_before l) (send_files put i u slug params).
Proof. unfold send_files, stored. keep. Qed.
#[local] Hint Resolve files_grow : preserves.

(** The arguments that every sub-task has. *)
Definition names_task (kws : json) (i u : Z) (slug : string) : Prop :=
  py_get_or kws "analysis_id" JNull = Ok (JInt i) ∧ py_get_or kws "initiator_id" JNull = Ok (JInt u) ∧ py_get_or kws "slug" JNull = Ok (JStr slug).

Lemma log_is_sent task_id kws args i u slug f ref w :
  names_task kws i u slug → task_log_file TASK_LOG_DIR kws = Ok f → f ∈ disk w → put (JStr f) = Ok ref →
  sent_before (messages w ++ [{| task := "subtask_error_log"; args := [JInt i; JInt u; JStr slug; JStr task_id; ref] |}])
    (exec (handle_task_failure put remote_subdir TASK_LOG_DIR keep_remote_data task_id kws args) w).
Proof.
  intros (Hi & Hu & Hs) Hf Hd Hp. unfold exec, handle_task_failure. rewrite Hi, Hu, Hs, Hf, !lift_bind.
  set (l := messages w ++ _). set (w1 := w <| messages := l |> <| disk := disk w ∖ {[f]} |>).
  rewrite (bind_step _ _ _ tt w1).
  - apply (preserves_exec (sent_before l)); [|by exists []; rewrite app_nil_r]. keep. by apply modify_grows.
  - unfold send_log. rewrite get_bind, bool_decide_eq_true_2 by done. unfold stored. by rewrite Hp, lift_bind.
Qed.

(** C15: The log of a failed sub-task reaches its record. If a task fails whose log file was
    written and can be stored, then whatever else goes wrong after it, a message is sent,
    and delivered to a server that has the user and can fetch the file, it gives each
    record of the sub-task the text of that file as its log: the report on the failed
    analysis, which waits for the logs, waits for this one no longer. *)
Theorem failed_log_arrives task_id kws args i u slug f ref st w :
  names_task kws i u slug → task_log_file TASK_LOG_DIR kws = Ok f → f ∈ disk w → put (JStr f) = Ok ref →
  store_file remote ref true (task_id +:+ "-output.log") = Ok (Some st) →
  ∃ s m rest, messages (exec (handle_task_failure put remote_subdir TASK_LOG_DIR keep_remote_data task_id kws args) w) = messages w ++ s :: rest
    ∧ understood s = Some m
    ∧ ∀ d, keys_ok d → u ∈ users d →
        let d' := exec (deliver remote text_of json_of keep_local run_data_dir m) d in
        ∀ r', r' ∈ List.filter (of_slug i slug) (rows d') → read_log d' (st_output_log r') = Some (text_of (stored_as st)) ∧ st_output_log r' ≠ None.
Proof.
  intros Hn Hf Hd Hp Hst. destruct (log_is_sent task_id kws args i u slug f ref w Hn Hf Hd Hp) as [rest E].
  do 2 eexists. exists rest. rewrite E, <- app_assoc. split_and!; [done..|]. intros d Hk Hu d'.
  assert (d' = d <| texts := <[next_file d := text_of (stored_as st)]> (texts d) |> <| next_file := next_file d + 1 |>
                 <| rows := (λ r, if of_slug i slug r then r <| st_output_log := Some (next_file d) |> else r) <$> rows d |>) as ->.
  { subst d'. unfold exec. cbn [deliver]. unfold subtask_error_log, get_user. rewrite (bind_step _ _ d tt d).
    - rewrite (bind_step _ _ d (Some (next_file d)) (d <| texts := <[next_file d := text_of (stored_as st)]> (texts d) |> <| next_file := next_file d + 1 |>)).
      + by rewrite update_rows_ok.
      + unfold store_log. by rewrite Hst, lift_bind.
    - by rewrite get_bind, bool_decide_eq_true_2. }
  intros r' [Hr Hs]%list_elem_of_In%filter_In. cbn in Hr. apply list_elem_of_In, list_elem_of_fmap in Hr as (r & -> & _).
  destruct (of_slug i slug r) eqn:Er; [|congruence]. cbn. split; [|done]. unfold read_log. cbn. apply lookup_insert_eq.
Qed.
End arrival.

(** A keys sub-task that failed, with its log on the disk. *)
Definition failed_kwargs : json := JObj [("analysis_id", JInt 1); ("initiator_id", JInt 7); ("slug", JStr "losses-1"); ("run_data_uuid", JStr "ab12")]%string.
Definition failed_worker : worker := {| disk := {["/var/log/oasis/tasks/ab12_losses-1.log"]}; messages := []; deleted := [] |}%string.
Lemma failed_log_arrives_witness :
  let w' := exec (handle_task_failure Ok (λ j, j) "/var/log/oasis/tasks" true "id-4" failed_kwargs (JList [JList [JObj []]])) failed_worker in
  ∃ s m rest, messages w' = s :: rest ∧ understood s = Some m
    ∧ ∀ d, keys_ok d → 7 ∈ users d →
        let d' := exec (deliver (λ _ _, None) (λ p, "text of " +:+ p) (λ p, Ok (JStr p)) false "/runs" m) d in
        ∀ r', r' ∈ List.filter (of_slug 1 "losses-1") (rows d') →
          read_log d' (st_output_log r') = Some "text of ab12_losses-1.log"%string ∧ st_output_log r' ≠ None.
Proof.
  exact (failed_log_arrives Ok (λ j, j) "/var/log/oasis/tasks" true (λ _ _, None) (λ p, "text of " +:+ p) (λ p, Ok (JStr p)) false "/runs"
    "id-4" failed_kwargs (JList [JList [JObj []]]) 1 7 "losses-1" "/var/log/oasis/tasks/ab12_losses-1.log"
    (JStr "/var/log/oasis/tasks/ab12_losses-1.log") {| stored_as := "ab12_losses-1.log"; stored_name := "id-4-output.log" |} failed_worker
    ltac:(vm_compute; done) eq_refl ltac:(cbn; set_solver) eq_refl eq_refl).
Defined.

(** A chord in the header of another, with a chain for a body. *)
Definition task_of (id slug : string) : canvas := Canvas (Some (JStr id, JInt 1, JStr slug)) [("initiator_id", JInt 2)]%string [] [].
Definition nested_chords : canvas :=
  Canvas None [] [task_of "a" "keys-1"; Canvas None [] [task_of "b" "keys-2"] []] [task_of "c" "collect-keys"]%string.
Lemma chain_ids_found_witness :
  ∃ l, update_all_tasks_ids (S (weight (encode nested_chords))) [encode nested_chords] = Some (Ok l) ∧
    l ≡ₚ [(JStr "a", JInt 1, JStr "keys-1"); (JStr "b", JInt 1, JStr "keys-2"); (JStr "c", JInt 1, JStr "collect-keys")]%string.
Proof.
  apply (proj2 chain_ids_found nested_chords []). cbn. split_and!; try done; intros k Hk; try done.
  all: rewrite !elem_of_cons in Hk; by destruct Hk as [->|[->|[->|[->|Hk%elem_of_nil]]]].
Defined.
Example chain_ids_ex :
  update_all_tasks_ids (S (weight (encode nested_chords))) [encode nested_chords]
  = Some (Ok [(JStr "c", JInt 1, JStr "collect-keys"); (JStr "a", JInt 1, JStr "keys-1"); (JStr "b", JInt 1, JStr "keys-2")])%string.
Proof. vm_compute. reflexivity. Qed.
(** A body that is one task, not a chain, is not looked at. *)
Lemma single_body_missed :
  update_all_tasks_ids 9 [JObj [("kwargs", JObj [("header", JObj []); ("body", encode (task_of "c" "collect-keys"))])]]%string = Some (Ok []).
Proof. vm_compute. reflexivity. Qed.
