(* ===== verification/JsNumber.v ===== *)
(** * JavaScript numbers

    The numbers of the documentation viewer: IEEE 754 doubles, as the executable
    [spec_float] of the Standard Library, with the conversions of the language:
    decimal literals, [Number.prototype.toString], [toFixed], [parseFloat],
    [parseInt], [Math.round]. *)

From Stdlib Require Export SpecFloat.
From S2P Require Import Prelude PyData.
Local Open Scope Z_scope.

Definition num : Type := spec_float.

Definition of_Z (z : Z) : num := binary_normalize 53 1024 z 0 false.
Definition nadd : num → num → num := SFadd 53 1024.
Definition nsub : num → num → num := SFsub 53 1024.
Definition nmul : num → num → num := SFmul 53 1024.
Definition ndiv : num → num → num := SFdiv 53 1024.
Definition nltb (x y : num) : bool := SFltb x y.
Definition nleb (x y : num) : bool := SFleb x y.
Definition neqb (x y : num) : bool := SFeqb x y.
Definition nabs : num → num := SFabs.
Definition is_nan (x : num) : bool := match x with S754_nan => true | _ => false end.

(** [Math.max] and [Math.min] of two numbers: not-a-number wins, and of two zeros
    the positive one is the greater. *)
Definition nmax (x y : num) : num :=
  if is_nan x || is_nan y then S754_nan
  else match x, y with
       | S754_zero true, S754_zero b => S754_zero b
       | _, _ => if nltb x y then y else x
       end.
Definition nmin (x y : num) : num :=
  if is_nan x || is_nan y then S754_nan
  else match x, y with
       | S754_zero false, S754_zero b => S754_zero b
       | _, _ => if nltb y x then y else x
       end.

(** The number nearest to [n / d]: enough bits of the quotient, with a last bit
    that says whether there is a remainder. *)
Definition ratio (n : Z) (d : positive) : num :=
  let k := Z.max 0 (60 + Z.log2 (Zpos d) - Z.log2 (Z.abs n)) in
  let m := Z.abs n * 2 ^ k in
  let q := m / Zpos d in
  let sticky := if m mod Zpos d =? 0 then 0 else 1 in
  binary_normalize 53 1024 (Z.sgn n * (2 * q + sticky)) (- k - 1) (n <? 0).

(** The value of [s * 10 ^ e] as a number. *)
Definition scaled (s e : Z) : num :=
  if 0 <=? e then of_Z (s * 10 ^ e) else ratio s (Z.to_pos (10 ^ (- e))).
(** A decimal literal: [dec 35 1] is 3.5. *)
Definition dec (n : Z) (k : nat) : num := scaled n (- Z.of_nat k).

(** The exact value of a finite number, as a numerator and a denominator. *)
Definition fraction (m : positive) (e : Z) : Z * Z :=
  if 0 <=? e then (Zpos m * 2 ^ e, 1) else (Zpos m, 2 ^ (- e)).

(** ** Rounding *)

(** [Math.floor(x + 1/2)] of the exact value. *)
Definition round_half_up (p q : Z) : Z := (2 * p + q) / (2 * q).

(** [Math.round]. *)
Definition nround (x : num) : num :=
  match x with
  | S754_finite s m e =>
      let '(p, q) := fraction m e in
      let n := round_half_up (cond_Zopp s p) q in
      if n =? 0 then S754_zero s else of_Z n
  | x => x
  end.
(** The integer part, as [|0] and [parseInt] cut it. *)
Definition ntrunc (x : num) : Z :=
  match x with
  | S754_finite s m e => let '(p, q) := fraction m e in cond_Zopp s (p / q)
  | _ => 0
  end.

(** [Math.ceil]. *)
Definition nceil (x : num) : num :=
  match x with
  | S754_finite s m e =>
      let '(p, q) := fraction m e in
      let n := if s then - (p / q) else (p + q - 1) / q in
      if n =? 0 then S754_zero s else of_Z n
  | x => x
  end.

(** [x % y]: the remainder of the exact quotient, with the sign of [x]. *)
Definition nrem (x y : num) : num :=
  match x, y with
  | S754_finite sx mx ex, S754_finite _ my ey =>
      let '(p, q) := fraction mx ex in
      let '(p', q') := fraction my ey in
      let r := (p * q') mod (p' * q) in
      if r =? 0 then S754_zero sx else ratio (cond_Zopp sx r) (Z.to_pos (q * q'))
  | S754_zero _, S754_finite _ _ _ | S754_zero _, S754_infinity _ | S754_finite _ _ _, S754_infinity _ => x
  | _, _ => S754_nan
  end.

(** ** Printing *)

Fixpoint zeros (n : nat) : string := match n with O => EmptyString | S n => String "0" (zeros n) end.
Definition digits (n : Z) : string := pretty n.

Fixpoint drop_last_zeros (fuel : nat) (s e : Z) : Z * Z :=
  match fuel with
  | O => (s, e)
  | S fuel => if (s mod 10 =? 0) && negb (s =? 0) then drop_last_zeros fuel (s / 10) (e + 1) else (s, e)
  end.

(** The position of the first digit: [10 ^ (n - 1) <= p / q < 10 ^ n]. *)
Fixpoint below_one (fuel : nat) (p q : Z) : Z :=
  match fuel with O => 0 | S fuel => if q <=? p * 10 then 0 else below_one fuel (p * 10) q - 1 end.
Definition magnitude (p q : Z) : Z :=
  if q <=? p then Z.of_nat (String.length (digits (p / q))) else below_one 400 p q.

(** The decimal of [k] digits that is nearest to the number among those that read
    back as the number. *)
Definition with_digits (x : num) (p q n : Z) (k : Z) : option (Z * Z) :=
  let e := n - k in
  let '(a, b) := if 0 <=? e then (p, q * 10 ^ e) else (p * 10 ^ (- e), q) in
  let lo := a / b in
  let ok s := neqb (scaled s e) x in
  let near := if 2 * (a - lo * b) <=? b then [lo; lo + 1] else [lo + 1; lo] in
  match List.filter ok near with s :: _ => Some (s, e) | [] => None end.

Fixpoint shortest (fuel : nat) (x : num) (p q n k : Z) : Z * Z :=
  match fuel with
  | O => (p / q, 0)
  | S fuel => match with_digits x p q n k with Some r => r | None => shortest fuel x p q n (k + 1) end
  end.

(** The digits [s] with their exponent [e], in positional or exponent form. *)
Definition layout (s e : Z) : string :=
  let ds := digits s in
  let k := Z.of_nat (String.length ds) in
  let n := k + e in
  if (k <=? n) && (n <=? 21) then ds +:+ zeros (Z.to_nat e)
  else if (0 <? n) && (n <=? 21) then
    String.substring 0 (Z.to_nat n) ds +:+ "." +:+ String.substring (Z.to_nat n) (Z.to_nat (k - n)) ds
  else if (-6 <? n) && (n <=? 0) then "0." +:+ zeros (Z.to_nat (- n)) +:+ ds
  else
    let ex := (if (n - 1 <? 0)%Z then "-" else "+")%string +:+ digits (Z.abs (n - 1)) in
    (if k =? 1 then ds else String.substring 0 1 ds +:+ "." +:+ String.substring 1 (String.length ds - 1) ds)
      +:+ "e" +:+ ex.

Definition string_of_num (x : num) : string :=
  match x with
  | S754_zero _ => "0"
  | S754_infinity s => if s then "-Infinity" else "Infinity"
  | S754_nan => "NaN"
  | S754_finite s m e =>
      let '(p, q) := fraction m e in
      let '(d, ex) := shortest 17 (S754_finite false m e) p q (magnitude p q) 1 in
      let '(d, ex) := drop_last_zeros 25 d ex in
      (if s then "-" else EmptyString)%string +:+ layout d ex
  end.

(** [x.toFixed(f)]. *)
Definition fixed_digits (n : Z) (f : nat) : string :=
  if (f =? 0)%nat then digits n
  else
    let ds := digits n in
    let ds := zeros (S f - String.length ds) +:+ ds in
    let k := (String.length ds - f)%nat in
    String.substring 0 k ds +:+ "." +:+ String.substring k f ds.
Definition to_fixed (x : num) (f : nat) : string :=
  match x with
  | S754_zero _ => fixed_digits 0 f
  | S754_finite s m e =>
      let '(p, q) := fraction m e in
      if 10 ^ 21 * q <=? p then string_of_num x
      else (if s then "-" else EmptyString)%string +:+ fixed_digits (round_half_up (p * 10 ^ Z.of_nat f) q) f
  | _ => string_of_num x
  end.

Definition hex_digit (n : Z) : ascii :=
  ascii_of_N (Z.to_N (if n <? 10 then 48 + n else 87 + n)).
Fixpoint to_hex_pos (fuel : nat) (n : Z) : string :=
  match fuel with
  | O => EmptyString
  | S fuel => if n <? 16 then String (hex_digit n) EmptyString
              else to_hex_pos fuel (n / 16) +:+ String (hex_digit (n mod 16)) EmptyString
  end.
(** [x.toString(16)] of a number without a fraction, of at most 64 hexadecimal
    digits. *)
Definition to_hex (x : num) : string :=
  match x with
  | S754_zero _ => "0"
  | S754_finite s m e => (if s then "-" else EmptyString)%string +:+ to_hex_pos 64 (ntrunc (S754_finite false m e))
  | x => string_of_num x
  end.

(** ** Reading *)

Definition digit_value (c : ascii) : option Z :=
  let n := Z.of_N (char_code c) in if (48 <=? n) && (n <=? 57) then Some (n - 48) else None.
Definition hex_value (c : ascii) : option Z :=
  let n := Z.of_N (char_code (lower_char c)) in
  if (48 <=? n) && (n <=? 57) then Some (n - 48) else if (97 <=? n) && (n <=? 102) then Some (n - 87) else None.

(** The leading digits: how many there are, their value and the rest. *)
Fixpoint read_digits (value : ascii → option Z) (base : Z) (s : string) (n : nat) (acc : Z) : nat * Z * string :=
  match s with
  | EmptyString => (n, acc, s)
  | String c t => match value c with Some d => read_digits value base t (S n) (acc * base + d) | None => (n, acc, s) end
  end.

(** White space that [parseFloat] and [parseInt] skip. *)
Definition is_space (c : ascii) : bool := let n := char_code c in ((n =? 32) || ((9 <=? n) && (n <=? 13)))%N.
Fixpoint skip_space (s : string) : string :=
  match s with String c t => if is_space c then skip_space t else s | EmptyString => s end.
Definition read_sign (s : string) : bool * string :=
  match s with String "-" t => (true, t) | String "+" t => (false, t) | _ => (false, s) end.

Definition read_exponent (s : string) : Z * string :=
  match s with
  | String "e" t | String "E" t =>
      let '(neg, t) := read_sign t in
      let '(n, v, rest) := read_digits digit_value 10 t 0 0 in
      if (n =? 0)%nat then (0, s) else (if neg then - v else v, rest)
  | _ => (0, s)
  end.

Definition negate_if (s : bool) (x : num) : num := if s then SFopp x else x.

(** The longest decimal literal at the start of a string, and the rest. *)
Definition read_float (s : string) : num * string :=
  let '(neg, s) := read_sign (skip_space s) in
  if String.prefix "Infinity" s then (S754_infinity neg, String.substring 8 (String.length s - 8) s)
  else
    let '(n, a, s) := read_digits digit_value 10 s 0 0 in
    let '(k, a, s) := match s with
                      | String "." t => read_digits digit_value 10 t 0 a
                      | _ => (O, a, s)
                      end in
    if (n + k =? 0)%nat then (S754_nan, s)
    else let '(ex, s) := read_exponent s in (negate_if neg (scaled a (ex - Z.of_nat k)), s).
(** [parseFloat(s)]. *)
Definition parse_float (s : string) : num := fst (read_float s).
(** The base of a literal such as 0x1f, and its digits. *)
Definition based_literal (s : string) : option (Z * string) :=
  match s with
  | String "0" (String ("x" | "X") t) => Some (16, t)
  | String "0" (String ("o" | "O") t) => Some (8, t)
  | String "0" (String ("b" | "B") t) => Some (2, t)
  | _ => None
  end.
Definition digit_below (base : Z) (c : ascii) : option Z := d ← hex_value c; if d <? base then Some d else None.
(** [Number(s)]: the whole string, but for white space around, is a literal. *)
Definition number_of_string (s : string) : num :=
  if String.eqb (skip_space s) EmptyString then S754_zero false
  else match based_literal (skip_space s) with
       | Some (base, t) =>
           let '(n, a, rest) := read_digits (digit_below base) base t 0 0 in
           if (n =? 0)%nat || negb (String.eqb (skip_space rest) EmptyString) then S754_nan else of_Z a
       | None =>
           let '(x, rest) := read_float s in
           if String.eqb (skip_space rest) EmptyString then x else S754_nan
       end.

(** [parseInt(s, radix)] for the radix 10 and 16, without the prefix 0x. *)
Definition parse_int (radix : Z) (s : string) : num :=
  let '(neg, s) := read_sign (skip_space s) in
  let '(n, a, _) := read_digits (if radix =? 16 then hex_value else digit_value) radix s 0 0 in
  if (n =? 0)%nat then S754_nan else negate_if neg (of_Z a).

Example print_ex :
  map string_of_num [nadd (dec 1 1) (dec 2 1); dec 35 1; of_Z (-40); dec 7 2; ndiv (of_Z 1) (of_Z 3); of_Z (10 ^ 21);
    dec 15 8; ndiv (of_Z 40) (of_Z 100)]
  = ["0.30000000000000004"; "3.5"; "-40"; "0.07"; "0.3333333333333333"; "1e+21"; "1.5e-7"; "0.4"]%string.
Proof. vm_compute. reflexivity. Qed.
Example fixed_ex :
  [to_fixed (dec 1005 3) 2; to_fixed (dec 25 1) 0; to_fixed (of_Z 7) 2; to_fixed (dec (-5) 3) 2]
  = ["1.00"; "3"; "7.00"; "-0.01"]%string.
Proof. vm_compute. reflexivity. Qed.
Example parse_ex :
  map string_of_num [parse_float " 12.50px"; parse_float "-.5e1"; parse_float "x"; parse_int 10 "40%"; parse_int 16 "fF"]
  = ["12.5"; "-5"; "NaN"; "40"; "255"]%string.
Proof. vm_compute. reflexivity. Qed.
Example number_ex :
  map (string_of_num ∘ number_of_string) ["4"; " 1.5 "; "2px"; EmptyString; "0x1f"; "-0b1"]%string
  = ["4"; "1.5"; "NaN"; "0"; "31"; "NaN"]%string.
Proof. vm_compute. reflexivity. Qed.
Example round_ex : map string_of_num [nround (dec 25 1); nround (dec (-25) 1); nround (dec 4 1)] = ["3"; "-2"; "0"]%string.
Proof. vm_compute. reflexivity. Qed.
