(* ===== verification/JsData.v ===== *)
(** * JavaScript values

    The values the documentation viewer computes with, but for functions: what
    reading a property, a template literal, [||] and [&&] do with them. *)

From S2P Require Import Prelude PyData JsNumber.
Local Open Scope Z_scope.

Unset Elimination Schemes.
Inductive jsval :=
  | JsUndef
  | JsNull
  | JsBool (b : bool)
  | JsNum (x : num)
  | JsStr (s : string)
  | JsArr (l : list jsval)
  | JsObj (l : list (string * jsval)).
Set Elimination Schemes.

(** Induction that reaches the elements of arrays and the values of objects. *)
Section jsval_ind.
Variable P : jsval → Prop.
Hypothesis (HU : P JsUndef) (HN : P JsNull) (HB : ∀ b, P (JsBool b)) (Hx : ∀ x, P (JsNum x)) (HS : ∀ s, P (JsStr s)).
Hypothesis (HA : ∀ l, Forall P l → P (JsArr l)) (HO : ∀ l, Forall (λ kv, P kv.2) l → P (JsObj l)).
Fixpoint jsval_ind (v : jsval) : P v :=
  match v with
  | JsUndef => HU | JsNull => HN | JsBool b => HB b | JsNum x => Hx x | JsStr s => HS s
  | JsArr l => HA l ((fix go l : Forall P l :=
      match l with [] => Forall_nil_2 _ | v :: l => Forall_cons_2 _ _ _ (jsval_ind v) (go l) end) l)
  | JsObj l => HO l ((fix go l : Forall (λ kv, P kv.2) l :=
      match l with [] => Forall_nil_2 _ | kv :: l => Forall_cons_2 _ _ _ (jsval_ind kv.2) (go l) end) l)
  end.
End jsval_ind.

(** The value of a key of an object; a later definition of a key replaces the
    value in place, so keys are unique. *)
Fixpoint lookup_key {A} (k : string) (l : list (string * A)) : option A :=
  match l with [] => None | (k', v) :: l => if String.eqb k k' then Some v else lookup_key k l end.
Fixpoint set_key {A} (k : string) (v : A) (l : list (string * A)) : list (string * A) :=
  match l with
  | [] => [(k, v)]
  | (k', w) :: l => if String.eqb k k' then (k, v) :: l else (k', w) :: set_key k v l
  end.

(** [v.k]: a property of undefined or null is an error, one of another value
    without it is undefined. *)
Definition js_get (k : string) (v : jsval) : result jsval :=
  match v with
  | JsUndef | JsNull => Raise TypeError
  | JsObj l => Ok (default JsUndef (lookup_key k l))
  | _ => Ok JsUndef
  end.
(** [v.a.b.c]. *)
Fixpoint js_path (ks : list string) (v : jsval) : result jsval :=
  match ks with [] => Ok v | k :: ks => w ← js_get k v; js_path ks w end.

Definition js_truthy (v : jsval) : bool :=
  match v with
  | JsUndef | JsNull => false
  | JsBool b => b
  | JsNum x => negb (neqb x (of_Z 0) || is_nan x)
  | JsStr s => negb (String.eqb s EmptyString)
  | JsArr _ | JsObj _ => true
  end.
Definition js_or (v w : jsval) : jsval := if js_truthy v then v else w.

(** [String(v)]; an array is its elements with commas between, undefined and null
    as nothing. *)
Fixpoint js_string (v : jsval) : string :=
  match v with
  | JsUndef => "undefined"
  | JsNull => "null"
  | JsBool b => if b then "true" else "false"
  | JsNum x => string_of_num x
  | JsStr s => s
  | JsArr l => join "," ((λ v, match v with JsUndef | JsNull => EmptyString | v => js_string v end) <$> l)
  | JsObj _ => "[object Object]"
  end.

(** [Number(v)]. *)
Definition js_number (v : jsval) : num :=
  match v with
  | JsUndef => S754_nan
  | JsNull => of_Z 0
  | JsBool b => of_Z (if b then 1 else 0)
  | JsNum x => x
  | v => number_of_string (js_string v)
  end.

(** [v === s] for a string. *)
Definition is_str (s : string) (v : jsval) : bool := match v with JsStr t => String.eqb s t | _ => false end.
(** [v === z] for a number. *)
Definition is_num (z : Z) (v : jsval) : bool := match v with JsNum x => neqb x (of_Z z) | _ => false end.
(** [typeof v === "object" && v !== null]. *)
Definition is_object (v : jsval) : bool := match v with JsArr _ | JsObj _ => true | _ => false end.

(** ** Facts about keys *)

Lemma set_key_lookup {A} k (v : A) l : lookup_key k (set_key k v l) = Some v.
Proof.
  induction l as [|[k' w] l IH]; cbn; [by rewrite String.eqb_refl|]. destruct (String.eqb k k') eqn:E; cbn; by rewrite ?String.eqb_refl, ?E.
Qed.

Lemma set_key_other {A} k k' (v : A) l : k ≠ k' → lookup_key k (set_key k' v l) = lookup_key k l.
Proof.
  intros Hk. induction l as [|[k2 w] l IH]; cbn; [by apply String.eqb_neq in Hk as ->|].
  destruct (String.eqb_spec k' k2) as [->|]; cbn; [|by rewrite IH]. by apply String.eqb_neq in Hk as ->.
Qed.

Lemma lookup_key_notin {A} k (l : list (string * A)) : k ∉ fst <$> l → lookup_key k l = None.
Proof.
  induction l as [|[k' v] l IH]; [done|]. cbn. intros [Hk Hl]%not_elem_of_cons. apply String.eqb_neq in Hk as ->. auto.
Qed.

Lemma lookup_key_in {A} k (v : A) l : lookup_key k l = Some v → (k, v) ∈ l.
Proof. induction l as [|[k' w] l IH]; cbn; [done|]. destruct (String.eqb_spec k k') as [->|]; [intros [= ->]; left|right; auto]. Qed.

Lemma set_key_keys {A} j k (v : A) l : j ∈ fst <$> set_key k v l ↔ j ∈ fst <$> l ∨ j = k.
Proof.
  induction l as [|[k' w] l IH]; cbn; [rewrite list_elem_of_singleton; split; [by right|intros [H|]; [by apply not_elem_of_nil in H|done]]|].
  destruct (String.eqb_spec k k') as [<-|]; cbn; rewrite !elem_of_cons, ?IH; tauto.
Qed.

Lemma set_key_in {A} kw k (v : A) l : kw ∈ set_key k v l → kw = (k, v) ∨ kw ∈ l.
Proof.
  induction l as [|[k' w] l IH]; cbn; [intros ->%list_elem_of_singleton; by left|].
  destruct (String.eqb k k'); rewrite !elem_of_cons; [tauto|]. intros [H|H]; [tauto|]. destruct (IH H); tauto.
Qed.

Lemma set_key_NoDup {A} k (v : A) l : NoDup (fst <$> l) → NoDup (fst <$> set_key k v l).
Proof.
  induction l as [|[k' w] l IH]; cbn; [intros _; repeat constructor; apply not_elem_of_nil|]. intros [Hk Hl]%NoDup_cons.
  destruct (String.eqb_spec k k') as [<-|Hkk]; cbn; (constructor; [|auto]); [done|]. rewrite set_key_keys. by intros [|<-].
Qed.

Lemma key_in_set {A} k k' (v : A) l : k ∈ fst <$> l ∨ k = k' → k ∈ fst <$> set_key k' v l.
Proof.
  induction l as [|[k2 w] l IH]; cbn; intros H.
  - destruct H as [H| ->]; [by apply not_elem_of_nil in H|left].
  - destruct (String.eqb_spec k' k2) as [<-|]; cbn; rewrite elem_of_cons; destruct H as [[->|H]%elem_of_cons| ->]; auto.
Qed.
