(* ===== verification/Color.v ===== *)
(** * Colours of the documentation viewer

    The colour functions of redoc.standalone.js (the polished library in the
    bundle): reading a colour in any of its notations, the conversion to hue,
    saturation and lightness and back, [darken] ([Ur]), [lighten] ([Hr]),
    [desaturate] ([qr]), [transparentize] ([Kr]), [getLuminance] ([Vr]),
    [readableColor] ([Qr]). Names in brackets are those of the bundle. The power
    function is a parameter: the language leaves its last bits open. *)

From S2P Require Import Prelude PyData JsNumber JsData.
Local Open Scope Z_scope.

(** ** Regular expressions

    The greedy, backtracking expressions the colours are read with: [Grp] records
    what it matched. *)

Inductive re :=
  | Eps
  | Chr (p : ascii → bool)
  | Cat (a b : re)
  | Rep (least : nat) (more : option nat) (a : re)
  | Grp (a : re).

Definition taken (s rest : string) : string := String.substring 0 (String.length s - String.length rest) s.

Fixpoint match_re (r : re) (s : string) (caps : list string) (k : string → list string → option (list string))
    {struct r} : option (list string) :=
  match r with
  | Eps => k s caps
  | Chr p => match s with String c t => if p c then k t caps else None | EmptyString => None end
  | Cat a b => match_re a s caps (λ s caps, match_re b s caps k)
  | Rep least more a =>
      let fix many (n : nat) (s : string) (caps : list string) : option (list string) :=
        match n with
        | O => k s caps
        | S n =>
            match match_re a s caps (λ s' caps', if (String.length s' <? String.length s)%nat then many n s' caps' else None) with
            | Some r => Some r
            | None => k s caps
            end
        end in
      let fix first (n : nat) (s : string) (caps : list string) : option (list string) :=
        match n with O => many (default (String.length s) more) s caps | S n => match_re a s caps (first n) end in
      first least s caps
  | Grp a => match_re a s caps (λ s' caps', k s' (caps' ++ [taken s s']))
  end.

(** A match of the whole string; the groups in order. *)
Definition exec_re (r : re) (s : string) : option (list string) :=
  match_re r s [] (λ rest caps, match rest with EmptyString => Some caps | _ => None end).

Definition lit (c : ascii) : re := Chr (λ d, Ascii.eqb (lower_char d) c).
Fixpoint word (s : string) : re := match s with EmptyString => Eps | String c s => Cat (lit c) (word s) end.
Definition digit : re := Chr (λ c, match digit_value c with Some _ => true | None => false end).
Definition hex : re := Chr (λ c, match hex_value c with Some _ => true | None => false end).
Definition spaces : re := Rep 0 None (Chr is_space).
Definition optional (r : re) : re := Rep 0 (Some 1)%nat r.
Definition one_of (s : string) : re := Chr (λ c, has_char c s).
Fixpoint cats (l : list re) : re := match l with [] => Eps | [r] => r | r :: l => Cat r (cats l) end.

(** The separators and numbers of [vr], [xr], [wr] and [kr]. *)
Definition comma : re := cats [spaces; optional (lit ","); spaces].
Definition channel : re := Grp (Rep 1 (Some 2)%nat digit).
Definition alpha_part : re :=
  cats [spaces; one_of ",/"; spaces; Grp (cats [optional (one_of "-+"); Rep 0 None digit; optional (lit "."); Rep 1 None digit; optional (lit "%")])].
Definition percent : re := Cat (Grp (cats [Rep 1 (Some 2)%nat digit; optional (lit "."); optional digit])) (lit "%").
Definition hue_part : re := Grp (cats [Rep 0 (Some 3)%nat digit; optional (lit "."); Rep 1 None digit; optional (word "deg")]).
Definition open_paren : re := Cat (lit "(") spaces.
Definition close_paren : re := Cat spaces (lit ")").

Definition mr : re := Cat (lit "#") (Rep 6 (Some 0)%nat hex).
Definition gr : re := Cat (lit "#") (Rep 8 (Some 0)%nat hex).
Definition yr : re := Cat (lit "#") (Rep 3 (Some 0)%nat hex).
Definition br : re := Cat (lit "#") (Rep 4 (Some 0)%nat hex).
Definition vr : re := cats [word "rgb"; open_paren; channel; comma; channel; comma; channel; close_paren].
Definition xr : re :=
  cats [word "rgb"; optional (lit "a"); open_paren; channel; comma; channel; comma; channel; alpha_part; close_paren].
Definition wr : re := cats [word "hsl"; open_paren; hue_part; comma; percent; comma; percent; close_paren].
Definition kr : re :=
  cats [word "hsl"; optional (lit "a"); open_paren; hue_part; comma; percent; comma; percent; alpha_part; close_paren].

(** ** Reading colours *)

(** The names of the colours. *)
Definition hr : list (string * string) := [   ("aliceblue", "f0f8ff"); ("antiquewhite", "faebd7"); ("aqua",
  "00ffff"); ("aquamarine", "7fffd4"); ("azure", "f0ffff"); ("beige", "f5f5dc"); ("bisque", "ffe4c4"); ("black",
  "000"); ("blanchedalmond", "ffebcd"); ("blue", "0000ff"); ("blueviolet", "8a2be2"); ("brown", "a52a2a");
  ("burlywood", "deb887"); ("cadetblue", "5f9ea0"); ("chartreuse", "7fff00"); ("chocolate", "d2691e"); ("coral",
  "ff7f50"); ("cornflowerblue", "6495ed"); ("cornsilk", "fff8dc"); ("crimson", "dc143c"); ("cyan", "00ffff");
  ("darkblue", "00008b"); ("darkcyan", "008b8b"); ("darkgoldenrod", "b8860b"); ("darkgray", "a9a9a9");
  ("darkgreen", "006400"); ("darkgrey", "a9a9a9"); ("darkkhaki", "bdb76b"); ("darkmagenta", "8b008b");
  ("darkolivegreen", "556b2f"); ("darkorange", "ff8c00"); ("darkorchid", "9932cc"); ("darkred", "8b0000");
  ("darksalmon", "e9967a"); ("darkseagreen", "8fbc8f"); ("darkslateblue", "483d8b"); ("darkslategray",
  "2f4f4f"); ("darkslategrey", "2f4f4f"); ("darkturquoise", "00ced1"); ("darkviolet", "9400d3"); ("deeppink",
  "ff1493"); ("deepskyblue", "00bfff"); ("dimgray", "696969"); ("dimgrey", "696969"); ("dodgerblue", "1e90ff");
  ("firebrick", "b22222"); ("floralwhite", "fffaf0"); ("forestgreen", "228b22"); ("fuchsia", "ff00ff");
  ("gainsboro", "dcdcdc"); ("ghostwhite", "f8f8ff"); ("gold", "ffd700"); ("goldenrod", "daa520"); ("gray",
  "808080"); ("green", "008000"); ("greenyellow", "adff2f"); ("grey", "808080"); ("honeydew", "f0fff0");
  ("hotpink", "ff69b4"); ("indianred", "cd5c5c"); ("indigo", "4b0082"); ("ivory", "fffff0"); ("khaki",
  "f0e68c"); ("lavender", "e6e6fa"); ("lavenderblush", "fff0f5"); ("lawngreen", "7cfc00"); ("lemonchiffon",
  "fffacd"); ("lightblue", "add8e6"); ("lightcoral", "f08080"); ("lightcyan", "e0ffff");
  ("lightgoldenrodyellow", "fafad2"); ("lightgray", "d3d3d3"); ("lightgreen", "90ee90"); ("lightgrey",
  "d3d3d3"); ("lightpink", "ffb6c1"); ("lightsalmon", "ffa07a"); ("lightseagreen", "20b2aa"); ("lightskyblue",
  "87cefa"); ("lightslategray", "789"); ("lightslategrey", "789"); ("lightsteelblue", "b0c4de"); ("lightyellow",
  "ffffe0"); ("lime", "0f0"); ("limegreen", "32cd32"); ("linen", "faf0e6"); ("magenta", "f0f"); ("maroon",
  "800000"); ("mediumaquamarine", "66cdaa"); ("mediumblue", "0000cd"); ("mediumorchid", "ba55d3");
  ("mediumpurple", "9370db"); ("mediumseagreen", "3cb371"); ("mediumslateblue", "7b68ee"); ("mediumspringgreen",
  "00fa9a"); ("mediumturquoise", "48d1cc"); ("mediumvioletred", "c71585"); ("midnightblue", "191970");
  ("mintcream", "f5fffa"); ("mistyrose", "ffe4e1"); ("moccasin", "ffe4b5"); ("navajowhite", "ffdead"); ("navy",
  "000080"); ("oldlace", "fdf5e6"); ("olive", "808000"); ("olivedrab", "6b8e23"); ("orange", "ffa500");
  ("orangered", "ff4500"); ("orchid", "da70d6"); ("palegoldenrod", "eee8aa"); ("palegreen", "98fb98");
  ("paleturquoise", "afeeee"); ("palevioletred", "db7093"); ("papayawhip", "ffefd5"); ("peachpuff", "ffdab9");
  ("peru", "cd853f"); ("pink", "ffc0cb"); ("plum", "dda0dd"); ("powderblue", "b0e0e6"); ("purple", "800080");
  ("rebeccapurple", "639"); ("red", "f00"); ("rosybrown", "bc8f8f"); ("royalblue", "4169e1"); ("saddlebrown",
  "8b4513"); ("salmon", "fa8072"); ("sandybrown", "f4a460"); ("seagreen", "2e8b57"); ("seashell", "fff5ee");
  ("sienna", "a0522d"); ("silver", "c0c0c0"); ("skyblue", "87ceeb"); ("slateblue", "6a5acd"); ("slategray",
  "708090"); ("slategrey", "708090"); ("snow", "fffafa"); ("springgreen", "00ff7f"); ("steelblue", "4682b4");
  ("tan", "d2b48c"); ("teal", "008080"); ("thistle", "d8bfd8"); ("tomato", "ff6347"); ("turquoise", "40e0d0");
  ("violet", "ee82ee"); ("wheat", "f5deb3"); ("white", "fff"); ("whitesmoke", "f5f5f5"); ("yellow", "ff0");
  ("yellowgreen", "9acd32")]%string.

Record Rgb := { red : num; green : num; blue : num; alpha : option num }.
Record Hsl := { hue : num; saturation : num; lightness : num; hsl_alpha : option num }.

Definition nth_char (n : nat) (s : string) : string := String.substring n 1 s.
Definition hex_pair (a b : nat) (s : string) : num := parse_int 16 (nth_char a s +:+ nth_char b s).
Definition ten (caps : list string) (n : nat) : num := parse_int 10 (nth n caps EmptyString).
Definition hundredth (x : num) : num := ndiv x (of_Z 100).

(** [pr], [dr]: a channel as an integer, and three of them with commas. *)
Definition pr (e : num) : num := nround (nmul (of_Z 255) e).
Definition dr (e t n : num) : string :=
  string_of_num (pr e) +:+ "," +:+ string_of_num (pr t) +:+ "," +:+ string_of_num (pr n).

(** [fr]: hue, saturation and lightness to the three channels. *)
Definition fr (e t n : num) (r : num → num → num → string) : string :=
  if neqb t (of_Z 0) then r n n n
  else
    let i := ndiv (nrem (nadd (nrem e (of_Z 360)) (of_Z 360)) (of_Z 360)) (of_Z 60) in
    let o := nmul (nsub (of_Z 1) (nabs (nsub (nmul (of_Z 2) n) (of_Z 1)))) t in
    let a := nmul o (nsub (of_Z 1) (nabs (nsub (nrem i (of_Z 2)) (of_Z 1)))) in
    let within lo hi := nleb (of_Z lo) i && nltb i (of_Z hi) in
    let z := of_Z 0 in
    let '(s, l, c) :=
      if within 0 1 then (o, a, z) else if within 1 2 then (a, o, z) else if within 2 3 then (z, o, a)
      else if within 3 4 then (z, a, o) else if within 4 5 then (a, z, o) else if within 5 6 then (o, z, a)
      else (z, z, z) in
    let u := nsub n (ndiv o (of_Z 2)) in
    r (nadd s u) (nadd l u) (nadd c u).

Definition opacity (s : string) : num :=
  if nltb (of_Z 1) (parse_float s) then ndiv (parse_float s) (of_Z 100) else parse_float s.
Definition ten_rgb (l : list string) (a : option num) : Rgb :=
  {| red := ten l 0; green := ten l 1; blue := ten l 2; alpha := a |}.
Definition via_rgb (l : list string) (a : option num) : result Rgb :=
  let s := "rgb(" +:+ fr (ten l 0) (hundredth (ten l 1)) (hundredth (ten l 2)) dr +:+ ")" in
  match exec_re vr s with Some l => Ok (ten_rgb l a) | None => Raise (OtherError "4") end.

(** [Sr]: the notations in the order they are tried. *)
Definition Sr (e : jsval) : result Rgb :=
  match e with
  | JsStr e =>
      let t := match lookup_key (lower e) hr with Some h => "#" +:+ h | None => e end in
      let ratio_of a b := parse_float (to_fixed (ndiv (hex_pair a b t) (of_Z 255)) 2) in
      if exec_re mr t is Some _ then
        Ok {| red := hex_pair 1 2 t; green := hex_pair 3 4 t; blue := hex_pair 5 6 t; alpha := None |}
      else if exec_re gr t is Some _ then
        Ok {| red := hex_pair 1 2 t; green := hex_pair 3 4 t; blue := hex_pair 5 6 t; alpha := Some (ratio_of 7 8)%nat |}
      else if exec_re yr t is Some _ then
        Ok {| red := hex_pair 1 1 t; green := hex_pair 2 2 t; blue := hex_pair 3 3 t; alpha := None |}
      else if exec_re br t is Some _ then
        Ok {| red := hex_pair 1 1 t; green := hex_pair 2 2 t; blue := hex_pair 3 3 t; alpha := Some (ratio_of 4 4)%nat |}
      else match exec_re vr t with
      | Some l => Ok (ten_rgb l None)
      | None =>
      match exec_re xr (String.substring 0 50 t) with
      | Some l => Ok (ten_rgb l (Some (opacity (nth 3 l EmptyString))))
      | None =>
      match exec_re wr t with
      | Some l => via_rgb l None
      | None =>
      match exec_re kr (String.substring 0 50 t) with
      | Some l => via_rgb l (Some (opacity (nth 3 l EmptyString)))
      | None => Raise (OtherError "5")
      end end end end
  | _ => Raise (OtherError "3")
  end.

(** [Or]: to hue, saturation and lightness. *)
Definition Or (e : jsval) : result Hsl :=
  c ← Sr e;
  let n := ndiv (red c) (of_Z 255) in
  let r := ndiv (green c) (of_Z 255) in
  let i := ndiv (blue c) (of_Z 255) in
  let o := nmax (nmax n r) i in
  let a := nmin (nmin n r) i in
  let s := ndiv (nadd o a) (of_Z 2) in
  if neqb o a then Ok {| hue := of_Z 0; saturation := of_Z 0; lightness := s; hsl_alpha := alpha c |}
  else
    let l := nsub o a in
    let sat := if nltb (dec 5 1) s then ndiv l (nsub (nsub (of_Z 2) o) a) else ndiv l (nadd o a) in
    let t := if neqb o n then nadd (ndiv (nsub r i) l) (of_Z (if nltb r i then 6 else 0))
             else if neqb o r then nadd (ndiv (nsub i n) l) (of_Z 2)
             else nadd (ndiv (nsub n r) l) (of_Z 4) in
    Ok {| hue := nmul t (of_Z 60); saturation := sat; lightness := s; hsl_alpha := alpha c |}.

(** ** Writing colours *)

(** [Er]: #aabbcc as #abc. *)
Definition Er (e : string) : string :=
  let same a b := String.eqb (nth_char a e) (nth_char b e) in
  if (String.length e =? 7)%nat && same 1%nat 2%nat && same 3%nat 4%nat && same 5%nat 6%nat
  then "#" +:+ nth_char 1 e +:+ nth_char 3 e +:+ nth_char 5 e else e.
(** [_r]: two hexadecimal digits. *)
Definition two_hex (e : num) : string :=
  let t := to_hex e in if (String.length t =? 1)%nat then "0" +:+ t else t.
(** [Pr], [jr] and [Cr]. *)
Definition Pr (e t n : num) : string := Er ("#" +:+ two_hex e +:+ two_hex t +:+ two_hex n).
Definition jr (e t n : num) : string := Pr (pr e) (pr t) (pr n).
Definition Cr (e t n : num) : string := fr e t n jr.
(** [Tr] of a colour with its opacity. *)
Definition Tr (r g b a : num) : string :=
  if nleb (of_Z 1) a then Pr r g b
  else "rgba(" +:+ string_of_num r +:+ "," +:+ string_of_num g +:+ "," +:+ string_of_num b +:+ "," +:+ string_of_num a +:+ ")".
(** [Lr] of hue, saturation and lightness. *)
Definition Lr (h : Hsl) : string :=
  match hsl_alpha h with
  | Some a =>
      if nleb (of_Z 1) a then Cr (hue h) (saturation h) (lightness h)
      else "rgba(" +:+ fr (hue h) (saturation h) (lightness h) dr +:+ "," +:+ string_of_num a +:+ ")"
  | None => Cr (hue h) (saturation h) (lightness h)
  end.

(** [Fr]: within bounds. *)
Definition Fr (lo hi x : num) : num := nmax lo (nmin hi x).
(** [parseFloat] of any value. *)
Definition js_parse_float (v : jsval) : num := parse_float (js_string v).

(** ** The functions *)

Definition on_hsl (f : Hsl → Hsl) (t : jsval) : result jsval :=
  if is_str "transparent" t then Ok t else h ← Or t; Ok (JsStr (Lr (f h))).
Definition with_lightness (h : Hsl) (x : num) : Hsl :=
  {| hue := hue h; saturation := saturation h; lightness := Fr (of_Z 0) (of_Z 1) x; hsl_alpha := hsl_alpha h |}.

(** [Ur], darken; [Hr], lighten; [qr], desaturate; [Kr], transparentize. *)
Definition Ur (e t : jsval) : result jsval :=
  on_hsl (λ n, with_lightness n (nsub (lightness n) (js_parse_float e))) t.
Definition Hr (e t : jsval) : result jsval :=
  on_hsl (λ n, with_lightness n (nadd (lightness n) (js_parse_float e))) t.
Definition qr (e t : jsval) : result jsval :=
  on_hsl (λ n, {| hue := hue n; saturation := Fr (of_Z 0) (of_Z 1) (nsub (saturation n) (js_parse_float e));
                  lightness := lightness n; hsl_alpha := hsl_alpha n |}) t.
Definition Kr (e t : jsval) : result jsval :=
  if is_str "transparent" t then Ok t
  else
    n ← Sr t;
    let a := nsub (nmul (of_Z 100) (default (of_Z 1) (alpha n))) (nmul (of_Z 100) (js_parse_float e)) in
    let a := Fr (of_Z 0) (of_Z 1) (ndiv (number_of_string (to_fixed a 2)) (of_Z 100)) in
    Ok (JsStr (Tr (red n) (green n) (blue n) a)).

Section luminance.
(** [Math.pow]. *)
Context (pow : num → num → num).

Definition linear (x : num) : num :=
  let n := ndiv x (of_Z 255) in
  if nleb n (dec 3928 5) then ndiv n (dec 1292 2) else pow (ndiv (nadd n (dec 55 3)) (dec 1055 3)) (dec 24 1).

(** [Vr]. *)
Definition Vr (e : jsval) : result num :=
  if is_str "transparent" e then Ok (of_Z 0)
  else
    t ← Sr e;
    Ok (parse_float (to_fixed
      (nadd (nadd (nmul (dec 2126 4) (linear (red t))) (nmul (dec 7152 4) (linear (green t))))
            (nmul (dec 722 4) (linear (blue t)))) 3)).

(** [Qr] with its default colours. *)
Definition Qr (e : jsval) : result jsval :=
  v ← Vr e;
  let s := nltb (dec 179 3) v in
  let l := if s then JsStr "#000" else JsStr "#fff" in
  o ← Vr e;
  a ← Vr l;
  let contrast := if nltb a o then ndiv (nadd o (dec 5 2)) (nadd a (dec 5 2)) else ndiv (nadd a (dec 5 2)) (nadd o (dec 5 2)) in
  Ok (if nleb (dec 45 1) (parse_float (to_fixed contrast 2)) then l else if s then JsStr "#000" else JsStr "#fff").
End luminance.

Example colours_ex :
  [Ur (JsNum (dec 1 1)) (JsStr "#263238"); Hr (JsNum (dec 2 1)) (JsStr "#32329f"); Kr (JsNum (dec 93 2)) (JsStr "#1d8127");
   Kr (JsNum (dec 5 1)) (JsStr "red"); Ur (JsNum (dec 1 1)) (JsStr "hsl(120, 50%, 50%)"); Hr (JsNum (dec 1 1)) (JsStr "rgba(0,0,0, 0.1)");
   qr (JsNum (dec 2 1)) (JsStr "#32329f"); Ur (JsNum (dec 1 1)) (JsStr "#zz")]
  = [Ok (JsStr "#11171a"); Ok (JsStr "#6868cf"); Ok (JsStr "rgba(29,129,39,0.07)"); Ok (JsStr "rgba(255,0,0,0.5)");
     Ok (JsStr "#393"); Ok (JsStr "rgba(26,26,26,0.1)"); Ok (JsStr "#47478a"); Raise (OtherError "5")].
Proof. vm_compute. reflexivity. Qed.
