(* ===== verification/Css.v ===== *)
(** * Style templates

    The tagged templates of redoc.standalone.js (the styled-components library in
    the bundle): the values an interpolation may have ([css]), what a template
    becomes when it is defined ([Yo]) and when it is rendered with the properties
    of a component ([Wo]), the media queries ([va]) and the extension hook
    ([wa]). Names in brackets are those of the bundle. *)

From S2P Require Import Prelude PyData JsNumber JsData.
Local Open Scope Z_scope.

(** ** Values of a template *)

(** What a component is rendered with: its properties, among them the theme, and
    the function [theme.extensionsHook], which is kept apart as it is no data. *)
Record ctx := {
  props : jsval;
  hook : option (string → jsval → result jsval);
}.

Unset Elimination Schemes.
Inductive css :=
  | CVal (v : jsval)
  | CList (l : list css)
  | CFun (f : ctx → result css)
  | CComp (id : string)
  | CKeyframes (name rules : string).
Set Elimination Schemes.

Section css_ind.
Variable P : css → Prop.
Hypothesis (HV : ∀ v, P (CVal v)) (HL : ∀ l, Forall P l → P (CList l)).
Hypothesis (HF : ∀ f, (∀ c v, f c = Ok v → P v) → P (CFun f)).
Hypothesis (HC : ∀ id, P (CComp id)) (HK : ∀ n r, P (CKeyframes n r)).
Fixpoint css_ind (v : css) : P v :=
  match v with
  | CVal v => HV v
  | CList l => HL l ((fix go l : Forall P l :=
      match l with [] => Forall_nil_2 _ | v :: l => Forall_cons_2 _ _ _ (css_ind v) (go l) end) l)
  | CFun f => HF f (λ c v,
      match f c as r return r = Ok v → P v with
      | Ok w => λ E, eq_ind w P (css_ind w) v (f_equal (λ r, match r with Ok x => x | Raise _ => w end) E)
      | Raise e => λ E, match eq_ind (Raise e) (λ r, match r with Ok _ => False | Raise _ => True end) I (Ok v) E with end
      end)
  | CComp id => HC id
  | CKeyframes n r => HK n r
  end.
End css_ind.

(** A literal piece of a template. *)
Definition txt (s : string) : css := CVal (JsStr s).

(** ** Style objects *)

(** The properties whose numbers have no unit ([$i]). *)
Definition unitless : list string := ["animationIterationCount"; "borderImageOutset"; "borderImageSlice";
  "borderImageWidth"; "boxFlex"; "boxFlexGroup"; "boxOrdinalGroup"; "columnCount"; "columns"; "flex";
  "flexGrow"; "flexPositive"; "flexShrink"; "flexNegative"; "flexOrder"; "gridRow"; "gridRowEnd"; "gridRowSpan";
  "gridRowStart"; "gridColumn"; "gridColumnEnd"; "gridColumnSpan"; "gridColumnStart"; "msGridRow";
  "msGridRowSpan"; "msGridColumn"; "msGridColumnSpan"; "fontWeight"; "lineHeight"; "opacity"; "order";
  "orphans"; "tabSize"; "widows"; "zIndex"; "zoom"; "WebkitLineClamp"; "fillOpacity"; "floodOpacity";
  "stopOpacity"; "strokeDasharray"; "strokeDashoffset"; "strokeMiterlimit"; "strokeOpacity";
  "strokeWidth"]%string.

Definition is_upper (c : ascii) : bool := ((65 <=? char_code c) && (char_code c <=? 90))%N.
Fixpoint has_upper (s : string) : bool :=
  match s with EmptyString => false | String c s => is_upper c || has_upper s end.
Fixpoint hyphens (s : string) : string :=
  match s with
  | EmptyString => EmptyString
  | String c s => if is_upper c then "-" +:+ String (lower_char c) (hyphens s) else String c (hyphens s)
  end.
(** [qo]: backgroundColor as background-color, msFlex as -ms-flex. *)
Definition qo (e : string) : string :=
  if has_upper e then let s := hyphens e in if String.prefix "ms-" s then "-" +:+ s else s else e.

Fixpoint trim_end (s : string) : string :=
  match s with
  | EmptyString => EmptyString
  | String c t => match trim_end t with
                  | EmptyString => if is_space c then EmptyString else String c EmptyString
                  | t => String c t
                  end
  end.
Definition trim (s : string) : string := trim_end (skip_space s).

(** The value of a property of a style object. *)
Definition css_value (r : string) (i : jsval) : string :=
  match i with
  | JsUndef | JsNull | JsBool _ => EmptyString
  | JsNum x => if neqb x (of_Z 0) || bool_decide (r ∈ unitless) || String.prefix "--" r
               then string_of_num x else string_of_num x +:+ "px"
  | i => trim (js_string i)
  end.

(** [Vo]: what renders as nothing. *)
Definition Vo (v : jsval) : bool :=
  match v with JsUndef | JsNull | JsBool false => true | JsStr s => String.eqb s EmptyString | _ => false end.

Definition block (n : option string) (o : list string) : list string :=
  match n with Some n => (n +:+ " {") :: o ++ ["}"%string] | None => o end.
(** An object: its properties as declarations, the objects in it as blocks. *)
Fixpoint object_css (n : option string) (v : jsval) : list string :=
  match v with
  | JsObj l =>
      block n (concat ((λ '(a, w),
        match w with
        | JsObj _ => object_css (Some a) w
        | w => if Vo w then [] else [qo a +:+ ": " +:+ css_value a w +:+ ";"]
        end) <$> l))
  | _ => []
  end.

(** ** Rendering *)

(** A value: an array is its elements, without the empty ones. *)
Fixpoint flatten_val (v : jsval) : list string :=
  match v with
  | JsArr l => concat (flatten_val <$> l)
  | JsObj _ => object_css None v
  | v => if Vo v then [] else [js_string v]
  end.

(** [Wo] with an execution context: functions are called with it. *)
Fixpoint flatten (c : ctx) (v : css) : result (list string) :=
  match v with
  | CVal v => Ok (flatten_val v)
  | CList l => (fix go l : result (list string) :=
      match l with [] => Ok [] | v :: l => a ← flatten c v; b ← go l; Ok (a ++ b) end) l
  | CFun f => match f c with Ok w => flatten c w | Raise e => Raise e end
  | CComp id => Ok ["." +:+ id]
  | CKeyframes name _ => Ok [name]
  end.
Fixpoint flatten_list (c : ctx) (l : list css) : result (list string) :=
  match l with [] => Ok [] | v :: l => a ← flatten c v; b ← flatten_list c l; Ok (a ++ b) end.

(** The text of a list of rules. *)
Definition cat (l : list string) : string := foldr String.append EmptyString l.
#[global] Arguments cat : simpl never.
Definition style_text (c : ctx) (l : list css) : result string := cat <$> flatten_list c l.

(** [Wo] without a context: functions and keyframes are kept. *)
Fixpoint define (v : css) : list css :=
  match v with
  | CVal v => txt <$> flatten_val v
  | CList l => concat (define <$> l)
  | CComp id => [txt ("." +:+ id)]
  | v => [v]
  end.
(** [Yo] of a template, the pieces and the interpolations interleaved ([Bi]). *)
Definition Yo (l : list css) : list css :=
  match l with [CVal (JsStr s)] => l | _ => concat (define <$> l) end.

(** ** Interpolations *)

Definition times (k : Z) (v : jsval) : jsval := JsNum (nmul (of_Z k) (js_number v)).
(** A decimal literal. *)
Definition decimal (n : Z) (k : nat) : jsval := JsNum (dec n k).

(** A function of the properties; [e => e.theme.a.b] and [e => e.theme[k]...],
    and [e => k * e.theme.a.b]. *)
Definition fn (f : jsval → result css) : css := CFun (λ c, f (props c)).
Definition theme (ks : list string) : css := fn (λ e, CVal <$> js_path ("theme"%string :: ks) e).
Definition theme_times (k : Z) (ks : list string) : css :=
  fn (λ e, x ← js_path ("theme"%string :: ks) e; Ok (CVal (times k x))).
(** [({k: e}) => e && w] and [({k: e}) => e ? w : u]. *)
Definition and_then (v : jsval) (w : css) : css := if js_truthy v then w else CVal v.
Definition if_else (v : jsval) (w u : css) : css := if js_truthy v then w else u.
Definition when (k : string) (w : css) : css := fn (λ e, v ← js_get k e; Ok (and_then v w)).
Definition choose (k : string) (w u : css) : css := fn (λ e, v ← js_get k e; Ok (if_else v w u)).
(** [e => e.k || s]. *)
Definition either (k s : string) : css := fn (λ e, v ← js_get k e; Ok (CVal (js_or v (JsStr s)))).
(** [s.endsWith(t)]. *)
Definition ends_with (t s : string) : bool :=
  String.eqb (String.substring (String.length s - String.length t) (String.length t) s) t.
(** A template literal, its pieces and values interleaved. *)
Definition template (l : list jsval) : jsval := JsStr (foldr String.append EmptyString (js_string <$> l)).

(** ** Media queries and the hook *)

(** [e.theme.breakpoints[k]]. *)
Definition breakpoint (k : string) : css := theme ["breakpoints"; k]%string.

Definition nl : string := String "010" EmptyString.
Definition lessThan (e : string) (print : bool) (n : string) (r : list css) : css :=
  CList (Yo [txt (nl +:+ "      @media "); txt (if print then "print, " else EmptyString); txt " screen and (max-width: ";
    breakpoint e; txt ") "; txt n; txt (" {" +:+ nl +:+ "        "); CList (Yo r); txt (";" +:+ nl +:+ "      }" +:+ nl +:+ "    ")]).
Definition greaterThan (e : string) (r : list css) : css :=
  CList (Yo [txt (nl +:+ "      @media (min-width: "); breakpoint e; txt (") {" +:+ nl +:+ "        "); CList (Yo r);
    txt (";" +:+ nl +:+ "      }" +:+ nl +:+ "    ")]).
Definition between (e t : string) (r : list css) : css :=
  CList (Yo [txt (nl +:+ "      @media (min-width: "); breakpoint e; txt ") and (max-width: "; breakpoint t;
    txt (") {" +:+ nl +:+ "        "); CList (Yo r); txt (";" +:+ nl +:+ "      }" +:+ nl +:+ "    ")]).

(** [wa]: the hook of the theme, if there is one, is asked for more styles under
    the name of the component. *)
Definition wa (e : string) : css :=
  CFun (λ c,
    t ← js_get "theme" (props c);
    match t with
    | JsUndef | JsNull => Raise TypeError
    | _ => match hook c with Some h => CVal <$> h e (props c) | None => Ok (CVal JsUndef) end
    end).

(** ** Defining a template early changes nothing *)

Lemma flatten_CList c l : flatten c (CList l) = flatten_list c l.
Proof. induction l as [|v l IH]; [done|]. cbn. destruct (flatten c v); [|done]. cbn in *. by rewrite IH. Qed.

Lemma flatten_list_app c l l' :
  flatten_list c (l ++ l') = a ← flatten_list c l; b ← flatten_list c l'; Ok (a ++ b).
Proof.
  induction l as [|v l IH]; cbn; [by destruct (flatten_list c l')|]. destruct (flatten c v) as [a|e]; [|done]. cbn.
  rewrite IH. destruct (flatten_list c l) as [b|e]; [|done]. cbn. destruct (flatten_list c l') as [b'|e]; [|done].
  cbn. by rewrite app_assoc.
Qed.

Lemma cat_cons s l : cat (s :: l) = s +:+ cat l.
Proof. done. Qed.

(** Nothing a value flattens to is empty, so flattening again keeps it. *)
Lemma flatten_txt c s : flatten c (txt s) = Ok (if String.eqb s EmptyString then [] else [s]).
Proof. cbn. unfold Vo. by destruct (String.eqb s EmptyString). Qed.

Lemma cat_app l l' : cat (l ++ l') = cat l +:+ cat l'.
Proof. unfold cat. induction l as [|s l IH]; [done|]. cbn. by rewrite IH, string_app_assoc. Qed.

Lemma style_text_app c l l' :
  style_text c (l ++ l') = a ← style_text c l; b ← style_text c l'; Ok (a +:+ b).
Proof.
  unfold style_text. rewrite flatten_list_app. destruct (flatten_list c l) as [a|]; [|done]. cbn.
  destruct (flatten_list c l') as [b|]; [|done]. cbn. by rewrite cat_app.
Qed.

Lemma style_text_cons c v l :
  style_text c (v :: l) = a ← (cat <$> flatten c v); b ← style_text c l; Ok (a +:+ b).
Proof.
  change (v :: l) with ([v] ++ l). rewrite style_text_app.
  assert (style_text c [v] = cat <$> flatten c v) as ->; [|done].
  unfold style_text. cbn. destruct (flatten c v) as [a|]; [|done]. cbn. by rewrite app_nil_r.
Qed.

Lemma style_text_txts c l : style_text c (txt <$> l) = Ok (cat l).
Proof.
  induction l as [|s l IH]; [done|]. rewrite fmap_cons, style_text_cons, flatten_txt, IH.
  destruct (String.eqb_spec s EmptyString) as [->|]; [done|].
  cbn. by rewrite !cat_cons, string_app_nil_r.
Qed.

Lemma define_text c v : style_text c (define v) = cat <$> flatten c v.
Proof.
  induction v as [v|l IH|f _|id|n r] using css_ind; cbn [define].
  - apply style_text_txts.
  - rewrite flatten_CList. change (cat <$> flatten_list c l) with (style_text c l).
    induction IH as [|v l Hv _ IHl]; [done|]. rewrite fmap_cons. cbn [concat]. by rewrite style_text_app, style_text_cons, Hv, IHl.
  - rewrite style_text_cons. destruct (flatten c (CFun f)) as [a|]; [|done]. cbn. by rewrite string_app_nil_r.
  - rewrite style_text_cons, flatten_txt. cbn. by rewrite !cat_cons, string_app_nil_r.
  - done.
Qed.

Lemma Yo_text c l : style_text c (Yo l) = style_text c l.
Proof.
  assert (style_text c (concat (define <$> l)) = style_text c l) as H.
  { pose proof (define_text c (CList l)) as H. by rewrite flatten_CList in H. }
  unfold Yo. destruct l as [|[v| | | |] [|v' l]]; try exact H; destruct v; exact H || done.
Qed.
