(* ===== verification/StyleNames.v ===== *)
(** * Names of styles

    How the styled-components library in redoc.standalone.js names classes: the
    hash of a text ([So], [Oo]), its alphabetic form ([ko], [Zo]), and the
    definition of a component ([sa]), with its identifier, the element it renders
    and the styles it inherits. Names in brackets are those of the bundle. *)

From S2P Require Import Prelude PyData JsNumber JsData Css.
Local Open Scope Z_scope.

(** ** The hash *)

(** The 32-bit integer a bitwise operator yields. *)
Definition to_int32 (z : Z) : Z := let m := z mod 2 ^ 32 in if m <? 2 ^ 31 then m else m - 2 ^ 32.
(** [z >>> 0]. *)
Definition to_uint32 (z : Z) : Z := z mod 2 ^ 32.

(** The code units of a text in ASCII. *)
Definition codes (s : string) : list Z := (λ c, Z.of_N (char_code c)) <$> list_ascii_of_string s.

(** [So(e, t)] reads [t] from its end. *)
Definition So (e : Z) (t : list Z) : Z := foldr (λ c e, to_int32 (Z.lxor (to_int32 (33 * e)) c)) e t.
Definition Oo (t : list Z) : Z := So 5381 t.

(** [wo]: 26 small letters, then 26 capitals. *)
Definition wo (e : Z) : ascii := ascii_of_N (Z.to_N (e + (if 25 <? e then 39 else 97))).
Definition is_char (n : N) (c : ascii) : bool := N.eqb (char_code (lower_char c)) n.
(** A hyphen between an "a" and a "d", lest the word "ad" appears. *)
Fixpoint no_ad (s : string) : string :=
  match s with
  | String a (String d s' as t) =>
      if is_char 97 a && is_char 100 d then String a (String "-" (String d (no_ad s'))) else String a (no_ad t)
  | s => s
  end.

(** The loop of [ko]: [fuel] bounds its rounds. *)
Fixpoint ko_loop (fuel : nat) (t : Z) (n : string) : string :=
  match fuel with
  | O => n
  | S fuel => if 52 <? t then ko_loop fuel (t / 52) (String (wo (t mod 52)) n) else String (wo (t mod 52)) n
  end.
Definition ko_fuel : nat := 12.
Definition ko (e : Z) : string := no_ad (ko_loop ko_fuel (Z.abs e) EmptyString).
Definition Zo (s : string) : string := ko (to_uint32 (Oo (codes s))).

(** ** Components *)

(** What a component renders as: an element of the document, or a component of
    another kind, given by what it renders. *)
Inductive target := Html (tag : string) | Element (name : string).

Record component := {
  styledComponentId : string;
  elt : target;
  attrs : list (jsval → result jsval);
  (** The styles inherited, then its own, each with its identifier. *)
  componentStyle : list (string * list css);
}.

(** The identifier of the [count]-th component without a name of its own. *)
Definition component_id (count : nat) : string := "sc-" +:+ Zo ("5.3.11" +:+ "sc" +:+ pretty (Z.of_nat count)).

(** [sa(e, t, r)]: [e] is an element or a styled component. *)
Definition sa (count : nat) (e : target + component) (attrs' : list (jsval → result jsval)) (rules : list css) : component :=
  let id := component_id count in
  {| styledComponentId := id;
     elt := match e with inl t => t | inr c => elt c end;
     attrs := match e with inl _ => attrs' | inr c => attrs c ++ attrs' end;
     componentStyle := match e with inl _ => [] | inr c => componentStyle c end ++ [(id, Yo rules)] |}.
Definition styled (count : nat) (tag : string) (rules : list css) : component := sa count (inl (Html tag)) [] rules.
Definition extends (count : nat) (c : component) (rules : list css) : component := sa count (inr c) [] rules.

(** A component used as a selector. *)
Definition selector (c : component) : css := CComp (styledComponentId c).
(** The styles that are the component's own. *)
Definition own (c : component) : list css := match last (componentStyle c) with Some (_, l) => l | None => [] end.

(** [keyframes]: the name is made of the text of the rules. *)
Definition keyframes (rules : string) : css := CKeyframes (Zo rules) rules.

(** ** Facts about the hash *)

Lemma to_int32_range z : - 2 ^ 31 <= to_int32 z < 2 ^ 31.
Proof. unfold to_int32. pose proof (Z.mod_pos_bound z (2 ^ 32) ltac:(lia)). destruct (Z.ltb_spec (z mod 2 ^ 32) (2 ^ 31)); lia. Qed.

(** The hash of a text that is appended to depends on the text only by its hash. *)
Lemma So_app e s t : So e (s ++ t) = So (So e t) s.
Proof. unfold So. by rewrite foldr_app. Qed.

(** Enough rounds for an unsigned 32-bit number. *)
Lemma ko_loop_fuel fuel fuel' t n :
  0 <= t < 52 ^ Z.of_nat fuel → (fuel ≤ fuel')%nat → (0 < fuel)%nat → ko_loop fuel' t n = ko_loop fuel t n.
Proof.
  revert fuel' t n. induction fuel as [|fuel IH]; intros fuel' t n Ht Hf H0; [lia|]. destruct fuel' as [|fuel']; [lia|]. cbn.
  destruct (Z.ltb_spec 52 t) as [Hlt|]; [|done]. destruct fuel as [|fuel].
  - cbn in Ht. lia.
  - apply IH; [|lia|lia]. split; [apply Z.div_pos; lia|]. apply Z.div_lt_upper_bound; [lia|].
    replace (Z.of_nat (S (S fuel))) with (Z.succ (Z.of_nat (S fuel))) in Ht by lia. rewrite Z.pow_succ_r in Ht by lia. lia.
Qed.

Example ids_ex : [component_id 1; component_id 2; component_id 3] = ["sc-aXZVg"; "sc-gEvEer"; "sc-eqUAAy"]%string.
Proof. vm_compute. reflexivity. Qed.
