(* ===== verification/CssBraces.v ===== *)
(** * Balanced braces

    When the braces of a rendered template balance. A value is tame when no string
    in it has a brace; the printed numbers and the colours are tame; so what a
    template renders to with tame properties balances as soon as its literal
    pieces do ([braces]). *)

From S2P Require Import Prelude PyData JsNumber JsData Color Css StyleNames.
Local Open Scope Z_scope.

(** ** Strings *)

(** The depth after a string, from depth [n]; none if a brace closes nothing. *)
Fixpoint depth (s : string) (n : nat) : option nat :=
  match s with
  | EmptyString => Some n
  | String c s =>
      if Ascii.eqb c "{" then depth s (S n)
      else if Ascii.eqb c "}" then match n with O => None | S n => depth s n end
      else depth s n
  end.
Definition balanced (s : string) : Prop := depth s 0 = Some 0%nat.

Definition not_brace (c : ascii) : bool := negb (Ascii.eqb c "{" || Ascii.eqb c "}").
Fixpoint brace_free (s : string) : bool :=
  match s with EmptyString => true | String c s => not_brace c && brace_free s end.

Lemma depth_app s t n : depth (s +:+ t) n = depth s n ≫= depth t.
Proof.
  revert n. induction s as [|c s IH]; intros n; [done|]. cbn. destruct (Ascii.eqb c "{"); [apply IH|].
  destruct (Ascii.eqb c "}"); [|apply IH]. destruct n; [done|apply IH].
Qed.

Lemma depth_more s n m k : depth s n = Some m → depth s (n + k) = Some (m + k)%nat.
Proof.
  revert n m. induction s as [|c s IH]; intros n m; cbn; [by intros [= ->]|]. destruct (Ascii.eqb c "{"); [apply (IH (Datatypes.S n))|].
  destruct (Ascii.eqb c "}"); [|apply IH]. destruct n; [done|apply IH].
Qed.

Lemma balanced_at s n : balanced s → depth s n = Some n.
Proof. intros H. by apply (depth_more s 0 0 n) in H. Qed.

Lemma brace_free_balanced s : brace_free s = true → balanced s.
Proof.
  unfold balanced. induction s as [|c s IH]; [done|]. cbn. unfold not_brace.
  destruct (Ascii.eqb c "{"), (Ascii.eqb c "}"); done || apply IH.
Qed.

Lemma brace_free_app s t : brace_free (s +:+ t) = brace_free s && brace_free t.
Proof. induction s as [|c s IH]; [done|]. cbn. by rewrite IH, andb_assoc. Qed.

Lemma brace_free_substring n m s : brace_free s = true → brace_free (String.substring n m s) = true.
Proof.
  revert n m. induction s as [|c s IH]; intros n m; [by destruct n, m|]. cbn. intros [Hc Hs]%andb_true_iff.
  destruct n; [destruct m; cbn; [done|by rewrite Hc, IH]|by apply IH].
Qed.

Lemma balanced_app s t : balanced s → balanced t → balanced (s +:+ t).
Proof. unfold balanced. intros Hs Ht. by rewrite depth_app, Hs. Qed.

Lemma balanced_cat l : Forall balanced l → balanced (cat l).
Proof. induction 1; [done|]. rewrite cat_cons. by apply balanced_app. Qed.

(** ** Numbers *)

Create HintDb brace.
Ltac brace := repeat first [rewrite brace_free_app | apply andb_true_intro; split | apply brace_free_substring];
  auto with brace.

Lemma pretty_N_brace n s : brace_free s = true → brace_free (pretty_N_go n s) = true.
Proof.
  revert s. induction (N.lt_wf_0 n) as [n _ IH]. intros s Hs. destruct (decide (0 < n)%N) as [Hn|Hn].
  - rewrite pretty_N_go_step by done. apply IH; [apply N.div_lt; lia|]. cbn [brace_free]. rewrite Hs, andb_true_r.
    unfold pretty_N_char. by repeat case_match.
  - assert (n = 0)%N as -> by lia. by rewrite pretty_N_go_0.
Qed.

Lemma digits_brace n : brace_free (digits n) = true.
Proof.
  unfold digits, pretty, pretty_Z. assert (∀ m, brace_free (pretty_N m) = true) as H.
  { intros m. unfold pretty_N. case_decide; [done|]. by apply pretty_N_brace. }
  destruct n; cbn; [done|apply H|apply H].
Qed.
#[export] Hint Resolve digits_brace : brace.

Lemma zeros_brace n : brace_free (zeros n) = true.
Proof. by induction n. Qed.
#[export] Hint Resolve zeros_brace : brace.

Lemma layout_brace s e : brace_free (layout s e) = true.
Proof. unfold layout. repeat case_match; brace. Qed.
#[export] Hint Resolve layout_brace : brace.

Lemma string_of_num_brace x : brace_free (string_of_num x) = true.
Proof.
  destruct x as [|[]| |sx m e]; try done. unfold string_of_num. destruct (fraction m e) as [p q].
  destruct (shortest _ _ _ _ _ _) as [d ex]. destruct (drop_last_zeros 25 d ex) as [d' ex']. destruct sx; brace.
Qed.
#[export] Hint Resolve string_of_num_brace : brace.

(** ** Values *)

Fixpoint tame (v : jsval) : bool :=
  match v with
  | JsStr s => brace_free s
  | JsArr l => forallb tame l
  | JsObj l => forallb (λ kv, brace_free kv.1 && tame kv.2) l
  | _ => true
  end.

Lemma tame_undef : tame JsUndef = true. Proof. done. Qed.
Lemma tame_num x : tame (JsNum x) = true. Proof. done. Qed.
Lemma tame_str s : brace_free s = true → tame (JsStr s) = true. Proof. done. Qed.
Lemma tame_or v w : tame v = true → tame w = true → tame (js_or v w) = true.
Proof. unfold js_or. by destruct (js_truthy v). Qed.
#[export] Hint Resolve tame_undef tame_num tame_str tame_or : brace.

Lemma js_get_tame k v w : tame v = true → js_get k v = Ok w → tame w = true.
Proof.
  destruct v as [| | | | | |l]; cbn; try (by intros _ [= <-]); try done. intros Hl [= <-].
  induction l as [|[k' v] l IH]; [done|]. cbn in *. apply andb_true_iff in Hl as [[_ Hv]%andb_true_iff Hl].
  destruct (String.eqb k k'); [done|by apply IH].
Qed.

Lemma js_path_tame ks v w : tame v = true → js_path ks v = Ok w → tame w = true.
Proof.
  revert v. induction ks as [|k ks IH]; intros v Hv; cbn; [by intros [= <-]|].
  intros (u & Hu & H)%bind_Ok. eapply IH; [|exact H]. by eapply js_get_tame.
Qed.

Lemma join_brace l : Forall (λ s, brace_free s = true) l → brace_free (join "," l) = true.
Proof. induction 1 as [|s l Hs Hl IH]; [done|]. cbn. destruct l; [done|]. rewrite !brace_free_app, Hs. exact IH. Qed.

Lemma js_string_brace v : tame v = true → brace_free (js_string v) = true.
Proof.
  induction v as [| |[]|x|s|l IH|l _] using jsval_ind; intros Hv; cbn in *; auto with brace.
  apply join_brace, Forall_fmap. rewrite Forall_forall in IH |- *. intros v Hin.
  assert (tame v = true) as Ht by (by eapply forallb_forall in Hv; [exact Hv|apply list_elem_of_In]).
  cbn. destruct v; try done; by apply IH.
Qed.
#[export] Hint Resolve js_string_brace : brace.

Lemma hyphens_brace s : brace_free s = true → brace_free (hyphens s) = true.
Proof.
  induction s as [|c s IH]; [done|]. cbn. intros [Hc Hs]%andb_true_iff. destruct (is_upper c) eqn:E; cbn; [|by rewrite Hc, IH].
  rewrite IH, andb_true_r by done. unfold lower_char. unfold is_upper in E. rewrite E. clear -E.
  apply andb_true_iff in E as [E1 E2]. revert E1 E2. destruct c as [[] [] [] [] [] [] [] []]; done.
Qed.

Lemma qo_brace s : brace_free s = true → brace_free (qo s) = true.
Proof. intros Hs. unfold qo. repeat case_match; brace; by apply hyphens_brace. Qed.

Lemma trim_end_brace s : brace_free s = true → brace_free (trim_end s) = true.
Proof.
  induction s as [|c s IH]; [done|]. cbn. intros [Hc Hs]%andb_true_iff. specialize (IH Hs).
  destruct (trim_end s); [|by cbn; rewrite Hc]. destruct (is_space c); [done|]. cbn. by rewrite Hc.
Qed.
Lemma skip_space_brace s : brace_free s = true → brace_free (skip_space s) = true.
Proof.
  induction s as [|c s IH]; [done|]. cbn. intros Hcs. destruct (is_space c); [|done].
  apply IH. by apply andb_true_iff in Hcs as [_ ?].
Qed.

Lemma css_value_brace r i : tame i = true → brace_free (css_value r i) = true.
Proof.
  intros Hi. pose proof (js_string_brace i Hi) as Hs. unfold css_value.
  destruct i; try done; try by apply trim_end_brace, skip_space_brace. case_match; brace.
Qed.

Lemma balanced_concat l : Forall (balanced ∘ cat) l → balanced (cat (concat l)).
Proof. induction 1; [done|]. cbn [concat]. rewrite cat_app. by apply balanced_app. Qed.

Lemma block_balanced n o : (∀ s, n = Some s → brace_free s = true) → balanced (cat o) → balanced (cat (block n o)).
Proof.
  intros Hn Ho. destruct n as [s|]; [|done]. cbn [block]. rewrite cat_cons, cat_app. unfold balanced.
  rewrite !depth_app. rewrite (brace_free_balanced s) by auto. cbn. rewrite depth_app, (balanced_at _ 1%nat Ho). done.
Qed.

Lemma tame_entry l kv : tame (JsObj l) = true → kv ∈ l → brace_free kv.1 = true ∧ tame kv.2 = true.
Proof.
  intros Hl Hin. cbn in Hl. eapply forallb_forall in Hl; [|by apply list_elem_of_In]. by apply andb_true_iff in Hl.
Qed.

Lemma object_css_balanced n v :
  tame v = true → (∀ s, n = Some s → brace_free s = true) → balanced (cat (object_css n v)).
Proof.
  revert n. induction v as [| | | | | |l IH] using jsval_ind; intros n Hv Hn; try done. cbn [object_css].
  apply block_balanced; [done|]. apply balanced_concat, Forall_fmap. rewrite Forall_forall in IH |- *.
  intros [a w] Hin. destruct (tame_entry l _ Hv Hin) as [Ha Hw]. cbn [fst snd] in Ha, Hw. cbn.
  assert (∀ u, w = u → balanced (cat (if Vo u then [] else [qo a +:+ ": " +:+ css_value a u +:+ ";"]))) as Hplain.
  { intros u <-. destruct (Vo w); [done|]. rewrite cat_cons. apply brace_free_balanced.
    pose proof (qo_brace a Ha). pose proof (css_value_brace a w Hw). brace. }
  destruct w; try by apply Hplain. apply (IH _ Hin); [done|]. by intros s [= <-].
Qed.

Lemma flatten_val_balanced v : tame v = true → balanced (cat (flatten_val v)).
Proof.
  induction v as [| |b|x|s|l IH|l _] using jsval_ind; intros Hv; try done.
  - by destruct b.
  - cbn. rewrite cat_cons. apply brace_free_balanced. brace.
  - cbn. destruct (String.eqb s EmptyString); [done|]. rewrite cat_cons. apply brace_free_balanced. cbn in Hv. brace.
  - cbn [flatten_val]. apply balanced_concat, Forall_fmap. rewrite Forall_forall in IH |- *. intros v Hin. apply (IH v Hin).
    by eapply forallb_forall in Hv; [exact Hv|apply list_elem_of_In].
  - by apply object_css_balanced.
Qed.

(** ** Colours *)

Lemma hex_digit_brace n : 0 <= n < 16 → not_brace (hex_digit n) = true.
Proof.
  intros Hn. assert (n ∈ seqZ 0 16) as Hin by (apply elem_of_seqZ; lia). clear Hn. revert n Hin.
  apply Forall_forall. repeat constructor.
Qed.

Lemma to_hex_pos_brace fuel n : 0 <= n → brace_free (to_hex_pos fuel n) = true.
Proof.
  revert n. induction fuel as [|fuel IH]; intros n Hn; [done|]. cbn [to_hex_pos].
  assert (∀ d, 0 <= d < 16 → brace_free (String (hex_digit d) EmptyString) = true) as Hd.
  { intros d H. cbn [brace_free]. by rewrite hex_digit_brace. }
  destruct (Z.ltb_spec n 16) as [Hlt|Hge]; [by apply Hd|]. rewrite brace_free_app, IH by (by apply Z.div_pos). apply Hd, Z.mod_pos_bound. lia.
Qed.

Lemma ntrunc_nonneg m e : 0 <= ntrunc (S754_finite false m e).
Proof.
  unfold ntrunc, fraction. destruct (Z.leb_spec 0 e) as [He|He]; [cbn [cond_Zopp]; apply Z.div_pos; [|lia]|apply Z.div_pos; [lia|]].
  - apply Z.mul_nonneg_nonneg; [lia|]. by apply Z.pow_nonneg.
  - apply Z.pow_pos_nonneg; lia.
Qed.
Lemma to_hex_brace x : brace_free (to_hex x) = true.
Proof.
  destruct x as [| [] | | s m e]; try done. unfold to_hex. rewrite brace_free_app, to_hex_pos_brace by apply ntrunc_nonneg.
  by destruct s.
Qed.
#[export] Hint Resolve to_hex_brace : brace.

Lemma Pr_brace r g b : brace_free (Pr r g b) = true.
Proof. unfold Pr, Er, two_hex, nth_char. repeat case_match; brace. Qed.

Lemma dr_brace r g b : brace_free (dr r g b) = true.
Proof. unfold dr. brace. Qed.

Lemma fr_brace e t n r : (∀ x y z, brace_free (r x y z) = true) → brace_free (fr e t n r) = true.
Proof. intros Hr. unfold fr. repeat case_match; apply Hr. Qed.

Lemma Lr_brace h : brace_free (Lr h) = true.
Proof.
  unfold Lr, Cr. pose proof (fr_brace (hue h) (saturation h) (lightness h) jr (λ _ _ _, Pr_brace _ _ _)).
  pose proof (fr_brace (hue h) (saturation h) (lightness h) dr dr_brace). repeat case_match; brace.
Qed.

Lemma Tr_brace r g b a : brace_free (Tr r g b a) = true.
Proof. unfold Tr. case_match; [apply Pr_brace|brace]. Qed.
#[export] Hint Resolve Lr_brace Tr_brace : brace.

Lemma on_hsl_tame f t v : on_hsl f t = Ok v → tame v = true.
Proof.
  unfold on_hsl. destruct (is_str "transparent" t) eqn:E.
  - intros [= <-]. destruct t; try done. by apply String.eqb_eq in E as <-.
  - intros (h & _ & [= <-])%bind_Ok. cbn. brace.
Qed.

(** A colour that was computed is tame. *)
Lemma Ur_tame e t v : Ur e t = Ok v → tame v = true. Proof. apply on_hsl_tame. Qed.
Lemma Hr_tame e t v : Hr e t = Ok v → tame v = true. Proof. apply on_hsl_tame. Qed.
Lemma qr_tame e t v : qr e t = Ok v → tame v = true. Proof. apply on_hsl_tame. Qed.
Lemma Kr_tame e t v : Kr e t = Ok v → tame v = true.
Proof.
  unfold Kr. destruct (is_str "transparent" t) eqn:E.
  - intros [= <-]. destruct t; try done. by apply String.eqb_eq in E as <-.
  - intros (h & _ & [= <-])%bind_Ok. cbn. brace.
Qed.

(** ** Templates *)

(** A context with tame data: the properties and what the hook returns. *)
Definition ok (c : ctx) : Prop :=
  tame (props c) = true ∧ ∀ h n p v, hook c = Some h → h n p = Ok v → tame v = true.

(** What leaves the depth as it was. *)
Definition neutral_in (c : ctx) (v : css) : Prop := ∀ l, flatten c v = Ok l → balanced (cat l).
Definition neutral (v : css) : Prop := ∀ c, ok c → neutral_in c v.

(** The depth [m] after the pieces of a template, from depth [n]. *)
Inductive braces : list css → nat → nat → Prop :=
  | br_nil n : braces [] n n
  | br_lit s l n k m : depth s n = Some k → braces l k m → braces (txt s :: l) n m
  | br_val v l n m : neutral v → braces l n m → braces (v :: l) n m.

Theorem braces_depth c l n m s : ok c → braces l n m → style_text c l = Ok s → depth s n = Some m.
Proof.
  intros Hc Hl. revert s. induction Hl as [n|t l n k m Ht _ IH|v l n m Hv _ IH]; intros s Hs; [by injection Hs as [= <-]| |];
    rewrite style_text_cons in Hs.
  - rewrite flatten_txt in Hs. assert (cat (if String.eqb t EmptyString then [] else [t]) = t) as Et.
    { destruct (String.eqb_spec t EmptyString) as [->|]; [done|]. rewrite cat_cons. apply string_app_nil_r. }
    cbn [fmap result_fmap mbind result_bind] in Hs. rewrite Et in Hs. destruct (style_text c l) as [u|]; [|done].
    injection Hs as [= <-]. rewrite depth_app, Ht. by apply IH.
  - destruct (flatten c v) as [a|] eqn:Ea; [|done]. destruct (style_text c l) as [u|]; [|done]. injection Hs as [= <-].
    rewrite depth_app, (balanced_at _ n (Hv c Hc a Ea)). by apply IH.
Qed.

Lemma neutral_val v : tame v = true → neutral (CVal v).
Proof. intros Hv c _ l [= <-]. by apply flatten_val_balanced. Qed.

Lemma neutral_list l : braces l 0 0 → neutral (CList l).
Proof.
  intros Hl c Hc a. rewrite flatten_CList. intros Ha. eapply braces_depth; [exact Hc|exact Hl|].
  unfold style_text. by rewrite Ha.
Qed.

Lemma neutral_Yo l : braces l 0 0 → neutral (CList (Yo l)).
Proof.
  intros Hl c Hc a. rewrite flatten_CList. intros Ha. eapply braces_depth; [exact Hc|exact Hl|].
  rewrite <- Yo_text. unfold style_text. by rewrite Ha.
Qed.

Lemma neutral_fn f : (∀ e w, tame e = true → f e = Ok w → neutral w) → neutral (fn f).
Proof.
  intros Hf c Hc l. cbn. destruct (f (props c)) as [w|] eqn:E; [|done]. apply (Hf _ _ (proj1 Hc) E c Hc).
Qed.

Lemma neutral_theme ks : neutral (theme ks).
Proof.
  apply neutral_fn. intros e w He (v & Hv & [= <-])%fmap_Ok. apply neutral_val. by eapply js_path_tame.
Qed.
Lemma neutral_theme_times k ks : neutral (theme_times k ks).
Proof. apply neutral_fn. intros e w He (v & Hv & [= <-])%bind_Ok. by apply neutral_val. Qed.

Lemma neutral_wa n : neutral (wa n).
Proof.
  intros c Hc l. unfold wa. cbn. destruct (js_get "theme" (props c)) as [t|]; [|done]. cbn.
  destruct (hook c) as [h|] eqn:Eh.
  - destruct (h n (props c)) as [v|] eqn:Ev; [|by destruct t]. assert (tame v = true) by (by eapply Hc).
    destruct t; try done; cbn; intros [= <-]; by apply flatten_val_balanced.
  - by destruct t; cbn; intros [= <-].
Qed.

Lemma neutral_comp id : brace_free id = true → neutral (CComp id).
Proof. intros Hid c _ l [= <-]. apply brace_free_balanced. rewrite cat_cons. brace. Qed.

Lemma neutral_and_then v w : tame v = true → neutral w → neutral (and_then v w).
Proof. intros Hv Hw. unfold and_then. destruct (js_truthy v); [done|]. by apply neutral_val. Qed.
Lemma neutral_if_else v w u : neutral w → neutral u → neutral (if_else v w u).
Proof. unfold if_else. by destruct (js_truthy v). Qed.
Lemma neutral_when k w : neutral w → neutral (when k w).
Proof.
  intros Hw. apply neutral_fn. intros e u He (v & Hv & [= <-])%bind_Ok. apply neutral_and_then; [by eapply js_get_tame|done].
Qed.
Lemma neutral_choose k w u : neutral w → neutral u → neutral (choose k w u).
Proof. intros Hw Hu. apply neutral_fn. intros e x He (v & Hv & [= <-])%bind_Ok. by apply neutral_if_else. Qed.
Lemma neutral_either k s : brace_free s = true → neutral (either k s).
Proof.
  intros Hs. apply neutral_fn. intros e x He (v & Hv & [= <-])%bind_Ok. apply neutral_val, tame_or; [by eapply js_get_tame|done].
Qed.
#[export] Hint Resolve neutral_either neutral_when neutral_choose neutral_theme neutral_theme_times neutral_wa neutral_and_then neutral_if_else neutral_comp neutral_val neutral_Yo : brace.

(** The media queries open and close one block around the styles given. *)
Lemma neutral_lessThan e p n r : brace_free n = true → braces r 0 0 → neutral (lessThan e p n r).
Proof.
  intros Hn Hr. apply neutral_Yo. apply br_lit with (k := 0%nat); [done|]. apply br_lit with (k := 0%nat); [by destruct p|].
  apply br_lit with (k := 0%nat); [done|]. apply br_val; [apply neutral_theme|]. apply br_lit with (k := 0%nat); [done|].
  apply br_lit with (k := 0%nat); [by apply brace_free_balanced|]. apply br_lit with (k := 1%nat); [done|].
  apply br_val; [by apply neutral_Yo|]. apply br_lit with (k := 0%nat); [done|]. constructor.
Qed.

(** ** Proving that a template balances *)

(** The depth after the pieces of a template literal. *)
Inductive pieces : list jsval → nat → nat → Prop :=
  | pc_nil n : pieces [] n n
  | pc_lit s l n k m : depth s n = Some k → pieces l k m → pieces (JsStr s :: l) n m
  | pc_val v l n m : tame v = true → pieces l n m → pieces (v :: l) n m.

Lemma pieces_depth l n m : pieces l n m → depth (js_string (template l)) n = Some m.
Proof.
  cbn. induction 1 as [|s l n k m Hs _ IH|v l n m Hv _ IH]; [done| |]; cbn; rewrite depth_app.
  - by rewrite Hs.
  - rewrite (balanced_at _ n (brace_free_balanced _ (js_string_brace v Hv))). exact IH.
Qed.

Lemma neutral_txt s : balanced s → neutral (txt s).
Proof.
  intros Hs c _ l. rewrite flatten_txt. intros [= <-]. destruct (String.eqb s EmptyString); [done|].
  rewrite cat_cons, string_app_nil_r. done.
Qed.
Lemma neutral_template l : pieces l 0 0 → neutral (CVal (template l)).
Proof. intros Hl. apply neutral_txt. exact (pieces_depth l 0 0 Hl). Qed.
Lemma neutral_false : neutral (CVal (JsBool false)).
Proof. by apply neutral_val. Qed.
Lemma tame_times k v : tame (times k v) = true. Proof. done. Qed.
#[export] Hint Resolve neutral_false tame_times : brace.

(** ** Names *)

Lemma wo_brace e : 0 <= e < 52 → not_brace (wo e) = true.
Proof.
  intros He. assert (e ∈ seqZ 0 52) as Hin by (apply elem_of_seqZ; lia). clear He. revert e Hin.
  apply Forall_forall. repeat constructor.
Qed.

Lemma ko_loop_brace fuel t n : 0 <= t <= 52 ^ Z.of_nat fuel → brace_free n = true → brace_free (ko_loop fuel t n) = true.
Proof.
  revert t n. induction fuel as [|fuel IH]; intros t n Ht Hn; [done|]. cbn [ko_loop].
  assert (∀ u, brace_free (String (wo (u mod 52)) n) = true) as Hs.
  { intros u. cbn. rewrite wo_brace, Hn by (apply Z.mod_pos_bound; lia). done. }
  destruct (52 <? t); [|by apply Hs]. apply IH; [|by apply Hs]. split; [apply Z.div_pos; lia|].
  replace (Z.of_nat (S fuel)) with (Z.succ (Z.of_nat fuel)) in Ht by lia. rewrite Z.pow_succ_r in Ht by lia.
  apply Z.div_le_upper_bound; lia.
Qed.

Lemma no_ad_brace s : brace_free s = true → brace_free (no_ad s) = true.
Proof.
  assert (∀ n s, (String.length s < n)%nat → brace_free s = true → brace_free (no_ad s) = true) as H; [|apply (H (S (String.length s))); lia].
  clear s. induction n as [|n IH]; intros s Hn Hs; [lia|]. destruct s as [|a [|d s]]; [done|done|].
  cbn in Hn, Hs |- *. apply andb_true_iff in Hs as [Ha [Hd Hs]%andb_true_iff].
  destruct (is_char 97 a && is_char 100 d); cbn; rewrite Ha; cbn [andb not_brace].
  - rewrite Hd, IH by (done || lia). done.
  - apply (IH (String d s)); cbn; [lia|]. by rewrite Hd.
Qed.

Lemma ko_brace e : Z.abs e <= 2 ^ 62 → brace_free (ko e) = true.
Proof. intros He. apply no_ad_brace, ko_loop_brace; [|done]. change (52 ^ Z.of_nat ko_fuel) with 390877006486250192896. lia. Qed.

Lemma Zo_brace s : brace_free (Zo s) = true.
Proof.
  apply ko_brace. unfold to_uint32. pose proof (Z.mod_pos_bound (Oo (codes s)) (2 ^ 32) ltac:(lia)). lia.
Qed.

Lemma neutral_selector k c : styledComponentId c = component_id k → neutral (selector c).
Proof. intros Hc. apply neutral_comp. rewrite Hc. unfold component_id. rewrite brace_free_app. apply Zo_brace. Qed.
Lemma neutral_keyframes r : neutral (keyframes r).
Proof. intros c _ l [= <-]. apply brace_free_balanced. rewrite cat_cons. brace. apply Zo_brace. Qed.
#[export] Hint Resolve neutral_keyframes : brace.

(** ** Components *)

(** The styles of a component balance, whatever tame data it is rendered with. *)
Definition well_braced (c : component) : Prop :=
  Forall (λ il, ∀ x s, ok x → style_text x il.2 = Ok s → balanced s) (componentStyle c).

Lemma own_braces rules : braces rules 0 0 → ∀ x s, ok x → style_text x (Yo rules) = Ok s → balanced s.
Proof. intros Hr x s Hx Hs. rewrite Yo_text in Hs. by eapply braces_depth. Qed.
Lemma braced_element k t a rules : braces rules 0 0 → well_braced (sa k (inl t) a rules).
Proof. intros Hr. repeat constructor. by apply own_braces. Qed.
Lemma braced_extends k b a rules : well_braced b → braces rules 0 0 → well_braced (sa k (inr b) a rules).
Proof. intros Hb Hr. apply Forall_app. split; [done|]. repeat constructor. by apply own_braces. Qed.

(** ** Proofs of balance *)


(** Going through a function of the properties: what it read and computed is tame. *)
Ltac head_of t := match t with ?f _ => head_of f | _ => t end.
Ltac tame_value Hp Hx :=
  lazymatch type of Hx with
  | js_get _ ?v = Ok _ =>
      match goal with Hv : tame v = true |- _ => apply (js_get_tame _ _ _ Hv) in Hx end
  | js_path _ ?v = Ok _ =>
      match goal with Hv : tame v = true |- _ => apply (js_path_tame _ _ _ Hv) in Hx end
  | Ur _ _ = Ok _ => apply Ur_tame in Hx
  | Hr _ _ = Ok _ => apply Hr_tame in Hx
  | Kr _ _ = Ok _ => apply Kr_tame in Hx
  | (if ?b then _ else _) = Ok _ => destruct b; tame_value Hp Hx
  | Ok _ = Ok _ => apply Ok_inj in Hx; match type of Hx with _ = ?y => subst y end
  | (_ <$> _) = Ok _ => let y := fresh "y" in let Hy := fresh "Hy" in
      apply fmap_Ok in Hx as (y & Hy & <-); tame_value Hp Hy
  | ?f = Ok _ => let h := head_of f in unfold h in Hx; tame_value Hp Hx
  | _ => idtac
  end.
Ltac body Hp H :=
  match type of H with
  | (_ ≫= _) = Ok _ => let x := fresh "x" in let Hx := fresh "Hx" in
      apply bind_Ok in H as (x & Hx & H); try tame_value Hp Hx; body Hp H
  | (_ <$> _) = Ok _ => let x := fresh "x" in let Hx := fresh "Hx" in
      apply fmap_Ok in H as (x & Hx & <-); try tame_value Hp Hx
  | (if ?b then _ else _) = Ok _ => destruct b; body Hp H
  | Ok _ = Ok _ => apply Ok_inj in H; rewrite <- H
  | Raise _ = Ok _ => discriminate H
  | (let _ := _ in _) = Ok _ => cbv zeta in H; body Hp H
  | _ => idtac
  end.
Ltac tame := first [assumption | reflexivity | apply tame_or; tame
  | match goal with |- tame (if ?b then _ else _) = true => destruct b; tame end | solve [auto with brace]].
Ltac template_pieces :=
  repeat match goal with
  | |- pieces [] _ _ => apply pc_nil
  | |- pieces (JsStr _ :: _) _ _ => eapply pc_lit; [vm_compute; reflexivity|]
  | |- pieces _ _ _ => apply pc_val; [tame|]
  end.
Ltac neutral :=
  lazymatch goal with
  | |- neutral (txt _) => apply neutral_txt; vm_compute; reflexivity
  | |- neutral (lessThan _ _ _ _) => apply neutral_lessThan; [reflexivity|braces]
  | |- neutral (choose _ _ _) => apply neutral_choose; neutral
  | |- neutral (when _ _) => apply neutral_when; neutral
  | |- neutral (if_else _ _ _) => apply neutral_if_else; neutral
  | |- neutral (if ?b then _ else _) => destruct b; neutral
  | |- neutral (either _ _) => apply neutral_either; reflexivity
  | |- neutral (CVal (template _)) => apply neutral_template; template_pieces
  | |- neutral (CList (Yo _)) => apply neutral_Yo; braces
  | |- neutral (fn _) => let p := fresh "p" in let w := fresh "w" in let Hp := fresh "Hp" in let H := fresh "H" in
      first [solve [auto with brace nocore] | apply neutral_fn; intros p w Hp H; body Hp H; neutral]
  | |- neutral (CVal _) => apply neutral_val; tame
  | |- neutral (selector _) => eapply neutral_selector; reflexivity
  | |- neutral ?c => first [solve [auto with brace] | let h := head_of c in unfold h; neutral]
  end
with braces :=
  repeat match goal with
  | |- braces [] _ _ => apply br_nil
  | |- braces (txt _ :: _) _ _ => eapply br_lit; [vm_compute; reflexivity|]
  | |- braces (CVal (JsStr _) :: _) _ _ => eapply br_lit; [vm_compute; reflexivity|]
  | |- braces _ _ _ => apply br_val; [solve [neutral]|]
  end.
Ltac component :=
  match goal with |- well_braced ?c => let h := head_of c in unfold h end;
  first [apply braced_element; braces | apply braced_extends; [component|braces]].
