(* ===== verification/Theme.v ===== *)
(** * The theme

    The theme of the documentation viewer (redoc.standalone.js): the default theme
    ([Zr]), whose entries may be functions of the theme itself, the merge with the
    theme of the page ([ci]), and the resolution of the functions by getters that
    remember what they returned and count how often they were run. *)

From S2P Require Import Prelude PyData JsNumber JsData Color Css.
Local Open Scope Z_scope.

(** ** Themes *)

(** What a function of the theme does: it reads entries of the theme, one after
    the other, and returns a value or throws. *)
Inductive prog :=
  | Ret (v : jsval)
  | Throw (e : exn)
  | Read (path : list string) (k : jsval → prog).

(** A theme: values, functions, and objects of these. *)
Unset Elimination Schemes.
Inductive tree :=
  | TVal (v : jsval)
  | TFun (f : prog)
  | TObj (l : list (string * tree)).
Set Elimination Schemes.

Section tree_ind.
Variable P : tree → Prop.
Hypothesis (HV : ∀ v, P (TVal v)) (HF : ∀ f, P (TFun f)) (HO : ∀ l, Forall (λ kt, P kt.2) l → P (TObj l)).
Fixpoint tree_ind (t : tree) : P t :=
  match t with
  | TVal v => HV v
  | TFun f => HF f
  | TObj l => HO l ((fix go l : Forall (λ kt, P kt.2) l :=
      match l with [] => Forall_nil_2 _ | kt :: l => Forall_cons_2 _ _ _ (tree_ind kt.2) (go l) end) l)
  end.
End tree_ind.

Definition ret (r : result jsval) : prog := match r with Ok v => Ret v | Raise e => Throw e end.

(** The theme of a page is data. *)
Fixpoint of_data (v : jsval) : tree :=
  match v with JsObj l => TObj ((λ '(k, w), (k, of_data w)) <$> l) | v => TVal v end.

Definition tree_truthy (t : tree) : bool := match t with TVal v => js_truthy v | _ => true end.

(** What an entry is merged into: [e[t] || (e[t] = {})]. *)
Definition object_at (t : option tree) : tree :=
  match t with Some t => if tree_truthy t then t else TObj [] | None => TObj [] end.

(** The entries of [n] in order, given how an object is merged into another. *)
Section merge_entries.
Context (merge : tree → tree → tree).
Fixpoint merge_entries (le ln : list (string * tree)) : list (string * tree) :=
  match ln with
  | [] => le
  | (k, w) :: ln =>
      let v := match w with TObj _ => merge (object_at (lookup_key k le)) w | _ => w end in
      merge_entries (set_key k v le) ln
  end.
End merge_entries.

(** [ci(e, n)]: what is an object on both sides is merged, anything else of [n]
    replaces what [e] has. *)
Fixpoint ci (e n : tree) {struct n} : tree :=
  match e, n with TObj le, TObj ln => TObj (merge_entries ci le ln) | e, _ => e end.

(** ** Getters *)

(** The values the getters have returned ([t]) and how often they ran ([n]). *)
Record getters := { returned : list (string * jsval); runs : nat }.
Definition no_getters : getters := {| returned := []; runs := 0 |}.
Definition max_runs : nat := 1000.

(** [o ? o + "." + a : a]. *)
Definition dotted (o a : string) : string := if String.eqb o EmptyString then a else o +:+ "." +:+ a.

(** What a path leads to: data, or a getter and the rest of the path. The functions
    of the default theme use nothing of an object they read. *)
Inductive place := Data (r : result jsval) | Getter (name : string) (f : prog) (rest : list string).
Fixpoint walk (t : tree) (name : string) (ks : list string) : place :=
  match t with
  | TVal v => Data (js_path ks v)
  | TFun f => Getter name f ks
  | TObj l =>
      match ks with
      | [] => Data (Ok (JsObj []))
      | k :: ks => match (fix find l := match l with [] => None | (k', t') :: l => if String.eqb k k' then Some (walk t' (dotted name k) ks) else find l end) l with
                   | Some p => p
                   | None => Data (js_path ks JsUndef)
                   end
      end
  end.

Definition circular (name : string) : exn :=
  OtherError ("Theme probably contains circular dependency at " +:+ name).

Definition with_state (r : result jsval) (s : getters) : option (result (jsval * getters)) :=
  Some (match r with Ok v => Ok (v, s) | Raise e => Raise e end).

(** What reading the theme yields: [None] only when the fuel is used up. *)
Definition outcome (A : Type) : Type := option (result (A * getters)).

(** A function of the theme, given how an entry is read. *)
Fixpoint run (read : list string → getters → outcome jsval) (p : prog) (s : getters) : outcome jsval :=
  match p with
  | Ret v => Some (Ok (v, s))
  | Throw e => Some (Raise e)
  | Read path k => match read path s with Some (Ok (v, s)) => run read (k v) s | r => r end
  end.

(** Reading a path of the theme. *)
Fixpoint eval (fuel : nat) (root : tree) (path : list string) (s : getters) : outcome jsval :=
  match fuel with
  | O => None
  | S fuel =>
      match walk root EmptyString path with
      | Data r => with_state r s
      | Getter name f rest =>
          let old := default JsUndef (lookup_key name (returned s)) in
          if js_truthy old then with_state (js_path rest old) s
          else
            let n := S (runs s) in
            if (max_runs <? n)%nat then Some (Raise (circular name))
            else
              match run (eval fuel root) f {| returned := returned s; runs := n |} with
              | Some (Ok (v, s)) =>
                  with_state (js_path rest v) {| returned := set_key name v (returned s); runs := runs s |}
              | r => r
              end
      end
  end.

(** ** [JSON.parse(JSON.stringify(e))] *)

Fixpoint json (v : jsval) : option jsval :=
  match v with
  | JsUndef => None
  | JsNum x => Some (match x with S754_finite _ _ _ => JsNum x | S754_zero _ => JsNum (of_Z 0) | _ => JsNull end)
  | JsArr l => Some (JsArr ((λ v, default JsNull (json v)) <$> l))
  | JsObj l => Some (JsObj (omap (λ '(k, v), (λ w, (k, w)) <$> json v) l))
  | v => Some v
  end.

Definition fuel_of_theme : nat := S max_runs.

(** The entries of an object in order; what is undefined is left out. *)
Section entries.
Context (f : string → tree → getters → outcome (option jsval)).
Fixpoint entries (l : list (string * tree)) (acc : list (string * jsval)) (s : getters) : outcome (option jsval) :=
  match l with
  | [] => Some (Ok (Some (JsObj acc), s))
  | (k, t) :: l =>
      match f k t s with
      | Some (Ok (v, s)) => entries l (acc ++ match v with Some w => [(k, w)] | None => [] end) s
      | r => r
      end
  end.
End entries.

(** A theme with every getter called. *)
Fixpoint stringify (root : tree) (path : list string) (t : tree) (s : getters) : outcome (option jsval) :=
  match t with
  | TVal v => Some (Ok (json v, s))
  | TFun _ =>
      match eval fuel_of_theme root path s with
      | Some (Ok (v, s)) => Some (Ok (json v, s))
      | Some (Raise e) => Some (Raise e)
      | None => None
      end
  | TObj l => entries (λ k t, stringify root (path ++ [k]) t) l [] s
  end.

(** The keys of null are asked for: an error. *)
Fixpoint has_null (v : jsval) : bool :=
  match v with
  | JsNull => true
  | JsArr l => existsb has_null l
  | JsObj l => existsb (has_null ∘ snd) l
  | _ => false
  end.
Fixpoint tree_has_null (t : tree) : bool :=
  match t with
  | TVal v => has_null v
  | TFun _ => false
  | TObj l => existsb (tree_has_null ∘ snd) l
  end.

(** [this.theme = function (e) {…}(…)]. *)
Definition resolve (e : tree) : option (result jsval) :=
  if tree_has_null e then Some (Raise TypeError)
  else match stringify e [] e no_getters with
       | Some (Ok (v, _)) => Some (Ok (default JsUndef v))
       | Some (Raise e) => Some (Raise e)
       | None => None
       end.

(** ** The default theme *)

Section default_theme.
(** [Math.pow]. *)
Context (pow : num → num → num).

Definition str (s : string) : tree := TVal (JsStr s).
Definition copy (path : list string) : tree := TFun (Read path Ret).
Definition call1 (f : jsval → result jsval) (path : list string) : tree := TFun (Read path (λ v, ret (f v))).
Definition call2 (f : jsval → jsval → result jsval) (a b : list string) : tree :=
  TFun (Read a (λ v, Read b (λ w, ret (f v w)))).

Local Open Scope string_scope.

Definition tonal : list string := ["colors"; "tonalOffset"].
Definition colours_of (name main : string) (tint : Z) (contrast : tree) : tree :=
  let path := ["colors"; name; "main"] in
  TObj [("main", str main); ("light", call2 (λ a b, Hr (if (tint =? 1)%Z then a else times tint a) b) tonal path);
        ("dark", call2 Ur tonal path); ("contrastText", contrast)].

Definition theme_colors : tree := TObj [
  ("tonalOffset", TVal (decimal 2 1));
  ("primary", colours_of "primary" "#32329f" 1 (call1 (Qr pow) ["colors"; "primary"; "main"]));
  ("success", colours_of "success" "#1d8127" 2 (call1 (Qr pow) ["colors"; "success"; "main"]));
  ("warning", colours_of "warning" "#ffa500" 1 (str "#ffffff"));
  ("error", colours_of "error" "#d41f1c" 1 (call1 (Qr pow) ["colors"; "error"; "main"]));
  ("gray", TObj [("50", str "#FAFAFA"); ("100", str "#F5F5F5")]);
  ("text", TObj [("primary", str "#333333"); ("secondary", call2 Hr tonal ["colors"; "text"; "primary"])]);
  ("border", TObj [("dark", str "rgba(0,0,0, 0.1)"); ("light", str "#ffffff")]);
  ("responses", TObj [
    ("success", TObj [("color", copy ["colors"; "success"; "main"]);
                      ("backgroundColor", call1 (Kr (decimal 93 2)) ["colors"; "success"; "main"]);
                      ("tabTextColor", copy ["colors"; "responses"; "success"; "color"])]);
    ("error", TObj [("color", copy ["colors"; "error"; "main"]);
                    ("backgroundColor", call1 (Kr (decimal 93 2)) ["colors"; "error"; "main"]);
                    ("tabTextColor", copy ["colors"; "responses"; "error"; "color"])]);
    ("redirect", TObj [("color", copy ["colors"; "warning"; "main"]);
                       ("backgroundColor", call1 (Kr (decimal 9 1)) ["colors"; "responses"; "redirect"; "color"]);
                       ("tabTextColor", copy ["colors"; "responses"; "redirect"; "color"])]);
    ("info", TObj [("color", str "#87ceeb");
                   ("backgroundColor", call1 (Kr (decimal 9 1)) ["colors"; "responses"; "info"; "color"]);
                   ("tabTextColor", copy ["colors"; "responses"; "info"; "color"])])]);
  ("http", TObj [("get", str "#2F8132"); ("post", str "#186FAF"); ("put", str "#95507c"); ("options", str "#947014");
                 ("patch", str "#bf581d"); ("delete", str "#cc3333"); ("basic", str "#707070"); ("link", str "#07818F");
                 ("head", str "#A23DAD")])].

Definition theme_schema : tree := TObj [
  ("linesColor", TFun (Read tonal (λ a, Read tonal (λ b, Read ["colors"; "primary"; "main"] (λ c, ret (d ← qr b c; Hr a d))))));
  ("defaultDetailsWidth", str "75%");
  ("typeNameColor", copy ["colors"; "text"; "secondary"]);
  ("typeTitleColor", copy ["schema"; "typeNameColor"]);
  ("requireLabelColor", copy ["colors"; "error"; "main"]);
  ("labelsTextSize", str "0.9em"); ("nestingSpacing", str "1em"); ("nestedBackground", str "#fafafa");
  ("arrow", TObj [("size", str "1.1em"); ("color", copy ["colors"; "text"; "secondary"])])].

Definition theme_typography : tree := TObj [
  ("fontSize", str "14px"); ("lineHeight", str "1.5em"); ("fontWeightRegular", str "400"); ("fontWeightBold", str "600");
  ("fontWeightLight", str "300"); ("fontFamily", str "Roboto, sans-serif"); ("smoothing", str "antialiased");
  ("optimizeSpeed", TVal (JsBool true));
  ("headings", TObj [("fontFamily", str "Montserrat, sans-serif"); ("fontWeight", str "400"); ("lineHeight", str "1.6em")]);
  ("code", TObj [("fontSize", str "13px"); ("fontFamily", str "Courier, monospace");
                 ("lineHeight", copy ["typography"; "lineHeight"]); ("fontWeight", copy ["typography"; "fontWeightRegular"]);
                 ("color", str "#e53935"); ("backgroundColor", str "rgba(38, 50, 56, 0.05)"); ("wrap", TVal (JsBool false))]);
  ("links", TObj [("color", copy ["colors"; "primary"; "main"]); ("visited", copy ["typography"; "links"; "color"]);
                  ("hover", call1 (Hr (decimal 2 1)) ["typography"; "links"; "color"]);
                  ("textDecoration", str "auto"); ("hoverTextDecoration", str "auto")])].

Definition theme_sidebar : tree := TObj [
  ("width", str "260px"); ("backgroundColor", str "#fafafa"); ("textColor", str "#333333");
  ("activeTextColor", TFun (Read ["sidebar"; "textColor"] (λ a,
     if negb (is_str "#333333" a) then Read ["sidebar"; "textColor"] Ret else Read ["colors"; "primary"; "main"] Ret)));
  ("groupItems", TObj [("activeBackgroundColor", call1 (Ur (decimal 1 1)) ["sidebar"; "backgroundColor"]);
                       ("activeTextColor", copy ["sidebar"; "activeTextColor"]); ("textTransform", str "uppercase")]);
  ("level1Items", TObj [("activeBackgroundColor", call1 (Ur (decimal 5 2)) ["sidebar"; "backgroundColor"]);
                        ("activeTextColor", copy ["sidebar"; "activeTextColor"]); ("textTransform", str "none")]);
  ("arrow", TObj [("size", str "1.5em"); ("color", copy ["sidebar"; "textColor"])])].

(** [Zr]. *)
Definition Zr : tree := TObj [
  ("spacing", TObj [("unit", TVal (JsNum (of_Z 5)));
                    ("sectionHorizontal", TFun (Read ["spacing"; "unit"] (λ v, Ret (times 8 v))));
                    ("sectionVertical", TFun (Read ["spacing"; "unit"] (λ v, Ret (times 8 v))))]);
  ("breakpoints", TObj [("small", str "50rem"); ("medium", str "75rem"); ("large", str "105rem")]);
  ("colors", theme_colors); ("schema", theme_schema); ("typography", theme_typography); ("sidebar", theme_sidebar);
  ("logo", TObj [("maxHeight", copy ["sidebar"; "width"]); ("maxWidth", copy ["sidebar"; "width"]); ("gutter", str "2px")]);
  ("rightPanel", TObj [
    ("backgroundColor", str "#263238"); ("width", str "40%"); ("textColor", str "#ffffff");
    ("servers", TObj [("overlay", TObj [("backgroundColor", str "#fafafa"); ("textColor", str "#263238")]);
                      ("url", TObj [("backgroundColor", str "#fff")])])]);
  ("codeBlock", TObj [("backgroundColor", call1 (Ur (decimal 1 1)) ["rightPanel"; "backgroundColor"])]);
  ("fab", TObj [("backgroundColor", str "#f2f2f2"); ("color", str "#0065FB")])].

(** The theme of the page: the old names of two entries, and the extension hook
    taken out. *)
Definition renamed (old new : string) (l : list (string * jsval)) : list (string * jsval) :=
  let has k := js_truthy (default JsUndef (lookup_key k l)) in
  if has old && negb (has new) then set_key new (default JsUndef (lookup_key old l)) l else l.
Definition page_theme (user : jsval) : jsval :=
  match user with
  | JsObj l => JsObj (set_key "extensionsHook" JsUndef (renamed "codeSample" "codeBlock" (renamed "menu" "sidebar" l)))
  | _ => JsObj [("extensionsHook", JsUndef)]
  end.

(** [this.theme] of the options. *)
Definition theme_of (user : jsval) : option (result jsval) :=
  resolve (ci (ci (TObj []) Zr) (of_data (page_theme user))).
End default_theme.

(** ** Resolution ends *)

(** What is left to run: the getters run at most [max_runs] times. *)
Definition within (s : getters) : Prop := (runs s ≤ max_runs)%nat.
Definition ends {A} (s : getters) (r : outcome A) : Prop :=
  match r with
  | None => False
  | Some (Raise _) => True
  | Some (Ok (_, s')) => (runs s ≤ runs s')%nat ∧ within s'
  end.

Lemma ends_with_state r s s' : (runs s ≤ runs s')%nat → within s' → ends s (with_state r s').
Proof. by destruct r. Qed.

Lemma run_ends n read p s :
  (∀ path s, (n ≤ runs s)%nat → within s → ends s (read path s)) → (n ≤ runs s)%nat → within s → ends s (run read p s).
Proof.
  intros Hread. revert s. induction p as [v|e|path k IH]; intros s Hn Hs; [done|done|]. cbn.
  pose proof (Hread path s Hn Hs) as H. destruct (read path s) as [[[v s']|e]|]; [|done|done]. destruct H as [Hle Hs'].
  pose proof (IH v s' ltac:(lia) Hs') as H. destruct (run read (k v) s') as [[[w s2]|e]|]; [|done|done].
  destruct H as [? ?]. split; [lia|done].
Qed.

Lemma eval_ends fuel root path s : within s → (max_runs < fuel + runs s)%nat → ends s (eval fuel root path s).
Proof.
  revert path s. induction fuel as [|fuel IH]; intros path s Hs Hf; [unfold within in Hs; lia|]. cbn [eval].
  destruct (walk root EmptyString path) as [r|name f rest]; [by apply ends_with_state|].
  destruct (js_truthy _); [by apply ends_with_state|]. destruct (Nat.ltb_spec max_runs (S (runs s))) as [|Hn]; [done|].
  pose proof (run_ends (S (runs s)) (eval fuel root) f {| returned := returned s; runs := S (runs s) |}) as H.
  destruct (run _ _ _) as [[[v s']|e]|]; [|done|].
  - destruct H as [Hle Hs']; [|done|done|]; [intros p s1 ? ?; apply IH; [done|lia]|]. apply ends_with_state; cbn in *; [lia|done].
  - apply H; [|done|done]. intros p s1 ? ?. apply IH; [done|lia].
Qed.

Lemma stringify_ends root path t s : within s → ends s (stringify root path t s).
Proof.
  revert path s. induction t as [v|f|l IH] using tree_ind; intros path s Hs; [done| |].
  - cbn [stringify]. pose proof (eval_ends fuel_of_theme root path s Hs) as H.
    destruct (eval _ _ _ _) as [[[v s']|e]|]; [apply H; unfold fuel_of_theme; lia|done|apply H; unfold fuel_of_theme; lia].
  - cbn [stringify]. generalize (@nil (string * jsval)). revert s Hs.
    induction IH as [|[k t] l Ht _ IHl]; intros s Hs acc; [done|]. cbn [snd] in Ht. cbn [entries].
    pose proof (Ht (path ++ [k]) s Hs) as H. destruct (stringify root (path ++ [k]) t s) as [[[v s']|e]|]; [|done|done].
    destruct H as [Hle Hs']. cbn [entries]. pose proof (IHl s' Hs' (acc ++ match v with Some w => [(k, w)] | None => [] end)) as H.
    destruct (entries _ l _ s') as [[[w s2]|e]|]; [|done|done]. destruct H. split; [lia|done].
Qed.

(** Making the theme of the options ends for every theme, whatever its
    functions read and however they depend on each other: either a theme without
    functions is made or an error is thrown, such as the one for circular
    dependencies after 1000 runs of getters. *)
Theorem resolve_ends (e : tree) : resolve e ≠ None.
Proof.
  unfold resolve. destruct (tree_has_null e); [done|]. pose proof (stringify_ends e [] e no_getters) as H.
  destruct (stringify _ _ _ _) as [[[v s]|x]|]; [done|done|]. exfalso. apply H. unfold within. cbn. lia.
Qed.

(** An entry of the theme that was computed is remembered: reading it once
    more gives the value it had, and no getter runs. *)
Theorem eval_again fuel root path name f s v s' :
  walk root EmptyString path = Getter name f [] → eval fuel root path s = Some (Ok (v, s')) → js_truthy v = true →
  ∀ fuel', eval (S fuel') root path s' = Some (Ok (v, s')).
Proof.
  intros Hw He Hv fuel'. cbn [eval]. rewrite Hw. destruct fuel as [|fuel]; [done|]. cbn [eval] in He. rewrite Hw in He.
  destruct (js_truthy (default JsUndef (lookup_key name (returned s)))) eqn:Et; [by injection He as <- <-; rewrite Et|].
  destruct (_ <? _)%nat; [done|]. destruct (run _ _ _) as [[[w s2]|]|]; [|done|done]. injection He as <- <-.
  cbn. rewrite set_key_lookup. cbn. by rewrite Hv.
Qed.

(** ** The merge *)

Definition entry (k : string) (t : tree) : option tree := match t with TObj l => lookup_key k l | _ => None end.
Definition merged_entry (old new : option tree) : option tree :=
  match new with
  | Some (TObj w) => Some (ci (object_at old) (TObj w))
  | Some w => Some w
  | None => old
  end.

(** The theme of the page wins over the default theme entry by entry: a key
    the page does not give keeps the default, an entry of the page that is no
    object replaces the default, an object is merged into what the default has. *)
Theorem ci_lookup k le ln :
  NoDup (fst <$> ln) → entry k (ci (TObj le) (TObj ln)) = merged_entry (lookup_key k le) (lookup_key k ln).
Proof.
  intros Hn. cbn [ci entry]. revert le. induction ln as [|[k' w] ln IH]; intros le; [done|].
  apply NoDup_cons in Hn as [Hk Hn]. cbn [fst] in Hk. cbn [merge_entries lookup_key]. rewrite IH by done.
  destruct (String.eqb_spec k k') as [->|Hkk]; [|by rewrite set_key_other].
  rewrite set_key_lookup, (lookup_key_notin k' ln Hk). by destruct w.
Qed.
Lemma ci_lookup_witness :
  let le := [("logo", TObj [("gutter", TVal (JsNum (of_Z 2)))])]%string in
  let ln := [("logo", TObj [("maxHeight", TVal (JsNum (of_Z 5)))]); ("codeBlock", TVal (JsStr "none"))]%string in
  NoDup (fst <$> ln) ∧ entry "logo" (ci (TObj le) (TObj ln)) = merged_entry (lookup_key "logo" le) (lookup_key "logo" ln).
Proof.
  intros le ln. assert (NoDup (fst <$> ln)) as H by (apply (bool_decide_unpack _); vm_compute; exact I).
  split; [exact H|]. apply (ci_lookup "logo" le ln H).
Defined.
