(* ===== verification/RedocLayout.v ===== *)
(** * Styles of the documentation viewer: layout and tables

    The styled components of redoc.standalone.js from the error box ([ka]) to the
    wrapper of samples ([fp]): page layout, headings, links, icons, badges, the
    table of properties. One definition per template, with the pieces of text
    between its interpolations as they are in the source. *)

From S2P Require Import Prelude PyData JsNumber JsData Color Css CssBraces StyleNames.
Local Open Scope Z_scope.
Local Open Scope string_scope.

Definition ka : component := sa 1 (inl (Html "div")) [] [txt "
  padding: 20px;
  color: red;
"].

Definition Oa : css := keyframes "
  0% {
    transform: rotate(0deg); }
  100% {
    transform: rotate(360deg);
  }
".

Definition Ea : component := sa 2 (inl (Element "svg")) [] [txt "
  animation: 2s "; Oa; txt " linear infinite;
  width: 50px;
  height: 50px;
  content: '';
  display: inline-block;
  margin-left: -25px;

  path {
    fill: "; fn (λ p, CVal <$> js_get "color" p); txt ";
  }
"].

Definition _a : component := sa 3 (inl (Html "div")) [] [txt "
  font-family: helvetica, sans;
  width: 100%;
  text-align: center;
  font-size: 25px;
  margin: 30px 0 20px 0;
  color: "; fn (λ p, CVal <$> js_get "color" p); txt ";
"].

Definition Iu : component := sa 4 (inl (Html "div")) [] [txt "
  width: calc(100% - "; theme ["rightPanel"; "width"]; txt ");
  padding: 0 "; theme ["spacing"; "sectionHorizontal"]; txt "px;

  "; fn (λ p,
      e ← js_get "$compact" p;
      v ← (if js_truthy e then Ok (JsNum (of_Z 0)) else js_path ["theme"; "spacing"; "sectionVertical"] p);
      w ← js_path ["theme"; "spacing"; "sectionHorizontal"] p;
      Ok (lessThan "medium" true EmptyString [txt "
    width: 100%;
    padding: "; CVal (template [v; JsStr "px "; w; JsStr "px"]); txt ";
  "])); txt ";
"].

Definition Ru : component := sa 5 (inl (Html "div")) [λ p, v ← js_get "id" p; Ok (JsObj [("data-section-id", v)])] [txt "
  padding: "; theme ["spacing"; "sectionVertical"]; txt "px 0;

  &:last-child {
    min-height: calc(100vh + 1px);
  }

  & > &:last-child {
    min-height: initial;
  }

  "; lessThan "medium" true EmptyString [txt "
    padding: 0;
  "]; txt "
  "; choose "$underlined" (txt "
    position: relative;

    &:not(:last-of-type):after {
      position: absolute;
      bottom: 0;
      width: 100%;
      display: block;
      content: '';
      border-bottom: 1px solid rgba(0, 0, 0, 0.2);
    }
  ") (txt EmptyString); txt "
"].

Definition Nu : component := sa 6 (inl (Html "div")) [] [txt "
  width: "; theme ["rightPanel"; "width"]; txt ";
  color: "; theme ["rightPanel"; "textColor"]; txt ";
  background-color: "; theme ["rightPanel"; "backgroundColor"]; txt ";
  padding: 0 "; theme ["spacing"; "sectionHorizontal"]; txt "px;

  "; lessThan "medium" true EmptyString [txt "
    width: 100%;
    padding: "; fn (λ p,
      v1 ← js_path ["theme"; "spacing"; "sectionVertical"] p;
      v2 ← js_path ["theme"; "spacing"; "sectionHorizontal"] p;
      Ok (CVal (template [v1; JsStr "px "; v2; JsStr "px"]))); txt ";
  "]; txt ";
"].

Definition S_u : component := sa 7 (inr Nu) [] [txt "
  background-color: "; theme ["rightPanel"; "backgroundColor"]; txt ";
"].

Definition Lu : component := sa 8 (inl (Html "div")) [] [txt "
  display: flex;
  width: 100%;
  padding: 0;

  "; lessThan "medium" true EmptyString [txt "
    flex-direction: column;
  "]; txt ";
"].

(** Sizes of headings. *)
Definition Du (e : Z) : jsval :=
  JsStr (if (e =? 1)%Z then "1.85714em" else if (e =? 2)%Z then "1.57143em" else "1.27em").

Definition Mu (e : Z) : css := CList (Yo [txt "
  font-family: "; theme ["typography"; "headings"; "fontFamily"]; txt ";
  font-weight: "; theme ["typography"; "headings"; "fontWeight"]; txt ";
  font-size: "; CVal (Du e); txt ";
  line-height: "; theme ["typography"; "headings"; "lineHeight"]; txt ";
"]).

Definition Fu : component := sa 9 (inl (Html "h1")) [] [txt "
  "; Mu 1; txt ";
  color: "; theme ["colors"; "text"; "primary"]; txt ";

  "; wa "H1"; txt ";
"].

Definition zu : component := sa 10 (inl (Html "h2")) [] [txt "
  "; Mu 2; txt ";
  color: "; theme ["colors"; "text"; "primary"]; txt ";
  margin: 0 0 20px;

  "; wa "H2"; txt ";
"].

Definition Uu : component := sa 11 (inl (Html "h2")) [] [txt "
  "; Mu 3; txt ";
  color: "; theme ["colors"; "text"; "primary"]; txt ";

  "; wa "H3"; txt ";
"].

Definition Bu : component := sa 12 (inl (Html "h3")) [] [txt "
  color: "; theme ["rightPanel"; "textColor"]; txt ";

  "; wa "RightPanelHeader"; txt ";
"].

Definition qu : component := sa 13 (inl (Html "h5")) [] [txt "
  border-bottom: 1px solid rgba(38, 50, 56, 0.3);
  margin: 1em 0 1em 0;
  color: rgba(38, 50, 56, 0.5);
  font-weight: normal;
  text-transform: uppercase;
  font-size: 0.929em;
  line-height: 20px;

  "; wa "UnderlinedHeader"; txt ";
"].

Definition Gu (e : string) : css := CList (Yo [txt "
  "; txt e; txt " {
    cursor: pointer;
    margin-left: -20px;
    padding: 0;
    line-height: 1;
    width: 20px;
    display: inline-block;
    outline: 0;
  }
  "; txt e; txt ":before {
    content: '';
    width: 15px;
    height: 15px;
    background-size: contain;
    background-image: url('data:image/svg+xml;base64,PHN2ZyB4bWxucz0iaHR0cDovL3d3dy53My5vcmcvMjAwMC9zdmciIHZlcnNpb249IjEuMSIgeD0iMCIgeT0iMCIgd2lkdGg9IjUxMiIgaGVpZ2h0PSI1MTIiIHZpZXdCb3g9IjAgMCA1MTIgNTEyIiBlbmFibGUtYmFja2dyb3VuZD0ibmV3IDAgMCA1MTIgNTEyIiB4bWw6c3BhY2U9InByZXNlcnZlIj48cGF0aCBmaWxsPSIjMDEwMTAxIiBkPSJNNDU5LjcgMjMzLjRsLTkwLjUgOTAuNWMtNTAgNTAtMTMxIDUwLTE4MSAwIC03LjktNy44LTE0LTE2LjctMTkuNC0yNS44bDQyLjEtNDIuMWMyLTIgNC41LTMuMiA2LjgtNC41IDIuOSA5LjkgOCAxOS4zIDE1LjggMjcuMiAyNSAyNSA2NS42IDI0LjkgOTAuNSAwbDkwLjUtOTAuNWMyNS0yNSAyNS02NS42IDAtOTAuNSAtMjQuOS0yNS02NS41LTI1LTkwLjUgMGwtMzIuMiAzMi4yYy0yNi4xLTEwLjItNTQuMi0xMi45LTgxLjYtOC45bDY4LjYtNjguNmM1MC01MCAxMzEtNTAgMTgxIDBDNTA5LjYgMTAyLjMgNTA5LjYgMTgzLjQgNDU5LjcgMjMzLjR6TTIyMC4zIDM4Mi4ybC0zMi4yIDMyLjJjLTI1IDI0LjktNjUuNiAyNC45LTkwLjUgMCAtMjUtMjUtMjUtNjUuNiAwLTkwLjVsOTAuNS05MC41YzI1LTI1IDY1LjUtMjUgOTAuNSAwIDcuOCA3LjggMTIuOSAxNy4yIDE1LjggMjcuMSAyLjQtMS40IDQuOC0yLjUgNi44LTQuNWw0Mi4xLTQyYy01LjQtOS4yLTExLjYtMTgtMTkuNC0yNS44IC01MC01MC0xMzEtNTAtMTgxIDBsLTkwLjUgOTAuNWMtNTAgNTAtNTAgMTMxIDAgMTgxIDUwIDUwIDEzMSA1MCAxODEgMGw2OC42LTY4LjZDMjc0LjYgMzk1LjEgMjQ2LjQgMzkyLjMgMjIwLjMgMzgyLjJ6Ii8+PC9zdmc+Cg==');
    opacity: 0.5;
    visibility: hidden;
    display: inline-block;
    vertical-align: middle;
  }

  h1:hover > "; txt e; txt "::before, h2:hover > "; txt e; txt "::before, "; txt e; txt ":hover::before {
    visibility: visible;
  }
"]).

Definition Qu : component := sa 14 (inl (Element "a")) [] [txt "
  "; Gu "&"; txt ";
"].

(** Rotations of the arrow. *)
Definition Ku (v : jsval) : jsval :=
  default JsUndef (lookup_key (js_string v)
    [("left", JsStr "90deg"); ("right", JsStr "-90deg"); ("up", JsStr "-180deg"); ("down", JsStr "0")]).

Definition Zu : component := sa 15 (inl (Element "svg")) [] [txt "
  height: "; either "size" "18px"; txt ";
  width: "; either "size" "18px"; txt ";
  min-width: "; either "size" "18px"; txt ";
  vertical-align: middle;
  float: "; either "float" EmptyString; txt ";
  transition: transform 0.2s ease-out;
  transform: rotateZ("; fn (λ p, v ← js_get "direction" p; Ok (CVal (Ku (js_or v (JsStr "down"))))); txt ");

  polygon {
    fill: "; fn (λ p,
      e ← js_get "color" p;
      if js_truthy e then
        r ← js_path ["theme"; "colors"; "responses"] p;
        x ← js_get (js_string e) r;
        if js_truthy x then c ← js_get "color" x; Ok (CVal (js_or c e)) else Ok (CVal e)
      else Ok (CVal e)); txt ";
  }
"].

Definition Ju : component := sa 16 (inl (Html "span")) [] [txt "
  display: inline-block;
  padding: 2px 8px;
  margin: 0;
  background-color: "; fn (λ p, c ← js_path ["theme"; "colors"] p; t ← js_get "type" p; x ← js_get (js_string t) c; CVal <$> js_get "main" x); txt ";
  color: "; fn (λ p, c ← js_path ["theme"; "colors"] p; t ← js_get "type" p; x ← js_get (js_string t) c; CVal <$> js_get "contrastText" x); txt ";
  font-size: "; theme ["typography"; "code"; "fontSize"]; txt ";
  vertical-align: middle;
  line-height: 1.6;
  border-radius: 4px;
  font-weight: "; theme ["typography"; "fontWeightBold"]; txt ";
  font-size: 12px;
  + span[type] {
    margin-left: 4px;
  }
"].

Definition ep : css := CList (Yo [txt "
  text-decoration: line-through;
  color: #707070;
"]).

Definition tp : component := sa 17 (inl (Html "caption")) [] [txt "
  text-align: right;
  font-size: 0.9em;
  font-weight: normal;
  color: "; theme ["colors"; "text"; "secondary"]; txt ";
"].

Definition np : component := sa 18 (inl (Html "td")) [] [txt "
  border-left: 1px solid "; theme ["schema"; "linesColor"]; txt ";
  box-sizing: border-box;
  position: relative;
  padding: 10px 10px 10px 0;

  "; lessThan "small" false EmptyString [txt "
    display: block;
    overflow: hidden;
  "]; txt "

  tr:first-of-type > &,
  tr.last > & {
    border-left-width: 0;
    background-position: top left;
    background-repeat: no-repeat;
    background-size: 1px 100%;
  }

  tr:first-of-type > & {
    background-image: linear-gradient(
      to bottom,
      transparent 0%,
      transparent 22px,
      "; theme ["schema"; "linesColor"]; txt " 22px,
      "; theme ["schema"; "linesColor"]; txt " 100%
    );
  }

  tr.last > & {
    background-image: linear-gradient(
      to bottom,
      "; theme ["schema"; "linesColor"]; txt " 0%,
      "; theme ["schema"; "linesColor"]; txt " 22px,
      transparent 22px,
      transparent 100%
    );
  }

  tr.last + tr > & {
    border-left-color: transparent;
  }

  tr.last:first-child > & {
    background: none;
    border-left-color: transparent;
  }
"].

Definition rp : component := sa 19 (inr np) [] [txt "
  padding: 0;
"].

Definition ip : component := sa 20 (inr np) [] [txt "
  vertical-align: top;
  line-height: 20px;
  white-space: nowrap;
  font-size: 13px;
  font-family: "; theme ["typography"; "code"; "fontFamily"]; txt ";

  &.deprecated {
    "; ep; txt ";
  }

  "; fn (λ p, e ← js_get "kind" p;
      Ok (if is_str "patternProperties" e then CList (Yo [txt "
      > span.property-name {
        display: inline-table;
        white-space: break-spaces;
        margin-right: 20px;

        ::before,
        ::after {
          content: '/';
          filter: opacity(0.2);
        }
      }
    "]) else CVal (JsBool false))); txt "

  "; fn (λ p, e ← js_get "kind" p;
      Ok (if is_str "field" e || is_str "additionalProperties" e || is_str "patternProperties" e then txt EmptyString
          else txt "font-style: italic")); txt ";

  "; wa "PropertyNameCell"; txt ";
"].

Definition op : component := sa 21 (inl (Html "td")) [] [txt "
  border-bottom: 1px solid #9fb4be;
  padding: 10px 0;
  width: "; theme ["schema"; "defaultDetailsWidth"]; txt ";
  box-sizing: border-box;

  tr.expanded & {
    border-bottom: none;
  }

  "; lessThan "small" false EmptyString [txt "
    padding: 0 20px;
    border-bottom: none;
    border-left: 1px solid "; theme ["schema"; "linesColor"]; txt ";

    tr.last > & {
      border-left: none;
    }
  "]; txt "

  "; wa "PropertyDetailsCell"; txt ";
"].

Definition ap : component := sa 22 (inl (Html "span")) [] [txt "
  color: "; theme ["schema"; "linesColor"]; txt ";
  font-family: "; theme ["typography"; "code"; "fontFamily"]; txt ";
  margin-right: 10px;

  &::before {
    content: '';
    display: inline-block;
    vertical-align: middle;
    width: 10px;
    height: 1px;
    background: "; theme ["schema"; "linesColor"]; txt ";
  }

  &::after {
    content: '';
    display: inline-block;
    vertical-align: middle;
    width: 1px;
    background: "; theme ["schema"; "linesColor"]; txt ";
    height: 7px;
  }
"].

Definition sp : component := sa 23 (inl (Html "div")) [] [txt "
  padding: "; theme ["schema"; "nestingSpacing"]; txt ";
"].

Definition lp : component := sa 24 (inl (Html "table")) [] [txt "
  border-collapse: separate;
  border-radius: 3px;
  font-size: "; theme ["typography"; "fontSize"]; txt ";

  border-spacing: 0;
  width: 100%;

  > tr {
    vertical-align: middle;
  }

  "; lessThan "small" false EmptyString [txt "
    display: block;
    > tr, > tbody > tr {
      display: block;
    }
  "]; txt "

  "; lessThan "small" false " and (-ms-high-contrast:none)" [txt "
    td {
      float: left;
      width: 100%;
    }
  "]; txt "

  &
    "; selector sp; txt ",
    &
    "; selector sp; txt "
    "; selector sp; txt "
    "; selector sp; txt ",
    &
    "; selector sp; txt "
    "; selector sp; txt "
    "; selector sp; txt "
    "; selector sp; txt "
    "; selector sp; txt " {
    margin: "; theme ["schema"; "nestingSpacing"]; txt ";
    margin-right: 0;
    background: "; theme ["schema"; "nestedBackground"]; txt ";
  }

  &
    "; selector sp; txt "
    "; selector sp; txt ",
    &
    "; selector sp; txt "
    "; selector sp; txt "
    "; selector sp; txt "
    "; selector sp; txt ",
    &
    "; selector sp; txt "
    "; selector sp; txt "
    "; selector sp; txt "
    "; selector sp; txt "
    "; selector sp; txt "
    "; selector sp; txt " {
    background: #ffffff;
  }
"].

Definition cp : component := sa 25 (inl (Html "div")) [] [txt "
  margin: 0 0 3px 0;
  display: inline-block;
"].

Definition up : component := sa 26 (inl (Html "span")) [] [txt "
  font-size: 0.9em;
  margin-right: 10px;
  color: "; theme ["colors"; "primary"; "main"]; txt ";
  font-family: "; theme ["typography"; "headings"; "fontFamily"]; txt ";
}
"].

Definition pp : component := sa 27 (inl (Html "button")) [] [txt "
  display: inline-block;
  margin-right: 10px;
  margin-bottom: 5px;
  font-size: 0.8em;
  cursor: pointer;
  border: 1px solid "; theme ["colors"; "primary"; "main"]; txt ";
  padding: 2px 10px;
  line-height: 1.5em;
  outline: none;
  &:focus {
    box-shadow: 0 0 0 1px "; theme ["colors"; "primary"; "main"]; txt ";
  }

  "; choose "$deprecated" ep (txt EmptyString); txt ";

  "; fn (λ p,
      a ← js_get "$active" p;
      if js_truthy a then
        m ← js_path ["theme"; "colors"; "primary"; "main"] p;
        d ← Ur (decimal 15 2) m;
        Ok (CVal (template [JsStr "
      color: white;
      background-color: "; m; JsStr ";
      &:focus {
        box-shadow: none;
        background-color: "; d; JsStr ";
      }
      "]))
      else
        m ← js_path ["theme"; "colors"; "primary"; "main"] p;
        Ok (CVal (template [JsStr "
        color: "; m; JsStr ";
        background-color: white;
      "]))); txt "
"].

Definition dp : component := sa 28 (inl (Html "div")) [] [txt "
  font-size: 0.9em;
  font-family: "; theme ["typography"; "code"; "fontFamily"]; txt ";
  &::after {
    content: ' [';
  }
"].

Definition fp : component := sa 29 (inl (Html "div")) [] [txt "
  font-size: 0.9em;
  font-family: "; theme ["typography"; "code"; "fontFamily"]; txt ";
  &::after {
    content: ']';
  }
"].

(** ** Facts *)

Lemma tame_Ku v : tame (Ku v) = true.
Proof. unfold Ku. cbn. by repeat case_match. Qed.
#[export] Hint Resolve tame_Ku : brace.
