(* ===== verification/RedocMarkdown.v ===== *)
(** * Styles of the documentation viewer: tabs, code and Markdown

    The styled components of redoc.standalone.js from the tabs ([Vp]) to the viewer
    of samples ([vh]). [qf] and [uh] wrap other components. *)

From S2P Require Import Prelude PyData JsNumber JsData Color Css CssBraces StyleNames RedocLayout.
Local Open Scope Z_scope.
Local Open Scope string_scope.

Definition Vp : component := sa 30 (inl (Element "Tabs")) [] [txt "
  > ul {
    list-style: none;
    padding: 0;
    margin: 0;
    margin: 0 -5px;

    > li {
      padding: 5px 10px;
      display: inline-block;

      background-color: "; theme ["codeBlock"; "backgroundColor"]; txt ";
      border-bottom: 1px solid rgba(0, 0, 0, 0.5);
      cursor: pointer;
      text-align: center;
      outline: none;
      color: "; fn (λ p, d ← js_path ["theme"; "colors"; "tonalOffset"] p; c ← js_path ["theme"; "rightPanel"; "textColor"] p; CVal <$> Ur d c); txt ";
      margin: 0
        "; fn (λ p, u ← js_path ["theme"; "spacing"; "unit"] p; Ok (CVal (template [u; JsStr "px "; u; JsStr "px "; u; JsStr "px"]))); txt ";
      border: 1px solid "; fn (λ p, c ← js_path ["theme"; "codeBlock"; "backgroundColor"] p; CVal <$> Ur (decimal 5 2) c); txt ";
      border-radius: 5px;
      min-width: 60px;
      font-size: 0.9em;
      font-weight: bold;

      &.react-tabs__tab--selected {
        color: "; theme ["colors"; "text"; "primary"]; txt ";
        background: "; theme ["rightPanel"; "textColor"]; txt ";
        &:focus {
          outline: auto;
        }
      }

      &:only-child {
        flex: none;
        min-width: 100px;
      }

      &.tab-success {
        color: "; theme ["colors"; "responses"; "success"; "tabTextColor"]; txt ";
      }

      &.tab-redirect {
        color: "; theme ["colors"; "responses"; "redirect"; "tabTextColor"]; txt ";
      }

      &.tab-info {
        color: "; theme ["colors"; "responses"; "info"; "tabTextColor"]; txt ";
      }

      &.tab-error {
        color: "; theme ["colors"; "responses"; "error"; "tabTextColor"]; txt ";
      }
    }
  }
  > .react-tabs__tab-panel {
    background: "; theme ["codeBlock"; "backgroundColor"]; txt ";
    & > div,
    & > pre {
      padding: "; theme_times 4 ["spacing"; "unit"]; txt "px;
      margin: 0;
    }

    & > div > pre {
      padding: 0;
    }
  }
"].

Definition Vp_small : component := sa 31 (inr Vp) [] [txt "
  > ul {
    display: block;
    > li {
      padding: 2px 5px;
      min-width: auto;
      margin: 0 15px 0 0;
      font-size: 13px;
      font-weight: normal;
      border-bottom: 1px dashed;
      color: "; fn (λ p, d ← js_path ["theme"; "colors"; "tonalOffset"] p; c ← js_path ["theme"; "rightPanel"; "textColor"] p; CVal <$> Ur d c); txt ";
      border-radius: 0;
      background: none;

      &:last-child {
        margin-right: 0;
      }

      &.react-tabs__tab--selected {
        color: "; theme ["rightPanel"; "textColor"]; txt ";
        background: none;
      }
    }
  }
  > .react-tabs__tab-panel {
    & > div,
    & > pre {
      padding: "; theme_times 2 ["spacing"; "unit"]; txt "px 0;
    }
  }
"].

Definition Wp : component := sa 32 (inl (Html "div")) [] [txt "
  /**
  * Based on prism-dark.css
  */

  code[class*='language-'],
  pre[class*='language-'] {
    /* color: white;
    background: none; */
    text-shadow: 0 -0.1em 0.2em black;
    text-align: left;
    white-space: pre;
    word-spacing: normal;
    word-break: normal;
    word-wrap: normal;
    line-height: 1.5;

    -moz-tab-size: 4;
    -o-tab-size: 4;
    tab-size: 4;

    -webkit-hyphens: none;
    -moz-hyphens: none;
    -ms-hyphens: none;
    hyphens: none;
  }

  @media print {
    code[class*='language-'],
    pre[class*='language-'] {
      text-shadow: none;
    }
  }

  /* Code blocks */
  pre[class*='language-'] {
    padding: 1em;
    margin: 0.5em 0;
    overflow: auto;
  }

  .token.comment,
  .token.prolog,
  .token.doctype,
  .token.cdata {
    color: hsl(30, 20%, 50%);
  }

  .token.punctuation {
    opacity: 0.7;
  }

  .namespace {
    opacity: 0.7;
  }

  .token.property,
  .token.tag,
  .token.number,
  .token.constant,
  .token.symbol {
    color: #4a8bb3;
  }

  .token.boolean {
    color: #e64441;
  }

  .token.selector,
  .token.attr-name,
  .token.string,
  .token.char,
  .token.builtin,
  .token.inserted {
    color: #a0fbaa;
    & + a,
    & + a:visited {
      color: #4ed2ba;
      text-decoration: underline;
    }
  }

  .token.property.string {
    color: white;
  }

  .token.operator,
  .token.entity,
  .token.url,
  .token.variable {
    color: hsl(40, 90%, 60%);
  }

  .token.atrule,
  .token.attr-value,
  .token.keyword {
    color: hsl(350, 40%, 70%);
  }

  .token.regex,
  .token.important {
    color: #e90;
  }

  .token.important,
  .token.bold {
    font-weight: bold;
  }
  .token.italic {
    font-style: italic;
  }

  .token.entity {
    cursor: help;
  }

  .token.deleted {
    color: red;
  }

  "; wa "Prism"; txt ";
"].

Definition Hp : component := sa 33 (inl (Html "div")) [] [txt "
  opacity: 0.7;
  transition: opacity 0.3s ease;
  text-align: right;
  &:focus-within {
    opacity: 1;
  }
  > button {
    background-color: transparent;
    border: 0;
    color: inherit;
    padding: 2px 10px;
    font-family: "; theme ["typography"; "fontFamily"]; txt ";
    font-size: "; theme ["typography"; "fontSize"]; txt ";
    line-height: "; theme ["typography"; "lineHeight"]; txt ";
    cursor: pointer;
    outline: 0;

    :hover,
    :focus {
      background: rgba(255, 255, 255, 0.1);
    }
  }
"].

Definition Yp : component := sa 34 (inl (Html "div")) [] [txt "
  &:hover "; selector Hp; txt " {
    opacity: 1;
  }
"].

Definition Gp : component := sa 35 (inr Wp) [λ _, Ok (JsObj [("as", JsStr "pre")])] [txt "
  font-family: "; theme ["typography"; "code"; "fontFamily"]; txt ";
  font-size: "; theme ["typography"; "code"; "fontSize"]; txt ";
  overflow-x: auto;
  margin: 0;

  white-space: "; fn (λ p, w ← js_path ["theme"; "typography"; "code"; "wrap"] p; Ok (if_else w (txt "pre-wrap") (txt "pre"))); txt ";
"].

Definition _d (Ed : string) : list css := Yo [CVal (JsStr Ed)].

Definition Ad : component := sa 36 (inl (Html "div")) [] [txt "
  position: relative;
"].

Definition Pd : component := sa 37 (inl (Element "svg")) [] [txt "
  position: absolute;
  pointer-events: none;
  z-index: 1;
  top: 50%;
  -webkit-transform: translateY(-50%);
  -ms-transform: translateY(-50%);
  transform: translateY(-50%);
  right: 8px;
  margin: auto;
  text-align: center;
  polyline {
    color: "; fn (λ p, v ← js_get "variant" p; Ok (if is_str "dark" v then txt "white" else CVal (JsBool false))); txt ";
  }
"].

Definition Id : component := sa 38 (inl (Element "Dropdown")) [] [txt "
  label {
    box-sizing: border-box;
    min-width: 100px;
    outline: none;
    display: inline-block;
    font-family: "; theme ["typography"; "headings"; "fontFamily"]; txt ";
    color: "; theme ["colors"; "text"; "primary"]; txt ";
    vertical-align: bottom;
    width: "; choose "fullWidth" (txt "100%") (txt "auto"); txt ";
    text-transform: none;
    padding: 0 22px 0 4px;

    font-size: 0.929em;
    line-height: 1.5em;
    font-family: inherit;
    text-overflow: ellipsis;
    overflow: hidden;
    white-space: nowrap;
  }
  .dropdown-select {
    position: absolute;
    top: 0;
    left: 0;
    width: 100%;
    height: 100%;
    opacity: 0;
    border: none;
    appearance: none;
    cursor: pointer;

    color: "; theme ["colors"; "text"; "primary"]; txt ";
    line-height: inherit;
    font-family: inherit;
  }
  box-sizing: border-box;
  min-width: 100px;
  outline: none;
  display: inline-block;
  border-radius: 2px;
  border: 1px solid rgba(38, 50, 56, 0.5);
  vertical-align: bottom;
  padding: 2px 0px 2px 6px;
  position: relative;
  width: auto;
  background: white;
  color: #263238;
  font-family: "; theme ["typography"; "headings"; "fontFamily"]; txt ";
  font-size: 0.929em;
  line-height: 1.5em;
  cursor: pointer;
  transition: border 0.25s ease, color 0.25s ease, box-shadow 0.25s ease;

  &:hover,
  &:focus-within {
    border: 1px solid "; theme ["colors"; "primary"; "main"]; txt ";
    color: "; theme ["colors"; "primary"; "main"]; txt ";
    box-shadow: 0px 0px 0px 1px "; theme ["colors"; "primary"; "main"]; txt ";
  }
"].

Definition Rd : component := sa 39 (inr Id) [] [txt "
  margin-left: 10px;
  text-transform: none;
  font-size: 0.969em;

  font-size: 1em;
  border: none;
  padding: 0 1.2em 0 0;
  background: transparent;

  &:hover,
  &:focus-within {
    border: none;
    box-shadow: none;
    label {
      color: "; theme ["colors"; "primary"; "main"]; txt ";
      text-shadow: 0px 0px 0px "; theme ["colors"; "primary"; "main"]; txt ";
    }
  }
"].

Definition Nd : component := sa 40 (inl (Html "span")) [] [txt "
  margin-left: 10px;
  text-transform: none;
  font-size: 0.929em;
  color: black;
"].

Definition Rf : css := CList (Yo [txt "
  a {
    text-decoration: "; theme ["typography"; "links"; "textDecoration"]; txt ";
    color: "; theme ["typography"; "links"; "color"]; txt ";

    &:visited {
      color: "; theme ["typography"; "links"; "visited"]; txt ";
    }

    &:hover {
      color: "; theme ["typography"; "links"; "hover"]; txt ";
      text-decoration: "; theme ["typography"; "links"; "hoverTextDecoration"]; txt ";
    }
  }
"]).

Definition Nf : component := sa 41 (inr Wp) [] [txt "
  font-family: "; theme ["typography"; "fontFamily"]; txt ";
  font-weight: "; theme ["typography"; "fontWeightRegular"]; txt ";
  line-height: "; theme ["typography"; "lineHeight"]; txt ";

  p {
    &:last-child {
      margin-bottom: 0;
    }
  }

  "; when "$compact" (txt "
    p:first-child {
      margin-top: 0;
    }
    p:last-child {
      margin-bottom: 0;
    }
  "); txt "

  "; when "$inline" (txt " p {
    display: inline-block;
  }"); txt "

  h1 {
    "; Mu 1; txt ";
    color: "; theme ["colors"; "primary"; "main"]; txt ";
    margin-top: 0;
  }

  h2 {
    "; Mu 2; txt ";
    color: "; theme ["colors"; "text"; "primary"]; txt ";
  }

  code {
    color: "; theme ["typography"; "code"; "color"]; txt ";
    background-color: "; theme ["typography"; "code"; "backgroundColor"]; txt ";

    font-family: "; theme ["typography"; "code"; "fontFamily"]; txt ";
    border-radius: 2px;
    border: 1px solid rgba(38, 50, 56, 0.1);
    padding: 0 "; theme ["spacing"; "unit"]; txt "px;
    font-size: "; theme ["typography"; "code"; "fontSize"]; txt ";
    font-weight: "; theme ["typography"; "code"; "fontWeight"]; txt ";

    word-break: break-word;
  }

  pre {
    font-family: "; theme ["typography"; "code"; "fontFamily"]; txt ";
    white-space: "; fn (λ p, w ← js_path ["theme"; "typography"; "code"; "wrap"] p; Ok (if_else w (txt "pre-wrap") (txt "pre"))); txt ";
    background-color: "; theme ["codeBlock"; "backgroundColor"]; txt ";
    color: white;
    padding: "; theme_times 4 ["spacing"; "unit"]; txt "px;
    overflow-x: auto;
    line-height: normal;
    border-radius: 0;
    border: 1px solid rgba(38, 50, 56, 0.1);

    code {
      background-color: transparent;
      color: white;
      padding: 0;

      &:before,
      &:after {
        content: none;
      }
    }
  }

  blockquote {
    margin: 0;
    margin-bottom: 1em;
    padding: 0 15px;
    color: #777;
    border-left: 4px solid #ddd;
  }

  img {
    max-width: 100%;
    box-sizing: content-box;
  }

  ul,
  ol {
    padding-left: 2em;
    margin: 0;
    margin-bottom: 1em;

    ul,
    ol {
      margin-bottom: 0;
      margin-top: 0;
    }
  }

  table {
    display: block;
    width: 100%;
    overflow: auto;
    word-break: normal;
    word-break: keep-all;
    border-collapse: collapse;
    border-spacing: 0;
    margin-top: 1.5em;
    margin-bottom: 1.5em;
  }

  table tr {
    background-color: #fff;
    border-top: 1px solid #ccc;

    &:nth-child(2n) {
      background-color: "; theme ["schema"; "nestedBackground"]; txt ";
    }
  }

  table th,
  table td {
    padding: 6px 13px;
    border: 1px solid #ddd;
  }

  table th {
    text-align: left;
    font-weight: bold;
  }

  "; Gu ".share-link"; txt ";

  "; Rf; txt "

  "; wa "Markdown"; txt ";
"].

Definition qf : component := sa 42 (inl (Element "Nf")) [] [txt "
  display: inline;
"].

Definition Hf : component := sa 43 (inl (Html "div")) [] [txt "
  position: relative;
"].

Definition Yf : component := sa 44 (inl (Html "div")) [] [txt "
  position: absolute;
  min-width: 80px;
  max-width: 500px;
  background: #fff;
  bottom: 100%;
  left: 50%;
  margin-bottom: 10px;
  transform: translateX(-50%);

  border-radius: 4px;
  padding: 0.3em 0.6em;
  text-align: center;
  box-shadow: 0px 0px 5px 0px rgba(204, 204, 204, 1);
"].

Definition Gf : component := sa 45 (inl (Html "div")) [] [txt "
  background: #fff;
  color: #000;
  display: inline;
  font-size: 0.85em;
  white-space: nowrap;
"].

Definition Qf : component := sa 46 (inl (Html "div")) [] [txt "
  position: absolute;
  width: 0;
  height: 0;
  bottom: -5px;
  left: 50%;
  margin-left: -5px;
  border-left: solid transparent 5px;
  border-right: solid transparent 5px;
  border-top: solid #fff 5px;
"].

Definition Xf : component := sa 47 (inl (Html "div")) [] [txt "
  position: absolute;
  width: 100%;
  height: 20px;
  bottom: -20px;
"].

Definition lh : css := CList (Yo [txt "
  .redoc-json code > .collapser {
    display: none;
    pointer-events: none;
  }

  font-family: "; theme ["typography"; "code"; "fontFamily"]; txt ";
  font-size: "; theme ["typography"; "code"; "fontSize"]; txt ";

  white-space: "; fn (λ p, w ← js_path ["theme"; "typography"; "code"; "wrap"] p; Ok (if_else w (txt "pre-wrap") (txt "pre"))); txt ";
  contain: content;
  overflow-x: auto;

  .callback-function {
    color: gray;
  }

  .collapser:after {
    content: '-';
    cursor: pointer;
  }

  .collapsed > .collapser:after {
    content: '+';
    cursor: pointer;
  }

  .ellipsis:after {
    content: ' … ';
  }

  .collapsible {
    margin-left: 2em;
  }

  .hoverable {
    padding-top: 1px;
    padding-bottom: 1px;
    padding-left: 2px;
    padding-right: 2px;
    border-radius: 2px;
  }

  .hovered {
    background-color: rgba(235, 238, 249, 1);
  }

  .collapser {
    background-color: transparent;
    border: 0;
    color: #fff;
    font-family: "; theme ["typography"; "code"; "fontFamily"]; txt ";
    font-size: "; theme ["typography"; "code"; "fontSize"]; txt ";
    padding-right: 6px;
    padding-left: 6px;
    padding-top: 0;
    padding-bottom: 0;
    display: flex;
    align-items: center;
    justify-content: center;
    width: 15px;
    height: 15px;
    position: absolute;
    top: 4px;
    left: -1.5em;
    cursor: default;
    user-select: none;
    -webkit-user-select: none;
    padding: 2px;
    &:focus {
      outline-color: #fff;
      outline-style: dotted;
      outline-width: 1px;
    }
  }

  ul {
    list-style-type: none;
    padding: 0px;
    margin: 0px 0px 0px 26px;
  }

  li {
    position: relative;
    display: block;
  }

  .hoverable {
    display: inline-block;
  }

  .selected {
    outline-style: solid;
    outline-width: 1px;
    outline-style: dotted;
  }

  .collapsed > .collapsible {
    display: none;
  }

  .ellipsis {
    display: none;
  }

  .collapsed > .ellipsis {
    display: inherit;
  }
"]).

Definition ch : component := sa 48 (inl (Html "div")) [] [txt "
  &:hover > "; selector Hp; txt " {
    opacity: 1;
  }
"].

Definition uh : component := sa 49 (inl (Element "JsonViewer")) [] [txt "
  "; lh; txt ";
"].

Definition yh : component := sa 50 (inl (Html "div")) [] [txt "
  padding: 0.9em;
  background-color: "; fn (λ p, c ← js_path ["theme"; "rightPanel"; "backgroundColor"] p; CVal <$> Kr (decimal 6 1) c); txt ";
  margin: 0 0 10px 0;
  display: block;
  font-family: "; theme ["typography"; "headings"; "fontFamily"]; txt ";
  font-size: 0.929em;
  line-height: 1.5em;
"].

Definition bh : component := sa 51 (inl (Html "span")) [] [txt "
  font-family: "; theme ["typography"; "headings"; "fontFamily"]; txt ";
  font-size: 12px;
  position: absolute;
  z-index: 1;
  top: -11px;
  left: 12px;
  font-weight: "; theme ["typography"; "fontWeightBold"]; txt ";
  color: "; fn (λ p, c ← js_path ["theme"; "rightPanel"; "textColor"] p; CVal <$> Kr (decimal 3 1) c); txt ";
"].

Definition vh : component := sa 52 (inl (Html "div")) [] [txt "
  position: relative;
"].
