(* ===== verification/RedocSchema.v ===== *)
(** * Styles of the documentation viewer: schemas

    The styled components of redoc.standalone.js from the selector of a media type
    ([xh]) to the link of the header ([Wg]): fields, types, constraints, security. *)

From S2P Require Import Prelude PyData JsNumber JsData Color Css CssBraces StyleNames RedocLayout RedocMarkdown.
Local Open Scope Z_scope.
Local Open Scope string_scope.

Definition xh : component := sa 53 (inr Id) [] [txt "
  label {
    color: "; theme ["rightPanel"; "textColor"]; txt ";
    text-overflow: ellipsis;
    white-space: nowrap;
    overflow: hidden;
    font-size: 1em;
    text-transform: none;
    border: none;
  }
  margin: 0 0 10px 0;
  display: block;
  background-color: "; fn (λ p, c ← js_path ["theme"; "rightPanel"; "backgroundColor"] p; CVal <$> Kr (decimal 6 1) c); txt ";
  border: none;
  padding: 0.9em 1.6em 0.9em 0.9em;
  box-shadow: none;
  &:hover,
  &:focus-within {
    border: none;
    box-shadow: none;
    background-color: "; fn (λ p, c ← js_path ["theme"; "rightPanel"; "backgroundColor"] p; CVal <$> Kr (decimal 3 1) c); txt ";
  }
"].

Definition wh : component := sa 54 (inl (Html "div")) [] [txt "
  font-family: "; theme ["typography"; "code"; "fontFamily"]; txt ";
  font-size: 12px;
  color: #ee807f;
"].

Definition Sh : component := sa 55 (inl (Html "div")) [] [txt "
  margin-top: 15px;
"].

Definition tm : component := sa 56 (inr ip) [] [txt "
  &.deprecated {
    span.property-name {
      "; ep; txt "
    }
  }

  button {
    background-color: transparent;
    border: 0;
    outline: 0;
    font-size: 13px;
    font-family: "; theme ["typography"; "code"; "fontFamily"]; txt ";
    cursor: pointer;
    padding: 0;
    color: "; theme ["colors"; "text"; "primary"]; txt ";
    &:focus {
      font-weight: "; theme ["typography"; "fontWeightBold"]; txt ";
    }
    "; fn (λ p, e ← js_get "kind" p;
      Ok (if is_str "patternProperties" e then CList (Yo [txt "
        display: inline-flex;
        margin-right: 20px;

        > span.property-name {
          white-space: break-spaces;
          text-align: left;

          ::before,
          ::after {
            content: '/';
            filter: opacity(0.2);
          }
        }

        > svg {
          align-self: center;
        }
      "]) else CVal (JsBool false))); txt "
  }
  "; selector Zu; txt " {
    height: "; theme ["schema"; "arrow"; "size"]; txt ";
    width: "; theme ["schema"; "arrow"; "size"]; txt ";
    polygon {
      fill: "; theme ["schema"; "arrow"; "color"]; txt ";
    }
  }
"].

Definition nm : component := sa 57 (inl (Html "span")) [] [txt "
  vertical-align: middle;
  font-size: "; theme ["typography"; "code"; "fontSize"]; txt ";
  line-height: 20px;
"].

Definition rm : component := sa 58 (inr nm) [] [txt "
  color: "; fn (λ p, c ← js_path ["theme"; "schema"; "typeNameColor"] p; CVal <$> Kr (decimal 1 1) c); txt ";
"].

Definition im : component := sa 59 (inr nm) [] [txt "
  color: "; theme ["schema"; "typeNameColor"]; txt ";
"].

Definition om : component := sa 60 (inr nm) [] [txt "
  color: "; theme ["schema"; "typeTitleColor"]; txt ";
  word-break: break-word;
"].

Definition sm : component := sa 61 (inr nm) [λ _, Ok (JsObj [("as", JsStr "div")])] [txt "
  color: "; theme ["schema"; "requireLabelColor"]; txt ";
  font-size: "; theme ["schema"; "labelsTextSize"]; txt ";
  font-weight: normal;
  margin-left: 20px;
  line-height: 1;
"].

Definition lm : component := sa 62 (inr sm) [] [txt "
  color: "; theme ["colors"; "primary"; "light"]; txt ";
"].

Definition cm : component := sa 63 (inr nm) [] [txt "
  color: "; theme ["colors"; "warning"; "main"]; txt ";
  font-size: 13px;
"].

Definition um : component := sa 64 (inr nm) [] [txt "
  color: #0e7c86;
  &::before,
  &::after {
    font-weight: bold;
  }
"].

Definition pm : component := sa 65 (inr nm) [] [txt "
  border-radius: 2px;
  word-break: break-word;
  "; fn (λ p,
      c ← js_path ["theme"; "colors"; "text"; "primary"] p; v1 ← Kr (decimal 95 2) c;
      c ← js_path ["theme"; "colors"; "text"; "primary"] p; v2 ← Kr (decimal 1 1) c;
      v3 ← js_path ["theme"; "spacing"; "unit"] p;
      c ← js_path ["theme"; "colors"; "text"; "primary"] p; v4 ← Kr (decimal 9 1) c;
      v5 ← js_path ["theme"; "typography"; "code"; "fontFamily"] p;
      Ok (CVal (template [JsStr "
    background-color: "; v1; JsStr ";
    color: "; v2; JsStr ";

    padding: 0 "; v3; JsStr "px;
    border: 1px solid "; v4; JsStr ";
    font-family: "; v5; JsStr ";
}"]))); txt ";
  & + & {
    margin-left: 0;
  }
  "; wa "ExampleValue"; txt ";
"].

Definition dm : component := sa 66 (inr pm) [] [].

Definition fm : component := sa 67 (inr nm) [] [txt "
  border-radius: 2px;
  "; fn (λ p,
      c ← js_path ["theme"; "colors"; "primary"; "light"] p; v1 ← Kr (decimal 95 2) c;
      c ← js_path ["theme"; "colors"; "primary"; "main"] p; v2 ← Kr (decimal 1 1) c;
      v3 ← js_path ["theme"; "spacing"; "unit"] p;
      v4 ← js_path ["theme"; "spacing"; "unit"] p;
      c ← js_path ["theme"; "colors"; "primary"; "main"] p; v5 ← Kr (decimal 9 1) c;
      Ok (CVal (template [JsStr "
    background-color: "; v1; JsStr ";
    color: "; v2; JsStr ";

    margin: 0 "; v3; JsStr "px;
    padding: 0 "; v4; JsStr "px;
    border: 1px solid "; v5; JsStr ";
}"]))); txt ";
  & + & {
    margin-left: 0;
  }
  "; wa "ConstraintItem"; txt ";
"].

Definition hm : component := sa 68 (inl (Html "button")) [] [txt "
  background-color: transparent;
  border: 0;
  color: "; theme ["colors"; "text"; "secondary"]; txt ";
  margin-left: "; theme ["spacing"; "unit"]; txt "px;
  border-radius: 2px;
  cursor: pointer;
  outline-color: "; theme ["colors"; "text"; "secondary"]; txt ";
  font-size: 12px;
"].

Definition mm : component := sa 69 (inl (Html "div")) [] [txt "
  "; Rf; txt ";
  "; choose "$compact" (txt EmptyString) (txt "margin: 1em 0"); txt "
"].

Definition bm : component := sa 70 (inl (Html "span")) [] [txt "
  color: "; theme ["colors"; "primary"; "main"]; txt ";
  vertical-align: middle;
  font-size: 13px;
  line-height: 20px;
  padding: 0 5px;
  cursor: pointer;
"].

Definition vm : component := sa 71 (inr Nf) [] [txt "
  margin: 2px 0;
"].

Definition km : component := sa 72 (inl (Html "ul")) [] [txt "
  margin-top: 1em;
  list-style-position: outside;
"].

Definition jm : component := sa 73 (inr rm) [] [txt "
  margin: 0 5px;
  vertical-align: text-top;
"].

Definition eg : component := sa 74 (inl (Html "div")) [] [txt "
  padding-left: "; theme_times 2 ["spacing"; "unit"]; txt "px;
"].

Definition Ig : component := sa 75 (inl (Html "div")) [] [txt "
  background: "; theme ["codeBlock"; "backgroundColor"]; txt ";
  & > div,
  & > pre {
    padding: "; theme_times 4 ["spacing"; "unit"]; txt "px;
    margin: 0;
  }

  & > div > pre {
    padding: 0;
  }
"].

Definition Rg_div : component := sa 76 (inl (Html "div")) [] [txt "
  background-color: #e4e7eb;
"].

Definition Rg_ul : component := sa 77 (inl (Html "ul")) [] [txt "
  display: inline;
  list-style: none;
  padding: 0;

  li {
    display: inherit;

    &:after {
      content: ',';
    }
    &:last-child:after {
      content: none;
    }
  }
"].

Definition Rg : component := sa 78 (inl (Html "code")) [] [txt "
  font-size: "; theme ["typography"; "code"; "fontSize"]; txt ";
  font-family: "; theme ["typography"; "code"; "fontFamily"]; txt ";
  margin: 0 3px;
  padding: 0.2em;
  display: inline-block;
  line-height: 1;

  &:after {
    content: ',';
    font-weight: normal;
  }

  &:last-child:after {
    content: none;
  }
"].

Definition Ng : component := sa 79 (inl (Html "span")) [] [txt "
  &:after {
    content: ' and ';
    font-weight: normal;
  }

  &:last-child:after {
    content: none;
  }

  "; Rf; txt ";
"].

Definition S_g : component := sa 80 (inl (Html "span")) [] [txt "
  "; fn (λ p, x ← js_get "$expanded" p; Ok (if js_truthy x then CVal (JsBool false) else txt "white-space: nowrap;")); txt "
  &:after {
    content: ' or ';
    "; when "$expanded" (txt "content: ' or \a';"); txt "
    white-space: pre;
  }

  &:last-child:after,
  &:only-child:after {
    content: none;
  }

  "; Rf; txt ";
"].

Definition Lg : component := sa 81 (inl (Html "div")) [] [txt "
  flex: 1 1 auto;
  cursor: pointer;
"].

Definition Dg : component := sa 82 (inl (Html "div")) [] [txt "
  width: "; theme ["schema"; "defaultDetailsWidth"]; txt ";
  text-overflow: ellipsis;
  border-radius: 4px;
  overflow: hidden;
  "; fn (λ p, x ← js_get "$expanded" p;
      if js_truthy x then
      v1 ← js_path ["theme"; "colors"; "gray"; "100"] p;
      Ok (CVal (template [JsStr "background: "; v1; JsStr ";
     padding: 8px 9.6px;
     margin: 20px 0;
     width: 100%;
    "]))
      else Ok (CVal x)); txt ";
  "; lessThan "small" false EmptyString [txt "
    margin-top: 10px;
  "]; txt "
"].

Definition Mg : component := sa 83 (inr qu) [] [txt "
  display: inline-block;
  margin: 0;
"].

Definition Fg : component := sa 84 (inl (Html "div")) [] [txt "
  width: 100%;
  display: flex;
  margin: 1em 0;
  flex-direction: "; choose "$expanded" (txt "column") (txt "row"); txt ";
  "; lessThan "small" false EmptyString [txt "
    flex-direction: column;
  "]; txt "
"].

Definition zg : component := sa 85 (inl (Html "div")) [] [txt "
  margin: 0.5em 0;
"].

Definition Ug : component := sa 86 (inl (Html "div")) [] [txt "
  border-bottom: 1px solid "; theme ["colors"; "border"; "dark"]; txt ";
  margin-bottom: 1.5em;
  padding-bottom: 0.7em;

  h5 {
    line-height: 1em;
    margin: 0 0 0.6em;
    font-size: "; theme ["typography"; "fontSize"]; txt ";
  }

  .redoc-markdown p:first-child {
    display: inline;
  }
"].

Definition qg : component := sa 87 (inl (Html "div")) [] [txt "
  overflow-y: hidden;
"].

Definition Vg : component := sa 88 (inl (Html "div")) [] [txt "
  text-align: center;
  line-height: 1.5em;
  "; when "$dimmed" (txt "background-image: linear-gradient(to bottom, transparent,rgb(255 255 255));
     position: relative;
     top: -0.5em;
     padding-top: 0.5em;
     background-position-y: -1em;
    "); txt "
"].

Definition Wg : component := sa 89 (inl (Html "a")) [] [txt "
  cursor: pointer;
"].
