(* ===== verification/RedocOperation.v ===== *)
(** * Styles of the documentation viewer: header, menu and operations

    The styled components of redoc.standalone.js from the header of the API ([Zg])
    to the description of a payload ([db]). *)

From S2P Require Import Prelude PyData JsNumber JsData Color Css CssBraces StyleNames RedocLayout RedocMarkdown RedocSchema.
Local Open Scope Z_scope.
Local Open Scope string_scope.

Definition Zg : component := sa 90 (inr Fu) [] [txt "
  margin-top: 0;
  margin-bottom: 0.5em;

  "; wa "ApiHeader"; txt ";
"].

Definition Jg : component := sa 91 (inl (Html "a")) [] [txt "
  border: 1px solid "; theme ["colors"; "primary"; "main"]; txt ";
  color: "; theme ["colors"; "primary"; "main"]; txt ";
  font-weight: normal;
  margin-left: 0.5em;
  padding: 4px 8px 4px;
  display: inline-block;
  text-decoration: none;
  cursor: pointer;

  "; wa "DownloadButton"; txt ";
"].

Definition ey : component := sa 92 (inl (Html "span")) [] [txt "
  &::before {
    content: '|';
    display: inline-block;
    opacity: 0.5;
    width: "; CVal (JsNum (of_Z 15)); txt "px;
    text-align: center;
  }

  &:last-child::after {
    display: none;
  }
"].

Definition ty : component := sa 93 (inl (Html "div")) [] [txt "
  overflow: hidden;
"].

Definition ny : component := sa 94 (inl (Html "div")) [] [txt "
  display: flex;
  flex-wrap: wrap;
  // hide separator on new lines: idea from https://stackoverflow.com/a/31732902/1749888
  margin-left: -"; CVal (JsNum (of_Z 15)); txt "px;
"].

Definition iy : component := sa 95 (inl (Html "img")) [] [txt "
  max-height: "; theme ["logo"; "maxHeight"]; txt ";
  max-width: "; theme ["logo"; "maxWidth"]; txt ";
  padding: "; theme ["logo"; "gutter"]; txt ";
  width: 100%;
  display: block;
"].

Definition oy : component := sa 96 (inl (Html "div")) [] [txt "
  text-align: center;
"].

Definition ay : component := sa 97 (inl (Html "a")) [] [txt "
  display: inline-block;
"].

Definition gy : component := sa 98 (inl (Html "span")) [λ p, t ← js_get "type" p; Ok (JsObj [("className", template [JsStr "operation-type "; t])])] [txt "
  width: 9ex;
  display: inline-block;
  height: "; theme ["typography"; "code"; "fontSize"]; txt ";
  line-height: "; theme ["typography"; "code"; "fontSize"]; txt ";
  background-color: #333;
  border-radius: 3px;
  background-repeat: no-repeat;
  background-position: 6px 4px;
  font-size: 7px;
  font-family: Verdana, sans-serif; // web-safe
  color: white;
  text-transform: uppercase;
  text-align: center;
  font-weight: bold;
  vertical-align: middle;
  margin-right: 6px;
  margin-top: 2px;

  &.get {
    background-color: "; theme ["colors"; "http"; "get"]; txt ";
  }

  &.post {
    background-color: "; theme ["colors"; "http"; "post"]; txt ";
  }

  &.put {
    background-color: "; theme ["colors"; "http"; "put"]; txt ";
  }

  &.options {
    background-color: "; theme ["colors"; "http"; "options"]; txt ";
  }

  &.patch {
    background-color: "; theme ["colors"; "http"; "patch"]; txt ";
  }

  &.delete {
    background-color: "; theme ["colors"; "http"; "delete"]; txt ";
  }

  &.basic {
    background-color: "; theme ["colors"; "http"; "basic"]; txt ";
  }

  &.link {
    background-color: "; theme ["colors"; "http"; "link"]; txt ";
  }

  &.head {
    background-color: "; theme ["colors"; "http"; "head"]; txt ";
  }

  &.hook {
    background-color: "; theme ["colors"; "primary"; "main"]; txt ";
  }

  &.schema {
    background-color: "; theme ["colors"; "http"; "basic"]; txt ";
  }
"].

(** [yy(depth, props, name)]: an entry of the theme for a depth of the menu. *)
Definition yy (e t : jsval) (n : string) : result jsval :=
  if nltb (of_Z 1) (js_number e) then js_path ["theme"; "sidebar"; "level1Items"; n] t
  else if is_num 1 e then js_path ["theme"; "sidebar"; "groupItems"; n] t
  else Ok (JsStr EmptyString).

Definition by_ : component := sa 99 (inl (Html "ul")) [] [txt "
  margin: 0;
  padding: 0;

  &:first-child {
    padding-bottom: 32px;
  }

  & & {
    font-size: 0.929em;
  }

  "; choose "$expanded" (txt EmptyString) (txt "display: none;"); txt ";
"].

Definition vy : component := sa 100 (inl (Html "li")) [] [txt "
  list-style: none inside none;
  overflow: hidden;
  text-overflow: ellipsis;
  padding: 0;
  "; fn (λ p, d ← js_get "depth" p; Ok (if is_num 0 d then txt "margin-top: 15px" else txt EmptyString)); txt ";
"].

Definition xy0 : css := CList (Yo [txt "
    opacity: 0.7;
    text-transform: "; theme ["sidebar"; "groupItems"; "textTransform"]; txt ";
    font-size: 0.8em;
    padding-bottom: 0;
    cursor: default;
  "]).

Definition xy1 : css := CList (Yo [txt "
    font-size: 0.929em;
    text-transform: "; theme ["sidebar"; "level1Items"; "textTransform"]; txt ";
  "]).

(** [xy]: the styles of a depth. *)
Definition xy (d : jsval) : css :=
  if String.eqb (js_string d) "0" then xy0 else if String.eqb (js_string d) "1" then xy1 else CVal JsUndef.
(** [my("-depth" + depth, {active: active})], the classnames library. *)
Definition depth_class (d a : jsval) : string :=
  "-depth" +:+ js_string d +:+ (if js_truthy a then " active" else EmptyString).

Definition wy : component := sa 101 (inl (Html "label")) [λ p, d ← js_get "$depth" p; a ← js_get "$active" p;
      Ok (JsObj [("className", JsStr (depth_class d a))])] [txt "
  cursor: pointer;
  color: "; fn (λ p,
      a ← js_get "$active" p;
      if js_truthy a then d ← js_get "$depth" p; CVal <$> yy d p "activeTextColor" else CVal <$> js_path ["theme"; "sidebar"; "textColor"] p); txt ";
  margin: 0;
  padding: 12.5px "; theme_times 4 ["spacing"; "unit"]; txt "px;
  "; fn (λ p,
      e ← js_get "$depth" p; t ← js_get "$type" p;
      if is_str "section" t && nltb (of_Z 1) (js_number e) then
        u ← js_path ["theme"; "spacing"; "unit"] p; Ok (CVal (template [JsStr "padding-left: "; times 8 u; JsStr "px;"]))
      else Ok (txt EmptyString)); txt "
  display: flex;
  justify-content: space-between;
  font-family: "; theme ["typography"; "headings"; "fontFamily"]; txt ";
  "; fn (λ p, d ← js_get "$depth" p; Ok (xy d)); txt ";
  background-color: "; fn (λ p,
      a ← js_get "$active" p;
      if js_truthy a then d ← js_get "$depth" p; CVal <$> yy d p "activeBackgroundColor" else CVal <$> js_path ["theme"; "sidebar"; "backgroundColor"] p); txt ";

  "; choose "$deprecated" ep (txt EmptyString); txt ";

  &:hover {
    color: "; fn (λ p, d ← js_get "$depth" p; CVal <$> yy d p "activeTextColor"); txt ";
    background-color: "; fn (λ p, d ← js_get "$depth" p; CVal <$> yy d p "activeBackgroundColor"); txt ";
  }

  "; selector Zu; txt " {
    height: "; theme ["sidebar"; "arrow"; "size"]; txt ";
    width: "; theme ["sidebar"; "arrow"; "size"]; txt ";
    polygon {
      fill: "; theme ["sidebar"; "arrow"; "color"]; txt ";
    }
  }
"].

Definition ky : component := sa 102 (inl (Html "span")) [] [txt "
  display: inline-block;
  vertical-align: middle;
  width: "; either "width" "auto"; txt ";
  overflow: hidden;
  text-overflow: ellipsis;
"].

Definition Sy : component := sa 103 (inl (Html "div")) [] [txt "
  "; fn (λ p,
      v1 ← (times 2 <$> js_path ["theme"; "spacing"; "unit"] p);
      v2 ← js_path ["theme"; "sidebar"; "width"] p;
      v3 ← js_path ["theme"; "sidebar"; "backgroundColor"] p;
      v4 ← js_path ["theme"; "sidebar"; "textColor"] p;
      v5 ← js_path ["theme"; "spacing"; "unit"] p;
      c ← js_path ["theme"; "sidebar"; "backgroundColor"] p; v6 ← Ur (decimal 1 1) c;
      Ok (CList (Yo [txt "
    font-size: 0.8em;
    margin-top: "; CVal v1; txt "px;
    text-align: center;
    position: fixed;
    width: "; CVal v2; txt ";
    bottom: 0;
    background: "; CVal v3; txt ";

    a,
    a:visited,
    a:hover {
      color: "; CVal v4; txt " !important;
      padding: "; CVal v5; txt "px 0;
      border-top: 1px solid "; CVal v6; txt ";
      text-decoration: none;
      display: flex;
      align-items: center;
      justify-content: center;
    }
  "]))); txt ";
  img {
    width: 15px;
    margin-right: 5px;
  }

  "; lessThan "small" false EmptyString [txt "
    width: 100%;
  "]; txt ";
"].

Definition Oy : component := sa 104 (inl (Html "button")) [] [txt "
  border: 0;
  width: 100%;
  text-align: left;
  & > * {
    vertical-align: middle;
  }

  "; selector Zu; txt " {
    polygon {
      fill: "; fn (λ p, d ← js_path ["theme"; "colors"; "tonalOffset"] p; c ← js_path ["theme"; "colors"; "gray"; "100"] p; CVal <$> Ur d c); txt ";
    }
  }
"].

Definition Ey : component := sa 105 (inl (Html "span")) [] [txt "
  text-decoration: "; choose "$deprecated" (txt "line-through") (txt "none"); txt ";
  margin-right: 8px;
"].

Definition _y : component := sa 106 (inr gy) [] [txt "
  margin: 0 5px 0 0;
"].

Definition Ay : component := sa 107 (inl (Element "OperationMenuItem")) [] [txt "
  padding: 10px;
  border-radius: 2px;
  margin-bottom: 4px;
  line-height: 1.5em;
  background-color: "; theme ["colors"; "gray"; "100"]; txt ";
  cursor: pointer;
  outline-color: "; fn (λ p, d ← js_path ["theme"; "colors"; "tonalOffset"] p; c ← js_path ["theme"; "colors"; "gray"; "100"] p; CVal <$> Ur d c); txt ";
"].

Definition jy : component := sa 108 (inl (Html "div")) [] [txt "
  padding: 10px 25px;
  background-color: "; theme ["colors"; "gray"; "50"]; txt ";
  margin-bottom: 5px;
  margin-top: 5px;
"].

Definition Py : component := sa 109 (inl (Html "div")) [] [txt "
  cursor: pointer;
  position: relative;
  margin-bottom: 5px;
"].

Definition Ty : component := sa 110 (inl (Html "span")) [] [txt "
  font-family: "; theme ["typography"; "code"; "fontFamily"]; txt ";
  margin-left: 10px;
  flex: 1;
  overflow-x: hidden;
  text-overflow: ellipsis;
"].

Definition Iy : component := sa 111 (inl (Html "button")) [] [txt "
  outline: 0;
  color: inherit;
  width: 100%;
  text-align: left;
  cursor: pointer;
  padding: 10px 30px 10px "; choose "$inverted" (txt "10px") (txt "20px"); txt ";
  border-radius: "; choose "$inverted" (txt "0") (txt "4px 4px 0 0"); txt ";
  background-color: "; choose "$inverted" (txt "transparent") (theme ["codeBlock"; "backgroundColor"]); txt ";
  display: flex;
  white-space: nowrap;
  align-items: center;
  border: "; choose "$inverted" (txt "0") (txt "1px solid transparent"); txt ";
  border-bottom: "; choose "$inverted" (txt "1px solid #ccc") (txt "0"); txt ";
  transition: border-color 0.25s ease;

  "; fn (λ p,
      x ← js_get "$expanded" p; i ← js_get "$inverted" p;
      if js_truthy x && negb (js_truthy i) then
        d ← js_path ["theme"; "colors"; "border"; "dark"] p; Ok (CVal (template [JsStr "border-color: "; d; JsStr ";"]))
      else Ok (txt EmptyString)); txt "

  ."; selector Ty; txt " {
    color: "; choose "$inverted" (theme ["colors"; "text"; "primary"]) (txt "#ffffff"); txt ";
  }
  &:focus {
    box-shadow: inset 0 2px 2px rgba(0, 0, 0, 0.45), 0 2px 0 rgba(128, 128, 128, 0.25);
  }
"].

Definition Ry : component := sa 112 (inl (Html "span")) [λ p, t ← js_get "type" p; Ok (JsObj [("className", template [JsStr "http-verb "; t])])] [txt "
  font-size: "; choose "$compact" (txt "0.8em") (txt "0.929em"); txt ";
  line-height: "; choose "$compact" (txt "18px") (txt "20px"); txt ";
  background-color: "; fn (λ p, c ← js_path ["theme"; "colors"; "http"] p; t ← js_get "type" p; x ← js_get (js_string t) c;
      Ok (CVal (js_or x (JsStr "#999999")))); txt ";
  color: #ffffff;
  padding: "; choose "$compact" (txt "2px 8px") (txt "3px 10px"); txt ";
  text-transform: uppercase;
  font-family: "; theme ["typography"; "headings"; "fontFamily"]; txt ";
  margin: 0;
"].

Definition Ny : component := sa 113 (inl (Html "div")) [] [txt "
  position: absolute;
  width: 100%;
  z-index: 100;
  background: "; theme ["rightPanel"; "servers"; "overlay"; "backgroundColor"]; txt ";
  color: "; theme ["rightPanel"; "servers"; "overlay"; "textColor"]; txt ";
  box-sizing: border-box;
  box-shadow: 0 0 6px rgba(0, 0, 0, 0.33);
  overflow: hidden;
  border-bottom-left-radius: 4px;
  border-bottom-right-radius: 4px;
  transition: all 0.25s ease;
  visibility: hidden;
  "; choose "$expanded" (txt "visibility: visible;") (txt "transform: translateY(-50%) scaleY(0);"); txt "
"].

Definition S_y : component := sa 114 (inl (Html "div")) [] [txt "
  padding: 10px;
"].

Definition Ly : component := sa 115 (inl (Html "div")) [] [txt "
  padding: 5px;
  border: 1px solid #ccc;
  background: "; theme ["rightPanel"; "servers"; "url"; "backgroundColor"]; txt ";
  word-break: break-all;
  color: "; theme ["colors"; "primary"; "main"]; txt ";
  > span {
    color: "; theme ["colors"; "text"; "primary"]; txt ";
  }
"].

(** [Ky]. *)
Definition Ky : string := "
  text-transform: lowercase;
  margin-left: 0;
  line-height: 1.5em;
".

Definition Zy : component := sa 116 (inr sm) [] [txt "
  "; CVal (JsStr Ky); txt "
"].

Definition Jy : component := sa 117 (inl (Html "div")) [] [txt "
  "; CVal (JsStr Ky); txt "
  color: "; theme ["colors"; "text"; "secondary"]; txt ";
  font-size: "; theme ["schema"; "labelsTextSize"]; txt ";
"].

Definition eb : component := sa 118 (inl (Element "button")) [] [txt "
  display: block;
  border: 0;
  width: 100%;
  text-align: left;
  padding: 10px;
  border-radius: 2px;
  margin-bottom: 4px;
  line-height: 1.5em;
  cursor: pointer;

  color: "; fn (λ p, c ← js_path ["theme"; "colors"; "responses"] p; t ← js_get "type" p; x ← js_get (js_string t) c; CVal <$> js_get "color" x); txt ";
  background-color: "; fn (λ p, c ← js_path ["theme"; "colors"; "responses"] p; t ← js_get "type" p; x ← js_get (js_string t) c; CVal <$> js_get "backgroundColor" x); txt ";
  &:focus {
    outline: auto "; fn (λ p, c ← js_path ["theme"; "colors"; "responses"] p; t ← js_get "type" p; x ← js_get (js_string t) c; CVal <$> js_get "color" x); txt ";
  }
  "; choose "empty" (txt ("
cursor: default;
&::before {
  content: " +:+ dq +:+ "—" +:+ dq +:+ ";
  font-weight: bold;
  width: 1.5em;
  text-align: center;
  display: inline-block;
  vertical-align: top;
}
&:focus {
  outline: 0;
}
")) (txt EmptyString); txt ";
"].

Definition tb : component := sa 119 (inl (Html "div")) [] [txt "
  padding: 10px;
"].

Definition nb : component := sa 120 (inr qu) [λ _, Ok (JsObj [("as", JsStr "caption")])] [txt "
  text-align: left;
  margin-top: 1em;
  caption-side: top;
"].

Definition rb : component := sa 121 (inl (Html "strong")) [] [txt "
  vertical-align: top;
"].

Definition db : component := sa 122 (inl (Html "h3")) [] [txt "
  font-size: 1.3em;
  padding: 0.2em 0;
  margin: 3em 0 1.1em;
  color: "; theme ["colors"; "text"; "primary"]; txt ";
  font-weight: normal;
"].
