(* ===== verification/RedocShell.v ===== *)
(** * Styles of the documentation viewer: samples, menu bar and search

    The styled components of redoc.standalone.js from the box of a schema ([xb]) to
    the mark of the search ([Wv]). *)

From S2P Require Import Prelude PyData JsNumber JsData Color Css CssBraces StyleNames RedocLayout RedocMarkdown RedocSchema RedocOperation.
Local Open Scope Z_scope.
Local Open Scope string_scope.

Definition xb : component := sa 123 (inl (Html "div")) [] [txt "
  margin-bottom: "; theme_times 3 ["spacing"; "unit"]; txt "px;
"].

Definition Sb : component := sa 124 (inl (Html "h3")) [] [txt "
  font-size: 1.3em;
  padding: 0.2em 0;
  margin: 3em 0 1.1em;
  color: "; theme ["colors"; "text"; "primary"]; txt ";
  font-weight: normal;
"].

Definition Nb : component := sa 125 (inl (Html "div")) [] [txt "
  margin-top: 15px;
"].

Definition qb : component := sa 126 (inl (Html "div")) [] [txt "
  background: "; theme ["codeBlock"; "backgroundColor"]; txt ";
  padding: "; theme_times 4 ["spacing"; "unit"]; txt "px;
"].

Definition Jb : component := sa 127 (inl (Html "div")) [] [txt "
  margin-bottom: "; theme_times 6 ["spacing"; "unit"]; txt "px;
"].

Definition Iv : component := sa 128 (inl (Html "div")) [] [txt "
  user-select: none;
  width: 20px;
  height: 20px;
  align-self: center;
  display: flex;
  flex-direction: column;
  color: "; theme ["colors"; "primary"; "main"]; txt ";
"].

Definition S_v : component := sa 129 (inl (Html "div")) [] [txt "
  width: "; theme ["sidebar"; "width"]; txt ";
  background-color: "; theme ["sidebar"; "backgroundColor"]; txt ";
  overflow: hidden;
  display: flex;
  flex-direction: column;

  backface-visibility: hidden;
  /* contain: strict; TODO: breaks layout since Chrome 80*/

  height: 100vh;
  position: sticky;
  position: -webkit-sticky;
  top: 0;

  "; lessThan "small" false EmptyString [txt "
    position: fixed;
    z-index: 20;
    width: 100%;
    background: "; theme ["sidebar"; "backgroundColor"]; txt ";
    display: "; choose "$open" (txt "flex") (txt "none"); txt ";
  "]; txt ";

  @media print {
    display: none;
  }
"].

Definition Lv : component := sa 130 (inl (Html "div")) [] [txt "
  outline: none;
  user-select: none;
  background-color: "; theme ["fab"; "backgroundColor"]; txt ";
  color: "; theme ["colors"; "primary"; "main"]; txt ";
  display: none;
  cursor: pointer;
  position: fixed;
  right: 20px;
  z-index: 100;
  border-radius: 50%;
  box-shadow: 0 0 20px rgba(0, 0, 0, 0.3);
  "; lessThan "small" false EmptyString [txt "
    display: flex;
  "]; txt ";

  bottom: 44px;

  width: 60px;
  height: 60px;
  padding: 0 20px;
  svg {
    color: "; theme ["fab"; "color"]; txt ";
  }

  @media print {
    display: none;
  }
"].

Definition Mv : component := sa 131 (inl (Html "div")) [] [txt "
  "; fn (λ p,
      v1 ← js_path ["theme"; "typography"; "fontFamily"] p;
      v2 ← js_path ["theme"; "typography"; "fontSize"] p;
      v3 ← js_path ["theme"; "typography"; "fontWeightRegular"] p;
      v4 ← js_path ["theme"; "typography"; "lineHeight"] p;
      v5 ← js_path ["theme"; "colors"; "text"; "primary"] p;
      v6 ← js_path ["theme"; "typography"; "smoothing"] p;
      v7 ← js_path ["theme"; "typography"; "smoothing"] p;
      o ← js_path ["theme"; "typography"; "optimizeSpeed"] p;
      let v8 := if js_truthy o then JsStr "text-rendering: optimizeSpeed !important" else JsStr EmptyString in
      Ok (CVal (template [JsStr "
  font-family: "; v1; JsStr ";
  font-size: "; v2; JsStr ";
  font-weight: "; v3; JsStr ";
  line-height: "; v4; JsStr ";
  color: "; v5; JsStr ";
  display: flex;
  position: relative;
  text-align: left;

  -webkit-font-smoothing: "; v6; JsStr ";
  font-smoothing: "; v7; JsStr ";
  "; v8; JsStr ";

  tap-highlight-color: rgba(0, 0, 0, 0);
  text-size-adjust: 100%;

  * {
    box-sizing: border-box;
    -webkit-tap-highlight-color: rgba(255, 255, 255, 0);
  }
"]))); txt ";
"].

Definition Fv : component := sa 132 (inl (Html "div")) [] [txt "
  z-index: 1;
  position: relative;
  overflow: hidden;
  width: calc(100% - "; theme ["sidebar"; "width"]; txt ");
  "; lessThan "small" true EmptyString [txt "
    width: 100%;
  "]; txt ";

  contain: layout;
"].

(** The width of the page that is left of the right panel. *)
Definition zv_width (p : jsval) : result css :=
  w ← js_path ["theme"; "rightPanel"; "width"] p;
  match w with
  | JsStr s =>
      if ends_with "%" s then
        sw ← js_path ["theme"; "sidebar"; "width"] p;
        Ok (CVal (template [JsStr "calc((100% - "; sw; JsStr ") * "; JsNum (ndiv (parse_int 10 s) (of_Z 100)); JsStr ")"]))
      else Ok (CVal w)
  | _ => Raise TypeError
  end.

Definition zv : component := sa 133 (inl (Html "div")) [] [txt "
  background: "; theme ["rightPanel"; "backgroundColor"]; txt ";
  position: absolute;
  top: 0;
  bottom: 0;
  right: 0;
  width: "; fn zv_width; txt ";
  "; lessThan "medium" true EmptyString [txt "
    display: none;
  "]; txt ";
"].

Definition Uv : component := sa 134 (inl (Html "div")) [] [txt "
  padding: 5px 0;
"].

Section pow.
(** [Math.pow]. *)
Context (pow : num → num → num).

(** [(Vr(b) > 0.5 ? Ur : Hr)(0.1, b)] of the background of the menu. *)
Definition Bv_darker (p : jsval) : result css :=
  b ← js_path ["theme"; "sidebar"; "backgroundColor"] p;
  l ← Vr pow b;
  CVal <$> (if nltb (dec 5 1) l then Ur else Hr) (decimal 1 1) b.

Definition Bv : component := sa 135 (inl (Html "input")) [λ _, Ok (JsObj [("className", JsStr "search-input")])] [txt "
  width: calc(100% - "; theme_times 8 ["spacing"; "unit"]; txt "px);
  box-sizing: border-box;
  margin: 0 "; theme_times 4 ["spacing"; "unit"]; txt "px;
  padding: 5px "; theme_times 2 ["spacing"; "unit"]; txt "px 5px
    "; theme_times 4 ["spacing"; "unit"]; txt "px;
  border: 0;
  border-bottom: 1px solid
    "; fn Bv_darker; txt ";
  font-family: "; theme ["typography"; "fontFamily"]; txt ";
  font-weight: bold;
  font-size: 13px;
  color: "; theme ["sidebar"; "textColor"]; txt ";
  background-color: transparent;
  outline: none;
"].

End pow.

Definition qv : component := sa 136 (inl (Element "svg")) [λ _, Ok (JsObj [("className", JsStr "search-icon")])] [txt "
  position: absolute;
  left: "; theme_times 4 ["spacing"; "unit"]; txt "px;
  height: 1.8em;
  width: 0.9em;

  path {
    fill: "; theme ["sidebar"; "textColor"]; txt ";
  }
"].

Definition Vv : component := sa 137 (inl (Html "div")) [] [txt "
  padding: "; theme ["spacing"; "unit"]; txt "px 0;
  background-color: "; fn (λ p, c ← js_path ["theme"; "sidebar"; "backgroundColor"] p; CVal <$> Ur (decimal 5 2) c); txt "};
  color: "; theme ["sidebar"; "textColor"]; txt ";
  min-height: 150px;
  max-height: 250px;
  border-top: "; fn (λ p, c ← js_path ["theme"; "sidebar"; "backgroundColor"] p; CVal <$> Ur (decimal 1 1) c); txt "};
  border-bottom: "; fn (λ p, c ← js_path ["theme"; "sidebar"; "backgroundColor"] p; CVal <$> Ur (decimal 1 1) c); txt "};
  margin-top: 10px;
  line-height: 1.4;
  font-size: 0.9em;
  
  li {
    background-color: inherit;
  }

  "; selector wy; txt " {
    padding-top: 6px;
    padding-bottom: 6px;

    &:hover,
    &.active {
      background-color: "; fn (λ p, c ← js_path ["theme"; "sidebar"; "backgroundColor"] p; CVal <$> Ur (decimal 1 1) c); txt ";
    }

    > svg {
      display: none;
    }
  }
"].

Definition Wv : component := sa 138 (inl (Html "i")) [] [txt "
  position: absolute;
  display: inline-block;
  width: "; theme_times 2 ["spacing"; "unit"]; txt "px;
  text-align: center;
  right: "; theme_times 4 ["spacing"; "unit"]; txt "px;
  line-height: 2em;
  vertical-align: middle;
  margin-right: 2px;
  cursor: pointer;
  font-style: normal;
  color: '#666';
"].

(** ** Facts *)

Lemma neutral_zv_width : neutral (fn zv_width).
Proof.
  apply neutral_fn. intros p w Hp H. unfold zv_width in H. body Hp H. destruct x; try discriminate. body Hp H.
  - neutral.
  - by apply neutral_val.
Qed.
Lemma neutral_Bv_darker pow : neutral (fn (Bv_darker pow)).
Proof.
  apply neutral_fn. intros p w Hp H. unfold Bv_darker in H. body Hp H. apply neutral_val.
  destruct (nltb _ _); [by eapply Ur_tame|by eapply Hr_tame].
Qed.
#[export] Hint Resolve neutral_zv_width neutral_Bv_darker : brace.
