(* ===== verification/RedocStyles.v ===== *)
(** * The styles of the documentation viewer

    All components of redoc.standalone.js together: the braces of what they render
    to balance, but for four of them, which have a brace too many. *)

From S2P Require Import Prelude PyData JsNumber JsData Color Css StyleNames CssBraces Theme.
From S2P Require Import RedocLayout RedocMarkdown RedocSchema RedocOperation RedocShell.
Local Open Scope Z_scope.

Section pow.
(** [Math.pow]. *)
Context (pow : num → num → num).

(** The components in the order of the source; apart from them, those whose colours
    are looked up by the kind they are given, those with a brace too many, and [dm],
    which extends one of these. *)
Definition plain : list component := [
  ka; Ea; _a; Iu; Ru; Nu; S_u; Lu; Fu; zu; Uu; Bu; qu; Qu; Zu; tp; np; rp; ip; op; ap; sp; lp; cp; pp; dp; fp;
  Vp; Vp_small; Wp; Hp; Yp; Gp; Ad; Pd; Id; Rd; Nd; Nf; qf; Hf; Yf; Gf; Qf; Xf; ch; uh; yh; bh; vh; xh; wh; Sh;
  tm; nm; rm; im; om; sm; lm; cm; um; hm; mm; bm; vm; km; jm; eg; Ig; Rg_div; Rg_ul; Rg; Ng; S_g; Lg; Dg; Mg;
  Fg; zg; Ug; qg; Vg; Wg; Zg; Jg; ey; ty; ny; iy; oy; ay; gy; by_; vy; wy; ky; Sy; Oy; Ey; _y; Ay; jy; Py; Ty;
  Iy; Ry; Ny; S_y; Ly; Zy; Jy; tb; nb; rb; db; xb; Sb; Nb; qb; Jb; Iv; S_v; Lv; Mv; Fv; zv; Uv; Bv pow; qv; Wv].
Definition by_kind : list component := [Ju; eb].
Definition unbalanced : list component := [up; pm; fm; Vv].

(** C4: The styles of every component but five are closed blocks: with any
    properties and theme, and any answer of the extension hook, that have no braces
    of their own, every brace that is opened is closed and none is closed that was
    not opened, so that no style leaks out of its class. *)
Theorem components_balanced : Forall well_braced (plain ++ by_kind).
Proof. unfold plain, by_kind. cbn [app]. repeat (apply Forall_cons_2; [component|]). apply Forall_nil_2. Qed.
End pow.

(** ** The braces too many *)

(** A theme with the entries the four components read. *)
Definition sample : ctx := {|
  props := JsObj [("theme", JsObj [
    ("spacing", JsObj [("unit", JsNum (of_Z 5))]);
    ("sidebar", JsObj [("backgroundColor", JsStr "#fafafa"); ("textColor", JsStr "#333333")]);
    ("schema", JsObj [("typeNameColor", JsStr "#666")]);
    ("colors", JsObj [("primary", JsObj [("main", JsStr "#32329f"); ("light", JsStr "#6868cf")]);
                      ("text", JsObj [("primary", JsStr "#333333")])]);
    ("typography", JsObj [("fontSize", JsStr "14px"); ("headings", JsObj [("fontFamily", JsStr "Montserrat")]);
                          ("code", JsObj [("fontFamily", JsStr "Courier"); ("fontSize", JsStr "13px")])])])]%string;
  hook := None |}.

Lemma sample_ok : ok sample.
Proof. split; [vm_compute; reflexivity|done]. Qed.

(** The other four styles close a brace that was never opened: a rule, an
    example, a constraint and the results of the search. *)
Theorem unbalanced_braces :
  Forall (λ c, ∃ x s, ok x ∧ style_text x (own c) = Ok s ∧ depth s 0 = None) unbalanced.
Proof.
  repeat (apply Forall_cons_2;
    [exists sample; eexists; split; [exact sample_ok|split; [vm_compute; reflexivity|vm_compute; reflexivity]]|]).
  apply Forall_nil_2.
Qed.

(** ** Rendering under the default theme *)

(** A stand-in for [Math.pow]; only the text colours of the badges depend on it. *)
Definition cube (x y : num) : num := nmul x (nmul x x).
Definition default_theme : jsval :=
  Eval vm_compute in match theme_of cube JsUndef with Some (Ok t) => t | _ => JsUndef end.
Lemma default_theme_resolved : theme_of cube JsUndef = Some (Ok default_theme).
Proof. vm_compute. reflexivity. Qed.

Section renders.
Context (rest : list (string * jsval)) (h : option (string → jsval → result jsval)).
Hypothesis hook_answers : ∀ f n p, h = Some f → ∃ v, f n p = Ok v.

(** The default theme, with any other properties. *)
Definition page : ctx := {| props := JsObj (("theme"%string, default_theme) :: rest); hook := h |}.
Definition renders (v : css) : Prop := ∃ l, flatten page v = Ok l.
Definition good (r : result css) : Prop := ∃ w, r = Ok w ∧ renders w.

Lemma renders_all l : Forall renders l → renders (CList l).
Proof.
  unfold renders. rewrite flatten_CList. induction 1 as [|v l [a Ha] _ [b Hb]]; [by eexists|]. cbn. rewrite Ha, Hb. by eexists.
Qed.
Lemma text_renders l : (∃ s, style_text page l = Ok s) ↔ renders (CList l).
Proof.
  unfold renders, style_text. rewrite flatten_CList. destruct (flatten_list page l) as [a|e]; cbn; [|by split; intros [? [=]]].
  split; intros _; by eexists.
Qed.
Lemma renders_Yo l : Forall renders l → renders (CList (Yo l)).
Proof. intros Hl. apply text_renders. rewrite Yo_text. by apply text_renders, renders_all. Qed.
Lemma renders_fn f : good (f (props page)) → renders (fn f).
Proof. intros (w & Hf & [l Hl]). exists l. cbn in *. by rewrite Hf. Qed.
Lemma renders_val v : renders (CVal v).
Proof. by eexists. Qed.
Lemma renders_comp i : renders (CComp i).
Proof. by eexists. Qed.
Lemma renders_keyframes n r : renders (CKeyframes n r).
Proof. by eexists. Qed.
Lemma renders_wa n : renders (wa n).
Proof.
  unfold renders, wa, page. cbn -[default_theme]. destruct h as [f|]; [|by eexists].
  destruct (hook_answers f n (JsObj (("theme"%string, default_theme) :: rest)) eq_refl) as [v Hv]. rewrite Hv. by eexists.
Qed.
Lemma renders_theme ks v : js_path ("theme"%string :: ks) (props page) = Ok v → renders (theme ks).
Proof. intros Hv. apply renders_fn. exists (CVal v). cbn in Hv |- *. rewrite Hv. split; [done|apply renders_val]. Qed.
Lemma renders_theme_times k ks v : js_path ("theme"%string :: ks) (props page) = Ok v → renders (theme_times k ks).
Proof. intros Hv. apply renders_fn. eexists. cbn in Hv |- *. rewrite Hv. split; [done|apply renders_val]. Qed.

Lemma good_Ok w : renders w → good (Ok w).
Proof. by exists w. Qed.
Lemma good_calc {A} (m : result A) (g : A → result css) a : m = Ok a → good (g a) → good (m ≫= g).
Proof. by intros ->. Qed.
Lemma good_map {A} (m : result A) (g : A → css) a : m = Ok a → renders (g a) → good (g <$> m).
Proof. intros ->. by exists (g a). Qed.
Lemma good_get k l (g : jsval → result css) : (∀ v, good (g v)) → good (js_get k (JsObj l) ≫= g).
Proof. intros H. apply H. Qed.
Lemma good_get_some k v (g : jsval → result css) : js_truthy v = true → (∀ v, good (g v)) → good (js_get k v ≫= g).
Proof. intros Hv H. destruct v; try done; apply H. Qed.

Lemma renders_when k w : renders w → renders (when k w).
Proof. intros Hw. apply renders_fn, good_get. intros v. apply good_Ok. unfold and_then. destruct (js_truthy v); [done|apply renders_val]. Qed.
Lemma renders_choose k w u : renders w → renders u → renders (choose k w u).
Proof. intros Hw Hu. apply renders_fn, good_get. intros v. apply good_Ok. unfold if_else. by destruct (js_truthy v). Qed.
Lemma renders_either k s : renders (either k s).
Proof. apply renders_fn, good_get. intros v. apply good_Ok, renders_val. Qed.
Lemma renders_lessThan e p n r : e ∈ ["small"; "medium"]%string → Forall renders r → renders (lessThan e p n r).
Proof.
  intros He Hr. assert (renders (breakpoint e)) as Hb.
  { rewrite !elem_of_cons in He. destruct He as [->|[->|[]%not_elem_of_nil]]; (eapply renders_theme; vm_compute; reflexivity). }
  apply renders_Yo. repeat (apply Forall_cons_2; [first [apply renders_val|exact Hb|by apply renders_Yo]|]). apply Forall_nil_2.
Qed.
Lemma yy_answers d k : k ∈ ["activeTextColor"; "activeBackgroundColor"]%string → good (CVal <$> yy d (props page) k).
Proof.
  intros Hk. unfold yy. rewrite !elem_of_cons in Hk. destruct Hk as [->|[->|[]%not_elem_of_nil]];
    (destruct (nltb _ _); [|destruct (is_num 1 d)]); (eapply good_map; [vm_compute; reflexivity|apply renders_val]).
Qed.
Lemma xy_renders d : renders xy0 → renders xy1 → renders (xy d).
Proof. intros H0 H1. unfold xy. destruct (String.eqb _ _); [done|]. destruct (String.eqb _ _); [done|apply renders_val]. Qed.
End renders.

Ltac good :=
  cbv beta zeta;
  lazymatch goal with
  | |- good _ _ (Ok _) => apply good_Ok; renders
  | |- good _ _ (js_get _ (JsObj _) ≫= _) => apply good_get; intros ?; good
  | |- good _ _ (js_get _ (props _) ≫= _) => apply good_get; intros ?; good
  | Hv : js_truthy ?v = true |- good _ _ (js_get _ ?v ≫= _) => apply (good_get_some _ _ _ v _ Hv); intros ?; good
  | |- good _ _ (if js_truthy ?b then _ else _) => destruct (js_truthy b) eqn:?; good
  | |- good _ _ (if ?b then _ else _) => destruct b; good
  | |- good _ _ ((if js_truthy ?b then _ else _) ≫= _) => destruct (js_truthy b); good
  | |- good _ _ (CVal <$> yy _ _ _) => apply yy_answers; repeat first [left | right]
  | |- good _ _ (_ <$> _) => eapply good_map; [vm_compute; reflexivity|renders]
  | |- good _ _ (CVal <$> js_get _ (props _)) => eapply good_map; [reflexivity|renders]
  | |- good _ _ (_ ≫= _) => eapply good_calc; [vm_compute; reflexivity|good]
  end
with renders :=
  lazymatch goal with
  | |- renders _ _ (CVal _) => apply renders_val
  | |- renders _ _ (txt _) => apply renders_val
  | |- renders _ _ (theme _) => eapply renders_theme; vm_compute; reflexivity
  | |- renders _ _ (theme_times _ _) => eapply renders_theme_times; vm_compute; reflexivity
  | |- renders _ _ (selector _) => apply renders_comp
  | |- renders _ _ (keyframes _) => apply renders_keyframes
  | |- renders _ _ (wa _) => apply renders_wa; assumption
  | |- renders _ _ (when _ _) => apply renders_when; renders
  | |- renders _ _ (choose _ _ _) => apply renders_choose; renders
  | |- renders _ _ (if_else ?b _ _) => unfold if_else; destruct (js_truthy b); renders
  | |- renders _ _ (if ?b then _ else _) => destruct b; renders
  | |- renders _ _ (either _ _) => apply renders_either
  | |- renders _ _ (lessThan _ _ _ _) => apply renders_lessThan; [repeat first [left | right]|each]
  | |- renders _ _ (CList (Yo _)) => apply renders_Yo; each
  | |- renders _ _ (xy _) => apply xy_renders; renders
  | |- renders _ _ (fn (Bv_darker _)) => apply renders_fn; eexists; split; [vm_compute; reflexivity|apply renders_val]
  | |- renders _ _ (fn zv_width) => apply renders_fn; eexists; split; [vm_compute; reflexivity|apply renders_val]
  | |- renders _ _ (fn _) => apply renders_fn; good
  | |- renders _ _ ?c => let f := head_of c in unfold f; renders
  end
with each := repeat (apply Forall_cons_2; [renders|]); apply Forall_nil_2.

Lemma rules_element rest h k t a rules :
  Forall (renders rest h) rules → Forall (λ il, ∃ s, style_text (page rest h) il.2 = Ok s) (componentStyle (sa k (inl t) a rules)).
Proof. intros Hr. repeat constructor. by apply text_renders, renders_Yo. Qed.
Lemma rules_extends rest h k b a rules :
  Forall (λ il, ∃ s, style_text (page rest h) il.2 = Ok s) (componentStyle b) → Forall (renders rest h) rules →
  Forall (λ il, ∃ s, style_text (page rest h) il.2 = Ok s) (componentStyle (sa k (inr b) a rules)).
Proof. intros Hb Hr. apply Forall_app. split; [done|]. repeat constructor. by apply text_renders, renders_Yo. Qed.
Ltac rendered :=
  match goal with |- Forall _ (componentStyle ?c) => let h := head_of c in unfold h end;
  first [apply rules_element; each | apply rules_extends; [rendered|each]].

(** With the default theme no style can fail to render: whatever the other
    properties of a component are, and as long as the extension hook of the theme
    does not throw, each of its templates gives a text. Left out are the badge and
    the button of a response, whose colours are looked up by their kind. *)
Theorem components_render :
  Forall (λ c, ∀ rest h, (∀ f n p, h = Some f → ∃ v, f n p = Ok v) →
    Forall (λ il, ∃ s, style_text (page rest h) il.2 = Ok s) (componentStyle c)) (plain cube ++ unbalanced ++ [dm]).
Proof.
  unfold plain, unbalanced. cbn [app]. repeat (apply Forall_cons_2; [intros rest h Hh; rendered|]). apply Forall_nil_2.
Qed.
Lemma components_render_witness : ∃ s, style_text (page [("color", JsStr "red")]%string None) (own _a) = Ok s.
Proof.
  assert (_a ∈ plain cube ++ unbalanced ++ [dm]) as Hin by (do 2 right; left).
  pose proof (proj1 (Forall_forall _ _) components_render _a Hin [("color", JsStr "red")]%string None) as H.
  apply (Forall_inv (H ltac:(intros f n p E; discriminate E))).
Defined.

Example badge_without_kind :
  style_text (page [] None) (own Ju) = Raise TypeError ∧
  is_ok (style_text (page [("type", JsStr "warning")]%string None) (own Ju)) = true.
Proof. vm_compute. done. Qed.
