(* ===== verification/JsonPointer.v ===== *)
(** * JSON pointers

    The references of the documentation viewer (redoc.standalone.js): the pointer
    library (module 3573) and the class [Ua] built on it: pointers to lists of
    tokens and back, their parts, and what they lead to in a document. *)

From S2P Require Import Prelude PyData JsNumber JsData.
Local Open Scope Z_scope.

(** ** Tokens *)

(** Every occurrence of two characters replaced by one, from the left. *)
Fixpoint replace_pair (a b c : ascii) (s : string) : string :=
  match s with
  | String x (String y t as s') =>
      if Ascii.eqb x a && Ascii.eqb y b then String c (replace_pair a b c t) else String x (replace_pair a b c s')
  | s => s
  end.
(** Every occurrence of a character replaced by a text. *)
Fixpoint replace_char (a : ascii) (w s : string) : string :=
  match s with
  | EmptyString => EmptyString
  | String x s => if Ascii.eqb x a then w +:+ replace_char a w s else String x (replace_char a w s)
  end.

Definition escape (s : string) : string := replace_char "/" "~1" (replace_char "~" "~0" s).
Definition unescape (s : string) : string := replace_pair "~" "0" "~" (replace_pair "~" "1" "/" s).

(** [parse] of the library and of [Ua], which drops a leading "#". *)
Definition parse_tokens (e : string) : result (list string) :=
  match e with
  | EmptyString => Ok []
  | String c s =>
      if Ascii.eqb c "/" then Ok (unescape <$> split_on "/" s)
      else Raise (OtherError ("Invalid JSON pointer: " +:+ e))
  end.
Definition without_hash (e : string) : string :=
  match e with String c s => if Ascii.eqb c "#" then s else e | _ => e end.
Definition parse (e : string) : result (list string) := parse_tokens (without_hash e).

Definition compile (l : list string) : string :=
  match l with [] => EmptyString | l => "/" +:+ join "/" (escape <$> l) end.

(** ** The parts of a pointer *)

(** [Ua.baseName(e, t)]: undefined if there are not so many tokens. *)
Definition baseName (e : string) (t : nat) : result (option string) :=
  n ← parse e; Ok (if (t <=? length n)%nat then n !! (length n - t)%nat else None).
(** [n.slice(0, length - t)]: a negative end counts from the end of the list. *)
Definition dirName (e : string) (t : nat) : result string :=
  n ← parse e;
  Ok (compile (take (if (t <=? length n)%nat then length n - t else length n - (t - length n))%nat n)).
Definition relative (e t : string) : result (list string) :=
  n ← parse e; m ← parse t; Ok (drop (length n) m).
Definition join_pointer (e : string) (t : list string) : result string := n ← parse e; Ok (compile (n ++ t)).

(** ** What a pointer leads to *)

(** An index of an array as it is written. *)
Definition element (l : list jsval) (k : string) : option jsval :=
  List.find (λ _, true) (omap (λ '(i, v), if String.eqb k (pretty (Z.of_nat i)) then Some v else None) (imap pair l)).
(** [o in e ? e[o] : error]; a primitive is an error, null too. *)
Definition step (e : jsval) (o : string) : result jsval :=
  let invalid := Raise (OtherError ("Invalid reference token: " +:+ o)) in
  match e with
  | JsObj l => match lookup_key o l with Some v => Ok v | None => invalid end
  | JsArr l => match element l o with Some v => Ok v | None => invalid end
  | JsNull => Raise TypeError
  | _ => invalid
  end.
Fixpoint walk_tokens (e : jsval) (ks : list string) : result jsval :=
  match ks with [] => Ok e | k :: ks => v ← step e k; walk_tokens v ks end.
(** [get(e, t)] of the library, whose [parse] is replaced by that of [Ua]. *)
Definition get (e : jsval) (t : string) : result jsval := ks ← parse t; walk_tokens e ks.

(** ** Round trips *)

(** What is left of a token between the two steps of [unescape]. *)
Fixpoint tilde_escaped (s : string) : string :=
  match s with
  | EmptyString => EmptyString
  | String c s => if Ascii.eqb c "~" then "~0" +:+ tilde_escaped s else String c (tilde_escaped s)
  end.

Lemma escape_cons c s :
  escape (String c s) =
    (if Ascii.eqb c "~" then "~0" else if Ascii.eqb c "/" then "~1" else String c EmptyString) +:+ escape s.
Proof.
  unfold escape. cbn [replace_char]. destruct (Ascii.eqb_spec c "~") as [->|Hc]; [done|]. cbn [replace_char].
  by destruct (Ascii.eqb_spec c "/").
Qed.

Lemma replace_pair_other a b c x s : Ascii.eqb x a = false → replace_pair a b c (String x s) = String x (replace_pair a b c s).
Proof. intros Hx. destruct s as [|y s]; [done|]. cbn. by rewrite Hx. Qed.

Lemma unescape_slash s : replace_pair "~" "1" "/" (escape s) = tilde_escaped s.
Proof.
  induction s as [|c s IH]; [done|]. rewrite escape_cons. cbn [tilde_escaped].
  destruct (Ascii.eqb_spec c "~") as [->|Hc].
  - change ("~0" +:+ escape s) with (String "~" (String "0" (escape s))).
    assert (∀ t, replace_pair "~" "1" "/" (String "~" (String "0" t)) = String "~" (replace_pair "~" "1" "/" (String "0" t))) as -> by done.
    rewrite replace_pair_other by done. by rewrite IH.
  - destruct (Ascii.eqb_spec c "/") as [->|Hs].
    + change ("~1" +:+ escape s) with (String "~" (String "1" (escape s))). cbn [replace_pair]. by rewrite IH.
    + cbn [String.append]. rewrite replace_pair_other by (by apply Ascii.eqb_neq). by rewrite IH.
Qed.

Lemma unescape_tilde s : replace_pair "~" "0" "~" (tilde_escaped s) = s.
Proof.
  induction s as [|c s IH]; [done|]. cbn [tilde_escaped]. destruct (Ascii.eqb_spec c "~") as [->|Hc].
  - change ("~0" +:+ tilde_escaped s) with (String "~" (String "0" (tilde_escaped s))). cbn [replace_pair]. by rewrite IH.
  - rewrite replace_pair_other by (by apply Ascii.eqb_neq). by rewrite IH.
Qed.

Lemma unescape_escape s : unescape (escape s) = s.
Proof. unfold unescape. by rewrite unescape_slash, unescape_tilde. Qed.

Lemma escape_no_slash s : has_char "/" (escape s) = false.
Proof.
  induction s as [|c s IH]; [done|]. rewrite escape_cons, has_char_app, IH, orb_false_r.
  destruct (Ascii.eqb_spec c "~"); [done|]. destruct (Ascii.eqb_spec c "/"); [done|]. cbn.
  by rewrite bool_decide_eq_false_2.
Qed.

Lemma parse_slash t : parse (String "/" t) = Ok (unescape <$> split_on "/" t).
Proof. done. Qed.
Lemma compile_slash l : l ≠ [] → compile l = String "/" (join "/" (escape <$> l)).
Proof. by destruct l. Qed.

Lemma unescape_all (l : list string) : unescape <$> (escape <$> l) = l.
Proof. induction l as [|s l IH]; [done|]. rewrite !fmap_cons, IH. by rewrite unescape_escape. Qed.

Lemma tokens_survive l : parse (compile l) = Ok l.
Proof.
  destruct (decide (l = [])) as [->|Hl]; [done|]. rewrite compile_slash, parse_slash by done.
  rewrite split_on_join; [|by destruct l|apply Forall_fmap, Forall_true; intros; apply escape_no_slash].
  by rewrite unescape_all.
Qed.

(** C23: Tokens survive the round trip through a pointer, whatever characters they
    have, "/" and "~" among them. *)
Theorem parse_compile l : parse (compile l) = Ok l.
Proof. apply tokens_survive. Qed.

(** The parts of a pointer fit together: joining tokens to a pointer appends
    them, the base name of what was joined is the token, the directory is the
    pointer it was joined to, and what is relative to that pointer are the tokens. *)
Theorem join_parts e n t ts :
  parse e = Ok n →
  ∃ j, join_pointer e (ts ++ [t]) = Ok j ∧ parse j = Ok (n ++ ts ++ [t]) ∧ baseName j 1 = Ok (Some t) ∧
       dirName j 1 = Ok (compile (n ++ ts)) ∧ relative e j = Ok (ts ++ [t]).
Proof.
  intros He. exists (compile (n ++ ts ++ [t])). unfold join_pointer, baseName, dirName, relative.
  rewrite He, !tokens_survive. cbn [mbind result_bind]. rewrite !length_app. cbn [length].
  split_and!; try done.
  - replace (_ <=? _)%nat with true by (symmetry; apply Nat.leb_le; lia).
    do 2 f_equal. rewrite app_assoc, lookup_app_r by (rewrite length_app; lia). rewrite length_app.
    by replace (_ - _)%nat with 0%nat by lia.
  - replace (1 <=? _)%nat with true by (symmetry; apply Nat.leb_le; lia). rewrite app_assoc.
    rewrite take_app_length' by (rewrite length_app; lia). done.
  - by rewrite drop_app_length.
Qed.
Lemma join_parts_witness :
  ∃ j, join_pointer "#/paths" ["a/b"; "get"]%string = Ok j ∧ parse j = Ok ["paths"; "a/b"; "get"]%string ∧
       baseName j 1 = Ok (Some "get"%string) ∧ dirName j 1 = Ok (compile ["paths"; "a/b"]%string) ∧
       relative "#/paths" j = Ok ["a/b"; "get"]%string.
Proof. apply (join_parts "#/paths" ["paths"%string] "get" ["a/b"%string]). reflexivity. Defined.

Example pointer_ex :
  [compile ["a/b"; "m~n"; EmptyString]; compile []]%string = ["/a~1b/m~0n/"; EmptyString]%string ∧
  get (JsObj [("a/b", JsArr [JsNull; JsStr "x"])]) "/a~1b/1" = Ok (JsStr "x") ∧ parse "x" = Raise (OtherError "Invalid JSON pointer: x").
Proof. split_and!; reflexivity. Qed.
