(* ===== verification/OpenApi.v ===== *)
(** * Reading an OpenAPI document

    The helpers of the documentation viewer (redoc.standalone.js) that look at
    parts of the document: status codes ([es]), names of operations ([ns]) and of
    references ([ds], [fs]), whether a schema is primitive ([is]), the texts of
    constraints ([hs], [ms]), the order of fields ([gs]), extensions ([ws]). Names
    in brackets are those of the bundle. *)

From Stdlib Require Import Sorted.
From S2P Require Import Prelude PyData JsNumber JsData Css.
Local Open Scope Z_scope.

(** ** Values *)

(** [e.k] of an object; keys that every object inherits are not looked at. *)
Definition field (k : string) (e : jsval) : jsval :=
  match e with JsObj l => default JsUndef (lookup_key k l) | _ => JsUndef end.
Definition defined (v : jsval) : bool := match v with JsUndef => false | _ => true end.
Definition is_array (v : jsval) : bool := match v with JsArr _ => true | _ => false end.
Definition is_boolean (v : jsval) : bool := match v with JsBool _ => true | _ => false end.
Definition number (v : jsval) : option num := match v with JsNum x => Some x | _ => None end.
(** [v === w]; arrays and objects are never the same. *)
Definition same (v w : jsval) : bool :=
  match v, w with
  | JsUndef, JsUndef | JsNull, JsNull => true
  | JsBool a, JsBool b => Bool.eqb a b
  | JsNum x, JsNum y => neqb x y
  | JsStr s, JsStr t => String.eqb s t
  | _, _ => false
  end.
Definition keys_of (v : jsval) : list string := match v with JsObj l => fst <$> l | _ => [] end.
Definition text (v : jsval) : string := js_string v.

(** ** Status codes *)

Definition is_digit (c : ascii) : bool := ((48 <=? char_code c) && (char_code c <=? 57))%N.
Definition is_x (c : ascii) : bool := Ascii.eqb (lower_char c) "x".
(** [Ja]: a digit and two "x" anywhere. *)
Fixpoint has_range (s : string) : bool :=
  match s with
  | String a t => match t with
                  | String b (String c _) => (is_digit a && is_x b && is_x c) || has_range t
                  | _ => false
                  end
  | EmptyString => false
  end.

(** [es(e, t)]: the kind of a response, for a code, a range or "default". *)
Definition es (e : jsval) (t : bool) : result string :=
  if is_str "default" e then Ok (if t then "error" else "success")%string
  else
    let n := match e with JsStr s => parse_int 10 s | e => js_number e end in
    let n := match e with JsStr s => if has_range s then nmul n (of_Z 100) else n | _ => n end in
    if nltb n (of_Z 100) || nltb (of_Z 599) n then Raise (OtherError "invalid HTTP code")
    else Ok (if nleb (of_Z 300) n && nltb n (of_Z 400) then "redirect"
             else if nleb (of_Z 400) n then "error"
             else if nltb n (of_Z 200) then "info" else "success")%string.

(** [ns]: the keys of a path that are operations, or a reference. *)
Definition ns (e : string) : bool :=
  bool_decide (e ∈ ["get"; "post"; "put"; "head"; "patch"; "delete"; "options"; "$ref"]%string).
(** [xs]. *)
Definition xs (e : string) : string :=
  if String.eqb e "delete" then "del" else if String.eqb e "options" then "opts" else e.

(** ** Names of references *)

Definition name_after (prefix e : string) : option string :=
  if String.prefix prefix e then
    let n := string_drop (String.length prefix) e in
    if has_char "/" n || String.eqb n EmptyString then None else Some n
  else None.
(** [fs]: the name in "#/components/schemas/name" or "#/components/pathItems/name". *)
Definition fs (e : jsval) : option string :=
  match e with
  | JsStr e => match name_after "#/components/schemas/" e with
               | Some n => Some n
               | None => name_after "#/components/pathItems/" e
               end
  | _ => None
  end.
Definition ds (e : jsval) : bool := match fs e with Some _ => true | None => false end.

(** ** Primitive schemas *)

Definition has_type (n : string) (t : jsval) : bool :=
  match t with JsArr l => existsb (is_str n) l | t => is_str n t end.

(** [is(e, t)] of a schema with its type; [Object.keys(null)] and the properties of
    null are errors. *)
Fixpoint is_primitive (e t : jsval) : result bool :=
  match e with
  | JsUndef | JsNull => Raise TypeError
  | JsObj l =>
      let f k := default JsUndef (lookup_key k l) in
      if js_truthy (f "x-circular-ref"%string) then Ok true
      else if defined (f "oneOf"%string) || defined (f "anyOf"%string) then Ok false
      else if js_truthy (f "if"%string) && (js_truthy (f "then"%string) || js_truthy (f "else"%string)) then Ok false
      else
        n ← (if has_type "object" t then
               match f "properties"%string with
               | JsUndef => Ok (negb (defined (f "additionalProperties"%string) || defined (f "unevaluatedProperties"%string)
                                      || defined (f "patternProperties"%string)))
               | JsNull => Raise TypeError
               | JsObj [] | JsArr [] | JsBool _ | JsNum _ | JsStr EmptyString => Ok true
               | _ => Ok false
               end
             else Ok true);
        if negb (is_array (f "items"%string)) && negb (is_array (f "prefixItems"%string)) && defined (f "items"%string)
           && negb (is_boolean (f "items"%string)) && has_type "array" t
        then (fix find l :=
          match l with
          | [] => Ok n
          | (k, w) :: l =>
              if String.eqb "items" k then
                match w with JsObj lw => is_primitive w (default JsUndef (lookup_key "type"%string lw)) | _ => is_primitive w JsUndef end
              else find l
          end) l
        else Ok n
  | _ => Ok true
  end.
(** [is(e)]. *)
Definition is_ (e : jsval) : result bool := is_primitive e (field "type" e).

(** ** Constraints *)

(** [hs]: a range of lengths or counts. *)
Definition hs (e : string) (t n : jsval) : option string :=
  if defined t && defined n then
    Some (if same t n then "= " +:+ text t +:+ " " +:+ e else "[ " +:+ text t +:+ " .. " +:+ text n +:+ " ] " +:+ e)
  else if defined n then Some ("<= " +:+ text n +:+ " " +:+ e)
  else if defined t then Some (if is_num 1 t then "non-empty" else ">= " +:+ text t +:+ " " +:+ e)
  else None.

Fixpoint zeros_one (s : string) : bool :=
  match s with
  | String c EmptyString => Ascii.eqb c "1"
  | String c s => Ascii.eqb c "0" && zeros_one s
  | EmptyString => false
  end.
(** The text of [multipleOf]: 0.01 is two decimal places. *)
Definition multiple_text (v : jsval) : result (option string) :=
  match v with
  | JsUndef => Ok None
  | JsNull => Raise TypeError
  | v =>
      let t := text v in
      Ok (Some (if String.prefix "0." t && zeros_one (string_drop 2 t)
                then "decimal places <= " +:+ pretty (Z.of_nat (String.length (string_drop 2 t)))
                else "multiple of " +:+ t))
  end.

(** The bounds of a number: the values and whether they are excluded. *)
Record bounds := { least : jsval; least_out : bool; most : jsval; most_out : bool }.
Definition or_number (v : jsval) (x : num) : num := match v with JsUndef | JsNull => x | v => js_number v end.
Definition infinite (s : bool) : num := S754_infinity s.
Definition bounds_of (e : jsval) : bounds :=
  let xmin := field "exclusiveMinimum" e in
  let xmax := field "exclusiveMaximum" e in
  {| least := match xmin with
              | JsNum x => JsNum (nmin x (or_number (field "minimum" e) (infinite false)))
              | _ => field "minimum" e
              end;
     least_out := match xmin with JsNum _ => true | v => js_truthy v end;
     most := match xmax with
             | JsNum x => JsNum (nmax x (or_number (field "maximum" e) (infinite true)))
             | _ => field "maximum" e
             end;
     most_out := match xmax with JsNum _ => true | v => js_truthy v end |}.
Definition bounds_text (b : bounds) : option string :=
  let lo := text (least b) in
  let hi := text (most b) in
  if defined (least b) && defined (most b) then
    Some ((if least_out b then "( " else "[ ") +:+ lo +:+ " .. " +:+ hi +:+ (if most_out b then " )" else " ]"))
  else if defined (most b) then Some ((if most_out b then "< " else "<= ") +:+ hi)
  else if defined (least b) then Some ((if least_out b then "> " else ">= ") +:+ lo)
  else None.

(** [ms]: the texts of the constraints of a schema. *)
Definition ms (e : jsval) : result (list string) :=
  m ← multiple_text (field "multipleOf" e);
  Ok (omap id [hs "characters" (field "minLength" e) (field "maxLength" e);
               hs "items" (field "minItems" e) (field "maxItems" e);
               hs "properties" (field "minProperties" e) (field "maxProperties" e);
               m; bounds_text (bounds_of e)]
      ++ (if js_truthy (field "uniqueItems" e) then ["unique"%string] else [])).

(** ** The order of fields *)

Record model {A : Type} := { name : string; required : bool; payload : A }.
Arguments model : clear implicits.

Fixpoint indexOf (n : string) (l : list string) : Z :=
  match l with [] => -1 | m :: l => if String.eqb n m then 0 else let i := indexOf n l in if i <? 0 then -1 else i + 1 end.

(** A stable sort by a number. *)
Section sort.
Context {A : Type} (key : A → Z).
Fixpoint insert_by (x : A) (l : list A) : list A :=
  match l with [] => [x] | y :: l => if key x <=? key y then x :: y :: l else y :: insert_by x l end.
Fixpoint sort_by (l : list A) : list A := match l with [] => [] | x :: l => insert_by x (sort_by l) end.
End sort.

(** [gs(e, t)]: the required fields in the order of [t], then the other required
    ones, then the rest. *)
Definition is_listed {A} (t : list string) (m : model A) : bool := required m && bool_decide (name m ∈ t).
Definition is_unlisted {A} (t : list string) (m : model A) : bool := required m && negb (bool_decide (name m ∈ t)).
Definition gs {A} (e : list (model A)) (t : list string) : list (model A) :=
  sort_by (λ m, indexOf (name m) t) (List.filter (is_listed t) e) ++ List.filter (is_unlisted t) e
    ++ List.filter (negb ∘ required) e.

(** ** Extensions *)

Definition known_extensions : list string := ["x-circular-ref"; "x-parentRefs"; "x-refsStack"; "x-code-samples";
  "x-codeSamples"; "x-displayName"; "x-examples"; "x-ignoredHeaderParameters"; "x-logo"; "x-nullable"; "x-servers";
  "x-tagGroups"; "x-traitTag"; "x-additionalPropertiesName"; "x-explicitMappingOnly"]%string.
(** [ws(e, t)]: the extensions to show, all that are not the viewer's own or those
    that are listed. *)
Definition ws (e : list (string * jsval)) (t : bool + list string) : list (string * jsval) :=
  List.filter (λ '(k, _),
    String.prefix "x-" k &&
    match t with inl b => b && negb (bool_decide (k ∈ known_extensions)) | inr l => bool_decide (k ∈ l) end) e.

(** ** Facts *)

(** The kind of a status code. *)
Definition kind_of (z : Z) : result string :=
  if (z <? 100) || (599 <? z) then Raise (OtherError "invalid HTTP code")
  else Ok (if z <? 200 then "info"%string else if z <? 300 then "success"%string
           else if z <? 400 then "redirect"%string else "error"%string).

Definition same_result (a b : result string) : bool :=
  match a, b with
  | Ok s, Ok t => String.eqb s t
  | Raise (OtherError s), Raise (OtherError t) => String.eqb s t
  | _, _ => false
  end.
Lemma same_result_eq a b : same_result a b = true → a = b.
Proof. destruct a as [s|[]], b as [t|[]]; try done; cbn; by intros ->%String.eqb_eq. Qed.

(** A status code, as a number or as its digits, gets the kind of its class,
    1xx to 5xx; any other number of up to three digits is an error. *)
Theorem es_codes z t : 0 <= z < 1000 → es (JsNum (of_Z z)) t = kind_of z ∧ es (JsStr (pretty z)) t = kind_of z.
Proof.
  intros Hz. set (test := λ t z, same_result (es (JsNum (of_Z z)) t) (kind_of z) && same_result (es (JsStr (pretty z)) t) (kind_of z)).
  assert (forallb (test true) (seqZ 0 1000) && forallb (test false) (seqZ 0 1000) = true) as [Ht Hf]%andb_true_iff
    by (vm_compute; reflexivity).
  assert (test t z = true) as H.
  { destruct t; [eapply forallb_forall in Ht; [exact Ht|]|eapply forallb_forall in Hf; [exact Hf|]];
      apply list_elem_of_In, elem_of_seqZ; lia. }
  apply andb_true_iff in H as [Ha Hb]. split; by apply same_result_eq.
Qed.
Lemma es_codes_witness : es (JsNum (of_Z 404)) false = kind_of 404 ∧ es (JsStr (pretty 404)) false = kind_of 404.
Proof. apply (es_codes 404 false). lia. Defined.

Example es_ex :
  map (λ s, es (JsStr s) false) ["2xx"; "4XX"; "default"; "abc"; "9xx"]%string
  = [Ok "success"; Ok "error"; Ok "success"; Ok "success"; Raise (OtherError "invalid HTTP code")]%string.
Proof. vm_compute. reflexivity. Qed.

(** *** The order of fields *)

Section sorting.
Context {A : Type} (key : A → Z).
Lemma insert_by_Permutation x l : insert_by key x l ≡ₚ x :: l.
Proof. induction l as [|y l IH]; cbn; [done|]. destruct (_ <=? _); [done|]. rewrite IH. apply Permutation_swap. Qed.
Lemma sort_by_Permutation l : sort_by key l ≡ₚ l.
Proof. induction l as [|x l IH]; cbn; [done|]. by rewrite insert_by_Permutation, IH. Qed.
Lemma insert_by_sorted x l : StronglySorted (λ a b, key a <= key b) l → StronglySorted (λ a b, key a <= key b) (insert_by key x l).
Proof.
  induction 1 as [|y l Hl IH Hy]; cbn; [by repeat constructor|]. destruct (Z.leb_spec (key x) (key y)).
  - constructor; [by constructor|]. constructor; [done|]. eapply Forall_impl; [exact Hy|]. cbn. lia.
  - constructor; [done|]. rewrite insert_by_Permutation. constructor; [lia|done].
Qed.
Lemma sort_by_sorted l : StronglySorted (λ a b, key a <= key b) (sort_by key l).
Proof. induction l as [|x l IH]; cbn; [constructor|]. by apply insert_by_sorted. Qed.
End sorting.

Lemma filter_three {A} (p q r : A → bool) l :
  (∀ x, xorb (p x) (xorb (q x) (r x)) && negb (p x && q x) && negb (q x && r x) && negb (p x && r x) = true) →
  List.filter p l ++ List.filter q l ++ List.filter r l ≡ₚ l.
Proof.
  intros H. induction l as [|x l IH]; [done|]. cbn. specialize (H x).
  destruct (p x), (q x), (r x); try discriminate; cbn.
  - by rewrite IH.
  - by rewrite <- Permutation_middle, IH.
  - rewrite app_assoc, <- Permutation_middle, <- app_assoc. by rewrite IH.
Qed.

(** Sorting the fields keeps every field: the required fields the schema
    lists come first, in the order of its list, then the other required fields,
    then the optional ones, both in the order they had. *)
Theorem gs_order {A} (e : list (model A)) t :
  ∃ listed, gs e t = listed ++ List.filter (is_unlisted t) e ++ List.filter (negb ∘ required) e ∧
    listed ≡ₚ List.filter (is_listed t) e ∧
    StronglySorted (λ a b, indexOf (name a) t <= indexOf (name b) t) listed ∧ gs e t ≡ₚ e.
Proof.
  eexists. split; [reflexivity|]. split; [apply sort_by_Permutation|]. split; [apply sort_by_sorted|].
  unfold gs. rewrite sort_by_Permutation. apply filter_three. intros m. unfold is_listed, is_unlisted. cbn.
  destruct (required m), (bool_decide _); done.
Qed.

(** *** Ranges of numbers *)

(** What a schema accepts: "minimum" and "maximum", whose values are excluded if
    the exclusive forms are true, and the exclusive forms that are numbers. *)
Definition above (least : option num) (out : bool) (x : num) : bool :=
  match least with Some m => if out then nltb m x else nleb m x | None => true end.
Definition below (most : option num) (out : bool) (x : num) : bool :=
  match most with Some m => if out then nltb x m else nleb x m | None => true end.
Definition flag (v : jsval) : bool := match v with JsBool b => b | _ => false end.
Definition accepts (e : jsval) (x : num) : bool :=
  let xmin := field "exclusiveMinimum" e in
  let xmax := field "exclusiveMaximum" e in
  above (number (field "minimum" e)) (flag xmin) x && above (number xmin) true x
  && below (number (field "maximum" e)) (flag xmax) x && below (number xmax) true x.
(** What the displayed bounds say. *)
Definition in_bounds (b : bounds) (x : num) : bool :=
  above (number (least b)) (least_out b) x && below (number (most b)) (most_out b) x.

(** A bound is given once: a number, excluded or not by a boolean, or a number that
    is excluded. *)
Definition given_once (m xm : jsval) : Prop :=
  (∃ x, xm = JsNum x) ∧ m = JsUndef ∨ (m = JsUndef ∨ ∃ x, m = JsNum x) ∧ (xm = JsUndef ∨ ∃ b, xm = JsBool b).

Lemma nmin_infinity m : nmin m (infinite false) = m.
Proof. destruct m as [[]|[]| |[]]; done. Qed.
Lemma nmax_infinity m : nmax m (infinite true) = m.
Proof. destruct m as [[]|[]| |[]]; done. Qed.

(** The range of a number that is displayed is the range the schema accepts,
    when each bound is given in one way. *)
Theorem bounds_exact e x :
  given_once (field "minimum" e) (field "exclusiveMinimum" e) → given_once (field "maximum" e) (field "exclusiveMaximum" e) →
  in_bounds (bounds_of e) x = accepts e x.
Proof.
  intros Hmin Hmax. unfold in_bounds, accepts, bounds_of. cbn [least least_out most most_out].
  rewrite <- !andb_assoc, (andb_assoc _ _ (below _ _ x && _)). f_equal.
  - destruct Hmin as [[[m ->] ->]|[[->|[m ->]] [->|[b ->]]]]; cbn [or_number number above flag js_truthy];
      rewrite ?nmin_infinity, ?andb_true_r; done.
  - destruct Hmax as [[[m ->] ->]|[[->|[m ->]] [->|[b ->]]]]; cbn [or_number number below flag js_truthy];
      rewrite ?nmax_infinity, ?andb_true_r; done.
Qed.
Definition one_to_ten : jsval :=
  JsObj [("minimum", JsNum (of_Z 1)); ("exclusiveMinimum", JsBool true); ("maximum", JsNum (of_Z 10))]%string.
Lemma bounds_exact_witness :
  in_bounds (bounds_of one_to_ten) (of_Z 1) = accepts one_to_ten (of_Z 1) ∧ bounds_text (bounds_of one_to_ten) = Some "( 1 .. 10 ]"%string.
Proof.
  split; [|vm_compute; reflexivity]. apply bounds_exact; right; (split; [right; eexists; reflexivity|]).
  - right. eexists. reflexivity.
  - left. reflexivity.
Defined.

Lemma SFcompare_swap x y : SFcompare y x = option_map CompOpp (SFcompare x y).
Proof.
  destruct x as [[]|[]| |[] m e], y as [[]|[]| |[] m' e']; try done; cbn; rewrite (Z.compare_antisym e e');
    destruct (Z.compare_spec e e'); cbn; try done; f_equal;
    rewrite (Pos.compare_cont_antisym m m' Eq : _ = Pos.compare_cont Eq m' m) || rewrite <- (Pos.compare_cont_antisym m m' Eq : _ = Pos.compare_cont Eq m' m);
    by destruct (Pos.compare_cont Eq m m').
Qed.
Lemma nltb_not_nleb x y : nltb x y = true → nleb y x = false.
Proof. unfold nltb, nleb, SFltb, SFleb. rewrite (SFcompare_swap x y). by destruct (SFcompare x y) as [[]|]. Qed.
Lemma nltb_asym x y : nltb x y = true → nltb y x = false.
Proof. unfold nltb, SFltb. rewrite (SFcompare_swap x y). by destruct (SFcompare x y) as [[]|]. Qed.
Lemma nmin_lt x y : nltb x y = true → nmin x y = x.
Proof.
  intros H. unfold nmin. destruct x as [[]|[]| |[] m e], y as [[]|[]| |[] m' e']; try done; cbn [is_nan orb]; by rewrite (nltb_asym _ _ H).
Qed.

(** When a schema gives both a "minimum" and a smaller "exclusiveMinimum", as
    OpenAPI 3.1 allows, the greater of the two is lost: the range displayed starts
    above the smaller one and takes in numbers the schema rejects. *)
Theorem bounds_too_wide a b x :
  nltb a x = true → nltb x b = true → nltb a b = true →
  let e := JsObj [("minimum", JsNum b); ("exclusiveMinimum", JsNum a)]%string in
  bounds_text (bounds_of e) = Some ("> " +:+ string_of_num a) ∧ in_bounds (bounds_of e) x = true ∧ accepts e x = false.
Proof.
  intros Hax Hxb Hab e. unfold bounds_text, in_bounds, accepts, bounds_of. cbn -[nltb nleb nmin].
  rewrite (nmin_lt _ _ Hab), Hax, (nltb_not_nleb _ _ Hxb). done.
Qed.
Lemma bounds_too_wide_witness :
  let e := JsObj [("minimum", JsNum (of_Z 10)); ("exclusiveMinimum", JsNum (of_Z 5))]%string in
  bounds_text (bounds_of e) = Some ("> " +:+ string_of_num (of_Z 5)) ∧ in_bounds (bounds_of e) (of_Z 7) = true ∧ accepts e (of_Z 7) = false.
Proof. apply bounds_too_wide; vm_compute; reflexivity. Defined.
