(* ===== verification/SpecParser.v ===== *)
(** * References of an OpenAPI document

    The parser of the documentation viewer ([vc] of redoc.standalone.js): what a
    reference leads to ([byRef], [deref]) with the stack of references that detects
    circular schemas, how the siblings of a reference are merged into it
    ([mergeRefs]) and how oneOf is moved out of allOf ([hoistOneOfs]). Names in
    brackets are those of the bundle. *)

From S2P Require Import Prelude PyData JsNumber JsData JsonPointer OpenApi.
Local Open Scope Z_scope.

(** ** [decodeURIComponent] *)

Definition malformed : exn := OtherError "URIError: URI malformed".
Definition hex_digit_value (c : ascii) : option N :=
  let n := char_code (lower_char c) in
  if ((48 <=? n) && (n <=? 57))%N then Some (n - 48)%N else if ((97 <=? n) && (n <=? 102))%N then Some (n - 87)%N else None.
(** The bytes after a first byte of UTF-8; none if it is no first byte. *)
Definition following (b : N) : option nat :=
  if (b <? 128)%N then Some 0%nat else if (b <? 194)%N then None else if (b <? 224)%N then Some 1%nat
  else if (b <? 240)%N then Some 2%nat else if (b <? 245)%N then Some 3%nat else None.
(** The range of the second byte, which rules out surrogates and long forms. *)
Definition second_ok (b c : N) : bool :=
  let lo := if N.eqb b 224 then 160%N else if N.eqb b 240 then 144%N else 128%N in
  let hi := if N.eqb b 237 then 159%N else if N.eqb b 244 then 143%N else 191%N in
  ((lo <=? c) && (c <=? hi))%N.
(** [more] continuation bytes are due, the next within the check [ok]. *)
Fixpoint decode (s : string) (more : nat) (ok : N → bool) : result string :=
  match s with
  | EmptyString => match more with O => Ok EmptyString | S _ => Raise malformed end
  | String p t =>
      if Ascii.eqb p "%" then
        match t with
        | String x (String y t) =>
            match hex_digit_value x, hex_digit_value y with
            | Some a, Some b =>
                let c := (16 * a + b)%N in
                match more with
                | O => match following c with
                       | Some n => String (ascii_of_N c) <$> decode t n (second_ok c)
                       | None => Raise malformed
                       end
                | S n => if ok c then String (ascii_of_N c) <$> decode t n (λ c, (128 <=? c) && (c <=? 191))%N else Raise malformed
                end
            | _, _ => Raise malformed
            end
        | _ => Raise malformed
        end
      else match more with O => String p <$> decode t 0 ok | S _ => Raise malformed end
  end.
Definition decodeURIComponent (s : string) : result string := decode s 0 (λ _, true).

(** ** Objects *)

(** The own entries of a value, as they are spread or assigned. *)
Definition entries_of (v : jsval) : list (string * jsval) :=
  match v with
  | JsObj l => l
  | JsArr l => imap (λ i v, (pretty (Z.of_nat i), v)) l
  | JsStr s => imap (λ i c, (pretty (Z.of_nat i), JsStr (String c EmptyString))) (list_ascii_of_string s)
  | _ => []
  end.
(** [{...v, ...w}]: later entries replace in place. *)
Definition assign (l m : list (string * jsval)) : list (string * jsval) := foldl (λ l '(k, v), set_key k v l) l m.
Definition spread (v w : jsval) : jsval := JsObj (assign (entries_of v) (entries_of w)).
(** [gc(e, t)]: without some keys. *)
Definition without (ks : list string) (l : list (string * jsval)) : list (string * jsval) :=
  List.filter (λ '(k, _), negb (existsb (String.eqb k) ks)) l.

(** ** References *)

Record parser := { spec : jsval; allowMergeRefs : bool; ignoreNamedSchemas : list string }.

Definition stack := list jsval.
(** [yc] and [bc]: a reference, or a stack, put on top. *)
Definition yc (e : stack) (t : jsval) : stack :=
  if js_truthy t && negb (same (default JsUndef (last e)) t) then e ++ [t] else e.
Definition bc (e : stack) (t : jsval) : stack :=
  if js_truthy t then match t with JsArr l => e ++ l | t => e ++ [t] end else e.

Definition isRef (e : jsval) : bool :=
  js_truthy e && match field "$ref" e with JsUndef | JsNull => false | _ => true end.

Definition empty : jsval := JsObj [].
(** [byRef]: the part of the document, or an empty object; a malformed escape
    sequence is an error. *)
Definition byRef (p : parser) (e : jsval) : result jsval :=
  match e with
  | JsStr e =>
      let e := match e with String "#" _ => e | _ => "#" +:+ e end in
      d ← decodeURIComponent e;
      Ok (match JsonPointer.get (spec p) d with Ok v => js_or v empty | Raise _ => empty end)
  | _ => Raise TypeError
  end.

Definition merged_siblings : list string :=
  ["description"; "title"; "externalDocs"; "x-refsStack"; "x-parentRefs"; "readOnly"; "writeOnly"]%string.
Definition own_siblings : list string := ["description"; "title"; "readOnly"; "writeOnly"]%string.
(** [mergeRefs(e, t, n)]: what stands beside a reference, merged into what it leads
    to or, for a schema, put in an allOf with it. *)
Definition mergeRefs (e t : jsval) (n : bool) : jsval :=
  let o := without ["$ref"]%string (entries_of e) in
  match o with
  | [] => t
  | _ =>
      if n && existsb (λ k, negb (existsb (String.eqb k) merged_siblings)) (fst <$> o) then
        JsObj [("allOf"%string, JsArr [
          JsObj ((λ k, (k, field k (JsObj o))) <$> own_siblings); t; JsObj (without own_siblings o)])]
      else spread t (JsObj o)
  end.

Definition circular_of (v : jsval) : jsval := spread v (JsObj [("x-circular-ref"%string, JsBool true)]).
Definition max_stack : nat := 999.

(** [deref(e, t, n)]: [None] when the fuel is used up, as the stack of calls is. *)
Fixpoint deref (fuel : nat) (p : parser) (e : jsval) (t : stack) (n : bool) : option (result (jsval * stack)) :=
  match fuel with
  | O => None
  | S fuel =>
      let r := field "x-refsStack" e in
      let t := bc t r in
      if isRef e then
        let ref := field "$ref" e in
        match ref with
        | JsStr _ =>
            let ignored := match fs ref with Some n => bool_decide (n ∈ ignoreNamedSchemas p) | None => false end in
            if ignored then
              Some (Ok (JsObj [("type", JsStr "object"); ("title", JsStr (default EmptyString (fs ref)))]%string, t))
            else
              match byRef p ref with
              | Raise x => Some (Raise x)
              | Ok i =>
                  let merged i := if allowMergeRefs p then mergeRefs e i n else i in
                  if existsb (same ref) t || (max_stack <? length t)%nat then Some (Ok (merged (circular_of i), yc t ref))
                  else if isRef i then
                    match deref fuel p i t n with
                    | Some (Ok (i, _)) => Some (Ok (merged i, yc t ref))
                    | r => r
                    end
                  else Some (Ok (merged i, yc t ref))
              end
        | _ => Some (Raise TypeError)
        end
      else Some (Ok (e, bc t r))
  end.

(** ** oneOf inside allOf *)

(** [hoistOneOfs(e, t)]: the first member of allOf with a oneOf is distributed
    over the others; a member that is undefined or null before it is an error. *)
Fixpoint split_oneOf (before : list jsval) (l : list jsval) : result (option (list jsval * list jsval * list jsval)) :=
  match l with
  | [] => Ok None
  | v :: l =>
      o ← js_get "oneOf" v;
      match o with JsArr os => Ok (Some (before, os, l)) | _ => split_oneOf (before ++ [v]) l end
  end.
Definition hoistOneOfs (e : jsval) (t : stack) : result jsval :=
  n ← js_get "allOf" e;
  match n with
  | JsArr l =>
      r ← split_oneOf [] l;
      Ok match r with
         | Some (before, os, after) =>
             JsObj [("oneOf"%string, JsArr ((λ o, JsObj [("allOf", JsArr (before ++ [o] ++ after)); ("x-refsStack", JsArr t)]%string) <$> os))]
         | None => e
         end
  | JsNull => Raise TypeError
  | _ => Ok e
  end.

(** ** Dereferencing *)

(** The references that are followed from a value: [leads p e k] if [k] of them are
    before something that is no reference. *)
Inductive leads (p : parser) : jsval → nat → Prop :=
  | leads_end e : isRef e = false → leads p e 0
  | leads_error e s x : field "$ref" e = JsStr s → byRef p (JsStr s) = Raise x → leads p e 0
  | leads_other e : isRef e = true → (∀ s, field "$ref" e ≠ JsStr s) → leads p e 0
  | leads_ref e s i k : field "$ref" e = JsStr s → byRef p (JsStr s) = Ok i → leads p i k → leads p e (S k).

Lemma deref_fuel p e k : leads p e k → ∀ fuel t n, (k < fuel)%nat → deref fuel p e t n ≠ None.
Proof.
  induction 1 as [e He|e s x Hs Hx|e He Hs|e s i k Hs Hi _ IH]; intros fuel t n Hf; (destruct fuel as [|fuel]; [lia|]); cbn [deref].
  - by rewrite He.
  - destruct (isRef e); [|done]. rewrite Hs, Hx. by destruct (match fs (JsStr s) with Some _ => _ | None => false end).
  - rewrite He. destruct (field "$ref" e) eqn:E; try done. by destruct (Hs s eq_refl).
  - destruct (isRef e); [|done]. rewrite Hs, Hi. destruct (match fs (JsStr s) with Some _ => _ | None => false end); [done|].
    destruct (_ || _); [done|]. destruct (isRef i); [|done]. specialize (IH fuel (bc t (field "x-refsStack" e)) n ltac:(lia)).
    by destruct (deref fuel p i _ n) as [[[? ?]|]|].
Qed.

(** C1: Dereferencing ends on every chain of references that comes to an end: as
    many nested calls as there are references in it, and one more, are enough. *)
Theorem deref_ends p e k t n : leads p e k → deref (S k) p e t n ≠ None.
Proof. intros H. apply (deref_fuel p e k H). lia. Qed.

Definition schemas (l : list (string * jsval)) : parser :=
  {| spec := JsObj [("components", JsObj [("schemas", JsObj l)])]%string; allowMergeRefs := false; ignoreNamedSchemas := [] |}.
Definition ref_to (n : string) : jsval := JsObj [("$ref", JsStr ("#/components/schemas/" +:+ n))]%string.
Definition pet : parser := schemas [("Pet", JsObj [("type", JsStr "object")]); ("Dog", ref_to "Pet")]%string.
Lemma deref_ends_witness : leads pet (ref_to "Dog") 2 ∧ deref 3 pet (ref_to "Dog") [] false ≠ None.
Proof.
  assert (leads pet (ref_to "Dog") 2) as H.
  { eapply leads_ref; [reflexivity|reflexivity|]. eapply leads_ref; [reflexivity|reflexivity|]. by apply leads_end. }
  split; [exact H|]. by apply (deref_ends pet (ref_to "Dog") 2 [] false).
Defined.

(** References that only lead to each other. *)
Record ring (p : parser) (R : jsval → Prop) : Prop := {
  ring_ref e : R e → ∃ s, field "$ref" e = JsStr s ∧ isRef e = true ∧ field "x-refsStack" e = JsUndef ∧
                          match fs (JsStr s) with Some n => n ∉ ignoreNamedSchemas p | None => True end;
  ring_next e i s : R e → field "$ref" e = JsStr s → byRef p (JsStr s) = Ok i → R i;
  ring_found e s : R e → field "$ref" e = JsStr s → ∃ i, byRef p (JsStr s) = Ok i;
}.

(** References that lead only to each other are followed for ever: the stack of
    references does not grow on the way, so that the check for circular references
    never holds, and no number of nested calls is enough. *)
Theorem deref_ring p R e t n fuel :
  ring p R → R e → (length t ≤ max_stack)%nat → (∀ e, R e → field "$ref" e ∉ t) → deref fuel p e t n = None.
Proof.
  intros HR He Ht Hfresh. revert e He. induction fuel as [|fuel IH]; intros e He; [done|]. cbn [deref].
  destruct (ring_ref p R HR e He) as (s & Hs & Hr & Hx & Hign). destruct (ring_found p R HR e s He Hs) as [i Hi].
  pose proof (ring_next p R HR e i s He Hs Hi) as Hi'. rewrite Hx, Hr, Hs. cbn [bc js_truthy].
  assert ((match fs (JsStr s) with Some n => bool_decide (n ∈ ignoreNamedSchemas p) | None => false end) = false) as ->.
  { destruct (fs (JsStr s)); [|done]. by apply bool_decide_eq_false. }
  rewrite Hi. assert (existsb (same (JsStr s)) t = false) as ->.
  { apply not_true_iff_false. intros (v & Hv & Hsame)%existsb_exists. apply (Hfresh e He). rewrite Hs.
    destruct v; try done. apply String.eqb_eq in Hsame as ->. by apply list_elem_of_In. }
  replace (max_stack <? length t)%nat with false by (symmetry; apply Nat.ltb_ge; lia). cbn [orb].
  destruct (ring_ref p R HR i Hi') as (s' & _ & -> & _). by rewrite (IH i Hi').
Qed.

Definition loop : parser := schemas [("A", ref_to "B"); ("B", ref_to "A")]%string.
Lemma loop_ring : ring loop (λ e, e = ref_to "A" ∨ e = ref_to "B").
Proof.
  split.
  - intros e [->| ->]; eexists; (split; [reflexivity|]); (split; [reflexivity|]); (split; [reflexivity|]); apply not_elem_of_nil.
  - intros e i s [->| ->] [= <-] [= <-]; [by right|by left].
  - intros e s [->| ->] [= <-]; eexists; reflexivity.
Qed.
Lemma deref_ring_witness : deref (5 * max_stack) loop (ref_to "A") [] false = None.
Proof.
  apply (deref_ring loop (λ e, e = ref_to "A" ∨ e = ref_to "B") (ref_to "A") [] false (5 * max_stack)).
  - exact loop_ring.
  - by left.
  - cbn. lia.
  - intros e _. apply not_elem_of_nil.
Defined.

(** A reference that is on the stack already is not followed: what it leads to
    is marked as circular, and the stack is that of the caller with the reference
    on top. *)
Theorem deref_circular p e s i t n fuel :
  isRef e = true → field "$ref" e = JsStr s → byRef p (JsStr s) = Ok i → allowMergeRefs p = false →
  field "x-refsStack" e = JsUndef → match fs (JsStr s) with Some n => n ∉ ignoreNamedSchemas p | None => True end →
  JsStr s ∈ t →
  deref (S fuel) p e t n = Some (Ok (circular_of i, yc t (JsStr s))) ∧ field "x-circular-ref" (circular_of i) = JsBool true.
Proof.
  intros He Hs Hi Hm Hx Hign Hin. cbn [deref]. rewrite Hx, He, Hs, Hi, Hm. cbn [bc js_truthy].
  assert ((match fs (JsStr s) with Some n => bool_decide (n ∈ ignoreNamedSchemas p) | None => false end) = false) as ->.
  { destruct (fs (JsStr s)); [|done]. by apply bool_decide_eq_false. }
  assert (existsb (same (JsStr s)) t = true) as ->.
  { apply existsb_exists. exists (JsStr s). split; [by apply list_elem_of_In|]. cbn. apply String.eqb_refl. }
  cbn [orb]. split; [done|]. unfold circular_of, spread, assign. cbn [entries_of foldl field].
  generalize (entries_of i). intros l. induction l as [|[k v] l IH]; [done|]. cbn [set_key].
  destruct (String.eqb_spec "x-circular-ref" k) as [<-|Hk]; [done|]. cbn [lookup_key]. apply String.eqb_neq in Hk as ->. exact IH.
Qed.
Lemma deref_circular_witness :
  let s := "#/components/schemas/Pet"%string in
  deref 1 pet (ref_to "Pet") [JsStr s] false = Some (Ok (circular_of (JsObj [("type", JsStr "object")])%string, yc [JsStr s] (JsStr s)))
  ∧ field "x-circular-ref" (circular_of (JsObj [("type", JsStr "object")])%string) = JsBool true.
Proof.
  apply (deref_circular pet (ref_to "Pet") "#/components/schemas/Pet" (JsObj [("type", JsStr "object")])%string [JsStr "#/components/schemas/Pet"] false 0);
    try reflexivity; [apply not_elem_of_nil|by left].
Defined.

(** ** oneOf inside allOf *)

(** A schema without a list of alternatives. *)
Definition no_oneOf (v : jsval) : bool := match js_get "oneOf" v with Ok o => negb (is_array o) | Raise _ => false end.

Section conformance.
(** Whether a document meets the other keywords of a schema. *)
Context (base : list (string * jsval) → bool).
Definition exactly_one (l : list bool) : bool := (length (List.filter id l) =? 1)%nat.
(** Whether it meets a schema, its allOf and its oneOf. *)
Fixpoint conforms (v : jsval) : bool :=
  match v with
  | JsObj l =>
      base (without ["allOf"; "oneOf"; "x-refsStack"]%string l) &&
      (fix all l := match l with
       | [] => true
       | (k, w) :: l =>
           (if String.eqb k "allOf" then match w with JsArr vs => forallb conforms vs | _ => true end
            else if String.eqb k "oneOf" then match w with JsArr vs => exactly_one (map conforms vs) | _ => true end
            else true) && all l
       end) l
  | JsBool b => b
  | _ => true
  end.

Lemma filter_andb {A} (b : bool) (f : A → bool) l :
  List.filter id (map (λ x, b && f x) l) = if b then List.filter id (map f l) else [].
Proof. induction l as [|x l IH]; [by destruct b|]. cbn. rewrite IH. by destruct b. Qed.

Lemma split_oneOf_app acc before os r after :
  Forall (λ v, no_oneOf v = true) before → js_get "oneOf" r = Ok (JsArr os) →
  split_oneOf acc (before ++ r :: after) = Ok (Some (acc ++ before, os, after)).
Proof.
  intros Hb Hr. revert acc. induction Hb as [|v before Hv _ IH]; intros acc; cbn; [by rewrite Hr; cbn; rewrite app_nil_r|].
  unfold no_oneOf in Hv. destruct (js_get "oneOf" v) as [o|]; [|done]. cbn. rewrite IH, <- app_assoc. by destruct o.
Qed.

(** C18: Moving the oneOf of a member out of an allOf changes no meaning: a document
    meets the new schema, one of the alternatives each with the other members, when
    it meets the old one, as long as nothing stands beside the allOf or the oneOf. *)
Theorem hoist_equivalent before os after t :
  base [] = true → Forall (λ v, no_oneOf v = true) before →
  let e := JsObj [("allOf", JsArr (before ++ JsObj [("oneOf", JsArr os)] :: after))]%string in
  ∃ e', hoistOneOfs e t = Ok e' ∧ conforms e' = conforms e.
Proof.
  intros H0 Hb e. set (r := JsObj [("oneOf", JsArr os)]%string). pose proof (split_oneOf_app [] before os r after Hb eq_refl) as Hs.
  exists (JsObj [("oneOf", JsArr ((λ o, JsObj [("allOf", JsArr (before ++ [o] ++ after)); ("x-refsStack", JsArr t)]) <$> os))]%string).
  split; [unfold hoistOneOfs, e; cbn -[split_oneOf]; fold r; by rewrite Hs|].
  cbn. rewrite H0. cbn. rewrite !andb_true_r, map_map.
  rewrite forallb_app. cbn. rewrite H0, !andb_true_r. cbn.
  assert (map (λ o, forallb conforms (before ++ o :: after) && true) os
          = map (λ o, (forallb conforms before && forallb conforms after) && conforms o) os) as E.
  { apply map_ext. intros o. rewrite andb_true_r, forallb_app. cbn.
    destruct (forallb conforms before), (forallb conforms after), (conforms o); done. }
  etrans; [exact (f_equal exactly_one E)|]. unfold exactly_one. rewrite filter_andb.
  by destruct (forallb conforms before), (forallb conforms after); cbn; rewrite ?andb_true_r, ?andb_false_r.
Qed.
End conformance.

Definition typed (l : list (string * jsval)) : bool :=
  match lookup_key "type" l with Some v => is_str "string" v | None => true end.
Lemma hoist_equivalent_witness :
  let s := JsObj [("type", JsStr "string")]%string in
  let e := JsObj [("allOf", JsArr [s; JsObj [("oneOf", JsArr [s; JsObj [("type", JsStr "number")]])]; s])]%string in
  conforms typed e = true ∧ ∃ e', hoistOneOfs e [] = Ok e' ∧ conforms typed e' = conforms typed e.
Proof.
  split; [vm_compute; reflexivity|].
  apply (hoist_equivalent typed [JsObj [("type", JsStr "string")]]%string [JsObj [("type", JsStr "string")]; JsObj [("type", JsStr "number")]]%string
    [JsObj [("type", JsStr "string")]]%string []); [reflexivity|]. constructor; [reflexivity|constructor].
Defined.

(** What stands beside such an allOf is lost: the schema that takes its place
    has its oneOf and nothing else, no properties, no required list, no type. *)
Theorem hoist_drops_siblings e l r t k :
  field "allOf" e = JsArr l → split_oneOf [] l = Ok (Some r) → k ≠ "oneOf"%string →
  ∃ e', hoistOneOfs e t = Ok e' ∧ field k e' = JsUndef.
Proof.
  intros He Hr Hk. destruct e as [| | | | | |d]; try done. cbn in He. unfold hoistOneOfs. cbn. rewrite He. cbn. rewrite Hr.
  destruct r as [[b os] a]. eexists. split; [reflexivity|]. cbn. by apply String.eqb_neq in Hk as ->.
Qed.
Lemma hoist_drops_siblings_witness :
  ∃ e', hoistOneOfs (JsObj [("required", JsArr [JsStr "id"]); ("allOf", JsArr [JsObj [("oneOf", JsArr [])]])])%string [] = Ok e' ∧
        field "required" e' = JsUndef.
Proof. eapply hoist_drops_siblings; [reflexivity|reflexivity|]. intros E. discriminate E. Defined.
