(* ===== verification/MenuStore.v ===== *)
(** * The menu of the documentation viewer

    The store of the menu ([vf] of redoc.standalone.js) with its items ([rf], and
    [Tu] for operations): which item is active, which are expanded, and how
    clicking, scrolling and the address of the page change it. The geometry of the
    page is an argument of the scrolling; the address is the last one asked for. *)

From S2P Require Import Prelude PyData.
Local Open Scope Z_scope.

(** ** Items *)

Record item := { id : string; name : string; kind : string; depth : Z }.
Unset Elimination Schemes.
Inductive menu := Node (i : item) (items : list menu).
Set Elimination Schemes.

Section menu_ind.
Variable P : menu → Prop.
Hypothesis (HN : ∀ i l, Forall P l → P (Node i l)).
Fixpoint menu_ind (m : menu) : P m :=
  match m with
  | Node i l => HN i l ((fix go l : Forall P l :=
      match l with [] => Forall_nil_2 _ | m :: l => Forall_cons_2 _ _ _ (menu_ind m) (go l) end) l)
  end.
End menu_ind.

(** An item of the flat list: its parent and whether it has items. *)
Record entry := { what : item; parent : option nat; has_items : bool }.

Section flat_list.
Context (f : nat → menu → list entry).
Fixpoint flat_list (n : nat) (l : list menu) : list entry :=
  match l with [] => [] | m :: l => f n m ++ flat_list (n + length (f n m)) l end.
End flat_list.

(** [flatItems]: the items in the order of the page, from position [n] on. *)
Fixpoint flat (up : option nat) (n : nat) (m : menu) : list entry :=
  match m with
  | Node i l =>
      {| what := i; parent := up; has_items := match l with [] => false | _ => true end |}
      :: flat_list (flat (Some n)) (S n) l
  end.
Definition flat_all (l : list menu) : list entry := flat_list (flat None) 0 l.

Section store.
(** The flat list of the items. *)
Context (items : list entry).

Definition kind_at (k : nat) : string := match items !! k with Some e => kind (what e) | None => EmptyString end.
Definition is_group (k : nat) : Prop := kind_at k = "group"%string.
Definition is_operation (k : nat) : Prop := kind_at k = "operation"%string.
#[global] Instance is_group_dec k : Decision (is_group k).
Proof. unfold is_group. apply _. Defined.
#[global] Instance is_operation_dec k : Decision (is_operation k).
Proof. unfold is_operation. apply _. Defined.
Definition id_at (k : nat) : option string := id ∘ what <$> items !! k.

(** An item and those above it. *)
Fixpoint chain (fuel : nat) (k : nat) : list nat :=
  match fuel with
  | O => []
  | S fuel => match items !! k with
              | Some e => k :: match parent e with Some p => chain fuel p | None => [] end
              | None => []
              end
  end.
Definition line (k : nat) : gset nat := list_to_set (chain (S k) k).

(** ** The store *)

Record store := {
  active : gset nat;
  expanded : gset nat;
  activeItemIdx : Z;
  sideBarOpened : bool;
  hash : string;
}.

Definition activeItem (s : store) : option nat :=
  if activeItemIdx s <? 0 then None else let k := Z.to_nat (activeItemIdx s) in if decide (k < length items)%nat then Some k else None.

Definition with_flags (s : store) (a x : gset nat) : store :=
  {| active := a; expanded := x; activeItemIdx := activeItemIdx s; sideBarOpened := sideBarOpened s; hash := hash s |}.

(** [rf.expand] and [Tu.expand]: an operation has nothing to expand. *)
Definition expand (k : nat) (s : store) : store :=
  with_flags s (active s) (expanded s ∪ filter (λ j, ¬ is_operation j) (line k)).
(** [rf.collapse] and [Tu.collapse]: groups stay open. *)
Definition collapse (k : nat) (s : store) : store :=
  if decide (is_operation k ∨ is_group k) then s else with_flags s (active s) (expanded s ∖ {[k]}).
(** [deactivate(e)]: the item and all above it are collapsed, groups stay open. *)
Definition deactivate (e : option nat) (s : store) : store :=
  match e with
  | None => s
  | Some k => with_flags s (active s ∖ {[k]})
                (expanded s ∖ filter (λ j, ¬ is_operation j ∧ ¬ is_group j) (line k))
  end.

(** [activate(e, t, n)]. *)
Definition activate (e : option nat) (update : bool) (s : store) : store :=
  if decide ((activeItem s ≫= id_at) = (e ≫= id_at)) then s
  else match e ≫= (λ k, pair k <$> items !! k) with
  | None =>
      let s := deactivate (activeItem s) s in
      {| active := active s; expanded := expanded s; activeItemIdx := -1; sideBarOpened := sideBarOpened s; hash := EmptyString |}
  | Some (k, it) =>
      if decide (is_group k) then s
      else
        let s := deactivate (activeItem s) s in
        if depth (what it) <=? 0 then s
        else expand k {| active := active s ∪ {[k]}; expanded := expanded s; activeItemIdx := Z.of_nat k;
                         sideBarOpened := sideBarOpened s; hash := if update then id (what it) else hash s |}
  end.

Definition find_item (p : string → bool) : option nat := fst <$> list_find (λ e, p (id (what e)) = true) items.
(** [getItemById]. *)
Definition getItemById (i : string) : option nat := find_item (String.eqb i).

Definition toggleSidebar (s : store) : store :=
  {| active := active s; expanded := expanded s; activeItemIdx := activeItemIdx s; sideBarOpened := negb (sideBarOpened s); hash := hash s |}.
Definition closeSidebar (s : store) : store :=
  {| active := active s; expanded := expanded s; activeItemIdx := activeItemIdx s; sideBarOpened := false; hash := hash s |}.

(** [activateAndScroll(e, t, n)] but for the scrolling: the menu bar is closed
    unless the item has items. *)
Definition activateAndScroll (e : option nat) (update : bool) (s : store) : store :=
  let r := match e ≫= id_at with Some i => match getItemById i with Some k => Some k | None => e end | None => e end in
  let s := activate r update s in
  match r ≫= (items !!.) with Some it => if has_items it then s else closeSidebar s | None => closeSidebar s end.

Definition authentication : string := "section/Authentication/".
(** [updateOnHistory(e)]. *)
Definition updateOnHistory (e : string) (s : store) : store :=
  if String.eqb e EmptyString then s
  else match getItemById e with
  | Some k => activateAndScroll (Some k) false s
  | None =>
      if String.prefix authentication e then activateAndScroll (find_item (λ i, String.prefix i authentication)) false s else s
  end.

(** ** Scrolling *)

(** Whether the element of an item is below the top of the window, and above it;
    neither for an item without an element. *)
Section scrolling.
Context (below above : nat → bool).

(** [isElementBellow(getElementAtOrFirstChild(k))]. *)
Definition below_at (k : Z) : bool :=
  let k := Z.to_nat k in
  match items !! k with
  | Some e => if decide (kind (what e) = "group"%string) then has_items e && below (S k) else below k
  | None => false
  end.
Definition above_at (k : Z) : bool := let k := Z.to_nat k in bool_decide (k < length items)%nat && above k.

Definition last_index : Z := Z.of_nat (length items) - 1.
(** The loop of [updateOnScroll]: where it stops, from [n] on; [None] when the fuel
    is used up. *)
Fixpoint scroll_from (fuel : nat) (down : bool) (n : Z) : option Z :=
  match fuel with
  | O => None
  | S fuel =>
      if (negb (n =? -1) || down) && negb ((last_index <=? n) && down) then
        if down then if below_at (n + 1) then Some n else scroll_from fuel down (n + 1)
        else if above_at n then Some n else scroll_from fuel down (n - 1)
      else Some n
  end.
Definition rounds : nat := S (length items).
Definition updateOnScroll (down : bool) (s : store) : store :=
  match scroll_from rounds down (activeItemIdx s) with
  | Some n => activate (if n <? 0 then None else Some (Z.to_nat n)) true s
  | None => s
  end.
End scrolling.

(** ** Events *)

Inductive event :=
  | Click (k : nat)
  | Scroll (below above : nat → bool) (down : bool)
  | Address (e : string)
  | Toggle.
(** [activate(e)] of the menu [Cv]: a click on the active item folds or unfolds it, with the
    option for it, which is on unless it is turned off. *)
Definition onActivate (menuToggle : bool) (k : nat) (s : store) : store :=
  if bool_decide (k ∈ active s) && menuToggle then if decide (k ∈ expanded s) then collapse k s else expand k s
  else activateAndScroll (Some k) true s.
Definition handle (menuToggle : bool) (s : store) (e : event) : store :=
  match e with
  | Click k => onActivate menuToggle k s
  | Scroll below above down => updateOnScroll below above down s
  | Address e => updateOnHistory e s
  | Toggle => toggleSidebar s
  end.

Definition positions : gset nat := list_to_set (seq 0 (length items)).
Definition groups : gset nat := filter is_group positions.
(** The store as it is made: groups are expanded. *)
Definition initial : store :=
  {| active := ∅; expanded := groups; activeItemIdx := -1; sideBarOpened := false; hash := EmptyString |}.
End store.

(** ** The invariant *)

(** Items come after what is above them, and only groups are at depth 0. *)
Record well_formed (items : list entry) : Prop := {
  parent_before k e p : items !! k = Some e → parent e = Some p → (p < k)%nat;
  depth_positive k e : items !! k = Some e → kind (what e) ≠ "group"%string → 0 < depth (what e);
}.

Section invariant.
Context (items : list entry) (menuToggle : bool).
Implicit Types (s : store).

Definition open_above (k : nat) : gset nat := filter (λ j, ¬ is_operation items j) (line items k).

(** Nothing is active, or one item that is no group; what is expanded are the
    groups, the active item and what is above it, operations aside. Where clicks fold the
    active item, it may be folded. *)
Definition consistent s : Prop :=
  (activeItemIdx s = -1 ∧ active s = ∅ ∧ expanded s = groups items) ∨
  (∃ k, (k < length items)%nat ∧ activeItemIdx s = Z.of_nat k ∧ ¬ is_group items k ∧
        active s = {[k]} ∧
        (expanded s = groups items ∪ open_above k ∨ menuToggle = true ∧ expanded s = groups items ∪ open_above k ∖ {[k]})).

Lemma group_in_groups k : is_group items k → k ∈ groups items.
Proof.
  intros Hk. unfold groups. apply elem_of_filter. split; [done|]. unfold positions. apply elem_of_list_to_set, elem_of_seq.
  split; [lia|]. unfold is_group, kind_at in Hk. destruct (items !! k) eqn:E; [|done]. by apply lookup_lt_Some in E.
Qed.

Lemma activeItem_none s : activeItemIdx s = -1 → activeItem items s = None.
Proof. intros H. unfold activeItem. by rewrite H. Qed.
Lemma activeItem_some s k : activeItemIdx s = Z.of_nat k → (k < length items)%nat → activeItem items s = Some k.
Proof.
  intros H Hk. unfold activeItem. rewrite H. destruct (Z.ltb_spec (Z.of_nat k) 0); [lia|]. rewrite Nat2Z.id. by rewrite decide_True.
Qed.

(** After deactivating, nothing is active and only groups are expanded. *)
Lemma deactivate_clean s :
  consistent s → active (deactivate items (activeItem items s) s) = ∅ ∧
  expanded (deactivate items (activeItem items s) s) = groups items.
Proof.
  intros [(Hi & Ha & Hx)|(k & Hk & Hi & Hg & Ha & Hx)]; [by rewrite activeItem_none|].
  rewrite (activeItem_some s k) by done. cbn. rewrite Ha. split; [set_solver|].
  assert (groups items ⊆ expanded s ∧ expanded s ⊆ groups items ∪ open_above k) as [Hlo Hhi] by (destruct Hx as [-> |[_ ->]]; set_solver).
  apply set_eq. intros j. rewrite elem_of_difference, elem_of_filter. split.
  - intros [Hj Hn]. apply Hhi in Hj. apply elem_of_union in Hj as [?|Hj]; [done|]. unfold open_above in Hj. apply elem_of_filter in Hj as [Ho Hl].
    destruct (decide (is_group items j)); [by apply group_in_groups|]. tauto.
  - intros Hj. split; [by apply Hlo|]. intros [[_ Hn] _]. apply Hn. unfold groups in Hj. by apply elem_of_filter in Hj as [? _].
Qed.

Lemma activate_consistent e u s : well_formed items → consistent s → consistent (activate items e u s).
Proof.
  intros Hwf Hs. unfold activate. destruct (decide (_ = _)); [done|]. pose proof (deactivate_clean s Hs) as [Ha Hx].
  destruct (e ≫= λ k, pair k <$> items !! k) as [[k it]|] eqn:E; [|by left]. destruct e as [k'|]; [|done]. cbn in E.
  apply fmap_Some in E as (it' & Hk & [= -> ->]).
  destruct (decide (is_group items k')) as [|Hg]; [done|].
  assert (0 < depth (what it')) as Hd by (apply (depth_positive items Hwf k' it' Hk); unfold is_group, kind_at in Hg; by rewrite Hk in Hg).
  destruct (Z.leb_spec (depth (what it')) 0); [lia|]. right. exists k'. split; [by apply lookup_lt_Some in Hk|].
  cbn. split; [done|]. split; [done|]. rewrite Ha, Hx. split; [set_solver|by left].
Qed.

Lemma closeSidebar_consistent s : consistent s → consistent (closeSidebar s).
Proof. done. Qed.

Lemma activateAndScroll_consistent e u s :
  well_formed items → consistent s → consistent (activateAndScroll items e u s).
Proof.
  intros Hwf Hs. unfold activateAndScroll. set (r := match e ≫= _ with Some _ => _ | None => _ end).
  pose proof (activate_consistent r u s Hwf Hs). by destruct (r ≫= _) as [it|]; [destruct (has_items it)|].
Qed.

(** A click on the active item folds it, or unfolds it. *)
Lemma fold_consistent k s :
  menuToggle = true → k ∈ active s → consistent s → consistent (if decide (k ∈ expanded s) then collapse items k s else expand items k s).
Proof.
  intros Hm Hk [(_ & Ha & _)|(j & Hj & Hi & Hg & Ha & Hx)]; rewrite Ha in Hk; [set_solver|]. apply elem_of_singleton in Hk as <-. right. exists k.
  assert (k ∉ groups items) as Hk by (by intros [? _]%elem_of_filter).
  destruct (decide (k ∈ expanded s)) as [He|He]; [unfold collapse; destruct (decide _) as [Ho|Ho]|].
  - by split_and!.
  - cbn [with_flags activeItemIdx active expanded]. split_and!; try done. right. split; [done|]. destruct Hx as [-> |[_ Hx]]; [set_solver|]. rewrite Hx in He. set_solver.
  - cbn [expand with_flags activeItemIdx active expanded]. split_and!; try done. left. fold (open_above k).
    destruct Hx as [-> |[_ ->]]; [set_solver|]. apply set_eq. intros x. destruct (decide (x = k)); set_solver.
Qed.

Lemma handle_consistent s e : well_formed items → consistent s → consistent (handle items menuToggle s e).
Proof.
  intros Hwf Hs. destruct e as [k|below above down|a|]; cbn [handle].
  - unfold onActivate. destruct (bool_decide_reflect (k ∈ active s)) as [Hk|Hk]; cbn [andb]; [destruct menuToggle eqn:Hm|];
      [by apply fold_consistent|by apply activateAndScroll_consistent..].
  - unfold updateOnScroll. destruct (scroll_from _ _ _ _ _ _); [|done]. by apply activate_consistent.
  - unfold updateOnHistory. destruct (String.eqb a EmptyString); [done|]. destruct (getItemById _ _); [by apply activateAndScroll_consistent|].
    destruct (String.prefix _ _); [by apply activateAndScroll_consistent|done].
  - done.
Qed.

Lemma events_consistent events : well_formed items → consistent (foldl (handle items menuToggle) (initial items) events).
Proof.
  intros Hwf. assert (consistent (initial items)) as H by (by left). revert H. generalize (initial items).
  induction events as [|e events IH]; intros s Hs; [done|]. cbn. by apply IH, handle_consistent.
Qed.
End invariant.

(** The flat list of a menu is well formed when only its groups are at depth 0. *)
Fixpoint depths_ok (m : menu) : bool :=
  match m with
  | Node i l => (bool_decide (kind i = "group"%string) || (0 <? depth i)) && forallb depths_ok l
  end.

(** The entries of a part of the menu that starts at [n], below [up]: parents come
    before, and depths are positive but for groups. *)
Definition fits (up : option nat) (n : nat) (f : list entry) : Prop :=
  ∀ j e, f !! j = Some e →
    (parent e = up ∨ ∃ p, parent e = Some p ∧ (n ≤ p < n + j)%nat) ∧ (kind (what e) ≠ "group"%string → 0 < depth (what e)).

Lemma fits_list up n l :
  Forall (λ m, ∀ up n, fits up n (flat up n m)) l → fits up n (flat_list (flat up) n l).
Proof.
  intros H. revert n. induction H as [|m l Hm _ IH]; intros n j e; [done|]. cbn [flat_list]. intros He.
  apply lookup_app_Some in He as [He|[Hlen He]]; [by apply (Hm up n)|].
  destruct (IH _ _ _ He) as [[?|(p & ? & ?)] Hd]; split; try done; [by left|right; exists p; split; [done|lia]].
Qed.

Lemma flat_fits m up n : depths_ok m = true → fits up n (flat up n m).
Proof.
  revert up n. induction m as [i l IH] using menu_ind. intros up n [Hi Hl]%andb_true_iff j e. cbn [flat].
  destruct j as [|j]; cbn; [intros [= <-]; cbn; split; [by left|]; intros Hk; apply orb_true_iff in Hi as [H%bool_decide_eq_true|H]; [done|by apply Z.ltb_lt]|].
  assert (fits (Some n) (S n) (flat_list (flat (Some n)) (S n) l)) as Hf.
  { apply fits_list. rewrite Forall_forall in IH |- *. intros m Hm up' n'. apply IH; [done|].
    by eapply forallb_forall in Hl; [exact Hl|apply list_elem_of_In]. }
  intros He. destruct (Hf j e He) as [[Hp|(p & Hp & ?)] Hd]; (split; [right|done]); [exists n|exists p]; (split; [done|lia]).
Qed.

Lemma flat_well_formed l : forallb depths_ok l = true → well_formed (flat_all l).
Proof.
  intros Hl. assert (fits None 0 (flat_all l)) as Hf.
  { apply fits_list. apply Forall_forall. intros m Hm up n. apply flat_fits. by eapply forallb_forall in Hl; [exact Hl|apply list_elem_of_In]. }
  split; intros k e.
  - intros p He Hp. destruct (Hf k e He) as [[H|(p' & H & ?)] _]; rewrite H in Hp; [done|]. injection Hp as ->. lia.
  - intros He. by apply (Hf k e He).
Qed.

(** Whatever is clicked, scrolled to or asked for by the address of the page,
    in any order: at most one item is active, it is the one the store remembers and
    it is no group, and exactly the groups, the active item and what is above it
    are expanded (operations have nothing to expand), but for the active item where a
    click has folded it. *)
Theorem menu_consistent l menuToggle events :
  forallb depths_ok l = true →
  consistent (flat_all l) menuToggle (foldl (handle (flat_all l) menuToggle) (initial (flat_all l)) events).
Proof. intros Hl. by apply events_consistent, flat_well_formed. Qed.

Definition sample_menu : list menu :=
  [Node {| id := "group/pets"; name := "Pets"; kind := "group"; depth := 0 |}
     [Node {| id := "tag/dog"; name := "dog"; kind := "tag"; depth := 1 |}
        [Node {| id := "tag/dog/get"; name := "Get"; kind := "operation"; depth := 2 |} []]];
   Node {| id := "tag/cat"; name := "cat"; kind := "tag"; depth := 1 |} []]%string.
Definition sample_items : list entry := flat_all sample_menu.
Lemma menu_consistent_witness :
  let s := foldl (handle sample_items true) (initial sample_items) [Click 2; Address "tag/cat"; Click 0; Toggle; Click 2; Click 2] in
  consistent sample_items true s ∧ activeItemIdx s = 2 ∧ expanded s = {[0%nat; 1%nat]}.
Proof.
  split; [apply (menu_consistent sample_menu); reflexivity|]. vm_compute. split; reflexivity.
Defined.

(** ** What is above the active item *)

Section above.
Context (items : list entry).

(** [up j k]: [j] is what [k] is directly in. *)
Definition up (j k : nat) : Prop := ∃ e, items !! k = Some e ∧ parent e = Some j.

Lemma chain_complete : well_formed items → ∀ k fuel j,
  (k < fuel)%nat → (k < length items)%nat → rtc (flip up) k j → j ∈ chain items fuel k.
Proof.
  intros Hwf k. induction (lt_wf k) as [k _ IH]. intros fuel j Hf Hk Hj. destruct fuel as [|fuel]; [lia|]. cbn [chain].
  apply lookup_lt_is_Some in Hk as [e He]. rewrite He. inversion Hj as [|? p ? (e' & He' & Hp) Hpj]; subst; [by left|right].
  simplify_eq. rewrite Hp. pose proof (parent_before items Hwf k e p He Hp). apply lookup_lt_Some in He.
  apply IH; [done|lia|lia|done].
Qed.
End above.

(** After any events, what is above the active item, up to the top of the
    menu, is expanded, so that the active item can be seen. *)
Theorem active_visible l menuToggle events k j :
  forallb depths_ok l = true →
  let items := flat_all l in
  let s := foldl (handle items menuToggle) (initial items) events in
  k ∈ active s → rtc (flip (up items)) k j → j ≠ k → ¬ is_operation items j → j ∈ expanded s.
Proof.
  intros Hl items s Hk Hj Hne Ho. pose proof (flat_well_formed l Hl) as Hwf.
  destruct (events_consistent items menuToggle events Hwf) as [(_ & Ha & _)|(k' & Hk' & _ & _ & Ha & Hx)]; fold s in Ha; rewrite Ha in Hk; [set_solver|].
  apply elem_of_singleton in Hk as ->. fold s in Hx. assert (j ∈ open_above items k') as Hin; [|destruct Hx as [-> |[_ ->]]; set_solver]. unfold open_above.
  apply elem_of_filter. split; [done|]. unfold line. apply elem_of_list_to_set. apply chain_complete; [done|lia|done|done].
Qed.
Lemma active_visible_witness :
  let s := foldl (handle sample_items true) (initial sample_items) [Click 2] in 1%nat ∈ expanded s.
Proof.
  apply (active_visible sample_menu true [Click 2] 2 1).
  - reflexivity.
  - vm_compute. reflexivity.
  - apply rtc_once. eexists. split; reflexivity.
  - lia.
  - intros H. discriminate H.
Defined.

(** ** Scrolling *)

Section scroll.
Context (items : list entry) (below above : nat → bool).

Lemma scroll_down fuel n :
  -1 <= n → n < Z.of_nat (length items) ∨ n = -1 → (Z.to_nat (last_index items - n) < fuel)%nat →
  ∃ m, scroll_from items below above fuel true n = Some m ∧ n <= m ∧ (m <= last_index items ∨ m = n) ∧
       (last_index items <= m ∨ below_at items below (m + 1) = true) ∧ ∀ j, n < j <= m → below_at items below j = false.
Proof.
  revert n. induction fuel as [|fuel IH]; intros n Hn Hlen Hf; [lia|]. cbn [scroll_from]. rewrite orb_true_r, andb_true_r. cbn [andb].
  destruct (Z.leb_spec (last_index items) n) as [Hl|Hl]; cbn [negb]; [exists n; split_and!; [done|lia|by right|by left|lia]|].
  destruct (below_at items below (n + 1)) eqn:E; [exists n; split_and!; [done|lia|by right|by right|lia]|].
  destruct (IH (n + 1)) as (m & Hm & Hnm & Hml & Hstop & Hskip); [lia|unfold last_index in *; lia|lia|].
  exists m. split_and!; [done|lia|lia|done|]. intros j Hj. destruct (decide (j = n + 1)) as [->|]; [done|]. apply Hskip. lia.
Qed.

Lemma scroll_up fuel n :
  -1 <= n → (Z.to_nat (n + 1) < fuel)%nat →
  ∃ m, scroll_from items below above fuel false n = Some m ∧ -1 <= m <= n ∧
       (m = -1 ∨ above_at items above m = true) ∧ ∀ j, m < j <= n → above_at items above j = false.
Proof.
  revert n. induction fuel as [|fuel IH]; intros n Hn Hf; [lia|]. cbn [scroll_from]. rewrite orb_false_r, andb_false_r. cbn [andb negb].
  rewrite andb_true_r. destruct (Z.eqb_spec n (-1)) as [->|Hne]; cbn [negb]; [exists (-1); split_and!; [done|lia|lia|by left|lia]|].
  destruct (above_at items above n) eqn:E; [exists n; split_and!; [done|lia|lia|by right|lia]|].
  destruct (IH (n - 1)) as (m & Hm & Hnm & Hstop & Hskip); [lia|lia|].
  exists m. split_and!; [done|lia|lia|done|]. intros j Hj. destruct (decide (j = n)) as [->|]; [done|]. apply Hskip. lia.
Qed.

(** The search for the item at the top of the window ends from every position
    the store can have. Scrolling down it stops before the first item further on
    that is below the top, or at the last one; scrolling up at the first item
    further back that is above the top, or before the first one. *)
Theorem scroll_ends n down :
  -1 <= n < Z.of_nat (length items) →
  ∃ m, scroll_from items below above (rounds items) down n = Some m ∧ -1 <= m < Z.of_nat (length items) ∧
    if down then n <= m ∧ (m = last_index items ∨ below_at items below (m + 1) = true) ∧
                 ∀ j, n < j <= m → below_at items below j = false
    else m <= n ∧ (m = -1 ∨ above_at items above m = true) ∧ ∀ j, m < j <= n → above_at items above j = false.
Proof.
  intros Hn. unfold rounds. destruct down.
  - destruct (scroll_down (S (length items)) n) as (m & Hm & Hnm & Hml & Hstop & Hskip); [lia|left; lia|unfold last_index; lia|].
    exists m. unfold last_index in *. split_and!; [done|lia|lia|lia| |done]. destruct Hstop as [|]; [left; lia|by right].
  - destruct (scroll_up (S (length items)) n) as (m & Hm & Hnm & Hstop & Hskip); [lia|lia|].
    exists m. split_and!; [done|lia|lia|lia|done|done].
Qed.
End scroll.
Lemma scroll_ends_witness :
  ∃ m, scroll_from sample_items (Nat.eqb 3) (λ _, false) (rounds sample_items) true 0 = Some m ∧ -1 <= m < 4 ∧
    0 <= m ∧ (m = 3 ∨ below_at sample_items (Nat.eqb 3) (m + 1) = true) ∧
    ∀ j, 0 < j <= m → below_at sample_items (Nat.eqb 3) j = false.
Proof. apply (scroll_ends sample_items (Nat.eqb 3) (λ _, false) 0 true). cbn. lia. Defined.
