(* ===== verification/StyleSheet.v ===== *)
(** * The style sheet

    How the styled-components library in redoc.standalone.js keeps the rules of all
    components in one list ([eo], over the list of [go]): the rules of a component
    form a group, the groups follow each other in the order of their numbers. The
    numbers are given by a registry of identifiers ([io]). Names in brackets are
    those of the bundle. *)

From S2P Require Import Prelude PyData.
Local Open Scope Z_scope.

(** ** Numbers of identifiers *)

(** The maps [to] and [no] and the next number [ro]. *)
Record registry := { numbers : gmap string nat; names : gmap nat string; next : nat }.
Definition no_ids : registry := {| numbers := ∅; names := ∅; next := 1 |}.

(** [for (; no.has(ro);) ro++]: [None] when the fuel is used up. *)
Fixpoint first_free (fuel : nat) (taken : gmap nat string) (n : nat) : option nat :=
  match fuel with
  | O => None
  | S fuel => match taken !! n with Some _ => first_free fuel taken (S n) | None => Some n end
  end.
(** [io(e)]. *)
Definition io (e : string) (r : registry) : option (nat * registry) :=
  match numbers r !! e with
  | Some n => Some (n, r)
  | None =>
      n ← first_free (S (size (names r))) (names r) (next r);
      Some (n, {| numbers := <[e := n]> (numbers r); names := <[n := e]> (names r); next := S n |})
  end.
(** [ao(e, t)]: an identifier with the number it has on the page already. *)
Definition ao (e : string) (t : nat) (r : registry) : registry :=
  {| numbers := <[e := t]> (numbers r); names := <[t := e]> (names r); next := if (next r <=? t)%nat then S t else next r |}.

(** ** Groups of rules *)

(** [eo]: the sizes of the groups and the list of all rules. *)
Record tag := { groupSizes : list nat; rules : list string }.
Definition empty_tag : tag := {| groupSizes := replicate 512 0%nat; rules := [] |}.

Definition indexOfGroup (t : tag) (e : nat) : nat := sum_list (take e (groupSizes t)).

(** [(i <<= 1) < 0 && Ji(16)] while [e >= i]. *)
Fixpoint grown (fuel : nat) (e i : Z) : result Z :=
  match fuel with
  | O => Raise (OtherError "16")
  | S fuel => if i <=? e then if 2 ^ 31 <=? 2 * i then Raise (OtherError "16") else grown fuel e (2 * i) else Ok i
  end.
Definition grow_fuel : nat := 32.
(** Room for the group [e]. *)
Definition ensure (e : nat) (t : tag) : result tag :=
  if (e <? length (groupSizes t))%nat then Ok t
  else
    i ← grown grow_fuel (Z.of_nat e) (Z.of_nat (length (groupSizes t)));
    Ok {| groupSizes := groupSizes t ++ replicate (Z.to_nat i - length (groupSizes t)) 0%nat; rules := rules t |}.

(** [insertRule(a, s)] of the list: refused beyond its end. *)
Definition insertRule (a : nat) (s : string) (l : list string) : option (list string) :=
  if (a <=? length l)%nat then Some (take a l ++ s :: drop a l) else None.
Fixpoint insert_all (e a : nat) (ss : list string) (t : tag) : tag :=
  match ss with
  | [] => t
  | s :: ss =>
      match insertRule a s (rules t) with
      | Some l => insert_all e (S a) ss {| groupSizes := alter S e (groupSizes t); rules := l |}
      | None => insert_all e a ss t
      end
  end.
(** [insertRules(e, t)]. *)
Definition insertRules (e : nat) (ss : list string) (t : tag) : result tag :=
  t ← ensure e t; Ok (insert_all e (indexOfGroup t (S e)) ss t).

Fixpoint delete_rules (n k : nat) (l : list string) : list string :=
  match k with O => l | S k => delete_rules n k (delete n l) end.
(** [clearGroup(e)]. *)
Definition clearGroup (e : nat) (t : tag) : tag :=
  match groupSizes t !! e with
  | Some k => {| groupSizes := <[e := 0%nat]> (groupSizes t); rules := delete_rules (indexOfGroup t e) k (rules t) |}
  | None => t
  end.

Definition rule_end : string := "/*!sc*/" +:+ String "010" EmptyString.
(** [getGroup(e)]. *)
Definition getGroup (e : nat) (t : tag) : string :=
  match groupSizes t !! e with
  | Some k => foldr String.append EmptyString ((λ s, s +:+ rule_end) <$> take k (drop (indexOfGroup t e) (rules t)))
  | None => EmptyString
  end.

(** ** The registry *)

(** Two maps that are each other's inverse, below the next number. *)
Record registered (r : registry) : Prop := {
  name_of_number e n : numbers r !! e = Some n → names r !! n = Some e;
  number_of_name e n : names r !! n = Some e → numbers r !! e = Some n;
}.

Lemma first_free_ends fuel (taken : gmap nat string) n :
  (size (filter (λ kv, n ≤ kv.1)%nat taken) < fuel)%nat → ∃ m, first_free fuel taken n = Some m ∧ (n ≤ m)%nat ∧ taken !! m = None.
Proof.
  revert n. induction fuel as [|fuel IH]; intros n Hf; [lia|]. cbn [first_free].
  destruct (taken !! n) as [s|] eqn:E; [|by exists n].
  destruct (IH (S n)) as (m & Hm & Hle & Hfree); [|exists m; split; [done|split; [lia|done]]].
  assert (filter (λ kv, n ≤ kv.1)%nat taken = <[n := s]> (filter (λ kv, S n ≤ kv.1)%nat taken)) as Heq.
  { apply map_eq. intros k. destruct (decide (k = n)) as [->|Hk].
    - rewrite lookup_insert_eq. apply map_lookup_filter_Some. by split; [|cbn].
    - rewrite lookup_insert_ne by done. apply option_eq. intros v. rewrite !map_lookup_filter_Some. cbn.
      split; intros [? ?]; (split; [done|lia]). }
  rewrite Heq, map_size_insert_None in Hf; [lia|]. apply map_lookup_filter_None. right. intros v _. cbn. lia.
Qed.

(** Every identifier gets a number, the same one each time, and no two have
    the same: the search for a free number ends, the two maps stay inverse to each
    other, and the numbers given before stay. *)
Theorem io_registers e r :
  registered r → ∃ n r', io e r = Some (n, r') ∧ registered r' ∧ numbers r' !! e = Some n ∧
    (∀ e', e' ≠ e → numbers r' !! e' = numbers r !! e') ∧ (∀ e', e' ≠ e → numbers r' !! e' ≠ Some n).
Proof.
  intros Hr. unfold io. destruct (numbers r !! e) as [n|] eqn:E.
  - exists n, r. split_and!; try done. intros e' Hne He'. apply (name_of_number r Hr) in He', E. congruence.
  - destruct (first_free_ends (S (size (names r))) (names r) (next r)) as (n & Hn & _ & Hfree).
    { pose proof (map_size_filter (λ kv : nat * string, next r ≤ kv.1)%nat (names r)). lia. }
    rewrite Hn. cbn. eexists n, _. split; [done|]. cbn.
    assert (∀ e', numbers r !! e' ≠ Some n) as Hno by (intros e' H; apply (name_of_number r Hr) in H; congruence).
    split_and!; [split; cbn| | |].
    + intros e' m. destruct (decide (e' = e)) as [->|He]; [rewrite lookup_insert_eq; intros [= <-]; by rewrite lookup_insert_eq|].
      rewrite lookup_insert_ne by done. intros Hm. rewrite lookup_insert_ne by (intros ->; by apply (Hno e')). by apply (name_of_number r Hr).
    + intros e' m. destruct (decide (m = n)) as [->|Hm]; [rewrite lookup_insert_eq; intros [= <-]; by rewrite lookup_insert_eq|].
      rewrite lookup_insert_ne by done. intros H. apply (number_of_name r Hr) in H. rewrite lookup_insert_ne; [done|]. intros ->. congruence.
    + by rewrite lookup_insert_eq.
    + intros e' He. by rewrite lookup_insert_ne.
    + intros e' He. by rewrite lookup_insert_ne.
Qed.
Lemma io_registers_witness :
  ∃ n r', io "sc-a" no_ids = Some (n, r') ∧ registered r' ∧ numbers r' !! "sc-a" = Some n ∧
    (∀ e', e' ≠ "sc-a" → numbers r' !! e' = numbers no_ids !! e') ∧ (∀ e', e' ≠ "sc-a" → numbers r' !! e' ≠ Some n).
Proof. apply io_registers. split; intros e n H; exfalso; vm_compute in H; discriminate H. Defined.

(** ** The groups *)

(** The groups a tag stands for. *)
Definition stands_for (t : tag) (gs : list (list string)) : Prop :=
  groupSizes t = length <$> gs ∧ rules t = concat gs.

Lemma sum_lengths (gs : list (list string)) : sum_list (length <$> gs) = length (concat gs).
Proof. induction gs as [|g gs IH]; [done|]. rewrite fmap_cons. cbn. by rewrite length_app, IH. Qed.

Lemma index_of_group t (before after : list (list string)) g :
  stands_for t (before ++ g :: after) → indexOfGroup t (length before) = length (concat before).
Proof.
  intros [Hs _]. unfold indexOfGroup. rewrite Hs, fmap_app, take_app_length' by (by rewrite length_fmap). apply sum_lengths.
Qed.
Lemma index_after_group t (before after : list (list string)) g :
  stands_for t (before ++ g :: after) → indexOfGroup t (S (length before)) = (length (concat before) + length g)%nat.
Proof.
  intros Ht. pose proof (index_of_group t (before ++ [g]) (tl after) (default [] (head after))) as H.
  unfold indexOfGroup. destruct Ht as [Hs _]. rewrite Hs. rewrite (app_assoc before [g] after : before ++ g :: after = _), fmap_app.
  rewrite take_app_length' by (rewrite length_fmap, length_app; cbn; lia). rewrite sum_lengths, concat_app, length_app. cbn.
  by rewrite app_nil_r.
Qed.

Lemma insert_all_groups ss t (before after : list (list string)) g :
  stands_for t (before ++ g :: after) →
  stands_for (insert_all (length before) (length (concat before) + length g) ss t) (before ++ (g ++ ss) :: after).
Proof.
  revert t g. induction ss as [|s ss IH]; intros t g Ht; [by rewrite app_nil_r|]. destruct Ht as [Hs Hr]. cbn [insert_all].
  assert (insertRule (length (concat before) + length g) s (rules t) = Some (concat before ++ (g ++ [s]) ++ concat after)) as ->.
  { unfold insertRule. rewrite Hr, concat_app. cbn [concat]. rewrite app_assoc.
    replace (_ <=? _)%nat with true by (symmetry; apply Nat.leb_le; rewrite !length_app; lia).
    rewrite take_app_length', drop_app_length' by (rewrite length_app; lia). f_equal. by rewrite <- !app_assoc. }
  replace (g ++ s :: ss) with ((g ++ [s]) ++ ss) by (by rewrite <- app_assoc).
  replace (S (length (concat before) + length g)) with (length (concat before) + length (g ++ [s]))%nat by (rewrite length_app; cbn; lia).
  refine (IH _ (g ++ [s]) _). split; cbn.
  - rewrite Hs, !fmap_app, !fmap_cons, length_app, Nat.add_1_r.
    pose proof (alter_app_r (S : nat → nat) (length <$> before) (length g :: (length <$> after)) 0) as H.
    rewrite length_fmap, Nat.add_0_r in H. exact H.
  - by rewrite concat_app.
Qed.

Lemma delete_group (before g after : list string) :
  delete_rules (length before) (length g) (before ++ g ++ after) = before ++ after.
Proof.
  induction g as [|s g IH]; [done|]. cbn [length delete_rules app]. by rewrite delete_middle.
Qed.

Lemma grown_spec fuel e i j : 0 < i → grown fuel e i = Ok j → e < j ∧ i <= j.
Proof.
  revert i. induction fuel as [|fuel IH]; intros i Hi; [done|]. cbn [grown]. destruct (Z.leb_spec i e); [|intros [= <-]; lia].
  destruct (_ <=? _); [done|]. intros Hj. apply IH in Hj; lia.
Qed.

Lemma ensure_groups e t t' gs :
  stands_for t gs → (0 < length gs)%nat → ensure e t = Ok t' →
  ∃ k, stands_for t' (gs ++ replicate k []) ∧ (e < length gs + k)%nat.
Proof.
  intros [Hs Hr] H0. unfold ensure. assert (length (groupSizes t) = length gs) as Hl by (by rewrite Hs, length_fmap).
  destruct (Nat.ltb_spec e (length (groupSizes t))) as [Hlt|Hge].
  - intros [= <-]. exists 0%nat. rewrite app_nil_r. split; [done|lia].
  - intros (i & Hi & [= <-])%bind_Ok. apply grown_spec in Hi as [Hei Hli]; [|lia]. eexists. split.
    + split; cbn; [by rewrite fmap_app, fmap_replicate, Hs|]. rewrite concat_app, Hr.
      assert (∀ k, concat (replicate k (@nil string)) = []) as -> by (by induction k). by rewrite app_nil_r.
    + rewrite length_fmap. lia.
Qed.

(** C22: The list of rules is the groups one after the other: inserting rules
    appends them to their group, clearing a group empties it, and asking for a group
    gives its rules; no other group changes. Growing the table of sizes adds empty
    groups. *)
Theorem sheet_refines_groups t gs e :
  stands_for t gs → (0 < length gs)%nat →
  (∀ ss t', insertRules e ss t = Ok t' → ∃ k g, (gs ++ replicate k []) !! e = Some g ∧
     stands_for t' (<[e := g ++ ss]> (gs ++ replicate k []))) ∧
  stands_for (clearGroup e t) (<[e := []]> gs) ∧
  getGroup e t = foldr String.append EmptyString ((λ s, s +:+ rule_end) <$> default [] (gs !! e)).
Proof.
  intros Ht H0. split; [|split].
  - intros ss t' (u & Hu & [= <-])%bind_Ok. destruct (ensure_groups e t u gs Ht H0 Hu) as (k & Hk & He).
    set (gs' := gs ++ replicate k []) in *. destruct (lookup_lt_is_Some_2 gs' e) as [g Hg]; [unfold gs'; rewrite length_app, length_replicate; lia|].
    exists k, g. split; [done|]. pose proof (take_drop_middle gs' e g Hg) as Hsplit. apply lookup_lt_Some in Hg.
    fold gs'. rewrite insert_take_drop by done. rewrite <- Hsplit in Hk. assert (length (take e gs') = e) as Hlen by (rewrite length_take; lia).
    pose proof (insert_all_groups ss u (take e gs') (drop (S e) gs') g Hk) as H.
    rewrite <- (index_after_group u _ _ g Hk), Hlen in H. exact H.
  - unfold clearGroup. destruct Ht as [Hs Hr]. rewrite Hs, list_lookup_fmap. destruct (gs !! e) as [g|] eqn:Hg; cbn.
    + pose proof (take_drop_middle gs e g Hg) as Hsplit. apply lookup_lt_Some in Hg.
      assert (length (take e gs) = e) as Hlen by (rewrite length_take; lia).
      assert (stands_for t (take e gs ++ g :: drop (S e) gs)) as Ht by (by split; rewrite Hsplit).
      pose proof (index_of_group t _ _ g Ht) as Hi. rewrite Hlen in Hi. rewrite Hi. split; cbn.
      * by rewrite list_fmap_insert.
      * rewrite Hr. rewrite <- Hsplit at 2. rewrite concat_app. cbn [concat]. rewrite delete_group.
        by rewrite insert_take_drop, concat_app by done.
    + apply lookup_ge_None in Hg. by rewrite list_insert_ge.
  - unfold getGroup. destruct Ht as [Hs Hr]. rewrite Hs, list_lookup_fmap. destruct (gs !! e) as [g|] eqn:Hg; cbn; [|done].
    pose proof (take_drop_middle gs e g Hg) as Hsplit. apply lookup_lt_Some in Hg.
    assert (length (take e gs) = e) as Hlen by (rewrite length_take; lia).
    assert (stands_for t (take e gs ++ g :: drop (S e) gs)) as Ht by (by split; rewrite Hsplit).
    pose proof (index_of_group t _ _ g Ht) as Hi. rewrite Hlen in Hi. rewrite Hi, Hr. rewrite <- Hsplit at 2. rewrite concat_app. cbn [concat].
    by rewrite drop_app_length, take_app_length.
Qed.
Lemma sheet_refines_groups_witness :
  (∀ ss t', insertRules 2 ss empty_tag = Ok t' → ∃ k g, (replicate 512 [] ++ replicate k []) !! 2%nat = Some g ∧
     stands_for t' (<[2%nat := g ++ ss]> (replicate 512 [] ++ replicate k []))) ∧
  stands_for (clearGroup 2 empty_tag) (<[2%nat := []]> (replicate 512 [])) ∧
  getGroup 2 empty_tag = foldr String.append EmptyString ((λ s, s +:+ rule_end) <$> default [] (replicate 512 [] !! 2%nat)).
Proof. apply sheet_refines_groups; [split; vm_compute; reflexivity|apply Nat.lt_0_succ]. Defined.

Example sheet_ex :
  (t ← insertRules 3 ["a"; "b"]%string empty_tag; t ← insertRules 1 ["c"]%string t; t ← insertRules 3 ["d"]%string t;
   Ok (rules t, rules (clearGroup 3 t))) = Ok (["c"; "a"; "b"; "d"], ["c"])%string.
Proof. vm_compute. reflexivity. Qed.
