(* ===== verification/AllOf.v ===== *)
(** * Merging allOf

    How the parser of the documentation viewer makes one schema of the members of
    an allOf ([mergeAllOf] of the class [vc] of redoc.standalone.js): the members
    are dereferenced, merged themselves, and put into one schema key by key. Names in
    brackets are those of the bundle. *)

From S2P Require Import Prelude PyData JsNumber JsData JsonPointer OpenApi SpecParser.
Local Open Scope Z_scope.

(** ** Computations that may not end *)

(** A value or an error; [None] when the fuel is used up. *)
Definition out (A : Type) : Type := option (result A).
Definition done {A} (a : A) : out A := Some (Ok a).
Definition throw {A} : out A := Some (Raise TypeError).
Definition then_ {A B} (m : out A) (k : A → out B) : out B :=
  match m with Some (Ok a) => k a | Some (Raise e) => Some (Raise e) | None => None end.
Notation "x ⇐ m ; k" := (then_ m (λ x, k)) (at level 20, m at level 100, k at level 200, only parsing) : stdpp_scope.
Notation "' x ⇐ m ; k" := (then_ m (λ x, k)) (at level 20, x pattern, m at level 100, k at level 200, only parsing) : stdpp_scope.
Definition of_result {A} (r : result A) : out A := Some r.

(** A loop over a list. *)
Section loops.
Context {A B : Type} (f : B → A → out B).
Fixpoint for_in (acc : B) (l : list A) : out B :=
  match l with [] => done acc | x :: l => acc ⇐ f acc x; for_in acc l end.
End loops.

(** ** Values *)

(** What [...v] puts into an array. *)
Definition iter (v : jsval) : result (list jsval) :=
  match v with
  | JsArr l => Ok l
  | JsStr s => Ok ((λ c, JsStr (String c EmptyString)) <$> list_ascii_of_string s)
  | _ => Raise TypeError
  end.
(** [typeof v === "object"]: of null too. *)
Definition object_type (v : jsval) : bool := match v with JsNull | JsArr _ | JsObj _ => true | _ => false end.
(** [v ?? undefined ... v[k]] of an own key, also an index. *)
Definition own (k : string) (v : jsval) : jsval := default JsUndef (lookup_key k (entries_of v)).
(** [v[k] = w] in strict code, for an object. *)
Definition put (k : string) (w v : jsval) : result jsval :=
  match v with JsObj l => Ok (JsObj (set_key k w l)) | _ => Raise TypeError end.
(** [Array.from(new Set(l))]. *)
Fixpoint unique (seen l : list jsval) : list jsval :=
  match l with [] => [] | v :: l => if existsb (same v) seen then unique seen l else v :: unique (v :: seen) l end.

(** The schema that is built: an object of its own. *)
Definition schema := list (string * jsval).
Definition at_key (k : string) (i : schema) : jsval := default JsUndef (lookup_key k i).
(** [void 0 !== v && (i[k] = v)]. *)
Definition set_defined (k : string) (v : jsval) (i : schema) : schema := if defined v then set_key k v i else i.
(** Two arrays are joined, anything else replaces. *)
Definition join_arrays (join : list jsval → list jsval → list jsval) (k : string) (v : jsval) (i : schema) : schema :=
  match v, at_key k i with
  | JsUndef, _ => i
  | JsArr a, JsArr b => set_key k (JsArr (join a b)) i
  | v, _ => set_key k v i
  end.

(** ** The members *)

(** A member: its reference, if it is one, the references followed to it, and the
    schema it stands for. *)
Record part := { ref : jsval; refsStack : stack; merged : jsval }.

Definition part_keys : list string := ["type"; "enum"; "properties"; "items"; "required"; "title"; "description";
  "readOnly"; "writeOnly"; "oneOf"; "anyOf"; "x-circular-ref"]%string.

(** Members with a reference that was there before are left out. *)
Fixpoint distinct (seen : list jsval) (l : list part) : list part :=
  match l with
  | [] => []
  | x :: l =>
      if js_truthy (ref x) then
        if existsb (same (ref x)) seen then distinct seen l else x :: distinct (ref x :: seen) l
      else x :: distinct seen l
  end.

Section merging.
(** How a reference is followed, and how a schema is merged, one call further. *)
Context (deref : jsval → stack → out (jsval * stack)) (mergeAllOf : jsval → jsval → stack → out jsval).

(** A member of allOf; none if it is circular and has an allOf of its own. The
    references it was merged from are added to those of the schema. *)
Definition member (n : stack) (acc : schema * list part) (e : jsval) : out (schema * list part) :=
  let '(i, l) := acc in
  '(r, o) ⇐ deref e n;
  match e with
  | JsUndef | JsNull => throw
  | _ =>
      let a := js_or (field "$ref" e) JsUndef in
      s ⇐ mergeAllOf r a o;
      if js_truthy (field "x-circular-ref" s) && js_truthy (field "allOf" s) then done (i, l)
      else
        i ⇐ (if js_truthy a then
               parents ⇐ of_result (iter (js_or (field "x-parentRefs" s) (JsArr [])));
               done (match at_key "x-parentRefs" i with
                     | JsArr b => set_key "x-parentRefs" (JsArr (b ++ parents ++ [a])) i
                     | _ => i
                     end)
             else done i);
        done (i, l ++ [{| ref := a; refsStack := yc o a; merged := s |}])
  end.

(** A property [k] of a member, with value [v]. *)
Definition property (circular : jsval) (t : jsval) (n : stack) (props : jsval) (kv : string * jsval) : out jsval :=
  let '(k, v) := kv in
  let o := bc n (field "x-refsStack" v) in
  let w := spread v (JsObj [("x-refsStack"%string, JsArr o)]) in
  if js_truthy (own k props) then
    if js_truthy circular then done props
    else
      x ⇐ mergeAllOf (JsObj [("allOf", JsArr [own k props; w]); ("x-refsStack", JsArr o)]%string)
            (JsStr (text t +:+ "/properties/" +:+ k)) o;
      of_result (put k x props)
  else of_result (put k w props).

Definition merge_properties (l circular t : jsval) (n : stack) (i : schema) : out schema :=
  if object_type l then
    props ⇐ for_in (property circular t n) (js_or (at_key "properties" i) (JsObj [])) (entries_of l);
    done (set_key "properties" props i)
  else done i.

Definition without_boolean (v : jsval) : jsval := match v with JsBool _ => JsObj [] | v => JsObj (entries_of v) end.
Definition merge_items (e circular t : jsval) (n : stack) (i : schema) : out schema :=
  if defined (field "items" e) && negb (js_truthy circular) then
    x ⇐ mergeAllOf (JsObj [("allOf"%string, JsArr [without_boolean (at_key "items" i); without_boolean (field "items" e)])])
          (JsStr (text t +:+ "/items")) n;
    done (set_key "items" x i)
  else done i.

Definition merge_required (u : jsval) (i : schema) : out schema :=
  if defined u then
    a ⇐ of_result (iter (js_or (at_key "required" i) (JsArr [])));
    b ⇐ of_result (iter u);
    done (set_key "required" (JsArr (a ++ b)) i)
  else done i.

(** A member is put into the schema. *)
Definition absorb (t : jsval) (i : schema) (x : part) : out schema :=
  let n := refsStack x in
  let e := merged x in
  let y := field "x-circular-ref" e in
  let i := join_arrays app "type" (field "type" e) i in
  let i := join_arrays (λ a b, unique [] (a ++ b)) "enum" (field "enum" e) i in
  i ⇐ merge_properties (field "properties" e) y t n i;
  i ⇐ merge_items e y t n i;
  let i := set_defined "oneOf" (field "oneOf" e) i in
  let i := set_defined "anyOf" (field "anyOf" e) i in
  i ⇐ merge_required (field "required" e) i;
  let first k := if defined (at_key k i) then at_key k i else field k e in
  done (assign (assign i [("title", js_or (at_key "title" i) (field "title" e));
                          ("description", js_or (at_key "description" i) (field "description" e));
                          ("readOnly", first "readOnly"); ("writeOnly", first "writeOnly");
                          ("x-circular-ref", js_or (at_key "x-circular-ref" i) y)]%string)
               (without part_keys (entries_of e))).

(** The schema the members are put into. *)
Definition copied (k : string) (i : schema) : schema :=
  if object_type (at_key k i) then set_key k (JsObj (entries_of (at_key k i))) i else i.
Definition receiver (e t : jsval) : schema :=
  let title := match fs t with Some n => JsStr n | None => JsUndef end in
  copied "items" (copied "properties"
    (assign (entries_of e) [("x-parentRefs", JsArr []); ("allOf", JsUndef); ("title", js_or (field "title" e) title)]%string)).

(** [mergeAllOf(e, t, n)], one call. *)
Definition merge_once (e t : jsval) (n : stack) : out jsval :=
  c ⇐ of_result (js_get "x-circular-ref" e);
  if js_truthy c then done e
  else
    e ⇐ of_result (hoistOneOfs e n);
    match field "allOf" e with
    | JsUndef => done e
    | JsArr l =>
        '(i, parts) ⇐ for_in (member n) (receiver e t, []) l;
        i ⇐ for_in (absorb t) i (distinct [] parts);
        done (JsObj i)
    | _ => throw
    end.
End merging.

(** [mergeAllOf], [fuel] nested calls deep. *)
Fixpoint mergeAllOf (fuel : nat) (p : parser) (e t : jsval) (n : stack) : out jsval :=
  match fuel with
  | O => None
  | S fuel => merge_once (λ e t, deref (S fuel) p e t true) (mergeAllOf fuel p) e t n
  end.

(** ** Facts about loops and keys *)

Lemma then_Ok {A B} (m : out A) (k : A → out B) b : then_ m k = Some (Ok b) → ∃ a, m = Some (Ok a) ∧ k a = Some (Ok b).
Proof. destruct m as [[a|]|]; try discriminate. by exists a. Qed.

(** What runs out runs out in one of its parts. *)
Lemma then_None {A B} (m : out A) (k : A → out B) : then_ m k = None → m = None ∨ ∃ a, m = Some (Ok a) ∧ k a = None.
Proof. destruct m as [[a|]|]; [|done|by left]. intros H. right. by exists a. Qed.
Lemma for_in_None {A B} (f : B → A → out B) l acc : for_in f acc l = None → ∃ x b, x ∈ l ∧ f b x = None.
Proof.
  revert acc. induction l as [|x l IH]; intros acc; [done|]. cbn. intros [H|(b & _ & (y & c & Hy & Hc)%IH)]%then_None; [exists x, acc; split; [left|done]|].
  exists y, c. split; [by right|done].
Qed.
(** What holds at the start and is kept by every round holds at the end. *)
Lemma for_in_inv {A B} (f : B → A → out B) (I : list A → B → Prop) l acc b :
  (∀ pre x acc acc', x ∈ l → I pre acc → f acc x = Some (Ok acc') → I (pre ++ [x]) acc') →
  I [] acc → for_in f acc l = Some (Ok b) → I l b.
Proof.
  intros Hf Hi. assert (∀ pre post acc, l = pre ++ post → I pre acc → for_in f acc post = Some (Ok b) → I l b) as H.
  { intros pre post. revert pre. induction post as [|x post IH]; intros pre acc' El Hp; cbn.
    - intros [= <-]. by rewrite app_nil_r in El; subst.
    - intros (acc2 & Hx & Hr)%then_Ok. apply (IH (pre ++ [x]) acc2); [by rewrite <- app_assoc|eapply Hf; [|done|done]|done].
      subst l. apply elem_of_app. right. left. }
  by apply (H [] l acc).
Qed.

Lemma assign_other k l m : k ∉ fst <$> m → lookup_key k (assign l m) = lookup_key k l.
Proof.
  revert l. induction m as [|[k' v] m IH]; intros l; cbn; [done|]. intros [Hk Hm]%not_elem_of_cons. rewrite IH by done. by apply set_key_other.
Qed.
Lemma at_key_other k k' v i : k ≠ k' → at_key k (set_key k' v i) = at_key k i.
Proof. intros H. unfold at_key. by rewrite set_key_other. Qed.
Lemma at_key_set k v i : at_key k (set_key k v i) = v.
Proof. unfold at_key. by rewrite set_key_lookup. Qed.
Lemma at_key_assign k l m : k ∉ fst <$> m → at_key k (assign l m) = at_key k l.
Proof. intros H. unfold at_key. by rewrite assign_other. Qed.
Lemma at_key_defined k k' v i : k ≠ k' → at_key k (set_defined k' v i) = at_key k i.
Proof. intros H. unfold set_defined. destruct (defined v); [by apply at_key_other|done]. Qed.
Lemma at_key_join join k k' v i : k ≠ k' → at_key k (join_arrays join k' v i) = at_key k i.
Proof. intros H. unfold join_arrays. destruct v, (at_key k' i); by rewrite ?at_key_other. Qed.
Lemma without_keys k ks l : k ∈ ks → k ∉ fst <$> without ks l.
Proof.
  intros Hk ([k' v] & -> & Hin)%list_elem_of_fmap. unfold without in Hin. apply list_elem_of_In, filter_In in Hin as [_ Hn].
  apply negb_true_iff, not_true_iff_false in Hn. apply Hn, existsb_exists. exists k'. split; [by apply list_elem_of_In|apply String.eqb_refl].
Qed.

(** ** Nothing is lost *)

(** The names of properties, and the names that are required. *)
Definition property_names (v : jsval) : list string := if object_type v then fst <$> entries_of v else [].
Definition elements_of (v : jsval) : list jsval := match iter v with Ok l => l | Raise _ => [] end.

Section kept.
Context (deref : jsval → stack → out (jsval * stack)) (merge : jsval → jsval → stack → out jsval).

Lemma own_name k v : js_truthy (own k v) = true → object_type v = true → k ∈ property_names v.
Proof.
  unfold own, property_names. intros H ->. destruct (decide (k ∈ fst <$> entries_of v)) as [|Hn]; [done|].
  by rewrite lookup_key_notin in H.
Qed.
Lemma put_names k w v v' : put k w v = Ok v' → (∀ j, j ∈ property_names v ∨ j = k → j ∈ property_names v') ∧ object_type v' = true.
Proof. destruct v; try discriminate. cbn. intros [= <-]. split; [|done]. intros j. by apply key_in_set. Qed.

(** Properties are an object, or nothing. *)
Definition props_ok (v : jsval) : Prop := js_truthy v = true → object_type v = true.

Lemma property_kept y t n props kv props' :
  object_type props = true → property merge y t n props kv = Some (Ok props') →
  (∀ k, k ∈ property_names props ∨ k = kv.1 → k ∈ property_names props') ∧ object_type props' = true.
Proof.
  destruct kv as [k v]. unfold property. intros Ho. destruct (js_truthy (own k props)) eqn:Hk.
  - destruct (js_truthy y).
    + intros [= <-]. split; [|done]. intros j [| ->]; [done|by apply own_name].
    + intros (x & _ & [= H])%then_Ok. by apply put_names in H.
  - intros [= H]. by apply put_names in H.
Qed.

Lemma merge_properties_kept l y t n i i' :
  props_ok (at_key "properties" i) → merge_properties merge l y t n i = Some (Ok i') →
  (∀ k, k ∈ property_names (at_key "properties" i) ∨ k ∈ property_names l → k ∈ property_names (at_key "properties" i')) ∧
  props_ok (at_key "properties" i') ∧ (∀ k, k ≠ "properties"%string → at_key k i' = at_key k i).
Proof.
  unfold merge_properties. intros Hok. destruct (object_type l) eqn:Hl.
  - intros (props & Hp & [= <-])%then_Ok. rewrite at_key_set. set (start := js_or _ _) in Hp.
    assert (∀ k, k ∈ property_names (at_key "properties" i) → k ∈ property_names start) as Hs.
    { unfold start, js_or. destruct (at_key "properties" i) eqn:E; try done; intros k Hk; by apply not_elem_of_nil in Hk. }
    assert (object_type start = true) as Ho.
    { unfold start, js_or. destruct (js_truthy (at_key "properties" i)) eqn:E; [by apply Hok|done]. }
    apply (for_in_inv (property merge y t n) (λ pre props, object_type props = true ∧
      ∀ k, k ∈ property_names start ∨ k ∈ fst <$> pre → k ∈ property_names props)) in Hp as [Ho' Hk].
    + split; [|split; [by intros _|by intros k ?; apply at_key_other]].
      intros k [Hin|Hin]; apply Hk; [left; by apply Hs|right]. unfold property_names in Hin. by rewrite Hl in Hin.
    + intros pre kv acc acc' _ [Ha Hacc] Hstep. apply property_kept in Hstep as [Hn Ha']; [|done]. split; [done|].
      intros k. rewrite fmap_app, elem_of_app. cbn. rewrite list_elem_of_singleton. intros [Hin|[Hin| ->]]; apply Hn; auto.
    + split; [done|]. intros k [|Hk]; [done|by apply not_elem_of_nil in Hk].
  - intros [= <-]. split_and!; [|done|done]. intros k [|Hk]; [done|]. unfold property_names in Hk. rewrite Hl in Hk. by apply not_elem_of_nil in Hk.
Qed.

Lemma merge_items_kept e y t n i i' : merge_items merge e y t n i = Some (Ok i') → ∀ k, k ≠ "items"%string → at_key k i' = at_key k i.
Proof.
  unfold merge_items. destruct (_ && _); [|by intros [= <-]]. intros (x & _ & [= <-])%then_Ok k Hk. by apply at_key_other.
Qed.

Lemma merge_required_kept u i i' :
  merge_required u i = Some (Ok i') →
  (∀ r, r ∈ elements_of (at_key "required" i) ∨ r ∈ elements_of u → r ∈ elements_of (at_key "required" i')) ∧
  (∀ k, k ≠ "required"%string → at_key k i' = at_key k i).
Proof.
  unfold merge_required. destruct (defined u) eqn:Hu.
  - intros (a & [= Ha] & (b & [= Hb] & [= <-])%then_Ok)%then_Ok. split; [|by intros k ?; apply at_key_other].
    rewrite at_key_set. cbn. intros r [Hr|Hr]; apply elem_of_app; [left|right; by unfold elements_of in Hr; rewrite Hb in Hr].
    unfold js_or in Ha. destruct (js_truthy (at_key "required" i)) eqn:E; [by unfold elements_of in Hr; rewrite Ha in Hr|].
    injection Ha as <-. destruct (at_key "required" i) as [| | | |[]| |]; try done.
  - intros [= <-]. split; [|done]. intros r [|Hr]; [done|]. destruct u; try done. by apply not_elem_of_nil in Hr.
Qed.

(** What one member adds, and that nothing goes. *)
Lemma absorb_kept t i x i' :
  props_ok (at_key "properties" i) → absorb merge t i x = Some (Ok i') →
  (∀ k, k ∈ property_names (at_key "properties" i) ∨ k ∈ property_names (field "properties" (merged x)) →
        k ∈ property_names (at_key "properties" i')) ∧
  props_ok (at_key "properties" i') ∧
  (∀ r, r ∈ elements_of (at_key "required" i) ∨ r ∈ elements_of (field "required" (merged x)) → r ∈ elements_of (at_key "required" i')).
Proof.
  unfold absorb. intros Hok (i1 & H1 & (i2 & H2 & (i3 & H3 & H4)%then_Ok)%then_Ok)%then_Ok.
  apply (inj Some), Ok_inj in H4. rewrite <- H4. clear H4 i'.
  apply merge_properties_kept in H1 as (Hp & Hok1 & Ho1); [|by rewrite !at_key_join].
  pose proof (merge_items_kept _ _ _ _ _ _ H2) as Ho2. apply merge_required_kept in H3 as [Hr Ho3].
  rewrite !(at_key_assign _ _ (without _ _)), !at_key_assign
    by (try apply without_keys; apply (bool_decide_unpack _); reflexivity).
  rewrite (Ho3 "properties"%string), !at_key_defined, (Ho2 "properties"%string) by done.
  rewrite !at_key_defined, (Ho2 "required"%string), (Ho1 "required"%string), !at_key_join in Hr by done. rewrite !at_key_join in Hp by done.
  done.
Qed.
End kept.

Lemma distinct_in x l seen :
  x ∈ l → x ∈ distinct seen l ∨
  js_truthy (ref x) = true ∧ ((∃ r, r ∈ seen ∧ same (ref x) r = true) ∨ ∃ y, y ∈ distinct seen l ∧ same (ref x) (ref y) = true).
Proof.
  revert seen. induction l as [|y l IH]; intros seen Hx; [by apply not_elem_of_nil in Hx|].
  apply elem_of_cons in Hx as [<-|Hx]; cbn.
  - destruct (js_truthy (ref x)) eqn:E; [|by left; left]. destruct (existsb (same (ref x)) seen) eqn:Es; [|by left; left].
    right. split; [done|]. left. apply existsb_exists in Es as (r & Hr & Hs). exists r. split; [by apply list_elem_of_In|done].
  - destruct (js_truthy (ref y)) eqn:E; [destruct (existsb (same (ref y)) seen)|].
    + by apply IH.
    + destruct (IH (ref y :: seen) Hx) as [H|[Ht [(r & [->|Hr]%elem_of_cons & Hs)|(z & Hz & Hs)]]].
      * left. by right.
      * right. split; [done|]. right. exists y. split; [left|done].
      * right. split; [done|]. left. by exists r.
      * right. split; [done|]. right. exists z. split; [by right|done].
    + destruct (IH seen Hx) as [H|[Ht [H|(z & Hz & Hs)]]]; [left; by right|right; split; [done|by left]|].
      right. split; [done|]. right. exists z. split; [by right|done].
Qed.

Lemma distinct_sub x l seen : x ∈ distinct seen l → x ∈ l.
Proof.
  revert seen. induction l as [|y l IH]; intros seen; cbn; [done|]. rewrite elem_of_cons.
  repeat case_match; rewrite ?elem_of_cons; intros Hx; try destruct Hx as [->|Hx]; eauto.
Qed.

(** What a member of an allOf stands for, [fuel] calls deep. *)
Definition stands_for (fuel : nat) (p : parser) (n : stack) (m : jsval) (x : part) : Prop :=
  ref x = js_or (field "$ref" m) JsUndef ∧
  ∃ r o, deref (S fuel) p m n true = Some (Ok (r, o)) ∧ mergeAllOf fuel p r (ref x) o = Some (Ok (merged x)) ∧
    refsStack x = yc o (ref x).
Definition dropped (x : part) : Prop :=
  js_truthy (field "x-circular-ref" (merged x)) = true ∧ js_truthy (field "allOf" (merged x)) = true.
(** Its properties and required names are in the result. *)
Definition included (s v : jsval) : Prop :=
  (∀ k, k ∈ property_names (field "properties" s) → k ∈ property_names (field "properties" v)) ∧
  (∀ r, r ∈ elements_of (field "required" s) → r ∈ elements_of (field "required" v)).

Lemma member_kept fuel p n i parts m i' parts' :
  member (λ e t, deref (S fuel) p e t true) (mergeAllOf fuel p) n (i, parts) m = Some (Ok (i', parts')) →
  (∀ k, k ≠ "x-parentRefs"%string → at_key k i' = at_key k i) ∧
  ∃ x, stands_for fuel p n m x ∧ (dropped x ∧ parts' = parts ∨ parts' = parts ++ [x]).
Proof.
  cbn [member]. intros ([r o] & Hd & H)%then_Ok.
  assert (m ≠ JsUndef ∧ m ≠ JsNull) as [Hu Hn] by (split; intros ->; discriminate H).
  assert (then_ (mergeAllOf fuel p r (js_or (field "$ref" m) JsUndef) o) (λ s,
      if js_truthy (field "x-circular-ref" s) && js_truthy (field "allOf" s) then done (i, parts)
      else
        i ⇐ (if js_truthy (js_or (field "$ref" m) JsUndef) then
               parents ⇐ of_result (iter (js_or (field "x-parentRefs" s) (JsArr [])));
               done (match at_key "x-parentRefs" i with
                     | JsArr b => set_key "x-parentRefs" (JsArr (b ++ parents ++ [js_or (field "$ref" m) JsUndef])) i
                     | _ => i
                     end)
             else done i);
        done (i, parts ++ [{| ref := js_or (field "$ref" m) JsUndef; refsStack := yc o (js_or (field "$ref" m) JsUndef); merged := s |}])) = Some (Ok (i', parts'))) as (s & Hs & H')%then_Ok
    by (destruct m; done).
  clear H. set (x := {| ref := js_or (field "$ref" m) JsUndef; refsStack := yc o (js_or (field "$ref" m) JsUndef); merged := s |}) in *.
  assert (stands_for fuel p n m x) as Hx by (split; [done|by exists r, o]).
  destruct (js_truthy (field "x-circular-ref" s) && js_truthy (field "allOf" s)) eqn:E.
  - injection H' as <- <-. split; [done|]. exists x. split; [done|]. left. by apply andb_true_iff in E.
  - apply then_Ok in H' as (i1 & H1 & [= <- <-]). split; [|by exists x; split; [|right]]. intros k Hk.
    revert H1. destruct (js_truthy (js_or _ _)); [|by intros [= <-]]. intros (ps & _ & [= <-])%then_Ok.
    destruct (at_key "x-parentRefs" i); try done. by apply at_key_other.
Qed.

Lemma receiver_kept e t :
  at_key "required" (receiver e t) = own "required" e ∧
  property_names (at_key "properties" (receiver e t)) = property_names (own "properties" e) ∧
  (props_ok (own "properties" e) → props_ok (at_key "properties" (receiver e t))).
Proof.
  unfold receiver. set (i := assign _ _).
  assert (∀ k, k ∉ ["x-parentRefs"; "allOf"; "title"]%string → at_key k i = own k e) as Hi by (intros k Hk; by apply at_key_assign).
  assert (∀ k k' i, k ≠ k' → at_key k (copied k' i) = at_key k i) as Hc.
  { intros k k' j Hk. unfold copied. destruct (object_type _); [by apply at_key_other|done]. }
  rewrite !Hc, !Hi by (done || (apply (bool_decide_unpack _); reflexivity)).
  assert (at_key "properties" i = own "properties" e) as Hp by (apply Hi; apply (bool_decide_unpack _); reflexivity).
  unfold copied. rewrite Hp. destruct (object_type (own "properties" e)) eqn:Ho.
  - rewrite at_key_set. split; [done|]. split; [|done]. unfold property_names at 2. by rewrite Ho.
  - rewrite Hp. done.
Qed.

(** The two loops of a merge. *)
Lemma merge_loops fuel p e t n v l :
  mergeAllOf (S fuel) p e t n = Some (Ok v) → js_truthy (field "x-circular-ref" e) = false →
  field "allOf" e = JsArr l → split_oneOf [] l = Ok None →
  ∃ i parts i', for_in (member (λ e t, deref (S fuel) p e t true) (mergeAllOf fuel p) n) (receiver e t, []) l = Some (Ok (i, parts)) ∧
    for_in (absorb (mergeAllOf fuel p) t) i (distinct [] parts) = Some (Ok i') ∧ v = JsObj i'.
Proof.
  intros H Hc He Hs. destruct e as [| | | | | |d]; try done. cbn [mergeAllOf] in H. unfold merge_once in H.
  apply then_Ok in H as (c & [= <-] & H). unfold field in Hc. rewrite Hc in H. apply then_Ok in H as (e & Hh & H).
  assert (e = JsObj d) as ->.
  { unfold hoistOneOfs in Hh. cbn in Hh, He. rewrite He in Hh. cbn in Hh. rewrite Hs in Hh. by injection Hh as <-. }
  rewrite He in H. apply then_Ok in H as ([i parts] & H1 & (i' & H2 & [= <-])%then_Ok). by exists i, parts, i'.
Qed.

Lemma members_kept fuel p n l i0 i parts :
  for_in (member (λ e t, deref (S fuel) p e t true) (mergeAllOf fuel p) n) (i0, []) l = Some (Ok (i, parts)) →
  (∀ k, k ≠ "x-parentRefs"%string → at_key k i = at_key k i0) ∧
  (∀ m, m ∈ l → ∃ x, stands_for fuel p n m x ∧ (dropped x ∨ x ∈ parts)) ∧
  (∀ x, x ∈ parts → ∃ m, m ∈ l ∧ stands_for fuel p n m x).
Proof.
  intros H. apply (for_in_inv _ (λ pre acc, (∀ k, k ≠ "x-parentRefs"%string → at_key k acc.1 = at_key k i0) ∧
    (∀ m, m ∈ pre → ∃ x, stands_for fuel p n m x ∧ (dropped x ∨ x ∈ acc.2)) ∧
    (∀ x, x ∈ acc.2 → ∃ m, m ∈ l ∧ stands_for fuel p n m x))) in H; [done| |].
  - intros pre m [j ps] [j' ps'] Hm (Hk & Hall & Hfrom) Hstep. apply member_kept in Hstep as [Hk' (x & Hx & Hd)]. cbn [fst snd] in *.
    split; [intros k ?; rewrite Hk' by done; by apply Hk|]. split.
    + intros m' [Hm'| ->%list_elem_of_singleton]%elem_of_app.
      * destruct (Hall m' Hm') as (y & Hy & Hin). exists y. split; [done|]. destruct Hd as [[_ ->]| ->]; [done|].
        destruct Hin; [by left|right]. apply elem_of_app. by left.
      * exists x. split; [done|]. destruct Hd as [[? _]| ->]; [by left|right]. apply elem_of_app. right. left.
    + intros y Hy. destruct Hd as [[_ ->]| ->]; [by apply Hfrom|].
      apply elem_of_app in Hy as [Hy| ->%list_elem_of_singleton]; [by apply Hfrom|by exists m].
  - split; [done|]. split; intros ? Hin; by apply not_elem_of_nil in Hin.
Qed.

Lemma absorbed_all merge t parts i i' :
  props_ok (at_key "properties" i) → for_in (absorb merge t) i parts = Some (Ok i') →
  included (JsObj i) (JsObj i') ∧ ∀ x, x ∈ parts → included (merged x) (JsObj i').
Proof.
  intros Hok H. apply (for_in_inv _ (λ pre j, props_ok (at_key "properties" j) ∧ included (JsObj i) (JsObj j) ∧
    ∀ x, x ∈ pre → included (merged x) (JsObj j))) in H; [tauto| |].
  - intros pre x j j' _ (Hj & Hi & Hall) Hstep. apply absorb_kept in Hstep as (Hp & Hok' & Hr); [|done].
    assert (included (JsObj j) (JsObj j')) as Hjj by (split; intros ? ?; [apply Hp|apply Hr]; by left).
    assert (∀ s, included s (JsObj j) → included s (JsObj j')) as Htrans.
    { intros s [H1 H2]. split; intros ? ?; [by apply Hjj, H1|by apply Hjj, H2]. }
    split; [done|]. split; [by apply Htrans|]. intros y [Hy| ->%list_elem_of_singleton]%elem_of_app; [by apply Htrans, Hall|].
    split; intros ? ?; [apply Hp|apply Hr]; by right.
  - split; [done|]. split; [split; by intros|]. intros x Hx. by apply not_elem_of_nil in Hx.
Qed.

(** C21: Merging an allOf loses no property and no required name. If merging a schema gives
    a schema, and that schema is not marked as circular, its allOf is an array none of whose
    members has an array oneOf of its own (those are distributed instead), and its
    properties, if there are any, are an object, then the properties and required names of
    the schema itself are in the result, and so are for each member those of the schema that
    its dereferenced value is merged to, or, when the same reference was there before, of
    what that reference was merged to. Only a member that is merged to a circular schema which
    still has an allOf is left out. *)
Theorem merge_keeps fuel p e t n v l :
  mergeAllOf (S fuel) p e t n = Some (Ok v) → js_truthy (field "x-circular-ref" e) = false →
  field "allOf" e = JsArr l → split_oneOf [] l = Ok None → props_ok (field "properties" e) →
  included e v ∧
  ∀ m, m ∈ l → ∃ x, stands_for fuel p n m x ∧
    (dropped x ∨ included (merged x) v ∨
     ∃ m' y, m' ∈ l ∧ stands_for fuel p n m' y ∧ same (ref x) (ref y) = true ∧ included (merged y) v).
Proof.
  intros H Hc He Hs Hok. destruct e as [| | | | | |d]; try done.
  destruct (merge_loops _ _ _ _ _ _ _ H Hc He Hs) as (i & parts & i' & H1 & H2 & ->).
  apply members_kept in H1 as (Hk & Hall & Hfrom). destruct (receiver_kept (JsObj d) t) as (Hr & Hn & Hrok).
  assert (included (JsObj d) (JsObj i)) as Hdi.
  { unfold included. change (field "properties" (JsObj i)) with (at_key "properties" i). change (field "required" (JsObj i)) with (at_key "required" i).
    rewrite !Hk, Hr by done. rewrite Hn. done. }
  apply absorbed_all in H2 as [Hi Hx]; [|rewrite Hk by done; by apply Hrok]. split.
  - split; intros ? ?; by apply Hi, Hdi.
  - intros m Hm. destruct (Hall m Hm) as (x & Hmx & [Hd|Hin]); exists x; (split; [done|]); [by left|right].
    destruct (distinct_in x parts [] Hin) as [Hin'|[_ [(r & Hr' & _)|(y & Hy & Hsame)]]].
    + left. by apply Hx.
    + by apply not_elem_of_nil in Hr'.
    + right. pose proof (distinct_sub _ _ _ Hy) as Hyp. destruct (Hfrom y Hyp) as (m' & Hm' & Hym). exists m', y. split_and!; auto.
Qed.

Definition animals : parser := schemas [
  ("Animal", JsObj [("properties", JsObj [("name", JsObj [("type", JsStr "string")])]); ("required", JsArr [JsStr "name"])]);
  ("Pet", JsObj [("allOf", JsArr [ref_to "Animal"; JsObj [("properties", JsObj [("owner", JsObj [])])]])])]%string.
Definition dog : jsval := JsObj [("allOf", JsArr [ref_to "Pet"; JsObj [("required", JsArr [JsStr "owner"])]])]%string.
Definition dog_merged : jsval := Eval vm_compute in match mergeAllOf 5 animals dog JsUndef [] with Some (Ok v) => v | _ => JsUndef end.
Lemma merge_keeps_witness :
  property_names (field "properties" dog_merged) = ["name"; "owner"]%string ∧
  elements_of (field "required" dog_merged) = [JsStr "name"; JsStr "owner"]%string ∧ included dog dog_merged.
Proof.
  split; [reflexivity|]. split; [reflexivity|].
  apply (merge_keeps 4 animals dog JsUndef [] dog_merged [ref_to "Pet"; JsObj [("required", JsArr [JsStr "owner"])]]%string); try (vm_compute; reflexivity).
  intros H. discriminate H.
Defined.

(** The references a schema was merged from: those of the last member replace what
    was collected, so that here only "Animal" is left and "Pet" is lost. *)
Example parents_lost :
  field "x-parentRefs" dog_merged = JsArr [JsStr "#/components/schemas/Animal"]%string.
Proof. reflexivity. Qed.
