(* ===== verification/AllOfEnds.v ===== *)
(** * Merging allOf ends

    When the schemas of a document have no cycle, merging them ([AllOf]) ends with
    every stack and pointer: [ends] says that a computation with fuel settles,
    [acyclic] what a schema without cycles is, and every step of the merge ends and
    keeps the schema that is built acyclic. *)

From S2P Require Import Prelude PyData JsNumber JsData JsonPointer OpenApi SpecParser AllOf.
Local Open Scope Z_scope.

Lemma assign_NoDup l m : NoDup (fst <$> l) → NoDup (fst <$> assign l m).
Proof. revert l. induction m as [|[k v] m IH]; intros l Hl; [done|]. cbn. by apply IH, set_key_NoDup. Qed.
(** A key that is assigned, or keeps its value. *)
Lemma at_key_in k v l : (k, v) ∈ l → NoDup (fst <$> l) → at_key k l = v.
Proof.
  unfold at_key. induction l as [|[k' w] l IH]; cbn; [by intros ?%not_elem_of_nil|]. intros [[= -> ->]|H]%elem_of_cons [Hk Hl]%NoDup_cons.
  - by rewrite String.eqb_refl.
  - destruct (String.eqb_spec k k') as [->|]; [|by apply IH]. exfalso. apply Hk. apply list_elem_of_fmap. by exists (k', v).
Qed.
Lemma at_key_assigned k i m : at_key k (assign i m) = at_key k i ∨ (k, at_key k (assign i m)) ∈ m.
Proof.
  revert i. induction m as [|[k' v] m IH]; intros i; [by left|].
  change (assign i ((k', v) :: m)) with (assign (set_key k' v i) m). destruct (IH (set_key k' v i)) as [H|H]; [|right; by right].
  destruct (decide (k = k')) as [->|Hk]; [|left; by rewrite H, at_key_other]. right. rewrite H, at_key_set. left.
Qed.

(** What computing with any enough fuel gives, and what holds of it. *)
Definition ends {A} (m : nat → out A) (P : A → Prop) : Prop :=
  ∃ r, (∃ fuel, ∀ fuel', (fuel ≤ fuel')%nat → m fuel' = Some r) ∧ ∀ a, r = Ok a → P a.

Lemma ends_const {A} (r : result A) (P : A → Prop) : (∀ a, r = Ok a → P a) → ends (λ _, Some r) P.
Proof. intros H. exists r. split; [by exists 0%nat|done]. Qed.
Lemma ends_done {A} (a : A) (P : A → Prop) : P a → ends (λ _, done a) P.
Proof. intros H. apply ends_const. by intros ? [= <-]. Qed.
Lemma ends_then {A B} (m : nat → out A) (k : nat → A → out B) P Q :
  ends m P → (∀ a, P a → ends (λ f, k f a) Q) → ends (λ f, then_ (m f) (k f)) Q.
Proof.
  intros ([a|x] & [f Hf] & HP) Hk.
  - destruct (Hk a (HP a eq_refl)) as (r & [g Hg] & HQ). exists r. split; [|done]. exists (f `max` g)%nat. intros h Hh.
    rewrite Hf by lia. cbn. apply Hg. lia.
  - exists (Raise x). split; [|done]. exists f. intros h Hh. by rewrite Hf.
Qed.
Lemma ends_weaken {A} (m : nat → out A) (P Q : A → Prop) : ends m P → (∀ a, P a → Q a) → ends m Q.
Proof. intros (r & Hr & HP) H. exists r. split; [done|]. auto. Qed.
Lemma ends_more {A} (m : nat → out A) P : ends (λ f, m (S f)) P → ends m P.
Proof.
  intros (r & [f Hf] & HP). exists r. split; [|done]. exists (S f). intros [|g] Hg; [lia|]. apply Hf. lia.
Qed.
Lemma ends_for_in {A B} (f : nat → B → A → out B) (I : B → Prop) l acc :
  I acc → (∀ x acc, x ∈ l → I acc → ends (λ n, f n acc x) I) → ends (λ n, for_in (f n) acc l) I.
Proof.
  revert acc. induction l as [|x l IH]; intros acc Hi Hf; [by apply ends_done|]. cbn [for_in].
  apply (ends_then (λ n, f n acc x) (λ n b, for_in (f n) b l) I); [apply Hf; [left|done]|].
  intros b Hb. apply IH; [done|]. intros y c Hy. apply Hf. by right.
Qed.

(** An index is no name of a key. *)
Fixpoint all_digits (s : string) : bool := match s with EmptyString => true | String c s => is_digit c && all_digits s end.
Lemma index_digits (i : nat) : all_digits (pretty (Z.of_nat i)) = true.
Proof.
  assert (∀ n s, all_digits s = true → all_digits (pretty_N_go n s) = true) as Hgo.
  { intros n. induction (N.lt_wf_0 n) as [n _ IH]. intros s Hs. destruct (decide (0 < n)%N) as [Hn|Hn].
    - rewrite pretty_N_go_step by done. apply IH; [apply N.div_lt; lia|]. cbn [all_digits]. rewrite Hs, andb_true_r.
      unfold pretty_N_char. by repeat case_match.
    - assert (n = 0)%N as -> by lia. by rewrite pretty_N_go_0. }
  destruct i as [|i]; [done|]. change (all_digits (pretty_N (Npos (Pos.of_succ_nat i))) = true). unfold pretty_N.
  case_decide; [done|]. by apply Hgo.
Qed.
Lemma index_none {A B} k (f : A → B) (l : list A) : all_digits k = false → lookup_key k (imap (λ i v, (pretty (Z.of_nat i), f v)) l) = None.
Proof.
  intros Hk. apply lookup_key_notin. intros (kv & -> & (i & v & -> & _)%elem_of_lookup_imap_1)%list_elem_of_fmap. cbn in Hk.
  by rewrite index_digits in Hk.
Qed.
Lemma own_ref i : own "$ref" i = field "$ref" i.
Proof. destruct i; unfold own; try done; unfold entries_of; by rewrite index_none. Qed.

Section acyclic.
Context (p : parser).

(** What following a reference can give: the end of the chain, or something on the
    way marked as circular. *)
Inductive resolves : jsval → jsval → Prop :=
  | res_end e : isRef e = false → resolves e e
  | res_ignored e n : isRef e = true → resolves e (JsObj [("type", JsStr "object"); ("title", JsStr n)]%string)
  | res_circular e s i : field "$ref" e = JsStr s → byRef p (JsStr s) = Ok i → resolves e (circular_of i)
  | res_ref e s i v : field "$ref" e = JsStr s → byRef p (JsStr s) = Ok i → resolves i v → resolves e v.

Lemma deref_resolves fuel e t n v o :
  allowMergeRefs p = false → deref fuel p e t n = Some (Ok (v, o)) → resolves e v.
Proof.
  intros Hm. revert e t v o. induction fuel as [|fuel IH]; intros e t v o; [done|]. cbn [deref].
  destruct (isRef e) eqn:He; [|intros [= <- _]; by apply res_end]. destruct (field "$ref" e) eqn:Hs; try discriminate.
  destruct (match fs (JsStr s) with Some _ => _ | None => false end); [intros [= <- _]; by apply res_ignored|].
  destruct (byRef p (JsStr s)) as [i|] eqn:Hi; [|discriminate]. rewrite Hm. destruct (_ || _); [intros [= <- _]; by eapply res_circular|].
  destruct (isRef i) eqn:Hr; [|intros [= <- _]; eapply res_ref; [done|done|by apply res_end]].
  destruct (deref fuel p i _ n) as [[[w ?]|]|] eqn:E; [|discriminate|discriminate]. intros [= <- _]. eapply res_ref; [done|done|by eapply IH].
Qed.

Lemma deref_settles e k t n : leads p e k → ∃ r, ∀ fuel, (k < fuel)%nat → deref fuel p e t n = Some r.
Proof.
  intros H. revert t. induction H as [e He|e s x Hs Hx|e He Hs|e s i k Hs Hi _ IH]; intros t.
  - eexists. intros [|fuel] Hf; [lia|]. cbn [deref]. by rewrite He.
  - destruct (isRef e) eqn:He; [destruct (match fs (JsStr s) with Some n => bool_decide (n ∈ ignoreNamedSchemas p) | None => false end) eqn:Hf|];
      eexists; (intros [|fuel] ?; [lia|]; cbn [deref]; rewrite He, ?Hs, ?Hf, ?Hx; reflexivity).
  - exists (Raise TypeError). intros [|fuel] Hf; [lia|]. cbn [deref]. rewrite He. destruct (field "$ref" e) eqn:E; try done. by destruct (Hs s eq_refl).
  - destruct (IH (bc t (field "x-refsStack" e))) as [r Hr]. destruct (isRef e) eqn:He.
    + destruct (match fs (JsStr s) with Some n => bool_decide (n ∈ ignoreNamedSchemas p) | None => false end) eqn:Hf.
      { eexists. intros [|fuel] ?; [lia|]. cbn [deref]. rewrite He, Hs, Hf. reflexivity. }
      destruct (existsb (same (JsStr s)) (bc t (field "x-refsStack" e)) || (max_stack <? length (bc t (field "x-refsStack" e)))%nat) eqn:Hc.
      { eexists. intros [|fuel] ?; [lia|]. cbn [deref]. rewrite He, Hs, Hf, Hi, Hc. reflexivity. }
      destruct (isRef i) eqn:Hri; [destruct r as [[w ow]|x]|];
        eexists; (intros [|fuel] ?; [lia|]; cbn [deref]; rewrite He, Hs, Hf, Hi, Hc, Hri, ?Hr by lia; reflexivity).
    + eexists. intros [|fuel] ?; [lia|]. cbn [deref]. rewrite He. reflexivity.
Qed.

(** A schema without cycles: [d] bounds how deep properties and items are nested in
    it, whatever references are followed and members merged. *)
Inductive acyclic : nat → jsval → Prop :=
  | acyclic_intro d e :
      NoDup (fst <$> e) →
      (∀ l m, at_key "allOf" e = JsArr l → m ∈ l → ∃ k, leads p m k) →
      (∀ l m v, at_key "allOf" e = JsArr l → m ∈ l → resolves m v → acyclic d v) →
      (∀ k w, (k, w) ∈ entries_of (at_key "properties" e) → (∃ o, w = JsObj o) ∧ (∃ j, leads p w j) ∧ (0 < d)%nat) →
      (∀ k w v d', (k, w) ∈ entries_of (at_key "properties" e) → d = S d' → resolves w v → acyclic d' v) →
      (defined (at_key "items" e) = true → (∃ o, at_key "items" e = JsObj o) ∧ (∃ j, leads p (at_key "items" e) j) ∧ (0 < d)%nat) →
      (∀ v d', defined (at_key "items" e) = true → d = S d' → resolves (at_key "items" e) v → acyclic d' v) →
      acyclic d (JsObj e).

(** A value, perhaps a reference, that stands for such schemas. *)
Definition usable (d : nat) (m : jsval) : Prop := (∃ k, leads p m k) ∧ ∀ v, resolves m v → acyclic d v.
Definition below (d : nat) (w : jsval) : Prop := ∃ d', d = S d' ∧ (∃ o, w = JsObj o) ∧ usable d' w.
(** A value of "$ref" is none, or leads to such schemas. *)
Definition ref_ok (d : nat) (v : jsval) : Prop :=
  isRef (JsObj [("$ref"%string, v)]) = true → usable d (JsObj [("$ref"%string, v)]).
Record acyclic_keys (d : nat) (e : schema) : Prop := {
  keys_once : NoDup (fst <$> e);
  members_usable l m : at_key "allOf" e = JsArr l → m ∈ l → usable d m;
  properties_below k w : (k, w) ∈ entries_of (at_key "properties" e) → below d w;
  items_below : defined (at_key "items" e) = true → below d (at_key "items" e);
}.

Lemma acyclic_iff d e : acyclic d (JsObj e) ↔ acyclic_keys d e.
Proof.
  split.
  - intros H. inversion H as [? ? H1 H2 H3 H4 H5 H6 H7]; subst. split; [done|..].
    + intros l m Hl Hm. split; [by eapply H2|intros v; by eapply H3].
    + intros k w Hw. destruct (H4 k w Hw) as (Ho & Hj & Hd). destruct d as [|d]; [lia|]. exists d. split_and!; [done|done|].
      split; [done|]. intros v. by eapply H5.
    + intros Hi. destruct (H6 Hi) as (Ho & Hj & Hd). destruct d as [|d]; [lia|]. exists d. split_and!; [done|done|].
      split; [done|]. intros v. by apply H7.
  - intros [H1 H2 H3 H4]. constructor; [done|..].
    + intros l m Hl Hm. by destruct (H2 l m Hl Hm).
    + intros l m v Hl Hm. by destruct (H2 l m Hl Hm) as [_ H]; apply H.
    + intros k w Hw. destruct (H3 k w Hw) as (d' & -> & Ho & Hj & _). split_and!; [done|done|lia].
    + intros k w v d' Hw ->. destruct (H3 k w Hw) as (d2 & [= <-] & _ & _ & Hv). apply Hv.
    + intros Hi. destruct (H4 Hi) as (d' & -> & Ho & Hj & _). split_and!; [done|done|lia].
    + intros v d' Hi ->. destruct (H4 Hi) as (d2 & [= <-] & _ & _ & Hv). apply Hv.
Qed.

(** What following it gives depends on a reference only. *)
Lemma resolves_ref e e' v : isRef e = true → isRef e' = true → field "$ref" e = field "$ref" e' → resolves e v → resolves e' v.
Proof.
  intros He He' Hr H. destruct H as [e H|e n H|e s i Hs Hi|e s i v Hs Hi H]; [congruence|by apply res_ignored| |].
  - eapply res_circular; [by rewrite <- Hr|done].
  - eapply res_ref; [by rewrite <- Hr|done|done].
Qed.
Lemma leads_same e e' k : isRef e = true → isRef e' = true → field "$ref" e = field "$ref" e' → leads p e k → leads p e' k.
Proof.
  intros He He' Hr H. destruct H as [e H|e s x Hs Hx|e H Hs|e s i k Hs Hi H]; [congruence| | |].
  - eapply leads_error; [by rewrite <- Hr|done].
  - apply leads_other; [done|]. intros s. by rewrite <- Hr.
  - eapply leads_ref; [by rewrite <- Hr|done|done].
Qed.

Lemma isRef_obj e : isRef (JsObj e) = isRef (JsObj [("$ref"%string, at_key "$ref" e)]).
Proof. done. Qed.
Lemma usable_obj d e : acyclic_keys d e → ref_ok d (at_key "$ref" e) → usable d (JsObj e).
Proof.
  intros He Hr. destruct (isRef (JsObj e)) eqn:E.
  - destruct (Hr E) as [[k Hk] Hv]. split.
    + exists k. by apply (leads_same (JsObj [("$ref"%string, at_key "$ref" e)])).
    + intros v H. apply Hv. by apply (resolves_ref (JsObj e)).
  - split; [exists 0%nat; by apply leads_end|]. intros v H. inversion H; subst; try congruence; [by apply acyclic_iff| |];
      exfalso; unfold isRef in E; cbn in E; unfold field in *; match goal with Hf : _ = JsStr _ |- _ => rewrite Hf in E end; done.
Qed.
Lemma usable_ref d e : usable d (JsObj e) → ref_ok d (at_key "$ref" e).
Proof.
  intros [[k Hk] Hv] E. split.
  - exists k. by apply (leads_same (JsObj e)).
  - intros v H. apply Hv. by apply (resolves_ref (JsObj [("$ref"%string, at_key "$ref" e)])).
Qed.

(** Schemas on the way are usable too. *)
Lemma resolves_usable d m v : usable d m → resolves m v → usable d v ∧ acyclic d v.
Proof.
  intros Hu H. split; [|by apply Hu]. induction H as [e H|e n H|e s i Hs Hi|e s i v Hs Hi H IH].
  - done.
  - apply usable_obj; [|done]. apply acyclic_iff. apply Hu. by apply res_ignored.
  - assert (isRef e = true) as He by (unfold isRef; rewrite Hs; by destruct e).
    assert (acyclic d (circular_of i)) as Hc by (apply Hu; by eapply res_circular).
    assert (at_key "$ref" (assign (entries_of i) [("x-circular-ref", JsBool true)]%string) = field "$ref" i) as Hri
      by (rewrite at_key_assign; [apply own_ref|by apply (bool_decide_unpack _)]).
    change (circular_of i) with (JsObj (assign (entries_of i) [("x-circular-ref", JsBool true)]%string)) in *.
    apply usable_obj; [by apply acyclic_iff|]. rewrite Hri. intros Er. destruct Hu as [[k Hk] Hv].
    assert (isRef i = true) as Hi' by (destruct i; done).
    inversion Hk as [? H|? s2 x Hs2 Hx|? H Hs2|? s2 i2 k' Hs2 Hi2 Hl]; subst; try congruence.
    assert (i2 = i) as -> by congruence. split; [exists k'; by apply (leads_same i)|].
    intros v H. apply Hv. eapply res_ref; [done|done|]. by apply (resolves_ref (JsObj [("$ref"%string, field "$ref" i)])).
  - apply IH. destruct Hu as [[k Hk] Hv].
    inversion Hk as [? H'|? s2 x Hs2 Hx|? H' Hs2|? s2 i2 k' Hs2 Hi2 Hl]; subst; try congruence.
    + by unfold isRef in H'; rewrite Hs in H'; destruct e.
    + assert (i2 = i) as -> by congruence. split; [by exists k'|]. intros w Hw. apply Hv. by eapply res_ref.
Qed.

(** ** The schema that is built stays acyclic *)

Definition built (d : nat) (i : schema) : Prop := acyclic_keys d i ∧ ref_ok d (at_key "$ref" i).
Definition result_ok (d : nat) (v : jsval) : Prop := ∃ i, v = JsObj i ∧ built d i.
Definition special : list string := ["allOf"; "properties"; "items"; "$ref"]%string.

Lemma built_ok d i : built d i → usable d (JsObj i).
Proof. intros [H1 H2]. by apply usable_obj. Qed.
Lemma built_iff d i : built d i ↔ acyclic d (JsObj i) ∧ usable d (JsObj i).
Proof.
  split; [intros H; split; [by apply acyclic_iff, H|by apply built_ok]|]. intros [H1 H2]. split; [by apply acyclic_iff|by apply usable_ref].
Qed.
(** The four keys decide. *)
Lemma built_same d i j : NoDup (fst <$> j) → (∀ k, k ∈ special → at_key k j = at_key k i) → built d i → built d j.
Proof.
  intros Hj Hs [[H1 H2 H3 H4] Hr]. unfold built.
  rewrite (Hs "$ref"%string) by (apply (bool_decide_unpack _); reflexivity). split; [|done].
  split; [done|..]; rewrite Hs by (apply (bool_decide_unpack _); reflexivity); done.
Qed.
Lemma built_set d i k v : k ∉ special → built d i → built d (set_key k v i).
Proof.
  intros Hk Hb. apply (built_same d i); [apply set_key_NoDup, Hb|intros k' Hk'|done]. apply at_key_other. by intros ->.
Qed.
Lemma built_assign d i m : (∀ k, k ∈ special → k ∉ fst <$> m) → built d i → built d (assign i m).
Proof. intros Hm Hb. apply (built_same d i); [apply assign_NoDup, Hb|intros k Hk; by apply at_key_assign, Hm|done]. Qed.
Lemma built_defined d i k v : k ∉ special → built d i → built d (set_defined k v i).
Proof. unfold set_defined. destruct (defined v); [apply built_set|done]. Qed.
Lemma built_join d join k v i : k ∉ special → built d i → built d (join_arrays join k v i).
Proof. unfold join_arrays. intros Hk Hi. destruct v, (at_key k i); try done; by apply built_set. Qed.

Lemma usable_is_ref d e : isRef (JsObj e) = true → ref_ok d (at_key "$ref" e) → usable d (JsObj e).
Proof.
  intros E Hr. destruct (Hr E) as [[k Hk] Hv]. split; [exists k; by apply (leads_same (JsObj [("$ref"%string, at_key "$ref" e)]))|].
  intros v H. apply Hv. by apply (resolves_ref (JsObj e)).
Qed.
(** What is noted beside a schema changes nothing. *)
Lemma usable_noted d o k v : k ∉ special → usable d (JsObj o) → usable d (JsObj (set_key k v o)).
Proof.
  intros Hk Hu. pose proof (usable_ref d o Hu) as Hr. assert (at_key "$ref" (set_key k v o) = at_key "$ref" o) as E.
  { apply at_key_other. intros <-. apply Hk. by apply (bool_decide_unpack _). }
  destruct (isRef (JsObj o)) eqn:Ho.
  - apply usable_is_ref; [|by rewrite E]. rewrite isRef_obj, E. exact Ho.
  - apply built_ok, built_set; [done|]. apply built_iff. split; [|done]. apply Hu. by apply res_end.
Qed.

Definition properties_ok (d : nat) (v : jsval) : Prop := ∀ k w, (k, w) ∈ entries_of v → below d w.
Lemma built_properties d i v : properties_ok d v → built d i → built d (set_key "properties" v i).
Proof.
  intros Hv [[H1 H2 H3 H4] Hr]. unfold built. rewrite at_key_other by done. split; [|done].
  split; [by apply set_key_NoDup|..]; rewrite ?at_key_set, ?at_key_other by done; done.
Qed.
Lemma built_items d i v : below d v → built d i → built d (set_key "items" v i).
Proof.
  intros Hv [[H1 H2 H3 H4] Hr]. unfold built. rewrite at_key_other by done. split; [|done].
  split; [by apply set_key_NoDup|..]; rewrite ?at_key_set, ?at_key_other by done; done.
Qed.
(** The other keys of a member. *)
Lemma built_rest d i s : built d s → built d i → built d (assign i (without part_keys s)).
Proof.
  intros [[S1 S2 S3 S4] Sr] [[H1 H2 H3 H4] Hr].
  assert (∀ k, at_key k (assign i (without part_keys s)) = at_key k i ∨ at_key k (assign i (without part_keys s)) = at_key k s) as Hk.
  { intros k. destruct (at_key_assigned k i (without part_keys s)) as [|Hin]; [by left|right].
    symmetry. apply at_key_in; [|done]. apply list_elem_of_In. apply list_elem_of_In in Hin. by apply filter_In in Hin as [? _]. }
  split; [split; [by apply assign_NoDup|..]|].
  - intros l m. destruct (Hk "allOf"%string) as [-> | ->]; [by apply H2|by apply S2].
  - intros k w. rewrite at_key_assign; [by apply H3|]. apply without_keys. by apply (bool_decide_unpack _).
  - rewrite at_key_assign; [done|]. apply without_keys. by apply (bool_decide_unpack _).
  - destruct (Hk "$ref"%string) as [-> | ->]; done.
Qed.

(** ** Every step ends *)

Lemma built_clear d i : built d i → built d (set_key "allOf" JsUndef i).
Proof.
  intros [[H1 H2 H3 H4] Hr]. unfold built. rewrite at_key_other by done. split; [|done].
  split; [by apply set_key_NoDup|..]; rewrite ?at_key_set, ?at_key_other by done; done.
Qed.
Lemma built_receiver d e t : built d e → built d (receiver (JsObj e) t).
Proof.
  intros He. unfold receiver, assign. cbn [foldl entries_of]. set (title := js_or _ _).
  assert (∀ k, k ∉ special → ∀ v i, built d i → built d (set_key k v i)) as Hset by (intros; by apply built_set).
  assert (built d (set_key "title" title (set_key "allOf" JsUndef (set_key "x-parentRefs" (JsArr []) e)))) as H.
  { apply Hset; [by apply (bool_decide_unpack _)|]. apply built_clear, Hset; [by apply (bool_decide_unpack _)|done]. }
  assert (∀ i, built d i → built d (copied "properties" i)) as Hc.
  { intros i Hi. unfold copied. destruct (object_type _); [|done]. apply built_properties; [|done]. intros k w Hw. by eapply properties_below; [apply Hi|]. }
  specialize (Hc _ H). set (i := copied "properties" _) in *. unfold copied. destruct (object_type (at_key "items" i)) eqn:Ho; [|done].
  pose proof Hc as [[_ _ _ Hi] _]. destruct Hi as (d' & -> & (o & Eo) & Hu); [by destruct (at_key "items" i)|].
  rewrite Eo in *. apply built_items; [|done]. exists d'. split_and!; [done|by exists o|done].
Qed.

(** Dereferencing a member, or a schema one call further, ends in such schemas. *)
Context (Hp : allowMergeRefs p = false).

Lemma deref_good d m n : usable d m → ends (λ f, deref (S f) p m n true) (λ a, acyclic d a.1 ∧ usable d a.1).
Proof.
  intros Hu. pose proof Hu as [[k Hk] _]. destruct (deref_settles m k n true Hk) as [r Hr].
  exists r. split; [exists k; intros f Hf; apply Hr; lia|]. intros [v o] ->.
  assert (resolves m v) as Hv by (eapply (deref_resolves (S k)); [done|apply Hr; lia]).
  cbn. by apply and_comm, (resolves_usable d m).
Qed.

Definition merges (d : nat) (e : jsval) : Prop := ∀ t n, ends (λ f, mergeAllOf f p e t n) (result_ok d).
Lemma result_below d v : result_ok d v → below (S d) v.
Proof. intros (i & -> & Hi). exists d. split_and!; [done|by exists i|by apply built_ok]. Qed.

Section steps.
Context (d : nat) (Hsub : ∀ d', d = S d' → ∀ e, built d' e → merges d' (JsObj e)).

(** The schema of two, one level further down. *)
Lemma pair_merges u w e t n :
  below d u → below d w → NoDup (fst <$> e) → at_key "allOf" e = JsArr [u; w] →
  at_key "properties" e = JsUndef → at_key "items" e = JsUndef → at_key "$ref" e = JsUndef →
  ends (λ f, mergeAllOf f p (JsObj e) t n) (below d).
Proof.
  intros (d' & Hd & _ & Hu) (d2 & Hd2 & _ & Hw) Hn Ha Hpr Hi Hr. assert (d2 = d') as -> by congruence.
  eapply ends_weaken; [|rewrite Hd; apply result_below]. apply (Hsub d' Hd). unfold built. rewrite Hr. split; [|done]. split; [done|..].
  - rewrite Ha. intros l m [= <-] [->|[->|Hm]%elem_of_cons]%elem_of_cons; [done|done|by apply not_elem_of_nil in Hm].
  - rewrite Hpr. intros k v Hv. by apply not_elem_of_nil in Hv.
  - by rewrite Hi.
Qed.

Lemma property_ends y t n props kv :
  properties_ok d props → below d kv.2 → ends (λ f, property (mergeAllOf f p) y t n props kv) (properties_ok d).
Proof.
  destruct kv as [k v]. cbn [snd]. intros Hprops (d' & Hd & (o & ->) & Hu). unfold property.
  set (xs := bc n _). set (w := spread _ _).
  assert (below d w) as Hw.
  { exists d'. split_and!; [done|by eexists|]. apply (usable_noted d' o); [by apply (bool_decide_unpack _)|done]. }
  assert (∀ x, below d x → ends (λ _, of_result (put k x props)) (properties_ok d)) as Hput.
  { intros x Hx. apply ends_const. destruct props as [| | | | | |l]; try discriminate. intros v [= <-] k' w' Hin. cbn in Hin.
    apply set_key_in in Hin as [[= -> ->]|Hin]; [done|by apply (Hprops k')]. }
  destruct (js_truthy (own k props)) eqn:Hk; [|by apply Hput]. destruct (js_truthy y); [by apply ends_done|].
  eapply (ends_then (λ f, mergeAllOf f p _ _ _) (λ _ x, of_result (put k x props))); [|exact Hput].
  apply (pair_merges (own k props) w); try done.
  - unfold own in Hk |- *. destruct (lookup_key k (entries_of props)) eqn:E; [|done]. apply (Hprops k). by apply lookup_key_in.
  - by apply (bool_decide_unpack _).
Qed.

Lemma merge_properties_ends l y t n i :
  built d i → properties_ok d l → ends (λ f, merge_properties (mergeAllOf f p) l y t n i) (built d).
Proof.
  intros Hi Hl. unfold merge_properties. destruct (object_type l); [|by apply ends_done].
  apply (ends_then (λ f, for_in (property (mergeAllOf f p) y t n) _ _) (λ _ props, done (set_key "properties" props i)) (properties_ok d)).
  - apply (ends_for_in (λ f, property (mergeAllOf f p) y t n)).
    + unfold js_or. destruct (js_truthy _); [intros k w Hw; by eapply properties_below; [apply Hi|]|]. intros k w Hw. by apply not_elem_of_nil in Hw.
    + intros [k v] props Hin Hprops. apply property_ends; [done|by apply (Hl k)].
  - intros props Hprops. apply ends_done. by apply built_properties.
Qed.

Lemma below_empty w : below d w → below d (JsObj []).
Proof.
  intros (d' & Hd & _ & _). exists d'. split_and!; [done|by eexists|]. apply built_ok. split; [|done]. split; [apply NoDup_nil_2|done|..]; try done.
  intros k v Hv. by apply not_elem_of_nil in Hv.
Qed.
Lemma below_items w v : below d w → (defined v = true → below d v) → below d (without_boolean v).
Proof.
  intros Hw Hv. destruct (defined v) eqn:E; [|destruct v; try done; by eapply below_empty].
  specialize (Hv eq_refl). pose proof Hv as (_ & _ & (o & ->) & _). done.
Qed.
Lemma merge_items_ends e y t n i : built d e → built d i → ends (λ f, merge_items (mergeAllOf f p) (JsObj e) y t n i) (built d).
Proof.
  intros He Hi. unfold merge_items. change (field "items" (JsObj e)) with (at_key "items" e).
  destruct (defined (at_key "items" e)) eqn:Ed; [|by apply ends_done]. destruct (js_truthy y); [by apply ends_done|]. cbn [andb negb].
  pose proof (items_below _ _ (proj1 He) Ed) as Hw.
  apply (ends_then (λ f, mergeAllOf f p _ _ _) (λ _ x, done (set_key "items" x i)) (below d)).
  - eapply pair_merges; [by eapply below_items, Hi|by eapply below_items, He|by apply (bool_decide_unpack _)|done..].
  - intros x Hx. apply ends_done. by apply built_items.
Qed.

Lemma merge_required_ends u i : built d i → ends (λ _, merge_required u i) (built d).
Proof.
  intros Hi. unfold merge_required. destruct (defined u); [|by apply ends_done].
  destruct (iter (js_or _ _)) as [a|]; [|by apply ends_const]. destruct (iter u) as [b|]; [|by apply ends_const].
  apply ends_done. apply built_set; [by apply (bool_decide_unpack _)|done].
Qed.

Lemma absorb_ends t i x : built d i → result_ok d (merged x) → ends (λ f, absorb (mergeAllOf f p) t i x) (built d).
Proof.
  intros Hi (s & Hs & Hb). unfold absorb. rewrite Hs. cbn zeta. generalize (refsStack x) as n. intros n.
  assert (∀ join k v j, k ∉ special → built d j → built d (join_arrays join k v j)) as Hj by (intros; by apply built_join).
  assert (∀ k v j, k ∉ special → built d j → built d (set_defined k v j)) as Hd by (intros; by apply built_defined).
  apply (ends_then (λ f, merge_properties (mergeAllOf f p) _ _ t n _) (λ f i, then_ (merge_items (mergeAllOf f p) _ _ t n i) _) (built d)).
  { apply merge_properties_ends; [do 2 (apply Hj; [by apply (bool_decide_unpack _)|]); done|]. intros k w Hw. by eapply properties_below; [apply Hb|]. }
  intros i1 H1. apply (ends_then (λ f, merge_items (mergeAllOf f p) _ _ t n i1) (λ f i, _) (built d)); [by apply merge_items_ends|].
  intros i2 H2. apply (ends_then (λ _, merge_required _ _) (λ _ i, _) (built d)).
  { apply merge_required_ends. do 2 (apply Hd; [by apply (bool_decide_unpack _)|]). done. }
  intros i3 H3. apply ends_done. apply built_rest; [done|]. apply built_assign; [|done].
  intros k Hk. by repeat (apply elem_of_cons in Hk as [->|Hk]; [by apply (bool_decide_unpack _)|]); apply not_elem_of_nil in Hk.
Qed.

(** Members whose schemas can be merged. *)
Lemma member_ends n i parts m :
  built d i → Forall (result_ok d ∘ merged) parts → usable d m → (∀ v, acyclic d v → usable d v → resolves m v → merges d v) →
  ends (λ f, member (λ e t, deref (S f) p e t true) (mergeAllOf f p) n (i, parts) m)
    (λ a, built d a.1 ∧ Forall (result_ok d ∘ merged) a.2).
Proof.
  intros Hi Hparts Hu Hm. unfold member. set (a := js_or _ _).
  pose proof (deref_good d m n Hu) as Hd. pose proof Hd as (r0 & [f0 Hf0] & H0).
  apply (ends_then (λ f, deref (S f) p m n true) (λ f '(r, o), match m with JsUndef | JsNull => throw | _ => _ end)
    (λ b, acyclic d b.1 ∧ usable d b.1 ∧ resolves m b.1)).
  { exists r0. split; [by exists f0|]. intros [r o] ->. destruct (H0 _ eq_refl). split_and!; [done|done|].
    eapply (deref_resolves (S f0)); [done|]. by apply Hf0. }
  intros [r o] (Hac & Hus & Hres). cbn [fst] in *.
  assert (ends (λ f, s ⇐ mergeAllOf f p r a o;
      if js_truthy (field "x-circular-ref" s) && js_truthy (field "allOf" s) then done (i, parts)
      else
        i ⇐ (if js_truthy a then
               parents ⇐ of_result (iter (js_or (field "x-parentRefs" s) (JsArr [])));
               done (match at_key "x-parentRefs" i with JsArr b => set_key "x-parentRefs" (JsArr (b ++ parents ++ [a])) i | _ => i end)
             else done i);
        done (i, parts ++ [{| ref := a; refsStack := yc o a; merged := s |}])) (λ a, built d a.1 ∧ Forall (result_ok d ∘ merged) a.2)) as H.
  { apply (ends_then (λ f, mergeAllOf f p r a o) (λ _ s, _) (result_ok d)); [by apply Hm|]. intros s Hs.
    destruct (_ && _); [by apply ends_done|]. apply (ends_then (λ _, _) (λ _ i, done (i, parts ++ [{| ref := a; refsStack := yc o a; merged := s |}])) (built d)).
    - destruct (js_truthy a); [|by apply ends_done]. destruct (iter _) as [ps|]; [|by apply ends_const]. apply ends_done.
      destruct (at_key "x-parentRefs" i); try done. apply built_set; [by apply (bool_decide_unpack _)|done].
    - intros j Hj. apply ends_done. split; [done|]. apply Forall_app. split; [done|]. by constructor. }
  destruct m; try exact H; by apply ends_const.
Qed.

Lemma distinct_ok seen parts : Forall (result_ok d ∘ merged) parts → Forall (result_ok d ∘ merged) (distinct seen parts).
Proof. rewrite !Forall_forall. intros H x Hx. apply H. by eapply distinct_sub. Qed.

Lemma merge_once_ends e :
  built d e → (∀ l m v, at_key "allOf" e = JsArr l → m ∈ l → acyclic d v → usable d v → resolves m v → merges d v) → merges d (JsObj e).
Proof.
  intros He Hm t n. apply ends_more. cbn [mergeAllOf]. unfold merge_once. cbn [js_get].
  change (default JsUndef (lookup_key "x-circular-ref" e)) with (at_key "x-circular-ref" e). cbn [of_result then_].
  destruct (js_truthy _); [apply ends_done; by exists e|].
  assert (hoistOneOfs (JsObj e) n = Ok (JsObj e) ∨ (∃ o, hoistOneOfs (JsObj e) n = Ok (JsObj [("oneOf"%string, JsArr o)])) ∨ ∃ x, hoistOneOfs (JsObj e) n = Raise x) as Hh.
  { unfold hoistOneOfs. cbn [js_get mbind result_bind]. destruct (default _ _); try (by left); [by right; right; eexists|].
    destruct (split_oneOf [] l) as [[[[b o] a]|]|x]; [right; left; by eexists|by left|right; right; by eexists]. }
  destruct Hh as [-> |[[o ->]|[x ->]]]; cbn [of_result then_]; [|apply ends_done|by apply ends_const].
  - change (field "allOf" (JsObj e)) with (at_key "allOf" e). destruct (at_key "allOf" e) as [| | | | |l|] eqn:Ea; try (by apply ends_const).
    + apply ends_done. by exists e.
    + apply (ends_then (λ f, for_in (member (λ e t, deref (S f) p e t true) (mergeAllOf f p) n) (receiver (JsObj e) t, []) l)
        (λ f '(i, parts), then_ (for_in (absorb (mergeAllOf f p) t) i (distinct [] parts)) (λ i, done (JsObj i)))
        (λ a, built d a.1 ∧ Forall (result_ok d ∘ merged) a.2)).
      * apply (ends_for_in (λ f, member (λ e t, deref (S f) p e t true) (mergeAllOf f p) n)); [split; [by apply built_receiver|by constructor]|].
        intros m [i parts] Hin [Hi Hps]. apply member_ends; [done|done|by eapply members_usable; [apply He|..]|]. intros v. by eapply Hm.
      * intros [i parts] [Hi Hps]. apply (ends_then (λ f, for_in (absorb (mergeAllOf f p) t) _ _) (λ _ i, done (JsObj i)) (built d)).
        -- apply (ends_for_in (λ f, absorb (mergeAllOf f p) t)); [done|]. intros x j Hx Hj. apply absorb_ends; [done|].
           cbn [snd] in Hps. apply (distinct_ok []) in Hps. rewrite Forall_forall in Hps. by apply Hps.
        -- intros j Hj. apply ends_done. by exists j.
  - exists [("oneOf"%string, JsArr o)]. split; [done|]. split; [|done]. split; [apply (bool_decide_unpack _); reflexivity|done|..]; try done.
    intros k v Hv. by apply not_elem_of_nil in Hv.
Qed.
End steps.

Lemma acyclic_merges d : ∀ e, built d e → merges d (JsObj e).
Proof.
  induction (lt_wf d) as [d _ IHd]. intros e He. destruct (proj1 (built_iff d e) He) as [Hac Hus]. clear He. revert Hus.
  remember (JsObj e) as v eqn:Ev. revert e Ev.
  assert (∀ d0 v, acyclic d0 v → d0 = d → ∀ e, v = JsObj e → usable d v → merges d v) as H; [|intros e; by apply (H d v)].
  clear v Hac. intros d0 w Hw. induction Hw as [d0 e H1 H2 H3 IH3 H4 H5 _ H6 H7 _]. intros -> e' [= <-] Hu.
  apply merge_once_ends.
  - intros d' -> e' He'. apply IHd; [lia|done].
  - apply built_iff. split; [by constructor|done].
  - intros l m v Hl Hm Hv Hvu Hres. inversion Hv; subst. by eapply IH3.
Qed.
End acyclic.

(** C2: In a document before OpenAPI 3.1, where what stands beside a reference does not
    count ([allowMergeRefs] is false), merging a schema that is not itself a reference,
    as after dereferencing, ends when the schema has no cycle: when every chain of
    references in it ends and properties and items are nested only so deep, whichever
    references are followed. With enough nested calls the result, a schema or an error,
    is there, and more calls do not change it. *)
Theorem merge_ends p d e t n :
  allowMergeRefs p = false → acyclic p d e → isRef e = false → ∃ r fuel, ∀ fuel', (fuel ≤ fuel')%nat → mergeAllOf fuel' p e t n = Some r.
Proof.
  intros Hp Hac Hr. pose proof Hac as Hac'. inversion Hac' as [? l]; subst.
  destruct (acyclic_merges p Hp d l) with (t := t) (n := n) as (r & [f Hf] & _); [|by exists r, f].
  apply built_iff. split; [done|]. apply usable_obj; [by apply acyclic_iff|]. intros E. by rewrite isRef_obj, E in Hr.
Qed.

Lemma acyclic_leaf p d e :
  bool_decide (NoDup (fst <$> e)) = true → defined (at_key "allOf" e) || defined (at_key "properties" e) || defined (at_key "items" e) = false →
  acyclic p d (JsObj e).
Proof.
  intros Hn%bool_decide_eq_true [[Ha Hp]%orb_false_iff Hi]%orb_false_iff. apply acyclic_iff. split; [done|..].
  - intros l m E. by rewrite E in Ha.
  - intros k w. destruct (at_key "properties" e); [|done..]. by intros ?%not_elem_of_nil.
  - congruence.
Qed.
(** Properties that are such leaves. *)
Lemma acyclic_properties p d e l :
  bool_decide (NoDup (fst <$> e)) = true → defined (at_key "allOf" e) || defined (at_key "items" e) = false →
  at_key "properties" e = JsObj l →
  Forall (λ kw, isRef kw.2 = false ∧ (∃ o, kw.2 = JsObj o) ∧ acyclic p d kw.2) l → acyclic p (S d) (JsObj e).
Proof.
  intros Hn%bool_decide_eq_true [Ha Hi]%orb_false_iff Hp Hl. apply acyclic_iff. split; [done|..].
  - intros l' m E. by rewrite E in Ha.
  - intros k w Hin. rewrite Hp in Hin. rewrite Forall_forall in Hl. destruct (Hl _ Hin) as (Hr & [o Ho] & Hac). cbn in *. subst w.
    exists d. split_and!; [done|by exists o|]. apply built_ok. apply acyclic_iff in Hac. split; [done|]. intros E. by rewrite isRef_obj, E in Hr.
  - congruence.
Qed.
Lemma merge_ends_witness :
  let cat := JsObj [("allOf", JsArr [ref_to "Animal"])]%string in
  acyclic animals 1 cat ∧ ∃ r fuel, ∀ fuel', (fuel ≤ fuel')%nat → mergeAllOf fuel' animals cat JsUndef [] = Some r.
Proof.
  intros cat. assert (acyclic animals 1 cat) as H.
  { apply acyclic_iff. split; [by apply (bool_decide_unpack _)|..|done]; [|intros k w Hw; by apply not_elem_of_nil in Hw].
    intros l m [= <-] ->%list_elem_of_singleton. split.
    - exists 1%nat. eapply leads_ref; [reflexivity|reflexivity|]. by apply leads_end.
    - intros v Hv. inversion Hv as [? Hr|? n Hr|? s i Hs Hi|? s i ? Hs Hi Hres]; subst; [discriminate Hr|by apply acyclic_leaf|..];
        injection Hs as <-; vm_compute in Hi; injection Hi as <-.
      + eapply acyclic_properties; [reflexivity..|]. apply Forall_singleton; split_and!; [done|by eexists|by apply acyclic_leaf].
      + inversion Hres as [? Hr|? n Hr|? s i Hs Hi|? s i ? Hs Hi Hres']; subst; [|discriminate Hr|discriminate Hs|discriminate Hs].
        eapply acyclic_properties; [reflexivity..|]. apply Forall_singleton; split_and!; [done|by eexists|by apply acyclic_leaf]. }
  split; [exact H|]. by apply (merge_ends animals 1).
Defined.
