(* ===== verification/MenuBuilder.v ===== *)
(** * Building the menu of the documentation viewer

    What the menu is made of (redoc.standalone.js): the headings of markdown texts
    ([Ml]), the tags of the document with their operations and the schemas that
    belong to a tag ([hf]), and the items made of them ([rf], [Tu]). The menu that is
    built is the one [MenuStore] keeps. The markdown parser, the slugify library and
    the comparison of strings are arguments. *)

From S2P Require Import Prelude PyData JsNumber JsData JsonPointer OpenApi SpecParser AllOf MenuStore.
Local Open Scope Z_scope.

(** ** Slugs and texts *)

(** Every run of some characters replaced by "-". *)
Fixpoint hyphenate (p : ascii → bool) (inside : bool) (s : string) : string :=
  match s with
  | EmptyString => EmptyString
  | String c s => if p c then (if inside then hyphenate p true s else String "-" (hyphenate p true s)) else String c (hyphenate p false s)
  end.
Definition is_hyphen (c : ascii) : bool := Ascii.eqb c "-".
Fixpoint drop_hyphens (s : string) : string :=
  match s with String c t => if is_hyphen c then drop_hyphens t else s | EmptyString => s end.
Definition reverse (s : string) : string := string_of_list_ascii (rev (list_ascii_of_string s)).

(** [.toLowerCase().replace(/\s+/g,"-").replace(/&/g,"-and-")...]. *)
Definition plain_slug (s : string) : string :=
  reverse (drop_hyphens (reverse (drop_hyphens (hyphenate is_hyphen false (replace_char "&" "-and-" (hyphenate JsNumber.is_space false (lower s))))))).

(** A code unit in UTF-8. *)
Definition from_char_code (n : N) : string :=
  let n := (n mod 65536)%N in
  let c k := ascii_of_N k in
  if (n <? 128)%N then String (c n) EmptyString
  else if (n <? 2048)%N then String (c (192 + n / 64)%N) (String (c (128 + n mod 64)%N) EmptyString)
  else String (c (224 + n / 4096)%N) (String (c (128 + n / 64 mod 64)%N) (String (c (128 + n mod 64)%N) EmptyString)).
(** The digits at the start of a text, up to ";". *)
Fixpoint code_reference (s : string) (acc : N) (some : bool) : option (N * string) :=
  match s with
  | String c t =>
      if is_digit c then code_reference t (acc * 10 + (char_code c - 48))%N true
      else if some && Ascii.eqb c ";" then Some (acc, t) else None
  | EmptyString => None
  end.
(** [.replace(/&#(\d+);/g, ...)]; the fuel is the length of the text. *)
Fixpoint decode_codes (fuel : nat) (s : string) : string :=
  match fuel, s with
  | S fuel, String c t =>
      match (if String.prefix "&#" s then code_reference (string_drop 2 s) 0 false else None) with
      | Some (n, t) => from_char_code n +:+ decode_codes fuel t
      | None => String c (decode_codes fuel t)
      end
  | _, _ => s
  end.
(** Every occurrence of a text replaced by a character. *)
Fixpoint replace_text (fuel : nat) (w : string) (r : ascii) (s : string) : string :=
  match fuel, s with
  | S fuel, String c t =>
      if String.prefix w s then String r (replace_text fuel w r (string_drop (String.length w) s)) else String c (replace_text fuel w r t)
  | _, _ => s
  end.
Definition decoded (s : string) : string :=
  let s := decode_codes (String.length s) s in
  let s := replace_text (String.length s) "&amp;" "&" s in
  replace_text (String.length s) "&quot;" "034" s.

Section builder.
Context (slugify : string → string) (markdown : string → list (Z * string)) (compare : string → string → Z).

(** [di]: the library refuses what is no string. *)
Definition slug_of (s : string) : string := let r := slugify s in if String.eqb r EmptyString then plain_slug s else r.
Definition di (e : jsval) : result string :=
  match e with JsStr s => Ok (slug_of s) | _ => Raise (OtherError "slugify: string argument expected") end.

(** ** Headings *)

(** A heading of level 1 or 2, with those of level 2 below it. *)
Record heading := { heading_id : string; heading_name : string; below_it : list (string * string) }.

(** [headingRule] and [saveHeading]: the headings so far, and whether the last one is
    of level 1. *)
Definition save_heading (root : string) (acc : list heading * bool) (h : Z * string) : list heading * bool :=
  let '(l, top) := acc in
  let '(level, raw) := h in
  let e := decoded raw in
  let new := {| heading_id := root +:+ "/" +:+ slug_of e; heading_name := e; below_it := [] |} in
  if level =? 1 then (l ++ [new], true)
  else if level =? 2 then
    match top, last l with
    | true, Some t =>
        (take (length l - 1) l ++
         [{| heading_id := heading_id t; heading_name := heading_name t;
             below_it := below_it t ++ [(heading_id t +:+ "/" +:+ slug_of e, e)] |}], true)
    | _, _ => (l ++ [new], false)
    end
  else (l, top).
(** [extractHeadings] of the text of an item, or of the whole document. *)
Definition extractHeadings (parent : option string) (e : string) : list heading :=
  let root := match parent with Some p => if String.eqb p EmptyString then "section"%string else p | None => "section"%string end in
  fst (foldl (save_heading root) ([], false) (markdown e)).

(** ** Items *)

Definition section (n : Z) (i e : string) (items : list menu) : menu := Node {| id := i; name := e; kind := "section"; depth := n |} items.
(** [addMarkdownItems(e, t, n)]. *)
Definition addMarkdownItems (e : string) (t : option string) (n : Z) : list menu :=
  (λ h, section n (heading_id h) (heading_name h) ((λ '(i, s), section (n + 1) i s []) <$> below_it h)) <$> extractHeadings t e.

(** The item of a tag, a group or a schema ([rf]). *)
Definition rf_item (type : string) (t : jsval) (n : Z) : result item :=
  i ← js_get "id" t;
  i ← (if js_truthy i then Ok (text i) else s ← di (field "name" t); Ok (type +:+ "/" +:+ s));
  Ok {| id := i; name := text (js_or (field "x-displayName" t) (field "name" t)); kind := type; depth := n |}.

(** An operation with its place in the document. *)
Record operation := { spec : jsval; pathName : string; pointer : string; httpVerb : string;
                      pathParameters : jsval; pathServers : jsval; isWebhook : bool }.

(** [e.description && e.description.substring(0, 50)]. *)
Definition abstract (v : jsval) : result jsval :=
  match v with JsStr s => Ok (JsStr (String.substring 0 50 s)) | v => if js_truthy v then Raise TypeError else Ok v end.
Definition operation_name (o : operation) : result string :=
  let f k := field k (spec o) in
  if js_truthy (f "summary"%string) then Ok (text (f "summary"%string))
  else if js_truthy (f "operationId"%string) then Ok (text (f "operationId"%string))
  else
    d ← abstract (f "description"%string);
    Ok (if js_truthy d then text d else if String.eqb (pathName o) EmptyString then "<no summary>"%string else pathName o).
(** The identifier, below the tag [n]. *)
Definition operation_id (n : option string) (o : operation) : string :=
  match field "operationId" (spec o) with
  | JsUndef => match n with Some n => n +:+ pointer o | None => pointer o end
  | v =>
      match n with Some n => n +:+ "/" | None => EmptyString end
      +:+ (if js_truthy v then "operation/" +:+ text v else text v)
  end.
Definition operation_item (n : option string) (r : Z) (o : operation) : result menu :=
  s ← operation_name o; Ok (Node {| id := operation_id n o; name := s; kind := "operation"; depth := r |} []).

(** ** Sorting *)

(** A stable sort by the names. *)
Definition name_of (m : menu) : string := match m with Node i _ => name i end.
Fixpoint insert_item (x : menu) (l : list menu) : list menu :=
  match l with [] => [x] | y :: l => if compare (name_of x) (name_of y) <=? 0 then x :: y :: l else y :: insert_item x l end.
Fixpoint sort_items (l : list menu) : list menu := match l with [] => [] | x :: l => insert_item x (sort_items l) end.

(** ** Tags *)

Record tag := { tag_spec : list (string * jsval); operations : list operation }.
Definition tags := list (string * tag).

Definition keys_of_object (v : jsval) : result (list string) :=
  match v with JsUndef | JsNull => Raise TypeError | v => Ok (fst <$> entries_of v) end.
(** The tags of the document. *)
Definition add_tag (n : tags) (e : jsval) : out tags :=
  k ⇐ of_result (js_get "name" e); done (set_key (text k) {| tag_spec := set_key "operations" (JsArr []) (entries_of e); operations := [] |} n).

(** [l && l.length || (l = [""])]. *)
Definition tags_of (s : jsval) : result (list jsval) :=
  match field "tags" s with
  | JsArr [] => Ok [JsStr EmptyString]
  | JsStr EmptyString => Ok [JsStr EmptyString]
  | (JsArr _ | JsStr _) as l => iter l
  | _ => Ok [JsStr EmptyString]
  end.
Definition add_operation (o : operation) (n : tags) (e : jsval) : tags :=
  let k := text e in
  let i := default {| tag_spec := [("name"%string, e); ("operations"%string, JsArr [])]; operations := [] |} (lookup_key k n) in
  let traits := js_truthy (at_key "x-traitTag" (tag_spec i)) in
  set_key k (if traits then i else {| tag_spec := tag_spec i; operations := operations i ++ [o] |}) n.

Section paths.
Context (p : parser).
(** The operations of the paths [t]; a path that is a reference is followed, once
    for every key of it that is the name of a method or "$ref". *)
Fixpoint add_paths (fuel : nat) (webhook : bool) (t : jsval) (n : tags) : out tags :=
  match fuel with
  | O => None
  | S fuel =>
      for_in (λ n '(o, a),
        keys ⇐ of_result (keys_of_object a);
        for_in (λ n verb,
          if js_truthy (field "$ref" a) then
            '(r, _) ⇐ deref fuel p a [] false;
            add_paths fuel webhook (JsObj [(o, r)]) n
          else
            let s := own verb a in
            l ⇐ of_result (tags_of s);
            let op := {| spec := s; pathName := o; pointer := compile ["paths"; o; verb]%string; httpVerb := verb;
                         pathParameters := js_or (field "parameters" a) (JsArr []); pathServers := field "servers" a;
                         isWebhook := webhook |} in
            done (foldl (add_operation op) n l))
          n (List.filter ns keys))
        n (entries_of t)
  end.

(** [getTagsWithOperations(e, t)]. *)
Definition getTagsWithOperations (fuel : nat) (t : jsval) : out tags :=
  let r := js_or (field "x-webhooks" t) (field "webhooks" t) in
  l ⇐ of_result (iter (js_or (field "tags" t) (JsArr [])));
  n ⇐ for_in add_tag [] l;
  n ⇐ (if js_truthy r then add_paths fuel true r n else done n);
  if js_truthy (field "paths" t) then add_paths fuel false (field "paths" t) n else done n.
End paths.

(** ** The menu *)

Fixpoint mapM_result {A B} (f : A → result B) (l : list A) : result (list B) :=
  match l with [] => Ok [] | x :: l => y ← f x; r ← mapM_result f l; Ok (y :: r) end.

Record options := { sortTagsAlphabetically : bool; sortOperationsAlphabetically : bool }.
Section items.
Context (opts : options) (document : jsval).

(** [getOperationsItems(e, t, n, r, i)]. *)
Definition getOperationsItems (t : option string) (n : tag) (r : Z) : result (list menu) :=
  l ← mapM_result (operation_item t r) (operations n); Ok (if sortOperationsAlphabetically opts then sort_items l else l).

(** Whether a schema names the tag. *)
Definition includes (i n : jsval) : result bool :=
  match i with
  | JsUndef | JsNull => Ok false
  | JsArr l => Ok (existsb (same n) l)
  | JsStr s => Ok (match String.index 0 (text n) s with Some _ => true | None => false end)
  | _ => Raise TypeError
  end.
(** [getTagRelatedSchema]. *)
Definition schema_item (t : jsval) (n : Z) (er : string * jsval) : result (list menu) :=
  let '(e, r) := er in
  i ← js_get "x-tags" r;
  b ← includes i t;
  if (b : bool) then
    it ← rf_item "schema" (JsObj [("name", JsStr e); ("x-displayName", JsStr (text (js_or (field "title" r) (JsStr e))))]%string) n;
    Ok [Node it []]
  else Ok [].
Definition getTagRelatedSchema (t : jsval) (n : Z) : result (list menu) :=
  l ← mapM_result (schema_item t n) (entries_of (js_or (field "schemas" (field "components" document)) (JsObj []))); Ok (concat l).

(** The items of one tag: its own item, or for the tag without a name its items. *)
Definition tag_items (t : tag) : result (list menu) :=
  let s := JsObj (tag_spec t) in
  r ← rf_item "tag" s 1;
  let description := text (js_or (field "description" s) (JsStr EmptyString)) in
  if is_str EmptyString (field "name" s) then
    ops ← getOperationsItems None t 2; Ok (addMarkdownItems description (Some (id r)) 2 ++ ops)
  else
    o ← getTagRelatedSchema (field "name" s) 2;
    ops ← getOperationsItems (Some (id r)) t 2;
    Ok [Node r (o ++ addMarkdownItems description (Some (id r)) 2 ++ ops)].
(** [getTagsItems(e, t, n, r, i)] of the tags [o]; a tag that is not there is left
    out. *)
Definition getTagsItems (t : tags) (o : list string) : result (list menu) :=
  s ← mapM_result tag_items (omap (λ e, lookup_key e t) o);
  Ok (if sortTagsAlphabetically opts then sort_items (concat s) else concat s).
(** [getTagGroupsItems]. *)
Definition group_item (t : tags) (a : jsval) : result menu :=
  r ← rf_item "group" a 0;
  match field "tags" a with
  | JsArr o => items ← getTagsItems t (text <$> o); Ok (Node r items)
  | _ => Raise TypeError
  end.
Definition getTagGroupsItems (t : tags) (n : list jsval) : result (list menu) := mapM_result (group_item t) n.

(** [buildStructure(e, t)]; [fuel] bounds the calls that follow references of
    paths. *)
Definition buildStructure (p : parser) (fuel : nat) : out (list menu) :=
  i ⇐ getTagsWithOperations p fuel document;
  info ⇐ of_result (js_get "description" (field "info" document));
  let r := addMarkdownItems (text (js_or info (JsStr EmptyString))) None 1 in
  let groups := match field "x-tagGroups" document with (JsArr _ | JsStr _) as n => n | _ => JsArr [] end in
  n ⇐ of_result (iter groups);
  l ⇐ of_result (match n with [] => getTagsItems i (fst <$> i) | n => getTagGroupsItems i n end);
  done (r ++ l).
End items.
End builder.

(** ** Depths *)

Lemma mapM_result_Forall2 {A B} (f : A → result B) l r : mapM_result f l = Ok r → Forall2 (λ x y, f x = Ok y) l r.
Proof.
  revert r. induction l as [|x l IH]; intros r; cbn; [by intros [= <-]|]. intros (y & Hy & (r' & Hr & [= <-])%bind_Ok)%bind_Ok.
  constructor; [done|by apply IH].
Qed.
Lemma insert_item_perm compare x l : insert_item compare x l ≡ₚ x :: l.
Proof. induction l as [|y l IH]; cbn; [done|]. destruct (_ <=? _); [done|]. rewrite IH. apply Permutation_swap. Qed.
Lemma sort_items_perm compare l : sort_items compare l ≡ₚ l.
Proof. induction l as [|x l IH]; cbn; [done|]. by rewrite insert_item_perm, IH. Qed.
Lemma maybe_sorted compare (b : bool) l : (if b then sort_items compare l else l) ≡ₚ l.
Proof. destruct b; [apply sort_items_perm|done]. Qed.

Section depths.
Context (slugify : string → string) (markdown : string → list (Z * string)) (compare : string → string → Z).
Context (opts : options) (document : jsval).
Definition deep (l : list menu) : Prop := Forall (λ m, depths_ok m = true) l.

Lemma deep_perm l l' : l ≡ₚ l' → deep l → deep l'.
Proof. unfold deep. by intros ->. Qed.
Lemma deep_node i l : (kind i = "group"%string ∨ 0 < depth i) → deep l → depths_ok (Node i l) = true.
Proof.
  intros Hi Hl. cbn. apply andb_true_iff. split.
  - apply orb_true_iff. destruct Hi; [left; by apply bool_decide_eq_true|right; by apply Z.ltb_lt].
  - apply forallb_forall. intros m Hm%list_elem_of_In. unfold deep in Hl. rewrite Forall_forall in Hl. by apply Hl.
Qed.
Lemma deep_concat l : Forall deep l → deep (concat l).
Proof. induction 1; cbn; [constructor|]. by apply Forall_app. Qed.

Lemma markdown_deep e t n : 0 < n → deep (addMarkdownItems slugify markdown e t n).
Proof.
  intros Hn. apply Forall_fmap, Forall_true. intros h. apply deep_node; [by right|]. apply Forall_fmap, Forall_true.
  intros [i s]. apply deep_node; [right; cbn; lia|constructor].
Qed.
Lemma rf_item_spec type t n i : rf_item slugify type t n = Ok i → kind i = type ∧ depth i = n.
Proof. unfold rf_item. intros (v & _ & (s & _ & [= <-])%bind_Ok)%bind_Ok. done. Qed.

Lemma operations_deep t n r l : 0 < r → getOperationsItems compare opts t n r = Ok l → deep l.
Proof.
  intros Hr (m & Hm & [= <-])%bind_Ok. apply (deep_perm m); [symmetry; apply maybe_sorted|].
  apply mapM_result_Forall2 in Hm. unfold deep. induction Hm as [|o it os m Ho _ IH]; [constructor|]. constructor; [|done].
  apply bind_Ok in Ho as (s & _ & [= <-]). apply deep_node; [by right|constructor].
Qed.
Lemma schemas_deep t n l : 0 < n → getTagRelatedSchema slugify document t n = Ok l → deep l.
Proof.
  intros Hn (m & Hm & [= <-])%bind_Ok. apply deep_concat. apply mapM_result_Forall2 in Hm.
  induction Hm as [|[e r] it os m Ho _ IH]; [constructor|]. constructor; [|done]. revert Ho. cbn [schema_item].
  intros (i & _ & ([|] & _ & H)%bind_Ok)%bind_Ok; [|injection H as <-; constructor].
  apply bind_Ok in H as (it' & [_ Hd]%rf_item_spec & [= <-]). repeat constructor. apply deep_node; [right; lia|constructor].
Qed.
Lemma tag_deep t l : tag_items slugify markdown compare opts document t = Ok l → deep l.
Proof.
  unfold tag_items. intros (r & [Hk Hd]%rf_item_spec & H)%bind_Ok. destruct (is_str _ _).
  - apply bind_Ok in H as (ops & Ho & [= <-]). apply Forall_app. split; [by apply markdown_deep|by eapply operations_deep; [|exact Ho]].
  - apply bind_Ok in H as (o & Hs & (ops & Ho & [= <-])%bind_Ok). constructor; [|constructor]. apply deep_node; [right; lia|].
    unfold deep. rewrite !Forall_app. split; [by eapply schemas_deep; [|exact Hs]|]. split; [by apply markdown_deep|by eapply operations_deep; [|exact Ho]].
Qed.
Lemma tags_deep t o l : getTagsItems slugify markdown compare opts document t o = Ok l → deep l.
Proof.
  intros (s & Hs & [= <-])%bind_Ok. apply (deep_perm (concat s)); [symmetry; apply maybe_sorted|]. apply deep_concat.
  apply mapM_result_Forall2 in Hs. induction Hs; constructor; [by eapply tag_deep|done].
Qed.
Lemma groups_deep t n l : getTagGroupsItems slugify markdown compare opts document t n = Ok l → deep l.
Proof.
  intros H. apply mapM_result_Forall2 in H. induction H as [|a m n l Ha _ IH]; constructor; [|done].
  apply bind_Ok in Ha as (r & [Hk _]%rf_item_spec & Ha). destruct (field "tags" a); try discriminate.
  apply bind_Ok in Ha as (items & Hi & [= <-]). apply deep_node; [by left|by eapply tags_deep].
Qed.
Lemma built_deep p fuel l : buildStructure slugify markdown compare opts document p fuel = Some (Ok l) → forallb depths_ok l = true.
Proof.
  unfold buildStructure. intros (i & _ & (info & _ & (n & _ & (m & [= Hm] & [= <-])%then_Ok)%then_Ok)%then_Ok)%then_Ok.
  apply forallb_forall. intros x Hx%list_elem_of_In.
  assert (deep (addMarkdownItems slugify markdown (text (js_or info (JsStr EmptyString))) None 1 ++ m)) as H.
  { apply Forall_app. split; [by apply markdown_deep|]. destruct n; [by eapply tags_deep|by eapply groups_deep]. }
  unfold deep in H. rewrite Forall_forall in H. by apply H.
Qed.

(** C3: On the menu of any document that can be built, whatever the markdown parser,
    the slugs and the order of names are, the store stays consistent under any
    clicks, scrolling, addresses and toggling of the menu bar: at most one item is active, it
    is the one the store remembers and no group, and exactly the groups, the active item and
    what is above it are expanded, operations aside, which have nothing to expand. Only the
    active item itself may be folded, and only with the option menuToggle, with which a
    click on it folds and unfolds it. *)
Theorem built_menu_consistent p fuel l menuToggle events :
  buildStructure slugify markdown compare opts document p fuel = Some (Ok l) →
  consistent (flat_all l) menuToggle (foldl (handle (flat_all l) menuToggle) (initial (flat_all l)) events).
Proof. intros H. by apply events_consistent, flat_well_formed, (built_deep p fuel). Qed.
End depths.

(** ** Every operation is in the menu *)

(** Tags only gain operations. *)
Definition grows (n n' : tags) : Prop :=
  ∀ k t, lookup_key k n = Some t → ∃ t', lookup_key k n' = Some t' ∧ tag_spec t' = tag_spec t ∧ ∀ o, o ∈ operations t → o ∈ operations t'.
#[export] Instance grows_preorder : PreOrder grows.
Proof.
  split.
  - intros n k t H. by exists t.
  - intros n m o Hnm Hmo k t H. destruct (Hnm k t H) as (t' & H' & E' & Ho'). destruct (Hmo k t' H') as (t2 & H2 & E2 & Ho2).
    exists t2. split; [done|]. split; [congruence|auto].
Qed.

(** An operation that is under its tag, unless the tag is one for traits. *)
Definition filed (o : operation) (k : string) (n : tags) : Prop :=
  ∃ t, lookup_key k n = Some t ∧ (js_truthy (at_key "x-traitTag" (tag_spec t)) = true ∨ o ∈ operations t).
Lemma filed_grows o k n n' : grows n n' → filed o k n → filed o k n'.
Proof.
  intros Hg (t & Ht & H). destruct (Hg k t Ht) as (t' & Ht' & E & Ho). exists t'. split; [done|]. rewrite E. destruct H; [by left|right; auto].
Qed.

Lemma add_operation_spec o n e : grows n (add_operation o n e) ∧ filed o (text e) (add_operation o n e).
Proof.
  unfold add_operation. set (i := default _ _). split.
  - intros k t Ht. destruct (decide (k = text e)) as [->|Hk]; [|exists t; by rewrite set_key_other].
    rewrite set_key_lookup. eexists. split; [done|]. unfold i. rewrite Ht. cbn [default].
    destruct (js_truthy _); [done|]. cbn. split; [done|]. intros o' Ho'. apply elem_of_app. by left.
  - unfold filed. rewrite set_key_lookup. eexists. split; [done|].
    destruct (js_truthy (at_key "x-traitTag" (tag_spec i))) eqn:E; [by left|right]. cbn. apply elem_of_app. right. left.
Qed.
Lemma add_operations_spec o l n : grows n (foldl (add_operation o) n l) ∧ ∀ e, e ∈ l → filed o (text e) (foldl (add_operation o) n l).
Proof.
  revert n. induction l as [|e l IH]; intros n; cbn; [split; [done|]; by intros ? ?%not_elem_of_nil|].
  destruct (add_operation_spec o n e) as [Hg Hf]. destruct (IH (add_operation o n e)) as [Hg' Hf']. split; [by etrans|].
  intros e' [->|He']%elem_of_cons; [by eapply filed_grows|auto].
Qed.

(** What a tag is: the one of the document with its name, or a new one if the document has
    none. *)
Definition tag_of (tl : list jsval) (k : string) (spec : list (string * jsval)) : Prop :=
  (∃ v, v ∈ tl ∧ text (field "name" v) = k ∧ spec = set_key "operations" (JsArr []) (entries_of v)) ∨
  (∀ v, v ∈ tl → text (field "name" v) ≠ k) ∧ ∃ e, text e = k ∧ spec = [("name"%string, e); ("operations"%string, JsArr [])].
Definition tags_of_document (tl : list jsval) (n : tags) : Prop :=
  (∀ v, v ∈ tl → is_Some (lookup_key (text (field "name" v)) n)) ∧ ∀ k t, lookup_key k n = Some t → tag_of tl k (tag_spec t).
Lemma js_get_field k v w : js_get k v = Ok w → w = field k v.
Proof. destruct v; cbn; by intros [= <-]. Qed.
Lemma add_tags_spec tl n : for_in add_tag [] tl = Some (Ok n) → tags_of_document tl n.
Proof.
  intros H. assert ((∀ v, v ∈ tl → is_Some (lookup_key (text (field "name" v)) n)) ∧ ∀ k t, lookup_key k n = Some t →
    ∃ v, v ∈ tl ∧ text (field "name" v) = k ∧ tag_spec t = set_key "operations" (JsArr []) (entries_of v)) as [H1 H2].
  { apply (for_in_inv _ (λ pre m, (∀ v, v ∈ pre → is_Some (lookup_key (text (field "name" v)) m)) ∧ ∀ k t, lookup_key k m = Some t →
      ∃ v, v ∈ pre ∧ text (field "name" v) = k ∧ tag_spec t = set_key "operations" (JsArr []) (entries_of v))) in H; [done| |].
    2: { split; [by intros v ?%not_elem_of_nil|done]. }
    intros pre v m m' _ [H1 H2] (w & [= Hw] & [= <-])%then_Ok. apply js_get_field in Hw as ->.
    split.
    - intros u [Hu| ->%list_elem_of_singleton]%elem_of_app; [|by rewrite set_key_lookup].
      destruct (decide (text (field "name" u) = text (field "name" v))) as [->|E]; [by rewrite set_key_lookup|rewrite set_key_other by done; auto].
    - intros k t. destruct (decide (k = text (field "name" v))) as [->|E].
      + rewrite set_key_lookup. intros [= <-]. exists v. split_and!; [apply elem_of_app; right; left|done|done].
      + rewrite set_key_other by done. intros (u & Hu & Hk & Hs)%H2. exists u. split_and!; [apply elem_of_app; by left|done|done]. }
  split; [done|]. intros k t Ht. left. by apply H2.
Qed.
Lemma add_operation_tags tl o n e : tags_of_document tl n → tags_of_document tl (add_operation o n e).
Proof.
  intros [H1 H2]. destruct (add_operation_spec o n e) as [Hg _]. split.
  - intros v Hv. destruct (H1 v Hv) as [t Ht]. by destruct (Hg _ _ Ht) as (t' & -> & _).
  - intros k t. unfold add_operation. destruct (decide (k = text e)) as [->|E]; [|rewrite set_key_other by done; apply H2].
    rewrite set_key_lookup. intros [= <-]. destruct (lookup_key (text e) n) as [t|] eqn:Ht; cbn [default].
    + destruct (js_truthy _); apply (H2 _ t Ht).
    + cbn. right. split; [|by exists e]. intros v Hv Hk. destruct (H1 v Hv) as [t Ht']. congruence.
Qed.

Section filing.
Context (p : parser).
Definition operation_at (webhook : bool) (o : string) (a : jsval) (verb : string) : operation :=
  {| spec := own verb a; pathName := o; pointer := compile ["paths"; o; verb]%string; httpVerb := verb;
     pathParameters := js_or (field "parameters" a) (JsArr []); pathServers := field "servers" a; isWebhook := webhook |}.

(** The operations of one path. *)
Definition path_filed (webhook : bool) (oa : string * jsval) (n : tags) : Prop :=
  js_truthy (field "$ref" oa.2) = false → ∀ verb l e,
    verb ∈ fst <$> entries_of oa.2 → ns verb = true → tags_of (own verb oa.2) = Ok l → e ∈ l →
    filed (operation_at webhook oa.1 oa.2 verb) (text e) n.

Lemma add_paths_spec fuel webhook t n n' :
  add_paths p fuel webhook t n = Some (Ok n') → grows n n' ∧ ∀ oa, oa ∈ entries_of t → path_filed webhook oa n'.
Proof.
  revert t n n'. induction fuel as [|fuel IH]; intros t n n'; [done|]. cbn [add_paths]. intros H.
  apply (for_in_inv _ (λ pre m, grows n m ∧ ∀ oa, oa ∈ pre → path_filed webhook oa m)) in H; [done| |].
  2: { split; [done|]. by intros ? ?%not_elem_of_nil. }
  intros pre [o a] m m' _ [Hg Hpre] (keys & [= Hk] & Hloop)%then_Ok.
  apply (for_in_inv _ (λ vs m2, grows m m2 ∧ (js_truthy (field "$ref" a) = false → ∀ verb l e, verb ∈ vs → tags_of (own verb a) = Ok l → e ∈ l →
    filed (operation_at webhook o a verb) (text e) m2))) in Hloop as [Hm Hv].
  - split; [by etrans|]. intros oa [Hin| ->%list_elem_of_singleton]%elem_of_app.
    + intros Hr verb l e H1 H2 H3 H4. eapply filed_grows; [done|]. by eapply Hpre.
    + intros Hr verb l e H1 H2 H3 H4. cbn [fst snd] in *. eapply Hv; [done| |done|done].
      apply list_elem_of_In, filter_In. split; [|done]. apply list_elem_of_In. destruct a; try done; by injection Hk as <-.
  - intros vs verb m1 m2 _ [H1 H2] Hstep. destruct (js_truthy (field "$ref" a)) eqn:Hr.
    + apply then_Ok in Hstep as ([r ?] & _ & Hstep). apply IH in Hstep as [Hstep _]. split; [by etrans|done].
    + apply then_Ok in Hstep as (l & [= Hl] & [= <-]). destruct (add_operations_spec (operation_at webhook o a verb) l m1) as [Hg1 Hf1].
      split; [by etrans|]. intros _ v l' e [Hv| ->%list_elem_of_singleton]%elem_of_app Hl' He.
      * eapply filed_grows; [exact Hg1|]. by eapply H2.
      * assert (l' = l) as -> by congruence. by apply Hf1.
  - split; [done|]. by intros _ ? ? ? ?%not_elem_of_nil.
Qed.

Lemma add_paths_tags tl fuel webhook t n n' : add_paths p fuel webhook t n = Some (Ok n') → tags_of_document tl n → tags_of_document tl n'.
Proof.
  revert t n n'. induction fuel as [|fuel IH]; intros t n n'; [done|]. cbn [add_paths]. intros H Hn.
  apply (for_in_inv _ (λ _ m, tags_of_document tl m)) in H; [done| |done]. intros _ [o a] m m' _ Hm (keys & _ & Hloop)%then_Ok.
  apply (for_in_inv _ (λ _ m, tags_of_document tl m)) in Hloop; [done| |done]. intros _ verb m1 m2 _ H1 Hstep.
  destruct (js_truthy (field "$ref" a)).
  - apply then_Ok in Hstep as ([r ?] & _ & Hstep). by eapply IH.
  - apply then_Ok in Hstep as (l & _ & [= <-]). clear -H1. revert m1 H1. induction l as [|e l IH]; intros m1 H1; [done|]. cbn. by apply IH, add_operation_tags.
Qed.

(** Where a document has its operations, of paths or of webhooks. *)
Definition paths_of (webhook : bool) (document : jsval) : jsval :=
  if webhook then js_or (field "x-webhooks" document) (field "webhooks" document) else field "paths" document.
Lemma entries_truthy v oa : oa ∈ entries_of v → js_truthy v = true.
Proof. destruct v as [| |b|x|[]|l|l]; cbn; try done; by intros ?%not_elem_of_nil. Qed.
Lemma tags_spec fuel document n :
  getTagsWithOperations p fuel document = Some (Ok n) →
  (∃ tl, iter (js_or (field "tags" document) (JsArr [])) = Ok tl ∧ tags_of_document tl n) ∧
  ∀ webhook oa, oa ∈ entries_of (paths_of webhook document) → path_filed webhook oa n.
Proof.
  unfold getTagsWithOperations. intros (tl & [= Htl] & (n1 & H1%add_tags_spec & (n2 & H2 & H3)%then_Ok)%then_Ok)%then_Ok.
  fold (paths_of true document) in H2. change (field "paths" document) with (paths_of false document) in H3.
  assert (grows n2 n) as Hg by (destruct (js_truthy (paths_of false document)); [by apply add_paths_spec in H3 as [? _]|by injection H3 as <-]).
  split.
  - exists tl. split; [done|]. assert (tags_of_document tl n2) as Hn2 by (destruct (js_truthy (paths_of true document)); [by eapply add_paths_tags|by injection H2 as <-]).
    destruct (js_truthy (paths_of false document)); [by eapply add_paths_tags|by injection H3 as <-].
  - intros [|] oa Hin; pose proof (entries_truthy _ _ Hin) as Ht.
    + rewrite Ht in H2. apply add_paths_spec in H2 as [_ H2]. intros Hr verb l e Hv Hns Hl He. eapply filed_grows; [exact Hg|]. by eapply H2.
    + rewrite Ht in H3. apply add_paths_spec in H3 as [_ H3]. by apply H3.
Qed.
End filing.

Section shown.
Context (slugify : string → string) (markdown : string → list (Z * string)) (compare : string → string → Z).
Context (opts : options) (document : jsval).

(** The item of an operation, below the tag [n]; among items, in the item of its tag, or
    among them itself for the tag without a name. *)
Definition item_of (n : option string) (o : operation) (name : string) : menu :=
  Node {| id := operation_id n o; name := name; kind := "operation"; depth := 2 |} [].
Definition shown_under (l : list menu) (spec : list (string * jsval)) (o : operation) : Prop :=
  ∃ r s, rf_item slugify "tag" (JsObj spec) 1 = Ok r ∧ operation_name o = Ok s ∧
    if is_str EmptyString (field "name" (JsObj spec)) then item_of None o s ∈ l
    else ∃ items, Node r items ∈ l ∧ item_of (Some (id r)) o s ∈ items.
Lemma shown_under_incl l l' t o : (∀ m, m ∈ l → m ∈ l') → shown_under l t o → shown_under l' t o.
Proof. intros H (r & s & Hr & Hs & Hl). exists r, s. destruct (is_str _ _); naive_solver. Qed.

Lemma operations_under t n l o :
  getOperationsItems compare opts t n 2 = Ok l → o ∈ operations n → ∃ s, operation_name o = Ok s ∧ item_of t o s ∈ l.
Proof.
  intros (m & Hm & [= <-])%bind_Ok Ho. apply mapM_result_Forall2 in Hm.
  apply list_elem_of_lookup in Ho as [j Hj]. destruct (Forall2_lookup_l _ _ _ _ _ Hm Hj) as (x & Hx & E).
  apply bind_Ok in E as (s & Hs & [= <-]). exists s. split; [done|]. rewrite maybe_sorted. apply list_elem_of_lookup. by exists j.
Qed.
Lemma tag_under t l o : tag_items slugify markdown compare opts document t = Ok l → o ∈ operations t → shown_under l (tag_spec t) o.
Proof.
  unfold tag_items. intros (r & Hr & H)%bind_Ok Ho. destruct (is_str _ _) eqn:E.
  - apply bind_Ok in H as (ops & Hops & [= <-]). destruct (operations_under _ _ _ _ Hops Ho) as (s & Hs & Hin).
    exists r, s. rewrite E. split_and!; [done|done|]. apply elem_of_app. by right.
  - apply bind_Ok in H as (sc & _ & (ops & Hops & [= <-])%bind_Ok). destruct (operations_under _ _ _ _ Hops Ho) as (s & Hs & Hin).
    exists r, s. rewrite E. split_and!; [done|done|]. eexists. split; [left|]. rewrite !elem_of_app. by right; right.
Qed.
Lemma tags_under t ks l o k u :
  getTagsItems slugify markdown compare opts document t ks = Ok l → k ∈ ks → lookup_key k t = Some u → o ∈ operations u →
  shown_under l (tag_spec u) o.
Proof.
  intros (s & Hs & [= <-])%bind_Ok Hk Hu Ho. apply mapM_result_Forall2 in Hs.
  assert (u ∈ omap (λ e, lookup_key e t) ks) as Hin by (apply list_elem_of_omap; by exists k).
  apply list_elem_of_lookup in Hin as [j Hj]. destruct (Forall2_lookup_l _ _ _ _ _ Hs Hj) as (x & Hx & E).
  apply (shown_under_incl x); [|by apply tag_under]. intros m Hm. rewrite maybe_sorted. apply list_elem_of_In, in_concat.
  exists x. split; apply list_elem_of_In; [|done]. apply list_elem_of_lookup. by exists j.
Qed.
(** In a document with groups of tags: below every group that lists the tag. *)
Definition shown_in_menu (l : list menu) (k : string) (spec : list (string * jsval)) (o : operation) : Prop :=
  match field "x-tagGroups" document with
  | JsArr ((_ :: _) as groups) =>
      ∀ g ts, g ∈ groups → field "tags" g = JsArr ts → k ∈ text <$> ts →
        ∃ r items, rf_item slugify "group" g 0 = Ok r ∧ Node r items ∈ l ∧ shown_under items spec o
  | JsStr (String _ _) => True
  | _ => shown_under l spec o
  end.

(** C28: The menu of a document, where it can be built. Each operation of its paths, and of
    its webhooks, is shown for each of its tags, for the tag without a name if it has none:
    directly in the item of that tag, among the items of the menu, or of every group that
    lists the tag where the document has an array of groups; for the tag without a name among these
    items itself. Its name and identifier are its own. The tag is the one of the document with
    that name, or a new one if there is none. Left out are tags for traits, methods the
    viewer does not know, and paths that are references. *)
Theorem operations_shown p fuel l webhook o a verb es e :
  buildStructure slugify markdown compare opts document p fuel = Some (Ok l) →
  (o, a) ∈ entries_of (paths_of webhook document) → js_truthy (field "$ref" a) = false →
  verb ∈ fst <$> entries_of a → ns verb = true → tags_of (own verb a) = Ok es → e ∈ es →
  ∃ tl spec, iter (js_or (field "tags" document) (JsArr [])) = Ok tl ∧ tag_of tl (text e) spec ∧
    (js_truthy (at_key "x-traitTag" spec) = false → shown_in_menu l (text e) spec (operation_at webhook o a verb)).
Proof.
  unfold buildStructure. intros (n & Hn & (info & _ & (g & [= Hg] & (m & [= Hm] & [= <-])%then_Ok)%then_Ok)%then_Ok)%then_Ok Ha Hr Hv Hns Hes He.
  apply tags_spec in Hn as [(tl & Htl & _ & Htags) Hpaths]. destruct (Hpaths _ _ Ha Hr verb es e Hv Hns Hes He) as (t & Ht & Hto).
  exists tl, (tag_spec t). split; [done|]. split; [by apply Htags|]. intros Htrait. destruct Hto as [Hto|Ho]; [congruence|].
  assert (text e ∈ fst <$> n) as Hkey by (apply list_elem_of_fmap; exists (text e, t); split; [done|by apply lookup_key_in]).
  set (head := addMarkdownItems _ _ _ _ _).
  assert (g = [] → shown_under (head ++ m) (tag_spec t) (operation_at webhook o a verb)) as Hflat.
  { intros ->. apply (shown_under_incl m); [intros ? ?; apply elem_of_app; by right|]. by eapply tags_under. }
  unfold shown_in_menu. destruct (field "x-tagGroups" document) as [| | | |[|c s]|[|g0 gs]|]; try done; cbn in Hg; try (apply Hflat; by injection Hg as <-).
  injection Hg as <-. intros g' ts Hg' Hts Hk. apply mapM_result_Forall2 in Hm. apply list_elem_of_lookup in Hg' as [j Hj].
  destruct (Forall2_lookup_l _ _ _ _ _ Hm Hj) as (x & Hx & E). apply bind_Ok in E as (r & Hr' & E). rewrite Hts in E.
  apply bind_Ok in E as (items & Hitems & [= <-]). exists r, items. split; [done|]. split; [|by eapply tags_under].
  apply elem_of_app. right. apply list_elem_of_lookup. by exists j.
Qed.
End shown.

(** ** A document *)

Definition lines (s : string) : list (Z * string) := if String.eqb s EmptyString then [] else [(1, s)].
Definition order (a b : string) : Z := if String.leb a b then -1 else 1.
Definition unsorted : options := {| sortTagsAlphabetically := false; sortOperationsAlphabetically := false |}.
Definition get_of (tags : list jsval) (i : string) : jsval := JsObj [("tags", JsArr tags); ("operationId", JsStr i)]%string.
Definition shop (paths : list (string * jsval)) : jsval :=
  JsObj [("info", JsObj [("description", JsStr "Welcome")]); ("tags", JsArr [JsObj [("name", JsStr "pets")]]); ("paths", JsObj paths)]%string.
Definition no_refs (d : jsval) : parser := {| SpecParser.spec := d; allowMergeRefs := false; ignoreNamedSchemas := [] |}.
Definition pets : jsval := shop [("/pets", JsObj [("get", get_of [JsStr "pets"] "list"); ("post", get_of [] "add")])]%string.
Definition built_menu (d : jsval) : list menu :=
  match buildStructure (λ s, s) lines order unsorted d (no_refs d) 5 with Some (Ok l) => l | _ => [] end.
Definition pets_menu : list menu := Eval vm_compute in built_menu pets.

Example pets_ids :
  (λ i, (kind i, id i, depth i)) <$> (what <$> flat_all pets_menu) =
  [("section", "section/Welcome", 1); ("tag", "tag/pets", 1); ("operation", "tag/pets/operation/list", 2); ("operation", "operation/add", 2)]%string.
Proof. vm_compute. reflexivity. Qed.

Lemma built_menu_consistent_witness :
  let s := foldl (handle (flat_all pets_menu) true) (initial (flat_all pets_menu)) [Click 2; Click 3; Click 1; Click 1] in
  consistent (flat_all pets_menu) true s ∧ activeItemIdx s = 1 ∧ expanded s = ∅.
Proof.
  split; [|vm_compute; by split].
  apply (built_menu_consistent (λ s, s) lines order unsorted pets (no_refs pets) 5 pets_menu). vm_compute. reflexivity.
Defined.

Lemma operations_shown_witness :
  let a := JsObj [("get", get_of [JsStr "pets"] "list"); ("post", get_of [] "add")]%string in
  let spec := [("name", JsStr "pets"); ("operations", JsArr [])]%string in
  item_of (Some "tag/pets") (operation_at false "/pets" a "get") "list" ∈ match pets_menu !! 1%nat with Some (Node _ l) => l | None => [] end ∧
  ∃ tl spec, iter (js_or (field "tags" pets) (JsArr [])) = Ok tl ∧ tag_of tl "pets" spec ∧
    (js_truthy (at_key "x-traitTag" spec) = false → shown_in_menu (λ s, s) pets pets_menu "pets" spec (operation_at false "/pets" a "get")).
Proof.
  intros a spec. split; [left|].
  apply (operations_shown (λ s, s) lines order unsorted pets (no_refs pets) 5 pets_menu false "/pets" a "get" [JsStr "pets"] (JsStr "pets")%string);
    try reflexivity; left.
Defined.

(** A path that is a reference is followed for each of its keys: with an operation
    beside the reference, those it leads to are there twice and its own is not. *)
Definition other_path : jsval :=
  JsObj [("info", JsObj []); ("x-shared", JsObj [("put", get_of [] "shared")]);
         ("paths", JsObj [("/pets", JsObj [("$ref", JsStr "#/x-shared"); ("get", get_of [] "own")])])]%string.
Example path_reference_twice :
  id <$> (what <$> flat_all (built_menu other_path)) = ["operation/shared"; "operation/shared"]%string.
Proof. vm_compute. reflexivity. Qed.

(** Two headings with the same text have the same identifier, so that the second
    cannot be reached: clicking it activates the first. *)
Example same_headings :
  let items := flat_all (addMarkdownItems (λ s, s) (λ _, [(1, "Usage"); (1, "Usage")]%string) "text" None 1) in
  activeItemIdx (handle items true (initial items) (Click 1)) = 0.
Proof. vm_compute. reflexivity. Qed.
