(* ===== verification/Operation.v ===== *)
(** * Operations of the documentation viewer

    What an operation shows ([Tu] of redoc.standalone.js): its parameters with those
    of its path, its responses with their kinds, its code samples; and the search
    box ([Gv]), whose results are chosen with the keys. *)

From Stdlib Require Import Sorted.
From S2P Require Import Prelude PyData JsNumber JsData OpenApi SpecParser.
Local Open Scope Z_scope.

(** ** Parameters *)

Section parameters.
(** What a parameter, or a reference to one, resolves to. *)
Context (resolve : jsval → jsval).

(** [t.name + "_" + t.in] of the resolved parameter. *)
Definition parameter_key (t : jsval) : string :=
  let t := resolve t in text (field "name" t) +:+ "_" +:+ text (field "in" t).
(** The parameters of the path that the operation does not have itself, then those
    of the operation. *)
Definition parameters (path own : list jsval) : list jsval :=
  let r := parameter_key <$> own in
  List.filter (λ t, negb (existsb (String.eqb (parameter_key t)) r)) path ++ own.

Lemma existsb_key t own : existsb (String.eqb (parameter_key t)) (parameter_key <$> own) = true ↔ ∃ u, u ∈ own ∧ parameter_key u = parameter_key t.
Proof.
  rewrite existsb_exists. split.
  - intros (k & Hk & E%String.eqb_eq). apply list_elem_of_In, list_elem_of_fmap in Hk as (u & -> & Hu). by exists u.
  - intros (u & Hu & E). exists (parameter_key u). split; [apply list_elem_of_In, list_elem_of_fmap; by exists u|]. by rewrite E, String.eqb_refl.
Qed.

(** A parameter of an operation overrides the one of its path with the same
    name and place: all parameters of the operation are there, in their order, and
    one of the path is there just when the operation has none of that name and
    place. *)
Theorem parameters_override path own t :
  (∃ shared, parameters path own = shared ++ own) ∧
  (t ∈ parameters path own ↔ t ∈ own ∨ t ∈ path ∧ ¬ ∃ u, u ∈ own ∧ parameter_key u = parameter_key t).
Proof.
  unfold parameters. split; [by eexists|]. rewrite elem_of_app.
  assert (t ∈ List.filter (λ t, negb (existsb (String.eqb (parameter_key t)) (parameter_key <$> own))) path
          ↔ t ∈ path ∧ ¬ ∃ u, u ∈ own ∧ parameter_key u = parameter_key t) as ->; [|tauto].
  rewrite !list_elem_of_In, filter_In, <- list_elem_of_In, negb_true_iff, <- not_true_iff_false, existsb_key. done.
Qed.
End parameters.

(** ** Responses *)

(** [li]: a text that is a number. *)
Definition is_finite (x : num) : bool := match x with S754_finite _ _ _ | S754_zero _ => true | _ => false end.
Definition li (e : string) : bool := negb (is_nan (parse_float e)) && is_finite (number_of_string e).
Definition is_code (t : string) : bool := String.eqb t "default" || li t || has_range t.

(** The first pass over the keys: those that are codes, and whether one counts as a
    success. *)
Fixpoint response_codes (l : list string) : result (list string * bool) :=
  match l with
  | [] => Ok ([], false)
  | t :: l =>
      s ← (if String.eqb t "default" then Ok false else k ← es (JsStr t) false; Ok (String.eqb k "success"));
      r ← response_codes l;
      Ok ((if is_code t then [t] else []) ++ r.1, s || r.2)
  end.
Fixpoint response_types (e : bool) (l : list string) : result (list (string * string)) :=
  match l with
  | [] => Ok []
  | t :: l => k ← es (JsStr t) e; r ← response_types e l; Ok ((t, k) :: r)
  end.
(** The responses with their kinds: "default" is an error beside a success. *)
Definition responses (l : list string) : result (list (string * string)) :=
  r ← response_codes l; response_types r.2 r.1.

Example responses_ex :
  responses ["200"; "4XX"; "default"]%string = Ok [("200", "success"); ("4XX", "error"); ("default", "error")]%string ∧
  responses ["404"; "default"]%string = Ok [("404", "error"); ("default", "success")]%string ∧
  responses ["200"; "600"]%string = Raise (OtherError "invalid HTTP code").
Proof. vm_compute. done. Qed.

Lemma response_types_keys e l r : response_types e l = Ok r → fst <$> r = l.
Proof.
  revert r. induction l as [|t l IH]; intros r; cbn; [by intros [= <-]|].
  intros (k & _ & (r' & Hr & [= <-])%bind_Ok)%bind_Ok. rewrite fmap_cons. cbn. by rewrite (IH r').
Qed.

(** Whether a key counts as a success in the first pass. *)
Definition counts (t : string) : bool :=
  negb (String.eqb t "default") && match es (JsStr t) false with Ok k => String.eqb k "success" | Raise _ => false end.

Lemma response_codes_spec l r : response_codes l = Ok r → r = (List.filter is_code l, existsb counts l).
Proof.
  revert r. induction l as [|t l IH]; intros r; cbn; [by intros [= <-]|].
  intros (s & Hs & (r' & Hr & [= <-])%bind_Ok)%bind_Ok. rewrite (IH r' Hr). cbn. unfold counts at 2.
  destruct (String.eqb t "default"); cbn.
  - injection Hs as <-. by destruct (is_code t).
  - apply bind_Ok in Hs as (k & -> & [= <-]). by destruct (is_code t).
Qed.

(** When the responses can be shown, the codes are shown in their order, and
    the default response is an error just when some key of the object counts as a
    success: also a key that is no code, as an extension is. *)
Theorem default_kind l r :
  responses l = Ok r →
  fst <$> r = List.filter is_code l ∧
  ∀ k, ("default"%string, k) ∈ r → k = (if existsb counts l then "error" else "success")%string.
Proof.
  intros (c & Hc & Hr)%bind_Ok. apply response_codes_spec in Hc as ->. cbn in Hr. split; [by eapply response_types_keys|].
  intros k. revert r Hr. generalize (List.filter is_code l). intros cs. induction cs as [|t cs IH]; intros r; cbn; [intros [= <-]; by intros ?%not_elem_of_nil|].
  intros (k' & Hk & (r' & Hr & [= <-])%bind_Ok)%bind_Ok [E|Hin]%elem_of_cons; [|by apply (IH r')].
  injection E as <- <-. cbn in Hk. by injection Hk as <-.
Qed.
Lemma default_kind_witness :
  let l := ["404"; "x-note"; "default"]%string in
  ∃ r, responses l = Ok r ∧ fst <$> r = List.filter is_code l ∧ ("default", "error")%string ∈ r ∧ is_code "x-note" = false ∧
       "error"%string = (if existsb counts l then "error" else "success")%string.
Proof.
  eexists. split; [vm_compute; reflexivity|].
  destruct (default_kind ["404"; "x-note"; "default"]%string [("404", "error"); ("default", "error")]%string) as [H1 H2]; [vm_compute; reflexivity|].
  split; [exact H1|]. split; [right; left|]. split; [vm_compute; reflexivity|]. apply H2. right. left.
Defined.

(** ** Code samples *)

(** The position [l.slice(0, t)] ends at: from the end of the list if it is negative. *)
Definition slice_end (len : nat) (t : num) : nat :=
  match t with
  | S754_infinity false => len
  | S754_infinity true | S754_nan => 0
  | t => if ntrunc t <? 0 then Z.to_nat (Z.of_nat len + ntrunc t) else Nat.min len (Z.to_nat (ntrunc t))
  end.
(** The sample of the payload goes to position [e], or to the end. *)
Definition codeSamples {A} (n : list A) (payload : option A) (e : num) : list A :=
  match payload with
  | Some p => let t := slice_end (length n) (nmin (of_Z (Z.of_nat (length n))) e) in take t n ++ p :: drop t n
  | None => n
  end.
Example samples_ex :
  (λ e, codeSamples [1; 2; 3] (Some 0) e) <$> [of_Z 0; of_Z 7; of_Z (-1); S754_nan] = [[0; 1; 2; 3]; [1; 2; 3; 0]; [1; 2; 0; 3]; [0; 1; 2; 3]].
Proof. vm_compute. reflexivity. Qed.

(** ** The search box *)

Record found := { meta : string; score : Z }.
Record search := { results : list found; noResults : bool; term : string; activeItemIdx : Z }.
Definition no_search : search := {| results := []; noResults := false; term := EmptyString; activeItemIdx := -1 |}.

Definition clearResults (e : string) (s : search) : search :=
  {| results := []; noResults := false; term := e; activeItemIdx := activeItemIdx s |}.
Definition setResults (l : list found) (s : search) : search :=
  {| results := l; noResults := match l with [] => true | _ => false end; term := term s; activeItemIdx := activeItemIdx s |}.
(** What is typed: too short a text clears the results. *)
Definition type_text (least : num) (n : string) (s : search) : search :=
  if nltb (of_Z (Z.of_nat (String.length n))) least then clearResults n s
  else {| results := results s; noResults := noResults s; term := n; activeItemIdx := activeItemIdx s |}.

Section keys.
(** The items of the menu, by identifier. *)
Context {item : Type} (getItemById : string → option item).

(** [handleKeyDown]: the new state and the item that is opened. *)
Definition handleKeyDown (key : Z) (s : search) : search * option item :=
  let move i := {| results := results s; noResults := noResults s; term := term s; activeItemIdx := i |} in
  if key =? 27 then (no_search, None)
  else if key =? 40 then (move (Z.min (activeItemIdx s + 1) (Z.of_nat (length (results s)) - 1)), None)
  else if key =? 38 then (move (Z.max 0 (activeItemIdx s - 1)), None)
  else if key =? 13 then
    (s, (if activeItemIdx s <? 0 then None else results s !! Z.to_nat (activeItemIdx s)) ≫= λ r, getItemById (meta r))
  else (s, None).

(** What is shown: the results with an item, the best first, one of them
    highlighted. *)
Definition shown (s : search) : list item :=
  omap (λ r, getItemById (meta r))
    (sort_by (λ r, - score r) (List.filter (λ r, match getItemById (meta r) with Some _ => true | None => false end) (results s))).
Definition highlighted (s : search) : option item :=
  if activeItemIdx s <? 0 then None else shown s !! Z.to_nat (activeItemIdx s).

Lemma insert_by_first (x : found) l : Forall (λ y, - score x <= - score y) l → insert_by (λ r, - score r) x l = x :: l.
Proof. intros H. destruct l as [|y l]; [done|]. cbn. inversion H; subst. by rewrite (proj2 (Z.leb_le _ _)). Qed.
Lemma sort_by_id l : StronglySorted (λ a b, score b <= score a) l → sort_by (λ r, - score r) l = l.
Proof.
  induction 1 as [|x l Hl IH Hx]; [done|]. cbn. rewrite IH. apply insert_by_first. eapply Forall_impl; [exact Hx|]. cbn. lia.
Qed.

(** The Enter key opens the item that is highlighted, when the search gives its
    results best first and every result has an item. *)
Theorem enter_opens_highlighted s :
  StronglySorted (λ a b, score b <= score a) (results s) → Forall (λ r, getItemById (meta r) ≠ None) (results s) →
  (handleKeyDown 13 s).2 = highlighted s.
Proof.
  intros Hs Hk. cbn [handleKeyDown Z.eqb Pos.eqb snd]. unfold highlighted, shown. destruct (activeItemIdx s <? 0); [done|].
  assert (List.filter (λ r, match getItemById (meta r) with Some _ => true | None => false end) (results s) = results s) as ->.
  { clear Hs. induction Hk as [|r l Hr _ IH]; [done|]. cbn. rewrite IH. by destruct (getItemById (meta r)). }
  rewrite sort_by_id by done. clear Hs. generalize (Z.to_nat (activeItemIdx s)). induction Hk as [|r l Hr _ IH]; intros i; [done|].
  cbn. destruct (getItemById (meta r)) as [x|] eqn:E; [|done]. destruct i as [|i]; [by cbn|]. apply IH.
Qed.
End keys.
Lemma enter_opens_highlighted_witness :
  let s := {| results := [{| meta := "tag/a"; score := 3 |}; {| meta := "tag/b"; score := 2 |}]; noResults := false; term := "pet"; activeItemIdx := 1 |}%string in
  (handleKeyDown Some 13 s).2 = highlighted Some s ∧ highlighted Some s = Some "tag/b"%string.
Proof.
  split; [|vm_compute; reflexivity]. apply enter_opens_highlighted; repeat constructor; cbn; try lia; intros H; discriminate H.
Defined.

(** A result whose item is unknown is not shown but counted by the keys. *)
Definition known_item (i : string) : option string := if String.eqb i "gone" then None else Some i.
Example enter_opens_another :
  let s := {| results := [{| meta := "gone"; score := 3 |}; {| meta := "tag/a"; score := 2 |}; {| meta := "tag/b"; score := 1 |}];
              noResults := false; term := "pet"; activeItemIdx := 1 |}%string in
  highlighted known_item s = Some "tag/b"%string ∧ (handleKeyDown known_item 13 s).2 = Some "tag/a"%string.
Proof. split; reflexivity. Qed.
