(* ===== verification/Options.v ===== *)
(** * Options of the documentation viewer

    How the options of a page become those the viewer works with ([Pi] of
    redoc.standalone.js): flags, numbers, lists of names, as they come from
    attributes of an element, where everything is a string, or from a script. The
    theme is in [Theme]. Names in brackets are those of the bundle. *)

From S2P Require Import Prelude PyData JsNumber JsData Css OpenApi SpecParser Operation MenuBuilder.
Local Open Scope Z_scope.

(** ** Single options *)

(** [ji(e, t)]: a flag; only the string "false" is false. *)
Definition ji (e : jsval) (t : bool) : jsval :=
  match e with
  | JsUndef => JsBool t
  | JsStr s => JsBool (negb (String.eqb s "false"))
  | e => e
  end.
(** [Ci]: a number. *)
Definition Ci (e : jsval) : jsval :=
  match e with JsStr s => JsNum (parse_int 10 s) | JsNum x => JsNum x | _ => JsUndef end.
(** [Ci(e) || d]. *)
Definition number_or (d : num) (e : jsval) : num := match Ci e with JsNum x => if js_truthy (JsNum x) then x else d | _ => d end.

Definition names (s : string) : list string := trim <$> split_on "," s.

(** Which responses are expanded: all, or those with these codes. *)
Inductive expanded_responses := AllResponses | Responses (codes : list string).
Definition normalizeExpandResponses (e : jsval) : expanded_responses :=
  match e with JsStr s => if String.eqb s "all" then AllResponses else Responses (names s) | _ => Responses [] end.

(** The offset of the scrolling; what is neither a number nor its digits is a
    selector of an element, whose lower edge is [edge]. *)
Definition normalizeScrollYOffset (edge : string → num) (e : jsval) : num :=
  match e with
  | JsNum x => x
  | JsStr s => if li s then parse_float s else edge s
  | e => if li (text e) then parse_float (text e) else of_Z 0
  end.

(** Whether extensions are shown, or which ones. *)
Definition normalizeShowExtensions (e : jsval) : jsval :=
  match e with
  | JsUndef => JsBool false
  | JsStr s =>
      if String.eqb s EmptyString then JsBool true
      else if String.eqb s "true" then JsBool true
      else if String.eqb s "false" then JsBool false
      else JsArr (JsStr <$> names s)
  | e => e
  end.
Definition side_nav_styles : list string := ["summary-only"; "path-only"; "id-only"]%string.
Definition normalizeSideNavStyle (e : jsval) : string :=
  match e with JsStr s => if existsb (String.eqb s) side_nav_styles then s else "summary-only"%string | _ => "summary-only"%string end.

(** Where the sample of the payload goes. *)
Definition normalizePayloadSampleIdx (e : jsval) : num :=
  match e with
  | JsNum x => nmax (of_Z 0) x
  | JsStr s => if is_finite (number_of_string s) then parse_int 10 s else of_Z 0
  | _ => of_Z 0
  end.
Definition normalizeJsonSampleExpandLevel (e : jsval) : num :=
  if is_str "all" e then S754_infinity false
  else if is_nan (js_number e) then of_Z 2 else nceil (js_number e).
Definition normalizeGeneratedPayloadSamplesMaxDepth (e : jsval) : num :=
  if is_nan (js_number e) then of_Z 10 else nmax (of_Z 0) (js_number e).
Definition schema_expansion_level (e : jsval) : num :=
  if is_str "all" e then S754_infinity false else number_or (of_Z 0) e.
(** The names of schemas that are not followed. *)
Definition ignored_names (e : jsval) : result (list jsval) :=
  match e with
  | JsArr l => Ok l
  | JsUndef | JsNull => Ok []
  | JsStr s => Ok (JsStr <$> names s)
  | _ => Raise TypeError
  end.

(** ** All options *)

(** The flags, with what they are when they are not given. *)
Definition flags : list (string * bool) :=
  [("requiredPropsFirst", false); ("sortPropsAlphabetically", false); ("sortEnumValuesAlphabetically", false);
   ("sortOperationsAlphabetically", false); ("sortTagsAlphabetically", false); ("nativeScrollbars", false);
   ("pathInMiddlePanel", false); ("untrustedSpec", false); ("hideDownloadButton", false); ("disableSearch", false);
   ("onlyRequiredInSamples", false); ("hideSingleRequestSampleTab", false); ("hideRequestPayloadSample", false);
   ("menuToggle", true); ("enumSkipQuotes", false); ("hideSchemaTitles", false); ("simpleOneOfTypeLabel", false);
   ("expandSingleSchemaField", false); ("showObjectSchemaExamples", false); ("showSecuritySchemeType", false);
   ("hideSecuritySection", false); ("unstable_ignoreMimeParameters", false); ("expandDefaultServerVariables", false);
   ("hideSchemaPattern", false); ("hideFab", false); ("showWebhookVerb", false)]%string.

Record normalized := {
  flag_values : list (string * jsval);
  scrollYOffset : num;
  hideHostname : bool;
  expandResponses : expanded_responses;
  showExtensions : jsval;
  sideNavStyle : string;
  jsonSampleExpandLevel : num;
  payloadSampleIdx : num;
  schemaExpansionLevel : num;
  allowedMdComponents : jsval;
  maxDisplayedEnumValues : jsval;
  ignored : list jsval;
  generatedPayloadSamplesMaxDepth : num;
  minCharacterLengthToInitSearch : num;
  kept : list (string * jsval);
}.

(** [new Pi(e, t)] but for the theme and the labels: the options given, over the
    defaults. *)
Definition Pi (edge : string → num) (e t : list (string * jsval)) : result normalized :=
  let o := JsObj (assign t e) in
  let f k := field k o in
  u ← ignored_names (f "ignoreNamedSchemas"%string);
  Ok {| flag_values := (λ '(k, b), (k, ji (f k) b)) <$> flags;
        scrollYOffset := normalizeScrollYOffset edge (f "scrollYOffset"%string);
        hideHostname := js_truthy (f "hideHostname"%string);
        expandResponses := normalizeExpandResponses (f "expandResponses"%string);
        showExtensions := normalizeShowExtensions (f "showExtensions"%string);
        sideNavStyle := normalizeSideNavStyle (f "sideNavStyle"%string);
        jsonSampleExpandLevel := normalizeJsonSampleExpandLevel (f "jsonSampleExpandLevel"%string);
        payloadSampleIdx := normalizePayloadSampleIdx (f "payloadSampleIdx"%string);
        schemaExpansionLevel := schema_expansion_level (f "schemaExpansionLevel"%string);
        allowedMdComponents := js_or (f "allowedMdComponents"%string) (JsObj []);
        maxDisplayedEnumValues := Ci (f "maxDisplayedEnumValues"%string);
        ignored := u;
        generatedPayloadSamplesMaxDepth := normalizeGeneratedPayloadSamplesMaxDepth (f "generatedPayloadSamplesMaxDepth"%string);
        minCharacterLengthToInitSearch := number_or (of_Z 3) (f "minCharacterLengthToInitSearch"%string);
        kept := (λ k, (k, f k)) <$> ["downloadFileName"; "downloadDefinitionUrl"; "nonce"]%string |}.

Definition flag (k : string) (n : normalized) : bool := js_truthy (default JsUndef (lookup_key k (flag_values n))).
(** The options of the menu. *)
Definition menu_options (n : normalized) : options :=
  {| MenuBuilder.sortTagsAlphabetically := flag "sortTagsAlphabetically" n;
     MenuBuilder.sortOperationsAlphabetically := flag "sortOperationsAlphabetically" n |}.

(** ** Facts *)

(** What is truthy is a number. *)
Lemma number_or_truthy d e : js_truthy (JsNum d) = true → js_truthy (JsNum (number_or d e)) = true.
Proof. unfold number_or. destruct (Ci e); try done. by destruct (js_truthy (JsNum x)) eqn:E. Qed.
Lemma number_or_number d e : is_nan d = false → is_nan (number_or d e) = false.
Proof.
  unfold number_or. destruct (Ci e); try done. destruct (js_truthy (JsNum x)) eqn:E; [|done]. intros _. cbn in E. by destruct x.
Qed.
Lemma nmax_zero x : is_nan x = false → nleb (of_Z 0) (nmax (of_Z 0) x) = true.
Proof. by destruct x as [[]|[]| |[] m e]. Qed.

(** The numbers among the options are ones the viewer can work with, whatever the
    page gives: the depth of samples is a number and not negative, the level of
    expansion is a number, and the length a search starts at is not zero. *)
Lemma numbers_usable edge e t n :
  Pi edge e t = Ok n →
  nleb (of_Z 0) (generatedPayloadSamplesMaxDepth n) = true ∧ is_nan (schemaExpansionLevel n) = false ∧
  js_truthy (JsNum (minCharacterLengthToInitSearch n)) = true.
Proof.
  intros (u & _ & [= <-])%bind_Ok. cbn [generatedPayloadSamplesMaxDepth schemaExpansionLevel minCharacterLengthToInitSearch].
  split_and!.
  - unfold normalizeGeneratedPayloadSamplesMaxDepth. destruct (is_nan _) eqn:E; [done|]. by apply nmax_zero.
  - unfold schema_expansion_level. destruct (is_str _ _); [done|]. by apply number_or_number.
  - by apply number_or_truthy.
Qed.

(** A negative index that comes as a string stays negative, one that comes as a
    number does not; of "1e3" the digits before the "e" count. *)
Example payload_index :
  string_of_num ∘ normalizePayloadSampleIdx <$> [JsNum (of_Z (-2)); JsStr "-2"; JsStr "1e3"; JsStr EmptyString] = ["0"; "-2"; "1"; "NaN"]%string.
Proof. vm_compute. reflexivity. Qed.
