(* ===== verification/Parameters.v ===== *)
(** * Values of parameters

    How the documentation viewer writes the example of a parameter ([us] of
    redoc.standalone.js): by the place of the parameter, its style and whether it is
    exploded, or as JSON. The library that expands URI templates is an argument;
    names in brackets are those of the bundle. *)

From S2P Require Import Prelude PyData JsNumber JsData Theme JsonPointer OpenApi SpecParser AllOf.
Local Open Scope Z_scope.

(** ** [JSON.stringify] *)

Definition hex_text (n : N) : string := String (hex_digit (Z.of_N (n / 16))) (String (hex_digit (Z.of_N (n mod 16))) EmptyString).
Definition json_char (c : ascii) : string :=
  let n := char_code c in
  if Ascii.eqb c "034" then String "\" (String "034" EmptyString)
  else if Ascii.eqb c "\" then "\\"
  else if N.eqb n 8 then "\b" else if N.eqb n 9 then "\t" else if N.eqb n 10 then "\n"
  else if N.eqb n 12 then "\f" else if N.eqb n 13 then "\r"
  else if (n <? 32)%N then "\u00" +:+ hex_text n
  else String c EmptyString.
Fixpoint json_chars (s : string) : string :=
  match s with EmptyString => EmptyString | String c s => json_char c +:+ json_chars s end.
Definition quote (s : string) : string := String "034" (json_chars s +:+ String "034" EmptyString).
Fixpoint json_text (v : jsval) : string :=
  match v with
  | JsStr s => quote s
  | JsArr l => "[" +:+ PyData.join "," (json_text <$> l) +:+ "]"
  | JsObj l => "{" +:+ PyData.join "," ((λ '(k, v), quote k +:+ ":" +:+ json_text v) <$> l) +:+ "}"
  | v => js_string v
  end.
(** Undefined has no text. *)
Definition stringify (v : jsval) : string := match json v with Some w => json_text w | None => "undefined" end.

(** ** Values *)

(** Every occurrence of a text replaced. *)
Fixpoint replace_all (fuel : nat) (w r s : string) : string :=
  match fuel, s with
  | S fuel, String c t =>
      if String.prefix w s then r +:+ replace_all fuel w r (string_drop (String.length w) s) else String c (replace_all fuel w r t)
  | _, _ => s
  end.
Definition variable : string := "__redoc_param_name__".

Section serialize.
(** A template with the value of its one variable. *)
Context (expand : string → jsval → string).

Definition star (explode : bool) : string := if explode then "*" else EmptyString.
Definition expanded (prefix : string) (explode : bool) (v : jsval) : string :=
  expand ("{" +:+ prefix +:+ variable +:+ star explode +:+ "}") v.
(** The name of the parameter is put in afterwards. *)
Definition named (name s : string) : string := replace_all (String.length s) variable name s.
(** [ls]: without the question mark in front. *)
Definition ls (name : string) (explode : bool) (v : jsval) : string := named name (string_drop 1 (expanded "?" explode v)).
(** [os] and [cs]. *)
Definition os (e : string) : bool := match String.index 0 "json" (lower e) with Some _ => true | None => false end.
Definition cs (e : jsval) (t : string) : string := if os t then stringify e else EmptyString.
(** [ss], of an object. *)
Definition ss (e : list (string * jsval)) (t : string) : string :=
  PyData.join "&" ((λ '(k, v), t +:+ "[" +:+ k +:+ "]=" +:+ text v) <$> e).

Definition delimited (separator name : string) (explode : bool) (r : jsval) : string :=
  match r with
  | JsArr l => if explode then ls name explode r
               else name +:+ "=" +:+ PyData.join separator ((λ v, match v with JsUndef | JsNull => EmptyString | v => text v end) <$> l)
  | _ => EmptyString
  end.

Definition in_path (name style : string) (explode : bool) (v : jsval) : string :=
  named name (expanded (if String.eqb style "label" then "." else if String.eqb style "matrix" then ";" else EmptyString) explode v).
Definition in_query (name style : string) (explode : bool) (v : jsval) : result string :=
  if String.eqb style "form" then Ok (ls name explode v)
  else if String.eqb style "spaceDelimited" then Ok (delimited "%20" name explode v)
  else if String.eqb style "pipeDelimited" then Ok (delimited "|" name explode v)
  else if String.eqb style "deepObject" && explode then
    match v with JsObj l => Ok (ss l name) | JsNull => Raise TypeError | _ => Ok EmptyString end
  else Ok EmptyString.
Definition in_header (style : string) (explode : bool) (v : jsval) : result string :=
  if String.eqb style "simple" then decodeURIComponent (expanded EmptyString explode v) else Ok EmptyString.
Definition in_cookie (name style : string) (explode : bool) (v : jsval) : string :=
  if String.eqb style "form" then ls name explode v else EmptyString.

(** A parameter with content: the value in the media type of the content. *)
Definition with_content (place name mime : string) (t : jsval) : string :=
  if String.eqb place "path" || String.eqb place "header" then cs t mime
  else if String.eqb place "cookie" || String.eqb place "query" then name +:+ "=" +:+ cs t mime
  else EmptyString.
Definition encoded (e t : jsval) : result string :=
  let place := text (field "in" e) in
  let name := text (field "name" e) in
  let style := field "style" e in
  let explode := js_truthy (field "explode" e) in
  if js_truthy (field "serializationMime" e) then Ok (with_content place name (text (field "serializationMime" e)) t)
  else if negb (js_truthy style) then Ok EmptyString
  else if String.eqb place "path" then Ok (in_path name (text style) explode t)
  else if String.eqb place "query" then in_query name (text style) explode t
  else if String.eqb place "header" then in_header (text style) explode t
  else if String.eqb place "cookie" then Ok (in_cookie name (text style) explode t)
  else Ok EmptyString.
(** [us(e, t)]. *)
Definition us (e t : jsval) : result string :=
  if js_truthy (field "in" e) then s ← encoded e t; decodeURIComponent s else Ok (text t).

(** ** Facts *)

Definition plain (s : string) : bool := negb (has_char "%" s).

Lemma decode_ok s ok ok' : decode s 0 ok = decode s 0 ok'.
Proof. revert ok ok'. induction s as [|c s IH]; intros ok ok'; [done|]. cbn. destruct (Ascii.eqb c "%"); [done|]. by rewrite (IH ok ok'). Qed.
Lemma decode_plain s t ok : plain s = true → decode (s +:+ t) 0 ok = String.append s <$> decode t 0 ok.
Proof.
  unfold plain. induction s as [|c s IH]; cbn; [by destruct (decode t 0 ok)|].
  rewrite negb_true_iff. intros [Hc Hs]%orb_false_iff. apply bool_decide_eq_false in Hc. apply Ascii.eqb_neq in Hc as ->.
  rewrite IH by (by rewrite Hs). by destruct (decode t 0 ok).
Qed.
Lemma decode_space t ok : decode ("%20" +:+ t) 0 ok = String " " <$> decode t 0 ok.
Proof. cbn. f_equal. apply decode_ok. Qed.

(** Texts between separators: %20 is read as a space. *)
Lemma decode_joined l ok :
  Forall (λ s, plain s = true) l → decode (PyData.join "%20" l) 0 ok = Ok (PyData.join " " l).
Proof.
  induction 1 as [|s l Hs Hl IH]; [done|]. destruct l as [|s2 l].
  - cbn. pose proof (decode_plain s EmptyString ok Hs) as H. cbn in H. by rewrite string_app_nil_r in H.
  - cbn [PyData.join] in *. rewrite decode_plain by done. rewrite decode_space, IH. done.
Qed.

(** The example of an array with the style spaceDelimited is its elements with
    spaces between, when they and the name have no percent sign. *)
Lemma space_delimited name l :
  plain name = true → Forall (λ s, plain s = true) l →
  us (JsObj [("in", JsStr "query"); ("name", JsStr name); ("style", JsStr "spaceDelimited")])%string (JsArr (JsStr <$> l))
  = Ok (name +:+ "=" +:+ PyData.join " " l).
Proof.
  intros Hp Hl. unfold us, encoded. cbn. unfold decodeURIComponent. rewrite decode_plain by done. cbn.
  rewrite <- list_fmap_compose. assert (∀ f : string → string, (∀ s, f s = s) → f <$> l = l) as Hid.
  { intros f Hf. induction l as [|s k IH]; [done|]. rewrite fmap_cons, Hf. f_equal. apply IH. by inversion Hl. }
  rewrite Hid by done. change (decode (EmptyString +:+ ?s)) with (decode s). by rewrite decode_joined.
Qed.

(** A percent sign in an element is not escaped before the whole is decoded: the
    viewer throws. *)
Lemma percent_throws name :
  plain name = true →
  us (JsObj [("in", JsStr "query"); ("name", JsStr name); ("style", JsStr "spaceDelimited")])%string (JsArr [JsStr "100%"])
  = Raise malformed.
Proof. intros Hp. unfold us, encoded. cbn. unfold decodeURIComponent. by rewrite decode_plain. Qed.

(** A header is decoded twice: a percent sign that the template escaped throws. *)
Lemma header_throws v :
  decodeURIComponent (expanded EmptyString false v) = Ok "100%"%string →
  us (JsObj [("in", JsStr "header"); ("name", JsStr "X-Rate"); ("style", JsStr "simple")])%string v = Raise malformed.
Proof. intros H. unfold us, encoded. cbn. unfold in_header. cbn. rewrite H. done. Qed.
End serialize.

Definition no_templates (s : string) (v : jsval) : string := EmptyString.
Example us_ex :
  (λ e, us no_templates (JsObj e) (JsArr [JsStr "a b"; JsNum (of_Z 2)])) <$>
  [[("in", JsStr "query"); ("name", JsStr "q"); ("style", JsStr "pipeDelimited")];
   [("in", JsStr "query"); ("name", JsStr "q"); ("serializationMime", JsStr "application/JSON")]; []]%string
  = [Ok "q=a b|2"; Ok ("q=[" +:+ quote "a b" +:+ ",2]"); Ok "a b,2"]%string.
Proof. vm_compute. reflexivity. Qed.
