(* ===== verification/Patterns.v ===== *)
(** * Samples of patterns

    The text the documentation viewer shows for a string with a pattern (the
    function in [iu] of redoc.standalone.js): a regular expression is rewritten by
    four loops, each of which replaces what it finds first until it finds nothing,
    and what is left is the sample. Regular expressions the code matches with are
    functions on lists of characters here. Names in brackets are those of the
    bundle. *)

From S2P Require Import Prelude PyData JsNumber JsData OpenApi AllOf.
Local Open Scope Z_scope.

(** ** Matching *)

Definition chars := list ascii.
Definition code (c : ascii) : Z := Z.of_N (char_code c).
Definition between_codes (lo hi : Z) (c : ascii) : bool := (lo <=? code c) && (code c <=? hi).
Definition is_alnum (c : ascii) : bool := between_codes 48 57 c || between_codes 65 90 c || between_codes 97 122 c.
(** [\w] and [.]. *)
Definition is_word (c : ascii) : bool := is_alnum c || Ascii.eqb c "_".
Definition no_newline (c : ascii) : bool := negb ((code c =? 10) || (code c =? 13)).
Definition one_of (s : string) (c : ascii) : bool := has_char c s.

(** What matches first: the text before it, and the match. *)
Fixpoint find {A} (m : chars → option A) (l : chars) : option (chars * A) :=
  match m l with
  | Some x => Some ([], x)
  | None => match l with [] => None | c :: l => '(b, x) ← find m l; Some (c :: b, x) end
  end.

(** [\d+], with the rest; [parseInt] of it. *)
Fixpoint take_digits (l : chars) : chars * chars :=
  match l with
  | c :: r => if is_digit c then let '(ds, r) := take_digits r in (c :: ds, r) else ([], l)
  | [] => ([], [])
  end.
Definition parseInt (ds : chars) : Z := foldl (λ a c, a * 10 + (code c - 48)) 0 ds.

Inductive quantifier := Symbol (c : ascii) | Count (n : Z) (most : option Z).

(** [\{(\d+)\}] and [\{(\d+)\,(\d+)\}]. *)
Definition exactly (l : chars) : option (Z * chars) :=
  match l with
  | "{"%char :: l =>
      match take_digits l with
      | (d :: ds, "}"%char :: r) => Some (parseInt (d :: ds), r)
      | _ => None
      end
  | _ => None
  end.
Definition at_least (l : chars) : option (Z * Z * chars) :=
  match l with
  | "{"%char :: l =>
      match take_digits l with
      | (d :: ds, ","%char :: r) =>
          match take_digits r with
          | (d' :: ds', "}"%char :: r) => Some (parseInt (d :: ds), parseInt (d' :: ds'), r)
          | _ => None
          end
      | _ => None
      end
  | _ => None
  end.
(** [(?:\{(\d+)(?:\,(\d+)|)\}|(\?|\*|\+))]. *)
Definition quantified (l : chars) : option (quantifier * chars) :=
  match at_least l with
  | Some (n, m, r) => Some (Count n (Some m), r)
  | None =>
      match exactly l with
      | Some (n, r) => Some (Count n None, r)
      | None => match l with c :: r => if one_of "?*+" c then Some (Symbol c, r) else None | [] => None end
      end
  end.

(** [tu(e, t)]: a number from e to t; the least, so that samples do not change. *)
Definition tu (e t : Z) : Z := e.
(** [nu(e, t, n)]: how often the sample repeats. *)
Definition nu (q : option quantifier) : Z :=
  match q with
  | None => 1
  | Some (Symbol c) => if Ascii.eqb c "+" then tu 1 100 else if Ascii.eqb c "*" then tu 0 100 else 0
  | Some (Count n (Some m)) => tu n m
  | Some (Count n None) => n
  end.
(** [c.repeat(r)]. *)
Definition times (r : Z) (c : ascii) : chars := repeat c (Z.to_nat r).

(** ** The loops *)

(** [for (; null != a; )]: until there is nothing to replace. *)
Fixpoint until_none (step : chars → option (result chars)) (fuel : nat) (e : chars) : out chars :=
  match fuel with
  | O => None
  | S fuel => match step e with None => done e | Some r => e ⇐ of_result r; until_none step fuel e end
  end.

(** A character with a quantifier, but for one in brackets or braces: the next
    bracket, or brace, is not a closing one. *)
Fixpoint closes (open close : ascii) (l : chars) : bool :=
  match l with
  | [] => false
  | c :: l => if Ascii.eqb c close then true else if Ascii.eqb c open then false else closes open close l
  end.
Definition atom (c : ascii) : bool := is_alnum c || Ascii.eqb c ".".
Definition atom_at (l : chars) : option (ascii * quantifier * chars) :=
  match l with
  | c :: l =>
      if atom c then
        '(q, r) ← quantified l;
        if closes "[" "]" r || closes "{" "}" r then None else Some (c, q, r)
      else None
  | [] => None
  end.
Definition expand_atom (e : chars) : option (result chars) :=
  '(b, (c, q, r)) ← find atom_at e; Some (Ok (b ++ times (nu (Some q)) c ++ r)).

(** A class of characters. *)
Record class := { negated : bool; dash : bool; body : chars; count : option quantifier }.
(** [(.+?)\]]: up to the next closing bracket, but for the first character. *)
Fixpoint up_to_bracket (l : chars) : option (chars * chars) :=
  match l with
  | [] => None
  | c :: l =>
      if no_newline c then
        match l with
        | "]"%char :: r => Some ([c], r)
        | l => '(b, r) ← up_to_bracket l; Some (c :: b, r)
        end
      else None
  end.
(** [(c|)]: the ways to match an optional character, the longer first. *)
Definition optional (c : ascii) (l : chars) : list (bool * chars) :=
  match l with x :: r => if Ascii.eqb x c then [(true, r); (false, l)] else [(false, l)] | [] => [(false, l)] end.
Definition first_some {A B} (f : A → option B) (l : list A) : option B := head (omap f l).
Definition class_at (l : chars) : option (class * chars) :=
  match l with
  | "["%char :: l =>
      first_some (λ '(neg, l), first_some (λ '(d, l),
        '(b, r) ← up_to_bracket l;
        Some (match quantified r with
              | Some (q, r) => ({| negated := neg; dash := d; body := b; count := Some q |}, r)
              | None => ({| negated := neg; dash := d; body := b; count := None |}, r)
              end)) (optional "-" l)) (optional "^" l)
  | _ => None
  end.

(** A range of two digits or of two word characters, or one of them, or punctuation. *)
Inductive piece := Single (c : ascii) | Range (a b : ascii).
Definition punctuation (c : ascii) : bool := one_of "-!@#$&()`.+,/" c || (code c =? 34).
Definition piece_at (l : chars) : option piece :=
  match l with
  | [] => None
  | a :: r =>
      let single := if is_word a || punctuation a then Some (Single a) else None in
      match r with
      | "-"%char :: b :: _ => if is_digit a && is_digit b || is_word a && is_word b then Some (Range a b) else single
      | _ => single
      end
  end.
(** The codes of the characters in a class. What is dropped are as many characters
    as the piece has, from the start and not from where it is. A lone dash has no
    code. *)
Definition codes_from (a b : Z) : list Z := (λ i, a + Z.of_nat i) <$> seq 0 (Z.to_nat (b - a + 1)).
Fixpoint codes (fuel : nat) (h : chars) (f : list Z) : result (list Z) :=
  match fuel, find piece_at h with
  | S fuel, Some (_, Single c) => codes fuel (drop 1 h) (if Ascii.eqb c "-" then f else f ++ [code c])
  | S fuel, Some (_, Range a b) =>
      if code b <? code a then Raise (OtherError "Character range provided is out of order.")
      else codes fuel (drop 3 h) (f ++ codes_from (code a) (code b))
  | _, _ => Ok f
  end.
(** A code is taken out, its first occurrence, or put in. *)
Fixpoint remove_first (t : Z) (f : list Z) : list Z :=
  match f with [] => [] | x :: f => if x =? t then f else x :: remove_first t f end.
Definition toggle (f : list Z) (t : Z) : list Z := if existsb (Z.eqb t) f then remove_first t f else f ++ [t].
Definition negate (f : list Z) : list Z := foldl toggle f (codes_from 48 57 ++ codes_from 65 90 ++ codes_from 97 122).
Definition class_codes (a : class) : result (list Z) :=
  f ← codes (length (body a)) (body a) (if dash a then [45] else []);
  Ok (if negated a then negate f else f).
(** [String.fromCharCode(f[tu(0, f.length)])]; of nothing it is the character 0. *)
Definition class_char (f : list Z) : ascii := ascii_of_N (Z.to_N (nth (Z.to_nat (tu 0 (Z.of_nat (length f)))) f 0)).
Definition expand_class (e : chars) : option (result chars) :=
  '(b, (a, r)) ← find class_at e;
  Some (f ← class_codes a; Ok (b ++ times (nu (count a)) (class_char f) ++ r)).

(** [/(.)\{(\d+)\,(\d+)\}/] and [/(.)\{(\d+)\}/]. *)
Definition range_at (l : chars) : option (ascii * (Z * Z) * chars) :=
  match l with c :: l => if no_newline c then '(n, m, r) ← at_least l; Some (c, (n, m), r) else None | [] => None end.
Definition expand_range (e : chars) : option (result chars) :=
  '(b, (c, (n, m), r)) ← find range_at e;
  Some (if m <? n then Raise (OtherError "Numbers out of order in {} quantifier.") else Ok (b ++ times (tu n m) c ++ r)).
Definition exact_at (l : chars) : option (ascii * Z * chars) :=
  match l with c :: l => if no_newline c then '(n, r) ← exactly l; Some (c, n, r) else None | [] => None end.
Definition expand_exact (e : chars) : option (result chars) :=
  '(b, (c, n, r)) ← find exact_at e; Some (Ok (b ++ times n c ++ r)).

Definition loop (step : chars → option (result chars)) (e : chars) : out chars := until_none step (S (length e)) e.
(** The sample of a pattern: what is not a string has no [match]. *)
Definition sample_chars (e : chars) : out chars :=
  e ⇐ loop expand_atom e;
  e ⇐ loop expand_class e;
  e ⇐ loop expand_range e;
  loop expand_exact e.
Definition sample_pattern (e : jsval) : out string :=
  match e with
  | JsStr e => l ⇐ sample_chars (list_ascii_of_string e); done (string_of_list_ascii l)
  | _ => throw
  end.

Definition sampled (s : string) : option string := match sample_pattern (JsStr s) with Some (Ok s) => Some s | _ => None end.
Example patterns_ex :
  sampled <$> ["^[a-z]{3}$"; "a{2}b*c+"; "[0-9]{2}-[A-F]"; "x{2,4}"; "(ab){2}"; "[-a]"; "[^a]"]%string
  = Some <$> ["^aaa$"; "aac"; "00-A"; "xx"; "(ab))"; "-"; "0"]%string.
Proof. vm_compute. reflexivity. Qed.

(** ** The loops end *)

Lemma find_spec {A} (m : chars → option A) e b x : find m e = Some (b, x) → ∃ l, e = b ++ l ∧ m l = Some x.
Proof.
  revert b. induction e as [|c e IH]; intros b; cbn [find]; destruct (m _) eqn:E; try done.
  - intros [= <- <-]. by exists [].
  - intros [= <- <-]. by exists (c :: e).
  - destruct (find m e) as [[b' y]|]; [|done]. cbn. intros [= <- <-]. destruct (IH b' eq_refl) as (l & -> & Hl). by exists l.
Qed.

(** How many runs of digits there are, by where they end, in a text that is followed
    by a digit or not. *)
Definition starts_digit (l : chars) (next : bool) : bool := match l with c :: _ => is_digit c | [] => next end.
Fixpoint runs_before (l : chars) (next : bool) : nat :=
  match l with
  | [] => 0
  | c :: l => (if is_digit c && negb (starts_digit l next) then 1 else 0) + runs_before l next
  end%nat.
Definition runs (l : chars) : nat := runs_before l false.

Lemma runs_app b l : runs (b ++ l) = (runs_before b (starts_digit l false) + runs l)%nat.
Proof.
  unfold runs. induction b as [|c b IH]; [done|]. cbn [app runs_before]. rewrite IH. destruct b; cbn; lia.
Qed.
Lemma runs_cons c l : runs (c :: l) = ((if is_digit c && negb (starts_digit l false) then 1 else 0) + runs l)%nat.
Proof. done. Qed.
(** What follows changes whether the last run ends. *)
Lemma runs_before_next b : (runs_before b true ≤ runs_before b false ≤ S (runs_before b true))%nat.
Proof. induction b as [|c [|d b] IH]; [cbn; lia| |cbn [runs_before starts_digit] in *; lia]. cbn. destruct (is_digit c); cbn; lia. Qed.
Lemma runs_times n c s : (runs_before (times n c) s ≤ if is_digit c then 1 else 0)%nat.
Proof.
  unfold times. induction (Z.to_nat n) as [|k IH]; [cbn; lia|]. cbn [repeat runs_before]. destruct k as [|k]; cbn in *; [by destruct (is_digit c), s; cbn; lia|].
  destruct (is_digit c); cbn in *; lia.
Qed.
Lemma times_starts n c r : times n c = [] ∨ starts_digit (times n c ++ r) false = is_digit c.
Proof. unfold times. destruct (Z.to_nat n); [by left|by right]. Qed.

(** A character and what is not a digit after it, for as many of the character. *)
Lemma runs_replace b c q t r n :
  is_digit q = false → (runs r ≤ runs t)%nat → (runs (b ++ times n c ++ r) + runs t ≤ runs (b ++ c :: q :: t) + runs r)%nat.
Proof.
  intros Hq Ht. rewrite !runs_app, (runs_cons c), (runs_cons q), Hq. cbn [starts_digit andb negb]. rewrite Hq. cbn [negb].
  pose proof (runs_before_next b). pose proof (runs_times n c (starts_digit r false)).
  destruct (times_starts n c r) as [E| ->].
  - rewrite E. cbn [app runs_before]. destruct (starts_digit r false), (is_digit c); cbn; lia.
  - destruct (is_digit c); cbn in *; lia.
Qed.

Lemma take_digits_spec l : ∀ ds r, take_digits l = (ds, r) → l = ds ++ r ∧ Forall (λ c, is_digit c = true) ds ∧ starts_digit r false = false.
Proof.
  induction l as [|c l IH]; intros ds r; cbn [take_digits]; [by intros [= <- <-]|]. destruct (is_digit c) eqn:Hc; [|by intros [= <- <-]].
  destruct (take_digits l) as [ds' r']. intros [= <- <-]. destruct (IH _ _ eq_refl) as (-> & Hds & Hr). split_and!; [done|by constructor|done].
Qed.
Lemma runs_digits ds r : Forall (λ c, is_digit c = true) ds → starts_digit r false = false → ds ≠ [] → runs (ds ++ r) = S (runs r).
Proof.
  intros Hds Hr. induction Hds as [|c ds Hc Hds IH]; [done|]. intros _. destruct ds as [|d ds].
  - cbn [app]. by rewrite runs_cons, Hc, Hr.
  - rewrite <- app_comm_cons, runs_cons, IH by done. inversion Hds as [|? ? Hd]; subst. cbn [app starts_digit]. by rewrite Hd, andb_false_r.
Qed.

Lemma exactly_spec l n r : exactly l = Some (n, r) → ∃ t, l = "{"%char :: t ∧ runs t = S (runs r) ∧
  r `suffix_of` t.
Proof.
  unfold exactly. destruct l as [|c t]; [done|]. destruct (decide (c = "{"%char)) as [->|]; [|by repeat case_match].
  destruct (take_digits t) as [ds r'] eqn:E. apply take_digits_spec in E as (-> & Hds & Hr). destruct ds as [|d ds]; [done|].
  destruct r' as [|c r']; [done|]. destruct (decide (c = "}"%char)) as [->|]; [|by repeat case_match]. intros [= <- <-].
  eexists. split; [done|]. split; [by rewrite runs_digits|]. exists ((d :: ds) ++ ["}"%char]). cbn. by rewrite <- app_assoc.
Qed.
Lemma at_least_spec l n m r : at_least l = Some (n, m, r) → ∃ t, l = "{"%char :: t ∧ runs t = S (S (runs r)) ∧ r `suffix_of` t.
Proof.
  unfold at_least. destruct l as [|c t]; [done|]. destruct (decide (c = "{"%char)) as [->|]; [|by repeat case_match].
  destruct (take_digits t) as [ds r'] eqn:E. apply take_digits_spec in E as (-> & Hds & Hr). destruct ds as [|d ds]; [done|].
  destruct r' as [|c r']; [done|]. destruct (decide (c = ","%char)) as [->|]; [|by repeat case_match].
  destruct (take_digits r') as [ds' r2] eqn:E. apply take_digits_spec in E as (-> & Hds' & Hr2). destruct ds' as [|d' ds']; [done|].
  destruct r2 as [|c r2]; [done|]. destruct (decide (c = "}"%char)) as [->|]; [|by repeat case_match]. intros [= <- <- <-].
  eexists. split; [done|]. rewrite runs_digits by done. rewrite runs_cons. cbn [andb]. split; [by rewrite runs_digits|].
  exists ((d :: ds) ++ ","%char :: (d' :: ds') ++ ["}"%char]). cbn. rewrite <- app_assoc. cbn. by rewrite <- app_assoc.
Qed.

(** A loop ends if every round makes something smaller. *)
Lemma until_none_ends (step : chars → option (result chars)) (measure : chars → nat) :
  (∀ e e', step e = Some (Ok e') → (measure e' < measure e)%nat) →
  ∀ fuel e, (measure e < fuel)%nat → until_none step fuel e ≠ None.
Proof.
  intros Hstep. induction fuel as [|fuel IH]; intros e He; [lia|]. cbn [until_none]. destruct (step e) as [[e'|]|] eqn:E; [|done..].
  cbn [of_result then_]. apply IH. pose proof (Hstep _ _ E). lia.
Qed.
Lemma loop_ends step (measure : chars → nat) e :
  (∀ e e', step e = Some (Ok e') → (measure e' < measure e)%nat) → (∀ e, (measure e ≤ length e)%nat) → loop step e ≠ None.
Proof. intros Hstep He. unfold loop. eapply until_none_ends; [exact Hstep|]. pose proof (He e). lia. Qed.

(** How many characters of a kind there are. *)
Definition how_many (p : ascii → bool) (l : chars) : nat := length (List.filter p l).
Lemma how_many_app p a b : how_many p (a ++ b) = (how_many p a + how_many p b)%nat.
Proof. unfold how_many. by rewrite List.filter_app, length_app. Qed.
Lemma how_many_cons p c l : how_many p (c :: l) = ((if p c then 1 else 0) + how_many p l)%nat.
Proof. unfold how_many. cbn. by destruct (p c). Qed.
Lemma how_many_suffix p a b : a `suffix_of` b → (how_many p a ≤ how_many p b)%nat.
Proof. intros [k ->]. rewrite how_many_app. lia. Qed.
Lemma how_many_times p n c : p c = false → how_many p (times n c) = 0%nat.
Proof. intros Hc. unfold times. induction (Z.to_nat n) as [|k IH]; [done|]. cbn [repeat]. by rewrite how_many_cons, Hc. Qed.
Lemma how_many_length p l : (how_many p l ≤ length l)%nat.
Proof. induction l as [|c l IH]; [done|]. rewrite how_many_cons. cbn. destruct (p c); lia. Qed.

(** Runs of digits and single quantifiers: every atom that is expanded uses one. *)
Definition symbol (c : ascii) : bool := one_of "?*+" c.
Lemma runs_length l : (runs l + how_many symbol l ≤ length l)%nat.
Proof.
  induction l as [|c l IH]; [done|]. rewrite runs_cons, how_many_cons. cbn [length].
  assert (is_digit c && symbol c = false) as Hc by (destruct c as [[] [] [] [] [] [] [] []]; vm_compute; reflexivity).
  destruct (is_digit c), (symbol c), (starts_digit l false); cbn [andb negb] in *; first [discriminate | lia].
Qed.
Lemma quantified_spec l q r : quantified l = Some (q, r) →
  ∃ c t, l = c :: t ∧ is_digit c = false ∧ r `suffix_of` t ∧
    ((runs r < runs t)%nat ∨ symbol c = true ∧ r = t).
Proof.
  unfold quantified. destruct (at_least l) as [[[n m] r']|] eqn:Ea.
  - intros [= <- <-]. apply at_least_spec in Ea as (t & -> & Ht & Hs). exists "{"%char, t. split_and!; [done..|]. left. lia.
  - destruct (exactly l) as [[n r']|] eqn:Ee.
    + intros [= <- <-]. apply exactly_spec in Ee as (t & -> & Ht & Hs). exists "{"%char, t. split_and!; [done..|]. left. lia.
    + destruct l as [|c t]; [done|]. destruct (one_of "?*+" c) eqn:Hc; [|done]. intros [= <- <-]. exists c, t.
      split_and!; [done| |done|by right]. destruct c as [[] [] [] [] [] [] [] []]; done.
Qed.

Lemma expand_atom_shrinks e e' : expand_atom e = Some (Ok e') → (runs e' + how_many symbol e' < runs e + how_many symbol e)%nat.
Proof.
  unfold expand_atom. destruct (find atom_at e) as [[b [[c q] r]]|] eqn:E; [|done]. cbn [mbind option_bind]. generalize (nu (Some q)) as k. intros k [= <-].
  apply find_spec in E as (l & -> & Hl). unfold atom_at in Hl. destruct l as [|c' l]; [done|]. destruct (atom c') eqn:Hc; [|done].
  destruct (quantified l) as [[q' r']|] eqn:Hq; [|done]. cbn in Hl. destruct (_ || _); [done|]. injection Hl as -> -> ->.
  apply quantified_spec in Hq as (d & t & -> & Hd & Hs & Ht). rewrite !how_many_app, !how_many_cons, how_many_times.
  2:{ destruct c as [[] [] [] [] [] [] [] []]; done. }
  pose proof (how_many_suffix symbol _ _ Hs).
  destruct Ht as [Ht|[Hsym ->]].
  - pose proof (runs_replace b c d t r k Hd ltac:(lia)). lia.
  - rewrite Hsym. pose proof (runs_replace b c d t t k Hd ltac:(lia)). lia.
Qed.
Lemma expand_range_shrinks e e' : expand_range e = Some (Ok e') → (runs e' < runs e)%nat.
Proof.
  unfold expand_range. destruct (find range_at e) as [[b [[c [n m]] r]]|] eqn:E; [|done]. cbn [mbind option_bind]. destruct (m <? n); [done|]. intros [= <-].
  apply find_spec in E as (l & -> & Hl). unfold range_at in Hl. destruct l as [|c' l]; [done|]. destruct (no_newline c'); [|done].
  destruct (at_least l) as [[[n' m'] r']|] eqn:Hq; [|done]. cbn in Hl. injection Hl as -> -> -> ->.
  apply at_least_spec in Hq as (t & -> & Ht & _). pose proof (runs_replace b c "{" t r (tu n m) eq_refl ltac:(lia)). lia.
Qed.
Lemma expand_exact_shrinks e e' : expand_exact e = Some (Ok e') → (runs e' < runs e)%nat.
Proof.
  unfold expand_exact. destruct (find exact_at e) as [[b [[c n] r]]|] eqn:E; [|done]. cbn. intros [= <-].
  apply find_spec in E as (l & -> & Hl). unfold exact_at in Hl. destruct l as [|c' l]; [done|]. destruct (no_newline c'); [|done].
  destruct (exactly l) as [[n' r']|] eqn:Hq; [|done]. cbn in Hl. injection Hl as -> -> ->.
  apply exactly_spec in Hq as (t & -> & Ht & _). pose proof (runs_replace b c "{" t r n eq_refl ltac:(lia)). lia.
Qed.

(** A class uses its closing bracket, and gives none. *)
Definition closing (c : ascii) : bool := Ascii.eqb c "]".
(** Codes of characters; that of the closing bracket comes right after the one before
    it. *)
Fixpoint plain_codes (before : Z) (f : list Z) : Prop :=
  match f with [] => True | x :: f => (0 <= x < 256 ∧ (x = 93 → before = 92)) ∧ plain_codes x f end.
Lemma plain_codes_app p f g : plain_codes p f → (∀ q, plain_codes q g) → plain_codes p (f ++ g).
Proof. revert p. induction f as [|x f IH]; intros p; cbn; [auto|]. intros [Hx Hf] Hg. split; [done|auto]. Qed.
Lemma plain_codes_single p x : 0 <= x < 256 → x ≠ 93 → plain_codes p [x].
Proof. intros Hx Hn. cbn. split; [split; [done|lia]|done]. Qed.
Lemma code_range c : 0 <= code c < 256.
Proof. unfold code, char_code. pose proof (N_ascii_bounded c). lia. Qed.

Lemma plain_codes_range a b p : a ≠ 93 → 0 <= a → b < 256 → plain_codes p (codes_from a b).
Proof.
  intros Ha H0 Hb. unfold codes_from.
  assert (∀ n k p, (k = 0%nat → a ≠ 93) → (k ≠ 0%nat → p = a + Z.of_nat k - 1) → a + Z.of_nat (k + n) <= 256 →
    plain_codes p ((λ i, a + Z.of_nat i) <$> seq k n)) as H.
  { induction n as [|n IH]; intros k q Hk Hq Hn; [done|]. cbn. split.
    - split; [lia|]. intros E. destruct (decide (k = 0%nat)) as [->|Hk0]; [specialize (Hk eq_refl); lia|]. specialize (Hq Hk0). lia.
    - apply IH; [lia|lia|lia]. }
  destruct (decide (a <= b)); [|by replace (Z.to_nat (b - a + 1)) with 0%nat by lia]. apply H; [done|done|]. lia.
Qed.
Lemma plain_codes_remove t p f : t ≠ 92 → plain_codes p f → plain_codes p (remove_first t f).
Proof.
  intros Ht. revert p. induction f as [|x f IH]; intros p; cbn [remove_first plain_codes]; [done|]. intros [Hx Hf].
  destruct (Z.eqb_spec x t) as [->|Hxt]; [|cbn; auto]. destruct f as [|y f]; [done|]. cbn in *. destruct Hf as [[Hy Hb] Hf].
  split; [split; [done|]|done]. intros E. by specialize (Hb E).
Qed.
Lemma plain_codes_negate p f : plain_codes p f → plain_codes p (negate f).
Proof.
  unfold negate. assert (Forall (λ t, t ≠ 92 ∧ t ≠ 93 ∧ 0 <= t < 256) (codes_from 48 57 ++ codes_from 65 90 ++ codes_from 97 122)) as H.
  { apply (bool_decide_unpack _). vm_compute. exact I. }
  revert f. induction H as [|t l (H1 & H2 & H3) _ IH]; intros f Hf; [done|]. cbn [foldl]. apply IH. unfold toggle.
  destruct (existsb _ f); [by apply plain_codes_remove|]. apply plain_codes_app; [done|]. intros q. by apply plain_codes_single.
Qed.
Lemma piece_spec l : match piece_at l with
  | Some (Single c) => code c ≠ 93 | Some (Range a _) => code a ≠ 93 | None => True end.
Proof.
  unfold piece_at. destruct l as [|a r]; [done|].
  assert (is_word a || punctuation a = true → code a ≠ 93) as Ha by (destruct a as [[] [] [] [] [] [] [] []]; vm_compute; congruence).
  assert (∀ b, is_digit a && is_digit b || is_word a && is_word b = true → code a ≠ 93) as Hr.
  { intros b [[H _]%andb_true_iff|[H _]%andb_true_iff]%orb_true_iff; apply Ha.
    - destruct a as [[] [] [] [] [] [] [] []]; vm_compute in H |- *; congruence.
    - by rewrite H. }
  assert (match (if is_word a || punctuation a then Some (Single a) else None) with
    | Some (Single c) => code c ≠ 93 | Some (Range a _) => code a ≠ 93 | None => True end) as Hs.
  { destruct (is_word a || punctuation a) eqn:E; [by apply Ha|done]. }
  destruct r as [|x [|b r]]; [exact Hs|by destruct x as [[] [] [] [] [] [] [] []]|].
  destruct (decide (x = "-"%char)) as [->|Hx]; [|by destruct x as [[] [] [] [] [] [] [] []]].
  cbn zeta. destruct (is_digit a && is_digit b || is_word a && is_word b) eqn:E; [by apply (Hr b)|done].
Qed.
Lemma codes_plain fuel h f g p : plain_codes p f → codes fuel h f = Ok g → plain_codes p g.
Proof.
  revert h f. induction fuel as [|fuel IH]; intros h f Hf; cbn [codes]; [by intros [= <-]|].
  destruct (find piece_at h) as [[b [c|a c]]|] eqn:E; [| |by intros [= <-]]; apply find_spec in E as (l & _ & Hl);
    pose proof (piece_spec l) as Hp; rewrite Hl in Hp.
  - apply IH. destruct (Ascii.eqb c "-"); [done|]. apply plain_codes_app; [done|]. intros q. apply plain_codes_single; [apply code_range|done].
  - destruct (code c <? code a); [done|]. apply IH. apply plain_codes_app; [done|]. intros q.
    apply plain_codes_range; [done|apply code_range|apply code_range].
Qed.
Lemma class_char_plain a f : class_codes a = Ok f → closing (class_char f) = false.
Proof.
  unfold class_codes. destruct (codes _ _ _) as [g|] eqn:E; [|done]. cbn. intros [= <-].
  assert (plain_codes 0 (if negated a then negate g else g)) as H.
  { apply (codes_plain _ _ _ _ 0) in E; [|destruct (dash a); cbn; lia]. destruct (negated a); [by apply plain_codes_negate|done]. }
  destruct (if negated a then negate g else g) as [|x l]; [done|]. destruct H as [[Hx Hb] _]. unfold class_char, tu, closing. cbn.
  apply Ascii.eqb_neq. intros Hc. apply (f_equal N_of_ascii) in Hc. change (N_of_ascii (ascii_of_N (Z.to_N x)) = 93%N) in Hc.
  rewrite N_ascii_embedding in Hc by (change 256%N with (Z.to_N 256); apply Z2N.inj_lt; lia).
  assert (x = 93) as E2 by (apply Z2N.inj; [lia..|exact Hc]). by specialize (Hb E2).
Qed.

Lemma up_to_bracket_spec l b r : up_to_bracket l = Some (b, r) → l = b ++ "]"%char :: r.
Proof.
  revert b. induction l as [|c l IH]; intros b; cbn [up_to_bracket]; [done|]. destruct (no_newline c); [|done].
  assert (('(b, r) ← up_to_bracket l; Some (c :: b, r)) = Some (b, r) → c :: l = b ++ "]"%char :: r) as Hl.
  { destruct (up_to_bracket l) as [[b' r']|]; [|done]. cbn. intros [= <- ->]. by rewrite (IH b' eq_refl). }
  destruct l as [|x l]; [exact Hl|]. destruct (decide (x = "]"%char)) as [->|]; [by intros [= <- <-]|].
  by destruct x as [[] [] [] [] [] [] [] []].
Qed.
Lemma first_some_spec {A B} (f : A → option B) l b : first_some f l = Some b → ∃ a, a ∈ l ∧ f a = Some b.
Proof. unfold first_some. intros H%head_Some_elem_of. apply list_elem_of_omap in H as (a & Ha & Hf). by exists a. Qed.
Lemma optional_suffix c l b r : (b, r) ∈ optional c l → r `suffix_of` l.
Proof.
  unfold optional. destruct l as [|x l]; [|destruct (Ascii.eqb x c)].
  - by intros [= _ ->]%list_elem_of_singleton.
  - intros [[= _ ->]|[= _ ->]%list_elem_of_singleton]%elem_of_cons; [by apply suffix_cons_r|done].
  - by intros [= _ ->]%list_elem_of_singleton.
Qed.
Lemma class_at_spec l a r : class_at l = Some (a, r) → (how_many closing r < how_many closing l)%nat.
Proof.
  unfold class_at. destruct l as [|c l]; [done|]. destruct (decide (c = "["%char)) as [->|]; [|by destruct c as [[] [] [] [] [] [] [] []]].
  intros ([neg l1] & Hs1%optional_suffix & ([d l2] & Hs2%optional_suffix & Hr)%first_some_spec)%first_some_spec.
  destruct (up_to_bracket l2) as [[b r']|] eqn:E; [|done]. apply up_to_bracket_spec in E as ->. cbn in Hr.
  assert (how_many closing r ≤ how_many closing r')%nat.
  { destruct (quantified r') as [[q r2]|] eqn:Hq; injection Hr as _ <-; [|done]. apply quantified_spec in Hq as (x & t & -> & _ & Ht & _).
    apply how_many_suffix. by apply suffix_cons_r. }
  pose proof (how_many_suffix closing _ _ Hs1). pose proof (how_many_suffix closing _ _ Hs2) as H2.
  rewrite how_many_app, how_many_cons in H2. rewrite how_many_cons. cbn in *. lia.
Qed.
Lemma expand_class_shrinks e e' : expand_class e = Some (Ok e') → (how_many closing e' < how_many closing e)%nat.
Proof.
  unfold expand_class. destruct (find class_at e) as [[b [a r]]|] eqn:E; [|done]. cbn [mbind option_bind].
  destruct (class_codes a) as [f|] eqn:Hf; [|done]. cbn [mbind result_bind]. generalize (nu (count a)) as k. intros k [= <-].
  apply find_spec in E as (l & -> & Hl). apply class_at_spec in Hl. rewrite !how_many_app, how_many_times; [lia|].
  by eapply class_char_plain.
Qed.

Lemma loops_end e : sample_chars e ≠ None.
Proof.
  assert (∀ (m : out chars) k, m ≠ None → (∀ a, k a ≠ None) → then_ m k ≠ (None : out chars)) as Hthen by (intros [[]|]; naive_solver).
  unfold sample_chars. apply Hthen; [|intros ?; apply Hthen; [|intros ?; apply Hthen; [|intros ?]]].
  - apply (loop_ends expand_atom (λ e, runs e + how_many symbol e)%nat); [apply expand_atom_shrinks|apply runs_length].
  - apply (loop_ends expand_class (how_many closing)); [apply expand_class_shrinks|apply how_many_length].
  - apply (loop_ends expand_range runs); [apply expand_range_shrinks|]. intros l. pose proof (runs_length l). lia.
  - apply (loop_ends expand_exact runs); [apply expand_exact_shrinks|]. intros l. pose proof (runs_length l). lia.
Qed.
(** The sample of every pattern is there, a text or an error. *)
Lemma pattern_ends v : sample_pattern v ≠ None.
Proof. destruct v; try done. cbn. pose proof (loops_end (list_ascii_of_string s)). by destruct (sample_chars _) as [[]|]. Qed.

(** ** Patterns of characters with quantifiers *)

(** A letter or digit, with what stands after it. *)
Inductive suffix := Once | Sign (c : ascii) | Exact (n : chars) | Between (n m : chars).
#[export] Instance suffix_eq_dec : EqDecision suffix := ltac:(solve_decision).
Record item := { char : ascii; often : suffix }.
Definition print_suffix (s : suffix) : chars :=
  match s with
  | Once => []
  | Sign c => [c]
  | Exact n => "{"%char :: n ++ ["}"%char]
  | Between n m => "{"%char :: n ++ ","%char :: m ++ ["}"%char]
  end.
Definition print_items (l : list item) : chars := concat ((λ i, char i :: print_suffix (often i)) <$> l).
(** How often it may stand in a text of the pattern. *)
Definition least_often (s : suffix) : Z :=
  match s with Once => 1 | Sign c => if Ascii.eqb c "+" then 1 else 0 | Exact n => parseInt n | Between n _ => parseInt n end.
Definition most_often (s : suffix) : option Z :=
  match s with
  | Once => Some 1
  | Sign c => if Ascii.eqb c "?" then Some 1 else None
  | Exact n => Some (parseInt n)
  | Between _ m => Some (parseInt m)
  end.
Definition allowed (n : nat) (s : suffix) : Prop := least_often s <= Z.of_nat n ∧ from_option (λ m, Z.of_nat n <= m) True (most_often s).
(** The texts of a pattern. *)
Definition matches (l : list item) (t : chars) : Prop :=
  ∃ ns, Forall2 (λ i n, allowed n (often i)) l ns ∧ t = concat (zip_with (λ i n, repeat (char i) n) l ns).

Definition number_text (n : chars) : bool := match n with [] => false | n => forallb is_digit n end.
Definition item_ok (i : item) : bool :=
  is_alnum (char i) &&
  match often i with
  | Once => true
  | Sign c => one_of "?*+" c
  | Exact n => number_text n
  | Between n m => number_text n && number_text m && (parseInt n <=? parseInt m)
  end.

Lemma number_text_ok n : number_text n = true → n ≠ [] ∧ Forall (λ c, is_digit c = true) n.
Proof. destruct n as [|c n]; [done|]. intros H. split; [done|]. apply Forall_forall. intros x Hx. unfold number_text in H. rewrite forallb_forall in H. by apply H, list_elem_of_In. Qed.
Lemma take_digits_app n r : Forall (λ c, is_digit c = true) n → starts_digit r false = false → take_digits (n ++ r) = (n, r).
Proof.
  intros Hn Hr. induction Hn as [|c n Hc Hn IH]; [|cbn; by rewrite Hc, IH].
  destruct r as [|c r]; [done|]. cbn in *. by rewrite Hr.
Qed.
Lemma parseInt_pos n : Forall (λ c, is_digit c = true) n → 0 <= parseInt n.
Proof.
  unfold parseInt. assert (∀ a, 0 <= a → Forall (λ c, is_digit c = true) n → 0 <= foldl (λ a c, a * 10 + (code c - 48)) a n) as H; [|auto with lia].
  induction n as [|c n IH]; intros a Ha Hn; [done|]. inversion Hn as [|? ? Hc Hn']; subst. cbn [foldl]. apply IH; [|done].
  unfold is_digit in Hc. unfold code. apply andb_true_iff in Hc as [Hc%N.leb_le _]. lia.
Qed.

Lemma sign_cases c : one_of "?*+" c = true → (c = "?" ∨ c = "*" ∨ c = "+")%char.
Proof. unfold one_of. cbn. rewrite !orb_true_iff, !bool_decide_eq_true. naive_solver. Qed.
Lemma item_quantified i r :
  item_ok i = true → often i ≠ Once → ∃ q, quantified (print_suffix (often i) ++ r) = Some (q, r) ∧ nu (Some q) = least_often (often i).
Proof.
  unfold item_ok. intros [_ H]%andb_true_iff Hn. destruct (often i) as [|c|n|n m]; [done| | |].
  - exists (Symbol c). by apply sign_cases in H as [-> |[-> | ->]].
  - apply number_text_ok in H as [Hn' Hd]. exists (Count (parseInt n) None). split; [|done]. cbn [print_suffix app]. rewrite <- app_assoc.
    unfold quantified, at_least, exactly. rewrite take_digits_app by done. by destruct n.
  - apply andb_true_iff in H as [[[Hn1 Hd1]%number_text_ok [Hn2 Hd2]%number_text_ok]%andb_true_iff _].
    exists (Count (parseInt n) (Some (parseInt m))). split; [|done]. cbn [print_suffix app]. rewrite <- app_assoc. cbn [app]. rewrite <- app_assoc.
    unfold quantified, at_least. rewrite take_digits_app by done. destruct n as [|d n]; [done|]. cbn [app]. rewrite take_digits_app by done. by destruct m.
Qed.

Lemma alnum_plain c : is_alnum c = true →
  ∀ x, x ∈ ["["; "]"; "{"; "}"; "?"; "*"; "+"]%char → Ascii.eqb c x = false.
Proof.
  intros Hc x Hx. apply Ascii.eqb_neq. intros ->. apply (bool_decide_pack _) in Hx.
  destruct x as [[] [] [] [] [] [] [] []]; vm_compute in Hc, Hx; done.
Qed.
Lemma closes_skip o x p l : Forall (λ c, Ascii.eqb c o = false ∧ Ascii.eqb c x = false) p → closes o x (p ++ l) = closes o x l.
Proof. intros H. induction H as [|c p [Ho Hx] _ IH]; [done|]. cbn. by rewrite Ho, Hx. Qed.
Lemma digit_alnum d : is_digit d = true → is_alnum d = true.
Proof. destruct d as [[] [] [] [] [] [] [] []]; vm_compute; congruence. Qed.
Lemma digits_no_bracket n : number_text n = true → Forall (λ c, Ascii.eqb c "[" = false ∧ Ascii.eqb c "]" = false) n.
Proof.
  intros [_ H]%number_text_ok. eapply Forall_impl; [exact H|]. intros c Hc%digit_alnum.
  split; apply alnum_plain; [done| |done|]; apply (bool_decide_unpack _); exact I.
Qed.
Lemma items_closed l : forallb item_ok l = true → closes "{" "}" (print_items l) = false ∧ closes "[" "]" (print_items l) = false.
Proof.
  induction l as [|i l IH]; [done|]. cbn [forallb]. intros [[Hc Hs]%andb_true_iff Hl]%andb_true_iff. specialize (IH Hl).
  change (print_items (i :: l)) with (char i :: print_suffix (often i) ++ print_items l). cbn [closes].
  rewrite !(alnum_plain _ Hc) by (apply (bool_decide_unpack _); exact I). split.
  - destruct (often i) as [|c|n|n m]; [apply IH| |done..]. apply sign_cases in Hs. cbn. destruct Hs as [-> |[-> | ->]]; apply IH.
  - rewrite closes_skip; [apply IH|]. destruct (often i) as [|c|n|n m]; cbn [print_suffix].
    + constructor.
    + apply sign_cases in Hs. destruct Hs as [-> |[-> | ->]]; by repeat constructor.
    + constructor; [done|]. apply Forall_app. split; [by apply digits_no_bracket|]. by repeat constructor.
    + apply andb_true_iff in Hs as [[H1 H2]%andb_true_iff _]. constructor; [done|].
      apply Forall_app. split; [by apply digits_no_bracket|]. constructor; [done|].
      apply Forall_app. split; [by apply digits_no_bracket|]. by repeat constructor.
Qed.

(** Plain characters are passed over, if nothing matches at them. *)
Definition plain (b : chars) : Prop := Forall (λ c, is_alnum c = true) b.
Lemma find_plain {A} (m : chars → option A) b l :
  (∀ p c r, b = p ++ c :: r → m (c :: r ++ l) = None) → find m (b ++ l) = ('(p, x) ← find m l; Some (b ++ p, x)).
Proof.
  induction b as [|c b IH]; intros H; cbn [app].
  - by destruct (find m l) as [[]|].
  - cbn [find]. rewrite (H [] c b eq_refl). rewrite IH; [|intros p d r ->; by apply (H (c :: p))].
    by destruct (find m l) as [[]|].
Qed.
(** What plain text, or no text, starts with. *)
Definition plain_start (l : chars) : Prop := match l with c :: _ => is_alnum c = true | [] => True end.
Lemma no_quantifier l : plain_start l → quantified l = None.
Proof.
  destruct l as [|c l]; [done|]. cbn. intros Hc. unfold quantified, at_least, exactly.
  destruct c as [[] [] [] [] [] [] [] []]; try discriminate; reflexivity.
Qed.
Lemma no_atom c l : plain_start l → atom_at (c :: l) = None.
Proof. intros Hl. unfold atom_at. destruct (atom c); [|done]. by rewrite no_quantifier. Qed.
Lemma plain_start_app b l : plain b → plain_start l → plain_start (b ++ l).
Proof. intros Hb Hl. by destruct Hb. Qed.
Lemma find_atom b l : plain b → plain_start l → find atom_at (b ++ l) = ('(p, x) ← find atom_at l; Some (b ++ p, x)).
Proof.
  intros Hb Hl. apply find_plain. intros p c r ->. apply Forall_app in Hb as [_ [_ Hb]%Forall_cons]. by apply no_atom, plain_start_app.
Qed.
Lemma items_start l : forallb item_ok l = true → plain_start (print_items l).
Proof. destruct l as [|i l]; [done|]. cbn [forallb]. intros [[Hc _]%andb_true_iff _]%andb_true_iff. exact Hc. Qed.

(** What the first loop makes of a pattern. *)
Definition sample_items (l : list item) : chars := concat ((λ i, times (least_often (often i)) (char i)) <$> l).
Lemma atoms_expanded l b fuel :
  forallb item_ok l = true → plain b → (length l < fuel)%nat →
  until_none expand_atom fuel (b ++ print_items l) = done (b ++ sample_items l).
Proof.
  revert b fuel. induction l as [|i l IH]; intros b fuel Hl Hb Hf; (destruct fuel as [|fuel]; [cbn in Hf; lia|]).
  - cbn [until_none]. unfold expand_atom. by rewrite find_atom.
  - pose proof Hl as [Hi Hl']%andb_true_iff. pose proof Hi as [Hc _]%andb_true_iff.
    change (print_items (i :: l)) with (char i :: print_suffix (often i) ++ print_items l).
    change (sample_items (i :: l)) with (times (least_often (often i)) (char i) ++ sample_items l).
    destruct (decide (often i = Once)) as [E|Hn].
    + rewrite E. cbn [print_suffix app]. rewrite (cons_middle _ b (print_items l)), (app_assoc b), (app_assoc b).
      apply (IH (b ++ times 1 (char i)) (S fuel)); [done| |cbn in Hf; lia]. apply Forall_app. split; [done|]. by constructor.
    + destruct (item_quantified i (print_items l) Hi Hn) as (q & Hq & Hnu). destruct (items_closed l Hl') as [H1 H2].
      assert (atom_at (char i :: print_suffix (often i) ++ print_items l) = Some (char i, q, print_items l)) as Ha.
      { unfold atom_at. unfold atom. rewrite Hc. cbn [orb]. rewrite Hq. cbn. by rewrite H1, H2. }
      cbn [until_none]. unfold expand_atom. rewrite find_atom by done.
      change (find atom_at (char i :: ?l)) with (match atom_at (char i :: l) with Some x => Some ([], x) | None => '(b, x) ← find atom_at l; Some (char i :: b, x) end).
      rewrite Ha. cbn [mbind option_bind of_result then_]. rewrite app_nil_r, Hnu, !app_assoc.
      apply IH; [done| |cbn in Hf; lia]. apply Forall_app. split; [done|]. unfold times.
      induction (Z.to_nat _); [constructor|by constructor].
Qed.

Lemma find_nowhere {A} (m : chars → option A) e : m [] = None → (∀ c r, is_alnum c = true → plain r → m (c :: r) = None) → plain e → find m e = None.
Proof.
  intros H0 Hc He. induction He as [|c e Ha He IH]; cbn [find]; [by rewrite H0|]. by rewrite Hc, IH.
Qed.
Lemma loop_still step e : step e = None → loop step e = done e.
Proof. intros H. unfold loop. cbn. by rewrite H. Qed.
Lemma plain_still e : plain e → expand_class e = None ∧ expand_range e = None ∧ expand_exact e = None.
Proof.
  intros He. unfold expand_class, expand_range, expand_exact. rewrite !find_nowhere; try done.
  - intros c r _ Hr. unfold exact_at. destruct (no_newline c); [|done]. unfold exactly. destruct Hr as [|d r Hd _]; [done|].
    destruct d as [[] [] [] [] [] [] [] []]; try discriminate; reflexivity.
  - intros c r _ Hr. unfold range_at. destruct (no_newline c); [|done]. unfold at_least. destruct Hr as [|d r Hd _]; [done|].
    destruct d as [[] [] [] [] [] [] [] []]; try discriminate; reflexivity.
  - intros c r Hc _. destruct c as [[] [] [] [] [] [] [] []]; try discriminate; reflexivity.
Qed.
Lemma samples_plain l : forallb item_ok l = true → plain (sample_items l).
Proof.
  induction l as [|i l IH]; [constructor|]. cbn [forallb]. intros [[Hc _]%andb_true_iff Hl]%andb_true_iff.
  change (sample_items (i :: l)) with (times (least_often (often i)) (char i) ++ sample_items l). apply Forall_app. split; [|by apply IH].
  unfold times. induction (Z.to_nat _); [constructor|by constructor].
Qed.
Lemma items_length l : (length l ≤ length (print_items l))%nat.
Proof. induction l as [|i l IH]; [done|]. change (print_items (i :: l)) with (char i :: print_suffix (often i) ++ print_items l). cbn. rewrite length_app. lia. Qed.
Lemma sample_matches l : forallb item_ok l = true → matches l (sample_items l).
Proof.
  induction l as [|i l IH]; [by exists []|]. cbn [forallb]. intros [Hi Hl]%andb_true_iff. destruct (IH Hl) as (ns & Hns & Ht).
  exists (Z.to_nat (least_often (often i)) :: ns). split; [|unfold sample_items; cbn; by rewrite <- Ht].
  constructor; [|done]. apply andb_true_iff in Hi as [_ Hs]. unfold allowed.
  assert (∀ n, number_text n = true → 0 <= parseInt n) as Hpos by (intros n [_ Hn]%number_text_ok; by apply parseInt_pos).
  destruct (often i) as [|c|n|n m]; cbn [least_often most_often from_option].
  - done.
  - by apply sign_cases in Hs as [-> |[-> | ->]].
  - specialize (Hpos n Hs). split; cbn; lia.
  - apply andb_true_iff in Hs as [[Hn Hm]%andb_true_iff Hnm%Z.leb_le]. specialize (Hpos n Hn). split; cbn; lia.
Qed.

Lemma repeat_sublist (c : ascii) n m : (n ≤ m)%nat → repeat c n `sublist_of` repeat c m.
Proof. intros H. replace m with (n + (m - n))%nat by lia. rewrite repeat_app. by apply sublist_inserts_r. Qed.
(** No text of the pattern has less. *)
Lemma sample_least l t : matches l t → sample_items l `sublist_of` t.
Proof.
  intros (ns & Hns & ->). induction Hns as [|i n l ns [Hn _] _ IH]; [done|].
  change (sample_items (i :: l)) with (times (least_often (often i)) (char i) ++ sample_items l). cbn [zip_with concat].
  apply sublist_app; [|exact IH]. apply repeat_sublist. lia.
Qed.

(** C26: A pattern of letters and digits, each alone or with one of the quantifiers ?, *, +,
    {n} and {n,m}, n no more than m, has a sample: every character stands in it as often as its
    quantifier demands at least, in the order of the pattern. So the sample is a text of
    the pattern, and what is in it is, in order, in every text of the pattern. The
    quantifier {n,} is not among these, the code does not read it. *)
Theorem sample_of_items l :
  forallb item_ok l = true →
  ∃ t, sample_pattern (JsStr (string_of_list_ascii (print_items l))) = done (string_of_list_ascii t) ∧
    t = concat ((λ i, repeat (char i) (Z.to_nat (least_often (often i)))) <$> l) ∧ matches l t ∧ ∀ t', matches l t' → t `sublist_of` t'.
Proof.
  intros Hl. exists (sample_items l). split; [|split; [done|split; [by apply sample_matches|apply sample_least]]]. cbn [sample_pattern].
  rewrite list_ascii_of_string_of_list_ascii. unfold sample_chars, loop at 1.
  rewrite (atoms_expanded l []); [|done|by constructor|pose proof (items_length l); lia]. cbn [then_ done app].
  destruct (plain_still (sample_items l)) as (H1 & H2 & H3); [by apply samples_plain|].
  by do 3 (rewrite loop_still by done; cbn [then_ done]).
Qed.
Lemma sample_of_items_witness :
  let l := [{| char := "a"; often := Exact ["2"] |}; {| char := "b"; often := Between ["1"] ["3"] |};
            {| char := "7"; often := Sign "+" |}; {| char := "c"; often := Once |}; {| char := "d"; often := Sign "*" |}]%char in
  string_of_list_ascii (print_items l) = "a{2}b{1,3}7+cd*"%string ∧ sampled "a{2}b{1,3}7+cd*" = Some "aab7c"%string ∧
  ∃ t, sample_pattern (JsStr (string_of_list_ascii (print_items l))) = done (string_of_list_ascii t) ∧
    t = concat ((λ i, repeat (char i) (Z.to_nat (least_often (often i)))) <$> l) ∧ matches l t ∧ ∀ t', matches l t' → t `sublist_of` t'.
Proof.
  intros l. split; [reflexivity|]. split; [vm_compute; reflexivity|]. apply sample_of_items. reflexivity.
Defined.

(** What the code does not read: a least number without a greatest, punctuation in a negated
    class, a character twice in one, groups, and escapes. The samples are no texts of these
    patterns. *)
Lemma patterns_misread : sampled <$> ["a{2,}"; "[^_]{2}"; "[^aa]"; "(ab){2}"; "\d{3}"]%string = Some <$> ["a{2,}"; "__"; "a"; "(ab))"; "\ddd"]%string.
Proof. vm_compute. reflexivity. Qed.
