(* ===== verification/Sampler.v ===== *)
(** * Samples of schemas

    How the documentation viewer makes an example of a schema (the functions [Vc] to
    [lu] of redoc.standalone.js, a sampler for OpenAPI): what the schema gives itself,
    members of allOf, oneOf, anyOf and if, references, and a sampler for every type.
    Two variables are kept between calls: the references in use, and the schemas being
    sampled, which are told apart as objects. So a value knows its place in the
    document here ([node]); objects made on the way have none. Names in brackets are
    those of the bundle. *)

From S2P Require Import Prelude PyData JsNumber JsData JsonPointer OpenApi SpecParser AllOf Patterns.
Local Open Scope Z_scope.

(** ** Values with identity *)

(** The keys that lead to a value in the document. *)
Definition place : Type := list string.
(** A value without keys, or an object or array with its entries: an array may have
    keys that are no index, when one is merged into it, and may lack an index. *)
Unset Elimination Schemes.
Inductive node := Leaf (v : jsval) | Tree (array : bool) (home : option place) (l : list (string * node)).
Set Elimination Schemes.

Definition entries : Type := list (string * node).
Definition undef : node := Leaf JsUndef.
Definition null : node := Leaf JsNull.
Definition fresh (l : entries) : node := Tree false None l.

(** A part of the document. *)
Fixpoint from_doc (p : place) (v : jsval) : node :=
  match v with
  | JsArr l => Tree true (Some p) ((fix go (i : nat) (l : list jsval) : entries :=
      match l with [] => [] | v :: l => (pretty (Z.of_nat i), from_doc (p ++ [pretty (Z.of_nat i)]) v) :: go (S i) l end) 0%nat l)
  | JsObj l => Tree false (Some p) ((fix go (l : list (string * jsval)) : entries :=
      match l with [] => [] | (k, v) :: l => (k, from_doc (p ++ [k]) v) :: go l end) l)
  | v => Leaf v
  end.

(** The index a key is, below 2^32 - 1, and the length of an array with such keys. *)
Definition index_of (k : string) : option nat :=
  match take_digits (list_ascii_of_string k) with
  | (c :: ds, []) => let n := parseInt (c :: ds) in if String.eqb (pretty n) k && (n <? 2 ^ 32 - 1) then Some (Z.to_nat n) else None
  | _ => None
  end.
Definition array_length {A} (l : list (string * A)) : nat :=
  foldr (λ '(k, _) n, match index_of k with Some i => S i `max` n | None => n end)%nat 0%nat l.
Definition elements {A} (d : A) (l : list (string * A)) : list A :=
  (λ i, default d (lookup_key (pretty (Z.of_nat i)) l)) <$> seq 0 (array_length l).
Definition indexed {A} (l : list A) : list (string * A) := imap (λ i v, (pretty (Z.of_nat i), v)) l.

(** The value alone. *)
Fixpoint value_of (e : node) : jsval :=
  match e with
  | Leaf v => v
  | Tree a _ l =>
      let l := (fix go (l : entries) : list (string * jsval) := match l with [] => [] | (k, v) :: l => (k, value_of v) :: go l end) l in
      if a then JsArr (elements JsUndef l) else JsObj l
  end.

(** [typeof e == "object"]: of null too; arrays; undefined. *)
Definition is_tree (e : node) : bool := match e with Tree _ _ _ => true | Leaf _ => false end.
Definition typeof_object (e : node) : bool := match e with Leaf JsNull => true | e => is_tree e end.
Definition isArray (e : node) : bool := match e with Tree a _ _ => a | Leaf _ => false end.
Definition is_defined (e : node) : bool := match e with Leaf v => defined v | Tree _ _ _ => true end.
Definition nullish (e : node) : bool := match e with Leaf JsUndef | Leaf JsNull => true | _ => false end.
Definition truthy (e : node) : bool := match e with Leaf v => js_truthy v | Tree _ _ _ => true end.
Definition or_node (e f : node) : node := if truthy e then e else f.

(** [e === f] and what [includes] compares with: objects by their place; one that was
    made on the way is no other object. *)
Definition identical (e f : node) : bool :=
  match e, f with
  | Leaf v, Leaf w => same v w
  | Tree _ (Some p) _, Tree _ (Some q) _ => bool_decide (p = q)
  | _, _ => false
  end.
Definition includes (e : node) (l : list node) : bool :=
  existsb (λ f, identical e f || match e, f with Leaf (JsNum x), Leaf (JsNum y) => is_nan x && is_nan y | _, _ => false end) l.

(** [e.k] where [e] is not undefined or null, and where it may be. *)
Definition sub (k : string) (e : node) : node := match e with Tree _ _ l => default undef (lookup_key k l) | Leaf _ => undef end.
Definition get_key (k : string) (e : node) : result node := if nullish e then Raise TypeError else Ok (sub k e).
(** [e.length] and [e[0]]. *)
Definition char_node (c : ascii) : node := Leaf (JsStr (String c EmptyString)).
Definition node_length (e : node) : result node :=
  match e with
  | Leaf JsUndef | Leaf JsNull => Raise TypeError
  | Leaf (JsStr s) => Ok (Leaf (JsNum (of_Z (Z.of_nat (String.length s)))))
  | Leaf _ => Ok undef
  | Tree true _ l => Ok (Leaf (JsNum (of_Z (Z.of_nat (array_length l)))))
  | Tree false _ _ => Ok (sub "length" e)
  end.
Definition first_item (e : node) : node :=
  match e with Leaf (JsStr (String c _)) => char_node c | e => sub "0" e end.
(** Own entries, and what a loop over a value goes through. *)
Definition own_entries (e : node) : entries :=
  match e with
  | Tree _ _ l => l
  | Leaf (JsStr s) => indexed (char_node <$> list_ascii_of_string s)
  | Leaf _ => []
  end.
Definition iterate (e : node) : result (list node) :=
  match e with
  | Tree true _ l => Ok (elements undef l)
  | Leaf (JsStr s) => Ok (char_node <$> list_ascii_of_string s)
  | _ => Raise TypeError
  end.
(** [{...l, ...e}] and [Object.assign]. *)
Definition put_all (l m : entries) : entries := foldl (λ l '(k, v), set_key k v l) l m.
Definition with_keys (e : node) (m : entries) : node := fresh (put_all (put_all [] (own_entries e)) m).
Definition over (l : entries) (e : node) : node := fresh (put_all l (own_entries e)).

(** ** Merging values *)

(** One value into the entries of another: objects under a key they share are merged
    into a new one, anything else replaces. *)
Fixpoint merge_into (acc : entries) (e : node) : entries :=
  match e with
  | Tree _ _ l =>
      (fix go (acc l : entries) : entries :=
         match l with
         | [] => acc
         | (k, v) :: l =>
             go (set_key k (match lookup_key k acc, v with
                            | Some (Tree _ _ i), Tree a _ _ => Tree a None (merge_into i v)
                            | _, _ => v
                            end) acc) l
         end) acc l
  | e => put_all acc (own_entries e)
  end.
(** [Vc(...e)]: an array if the last value is one. *)
Definition Vc (e : list node) : node := Tree (isArray (default undef (last e))) None (foldl merge_into [] e).

(** ** What a schema gives itself *)

Record sample := { value : node; readOnly : node; writeOnly : node; type : node }.
Definition only (v : node) : sample := {| value := v; readOnly := undef; writeOnly := undef; type := undef |}.
Definition sampled_as (e v t : node) : sample := {| value := v; readOnly := sub "readOnly" e; writeOnly := sub "writeOnly" e; type := t |}.

(** [Yc], the type a keyword is of, and [Gc(e)]. *)
Definition Yc : list (string * string) :=
  [("multipleOf", "number"); ("maximum", "number"); ("exclusiveMaximum", "number"); ("minimum", "number");
   ("exclusiveMinimum", "number"); ("maxLength", "string"); ("minLength", "string"); ("pattern", "string");
   ("items", "array"); ("maxItems", "array"); ("minItems", "array"); ("uniqueItems", "array"); ("additionalItems", "array");
   ("maxProperties", "object"); ("minProperties", "object"); ("required", "object"); ("additionalProperties", "object");
   ("properties", "object"); ("patternProperties", "object"); ("dependencies", "object")]%string.
Definition Gc (e : node) : result node :=
  t ← get_key "type" e;
  Ok (if is_defined t then
        match t with Tree true _ l => if (array_length l =? 0)%nat then null else sub "0" t | t => t end
      else match List.find (λ '(k, _), is_defined (sub k e)) Yc with Some (_, i) => Leaf (JsStr i) | None => null end).
(** [Wc(e)]: nothing more is sampled. *)
Definition Wc (e : node) : sample :=
  only (match e with
        | Leaf (JsStr s) => if String.eqb s "object" then fresh [] else if String.eqb s "array" then Tree true None [] else undef
        | _ => undef
        end).
(** [Kc(e)] and [Zc(e)]. *)
Definition first_of (k : string) (e : node) (next : result node) : result node :=
  if is_defined (sub k e) then n ← node_length (sub k e); if truthy n then Ok (first_item (sub k e)) else next else next.
Definition Kc (e : node) : result node :=
  if is_defined (sub "const" e) then Ok (sub "const" e)
  else first_of "examples" e (first_of "enum" e (Ok (sub "default" e))).
Definition Zc (e : node) : result (option sample) :=
  t ← Kc e; Ok (if is_defined t then Some (sampled_as e t null) else None).

(** ** Numbers *)

Definition nfloor (x : num) : num := SFopp (nceil (SFopp x)).
(** Operators on values: an array or object is its text. *)
Definition prim (v : jsval) : jsval := match v with JsArr _ | JsObj _ => JsStr (js_string v) | v => v end.
Definition gt (a b : jsval) : bool :=
  match prim a, prim b with JsStr s, JsStr t => String.ltb t s | a, b => nltb (js_number b) (js_number a) end.
Definition ge (a b : jsval) : bool :=
  match prim a, prim b with JsStr s, JsStr t => String.leb t s | a, b => nleb (js_number b) (js_number a) end.
Definition plus (a b : jsval) : jsval :=
  match prim a, prim b with
  | JsStr s, b => JsStr (s +:+ js_string b)
  | a, JsStr t => JsStr (js_string a +:+ t)
  | a, b => JsNum (nadd (js_number a) (js_number b))
  end.
Definition half (a : jsval) : jsval := JsNum (ndiv (js_number a) (of_Z 2)).
Definition floor_plus (a : jsval) (z : Z) : jsval := JsNum (nadd (nfloor (js_number a)) (of_Z z)).

(** [eu(e)]. *)
Definition eu (e : node) : jsval :=
  let k n := value_of (sub n e) in
  let least := k "minimum"%string in let most := k "maximum"%string in
  let above := k "exclusiveMinimum"%string in let below := k "exclusiveMaximum"%string in
  let zero := JsNum (of_Z 0) in
  let start := if is_str "number" (k "type"%string) && (is_str "float" (k "format"%string) || is_str "double" (k "format"%string))
               then JsNum (dec 1 1) else zero in
  if is_boolean above || is_boolean below then
    if js_truthy most && js_truthy least then
      let t := if js_truthy above then floor_plus least 1 else least in
      if js_truthy below && ge t most || negb (js_truthy below) && gt t most then half (plus most least) else t
    else if js_truthy least then if js_truthy above then floor_plus least 1 else least
    else if js_truthy most then
      if js_truthy below then if gt most zero then zero else floor_plus most (-1)
      else if gt most zero then zero else most
    else start
  else if js_truthy least then least
  else if js_truthy above then
    let t := floor_plus above 1 in
    if same t below then half (JsNum (nadd (nadd (js_number t) (nfloor (js_number below))) (of_Z (-1)))) else t
  else if js_truthy below then floor_plus below (-1)
  else if js_truthy most then most else start.

(** ** Strings *)

(** [s.substring(0, t)] and [s.repeat(n)]. *)
Definition up_to (t : num) (s : string) : string :=
  match t with S754_infinity false => s | t => String.substring 0 (Z.to_nat (ntrunc t)) s end.
Fixpoint repeated (n : nat) (s : string) : string := match n with O => EmptyString | S n => s +:+ repeated n s end.
Definition length_num (s : string) : num := of_Z (Z.of_nat (String.length s)).
(** [qc(e, t)]: the text again and again, up to a length. *)
Definition qc (e : string) (t : num) : result string :=
  if nltb (length_num e) t then
    match t with
    | S754_infinity _ => Raise (OtherError "Invalid count value")
    | t => Ok (up_to t (repeated (Z.to_nat (ntrunc (ndiv t (length_num e)) + 1)) e))
    end
  else Ok e.
Definition word : string := "string".
(** [iu(e, t, n, r)]: of a pattern, or of no known format. *)
Definition iu (least : num) (most : jsval) (name : option string) (pattern : jsval) : out string :=
  if js_truthy pattern then sample_pattern pattern
  else
    i ⇐ of_result (qc word least);
    done (if js_truthy most && nltb (js_number most) (length_num i) then up_to (js_number most) i else i).
Definition password (least : num) : out string :=
  let n := "pa$$word"%string in
  if nltb (length_num n) least then
    let n := n +:+ "_" in
    let rest := nsub least (length_num n) in
    x ⇐ of_result (qc "qwerty!@#$%^123456" rest); done (n +:+ up_to rest x)
  else done n.

(** [ru]: of one moment, whatever the lengths. *)
Definition two_digits (n : Z) : string := if n <? 10 then "0" +:+ pretty n else pretty n.
Definition ru (omitTime omitDate : bool) : string :=
  (if omitDate then EmptyString else pretty 2019 +:+ "-" +:+ two_digits 8 +:+ "-" +:+ two_digits 24) +:+
  (if omitTime then EmptyString else "T" +:+ two_digits 14 +:+ ":" +:+ two_digits 15 +:+ ":" +:+ two_digits 22 +:+ "Z").

(** Integers of 32 bits, signed and not. *)
Definition u32 (z : Z) : Z := z mod 2 ^ 32.
Definition i32 (z : Z) : Z := (z + 2 ^ 31) mod 2 ^ 32 - 2 ^ 31.
Definition text_hash (s : string) : Z :=
  foldl (λ t c, i32 (i32 (Z.shiftl t 5) - t + code c)) 0 (list_ascii_of_string s).
(** The generator of numbers, with its four words: the next number, as the integer
    that is divided by 2^32. *)
Record words := { w1 : Z; w2 : Z; w3 : Z; w4 : Z }.
Definition next_word (w : words) : Z * words :=
  let '{| w1 := e; w2 := t; w3 := n; w4 := r |} := w in
  let i := i32 (e - i32 (Z.lor (Z.shiftl t 27) (Z.shiftr (u32 t) 5))) in
  let e := i32 (Z.lxor t (i32 (Z.lor (Z.shiftl n 17) (Z.shiftr (u32 n) 15)))) in
  let t := i32 (n + r) in
  let n := i32 (r + i) in
  let r := i32 (e + i) in
  (u32 r, {| w1 := e; w2 := t; w3 := n; w4 := r |}).
Definition template : string := "xxxxxxxx-xxxx-4xxx-yxxx-xxxxxxxxxxxx".
(** Every x and y gives way to a digit: the first four bits of the next number. *)
Fixpoint fill (s : string) (w : words) : string :=
  match s with
  | EmptyString => EmptyString
  | String c s =>
      if Ascii.eqb c "x" || Ascii.eqb c "y" then
        let '(r, w) := next_word w in
        let t := Z.shiftr r 28 in
        String (hex_digit (if Ascii.eqb c "x" then t else Z.lor (Z.land 3 t) 8)) (fill s w)
      else String c (fill s w)
  end.
Definition uuid (name : option string) : string :=
  let n := match name with Some (String _ _ as n) => n | _ => "id"%string end in
  let r := text_hash n in fill template {| w1 := r; w2 := r; w3 := r; w4 := r |}.

(** [ou]: the formats. *)
Definition format : Type := num → jsval → option string → jsval → out string.
Definition always (s : string) : format := λ _ _ _ _, done s.
Definition ou : list (string * format) :=
  [("email", always "user@example.com"); ("idn-email", always "пошта@укр.нет"); ("password", λ least _ _ _, password least);
   ("date-time", always (ru false false)); ("date", always (ru true false)); ("time", always (string_drop 1 (ru false true)));
   ("ipv4", always "192.168.0.1"); ("ipv6", always "2001:0db8:85a3:0000:0000:8a2e:0370:7334");
   ("hostname", always "example.com"); ("idn-hostname", always "приклад.укр"); ("iri", always "http://example.com/entity/1");
   ("iri-reference", always "/entity/1"); ("uri", always "http://example.com"); ("uri-reference", always "../dictionary");
   ("uri-template", always "http://example.com/{endpoint}"); ("uuid", λ _ _ name _, done (uuid name)); ("default", iu);
   ("json-pointer", always "/json/pointer"); ("relative-json-pointer", always "1/relative/json/pointer"); ("regex", always "/regex/")]%string.

Definition string_sample (e : node) (name : option string) : out node :=
  let i := text (value_of (or_node (sub "format" e) (Leaf (JsStr "default")))) in
  let o := default iu (lookup_key i ou) in
  let least := js_number (js_or (value_of (sub "minLength" e)) (JsNum (of_Z 0))) in
  s ⇐ o least (value_of (sub "maxLength" e)) name (value_of (sub "pattern" e)); done (Leaf (JsStr s)).

Example formats_ex :
  ru false false = "2019-08-24T14:15:22Z"%string ∧ string_drop 1 (ru false true) = "14:15:22Z"%string ∧
  uuid (Some "id"%string) = "497f6eca-6276-4993-bfeb-53cbbbba6f08"%string.
Proof. vm_compute. done. Qed.

(** ** The sampler *)

(** What is kept between calls: the references in use and the schemas being sampled,
    the last one first. *)
Record state := { Qc : list string; Xc : list node }.
Definition initial : state := {| Qc := []; Xc := [] |}.
(** Where a schema is sampled: under which name and how deep; nothing at the top, and
    for what is merged into. *)
Record context := { propertyName : option string; depth : Z }.

Definition push (r : option context) (e : node) (s : state) : state :=
  if r is Some _ then {| Qc := Qc s; Xc := e :: Xc s |} else s.
(** [Hc(e, t)]: the last schema is taken off. *)
Definition Hc (r : option context) (s : state) : state :=
  if r is Some _ then {| Qc := Qc s; Xc := tail (Xc s) |} else s.
Definition in_use (i : string) (s : state) : bool := bool_decide (i ∈ Qc s).
Definition take_ref (i : string) (s : state) : state := {| Qc := i :: Qc s; Xc := Xc s |}.
Definition free_ref (i : string) (s : state) : state := {| Qc := List.filter (λ j, negb (String.eqb i j)) (Qc s); Xc := Xc s |}.

(** What a pointer leads to, with its place. *)
Definition located (doc : jsval) (i : string) : result node :=
  v ← JsonPointer.get doc i; p ← parse i; Ok (from_doc p v).

(** An object used as a map whose key hasOwnProperty hides the method. *)
Definition hasOwnProperty (keys : list string) (k : string) : result bool :=
  if bool_decide ("hasOwnProperty"%string ∈ keys) then Raise TypeError else Ok (bool_decide (k ∈ keys)).

Section sampler.
(** The options, the document, and a call one level further. *)
Context (t : jsval) (doc : jsval) (Jc : node → option context → state → out (sample * state)).

(** ** Types *)

Definition depth_of (r : option context) : Z :=
  match r with Some r => if depth r =? 0 then 1 else depth r | None => 1 end.
Definition next (name : option string) (r : option context) : option context :=
  Some {| propertyName := name; depth := depth_of r + 1 |}.
Definition required_names (e : node) : list string :=
  match sub "required" e with Tree true _ l => (λ v, text (value_of v)) <$> elements undef l | _ => [] end.

(** One property; those that are only read or only written may be left out. *)
Definition sample_property (e : node) (r : option context) (acc : entries * state) (kv : string * node) : out (entries * state) :=
  let '(i, s) := acc in let '(k, v) := kv in
  skip ⇐ (if js_truthy (field "skipNonRequired" t) then of_result (negb <$> hasOwnProperty (required_names e) k) else done false);
  if skip : bool then done (i, s)
  else
    '(x, s) ⇐ Jc v (next (Some k) r) s;
    if js_truthy (field "skipReadOnly" t) && truthy (readOnly x) || js_truthy (field "skipWriteOnly" t) && truthy (writeOnly x)
    then done (i, s) else done (set_key k (value x) i, s).
Definition sample_properties (e : node) (r : option context) (s : state) : out (entries * state) :=
  match sub "properties" e with
  | Leaf JsNull => throw
  | Tree _ _ l => for_in (sample_property e r) ([], s) l
  | _ => done ([], s)
  end.
Definition sample_additional (e : node) (r : option context) (acc : entries * state) : out (entries * state) :=
  let '(i, s) := acc in
  match sub "additionalProperties" e with
  | Leaf JsNull => throw
  | Tree _ _ _ as a =>
      let name := text (value_of (or_node (sub "x-additionalPropertiesName" a) (Leaf (JsStr "property")))) in
      '(x, s) ⇐ Jc a (next None r) s;
      '(y, s) ⇐ Jc a (next None r) s;
      done (set_key (name +:+ "2") (value y) (set_key (name +:+ "1") (value x) i), s)
  | _ => done (i, s)
  end.
(** No more than maxProperties: the required ones, and then the first. *)
Definition keep_required (i : entries) (acc : entries * Z) (k : string) : entries * Z :=
  match lookup_key k i with
  | Some (Leaf JsUndef) | None => acc
  | Some v => (set_key k v acc.1, acc.2 + 1)
  end.
Definition keep_more (most : num) (acc : entries * Z) (kv : string * node) : out (entries * Z) :=
  if nltb (of_Z acc.2) most then
    own ⇐ of_result (hasOwnProperty (fst <$> acc.1) kv.1);
    done (if own : bool then acc else (set_key kv.1 kv.2 acc.1, acc.2 + 1))
  else done acc.
Definition at_most (e : node) (i : entries) : out entries :=
  let m := sub "maxProperties" e in
  let most := js_number (value_of m) in
  if typeof_object (sub "properties" e) && is_defined m && nltb most (of_Z (Z.of_nat (length i))) then
    '(l, _) ⇐ for_in (keep_more most) (foldl (keep_required i) ([], 0) (required_names e)) i; done l
  else done i.
Definition object_sample (e : node) (r : option context) (s : state) : out (node * state) :=
  a ⇐ sample_properties e r s;
  '(i, s) ⇐ sample_additional e r a;
  i ⇐ at_most e i;
  done (fresh i, s).

Definition item_schema (a : node) (l : nat) : node :=
  or_node (match a with Tree true _ es => default undef (lookup_key (pretty (Z.of_nat l)) es) | a => a end) (fresh []).
(** [for (let e = 0; e < o; e++)]: [rounds] at most. The counter stays at 2^53, since
    adding one to that number changes nothing. *)
Definition counter (k : nat) : num := of_Z (Z.min (Z.of_nat k) (2 ^ 53)).
Fixpoint sample_items (rounds : nat) (a : node) (o : num) (r : option context) (k : nat) (acc : list node) (s : state) : out (list node * state) :=
  if nltb (counter k) o then
    match rounds with
    | O => None
    | S rounds => '(x, s) ⇐ Jc (item_schema a k) (next None r) s; sample_items rounds a o r (S k) (acc ++ [value x]) s
    end
  else done (acc, s).
Definition items_of (e : node) : node := or_node (or_node (sub "prefixItems" e) (sub "items" e)) (sub "contains" e).
Definition item_count (e : node) : num :=
  let most := sub "maxItems" e in
  let o := nmin (if nullish most then infinite false else js_number (value_of most))
                (js_number (js_or (value_of (sub "minItems" e)) (JsNum (of_Z 1)))) in
  match items_of e with Tree true _ l => nmax o (of_Z (Z.of_nat (array_length l))) | _ => o end.
Definition array_sample (rounds : nat) (e : node) (r : option context) (s : state) : out (node * state) :=
  if truthy (items_of e) then
    '(l, s) ⇐ sample_items rounds (items_of e) (item_count e) r 0 [] s; done (Tree true None (indexed l), s)
  else done (Tree true None [], s).

(** [au]: the samplers. *)
Definition au (rounds : nat) (o e : node) (r : option context) (s : state) : option (out (node * state)) :=
  let name := text (value_of o) in
  if String.eqb name "array" then Some (array_sample rounds e r s)
  else if String.eqb name "boolean" then Some (done (Leaf (JsBool true), s))
  else if String.eqb name "integer" || String.eqb name "number" then Some (done (Leaf (eu e), s))
  else if String.eqb name "object" then Some (object_sample e r s)
  else if String.eqb name "string" then
    Some (v ⇐ string_sample e (match r with Some r => propertyName r | None => None end); done (v, s))
  else None.

(** ** Combinations *)

(** A member of allOf, sampled as the type found so far. *)
Definition all_of_member (r : option context) (acc : sample * list node * state) (m : node) : out (sample * list node * state) :=
  let '(o, a, s) := acc in
  '(x, s) ⇐ Jc (over [("type"%string, type o)] m) r s;
  let ty := if truthy (type o) && truthy (type x) && negb (identical (type x) (type o)) then type x else type o in
  done ({| value := value o; readOnly := or_node (readOnly o) (readOnly x); writeOnly := or_node (writeOnly o) (writeOnly x);
           type := or_node ty (type x) |},
        if nullish (value x) then a else a ++ [value x], s).
Definition all_of_value (o : sample) (a : list node) : node :=
  match type o with
  | Leaf (JsStr "object") => Vc (or_node (value o) (fresh []) :: List.filter typeof_object a)
  | _ => match last a with Some v => v | None => value o end
  end.
Definition all_of (e : node) (r : option context) (s : state) : out (sample * state) :=
  '(o, s) ⇐ Jc (with_keys e [("allOf"%string, undef)]) None s;
  l ⇐ of_result (iterate (sub "allOf" e));
  '(o, a, s) ⇐ for_in (all_of_member r) (o, [], s) l;
  done ({| value := all_of_value o a; readOnly := readOnly o; writeOnly := writeOnly o; type := type o |}, s).

(** [a(e, i)]: the first alternative of oneOf or anyOf. *)
Definition alternative (e i : node) (r : option context) (s : state) : out (sample * state) :=
  z ⇐ of_result (Zc e);
  match z with
  | Some x => done (x, s)
  | None =>
      '(a, s) ⇐ Jc (with_keys e [("oneOf"%string, undef); ("anyOf"%string, undef)]) r s;
      '(x, s) ⇐ Jc i r s;
      if typeof_object (value a) && typeof_object (value x)
      then done ({| value := Vc [value a; value x]; readOnly := readOnly x; writeOnly := writeOnly x; type := type x |}, s)
      else done (x, s)
  end.
Definition first_alternative (k : string) (e : node) : node :=
  over [("readOnly", sub "readOnly" e); ("writeOnly", sub "writeOnly" e)]%string (first_item (sub k e)).
Definition offers (k : string) (e : node) : result bool :=
  if truthy (sub k e) then n ← node_length (sub k e); Ok (truthy n) else Ok false.

(** Without [if] and [then], and what these say merged in. *)
Definition conditional (e : node) : node :=
  Vc [fresh (List.filter (λ '(k, _), negb (String.eqb k "if" || String.eqb k "then")) (own_entries e)); sub "if" e; sub "then" e].

(** What the schema gives, or a sample of its type. *)
Definition plain_sample (rounds : nat) (e : node) (r : option context) (s : state) : out (sample * state) :=
  i ⇐ of_result (Kc e);
  if is_defined i then done (sampled_as e i null, Hc r s)
  else
    let o := match sub "type" e with Tree true _ l as ty => if (0 <? array_length l)%nat then sub "0" ty else ty | ty => ty end in
    o ⇐ (if truthy o then done o else of_result (Gc e));
    match au rounds o e r s with
    | Some m => '(v, s) ⇐ m; done (sampled_as e v o, Hc r s)
    | None => done (sampled_as e null o, Hc r s)
    end.

(** ** References *)

Definition by_ref (e : node) (r : option context) (s : state) : out (sample * state) :=
  if js_truthy doc then
    d ⇐ of_result (decodeURIComponent (text (value_of (sub "$ref" e))));
    let i := without_hash d in
    o ⇐ of_result (located doc i);
    if in_use i s then g ⇐ of_result (Gc o); done (Wc g, Hc r s)
    else '(a, s) ⇐ Jc o r (take_ref i s); done (a, Hc r (free_ref i s))
  else Some (Raise (OtherError "Your schema contains $ref. You must provide full specification in the third parameter.")).

(** [Jc(e, t, n, r)], one call. *)
Definition too_deep (r : option context) : bool :=
  match r with Some r => nltb (js_number (field "maxSampleDepth" t)) (of_Z (depth r)) | None => false end.
Definition sample_once (rounds : nat) (e : node) (r : option context) (s : state) : out (sample * state) :=
  if (if r is Some _ then includes e (Xc s) else false) then g ⇐ of_result (Gc e); done (Wc g, s)
  else
    let s := push r e s in
    if too_deep r then g ⇐ of_result (Gc e); done (Wc g, Hc r s)
    else
      ref ⇐ of_result (get_key "$ref" e);
      if truthy ref then by_ref e r s
      else if is_defined (sub "example" e) then done (sampled_as e (sub "example" e) (sub "type" e), Hc r s)
      else if is_defined (sub "allOf" e) then
        z ⇐ of_result (Zc e); match z with Some x => done (x, Hc r s) | None => all_of e r (Hc r s) end
      else
        one ⇐ of_result (offers "oneOf" e);
        if one : bool then alternative e (first_alternative "oneOf" e) r (Hc r s)
        else
          any ⇐ of_result (offers "anyOf" e);
          if any : bool then alternative e (first_alternative "anyOf" e) r (Hc r s)
          else if truthy (sub "if" e) && truthy (sub "then" e) then Jc (conditional e) r (Hc r s)
          else plain_sample rounds e r s.
End sampler.

(** [Jc], [fuel] nested calls deep and with as many items of an array. *)
Fixpoint Jc (fuel : nat) (t doc : jsval) (e : node) (r : option context) (s : state) : out (sample * state) :=
  match fuel with O => None | S fuel => sample_once t doc (Jc fuel t doc) fuel e r s end.

(** [lu(e, t, n)]: with the options that were not given. *)
Definition su : list (string * jsval) := [("skipReadOnly", JsBool false); ("maxSampleDepth", JsNum (of_Z 15))]%string.
Definition lu (fuel : nat) (e : node) (t doc : jsval) : out node :=
  '(x, _) ⇐ Jc fuel (JsObj (assign su (entries_of t))) doc e None initial; done (value x).

(** ** Examples *)

(** A document of schemas, and the sample of one of them. *)
Definition document (l : list (string * jsval)) : jsval := JsObj [("components", JsObj [("schemas", JsObj l)])]%string.
Definition schema_of (n : string) (doc : jsval) : node :=
  match located doc ("/components/schemas/" +:+ n) with Ok e => e | Raise _ => undef end.
Definition sample_of (fuel : nat) (n : string) (t doc : jsval) : option (result jsval) :=
  match lu fuel (schema_of n doc) t doc with Some (Ok v) => Some (Ok (value_of v)) | Some (Raise x) => Some (Raise x) | None => None end.
Definition typed_as (ty : string) (l : list (string * jsval)) : jsval := JsObj (("type"%string, JsStr ty) :: l).
Definition pets : jsval := document [
  ("Tag", typed_as "object" [("properties", JsObj [("id", typed_as "integer" [("minimum", JsNum (of_Z 3))]); ("name", typed_as "string" [])])]);
  ("Pet", typed_as "object" [("properties", JsObj [("tag", ref_to "Tag"); ("friends", typed_as "array" [("items", ref_to "Pet")]);
            ("secret", typed_as "string" [("writeOnly", JsBool true)])])]);
  ("Dog", JsObj [("allOf", JsArr [ref_to "Tag"; typed_as "object" [("properties", JsObj [("bark", typed_as "boolean" [])])]])])]%string.
Example pet_sample :
  sample_of 20 "Pet" (JsObj [("skipWriteOnly", JsBool true)])%string pets
  = Some (Ok (JsObj [("tag", JsObj [("id", JsNum (of_Z 3)); ("name", JsStr "string")]);
       ("friends", JsArr [JsObj [("tag", JsObj [("id", JsNum (of_Z 3)); ("name", JsStr "string")]); ("friends", JsArr [])]])])%string).
Proof. vm_compute. reflexivity. Qed.
Example dog_sample :
  sample_of 20 "Dog" (JsObj []) pets
  = Some (Ok (JsObj [("id", JsNum (of_Z 3)); ("name", JsStr "string"); ("bark", JsBool true)]))%string.
Proof. vm_compute. reflexivity. Qed.

(** ** What is kept between calls *)

Ltac unchanged := unfold done in *; congruence.
Section restores.
Context (t doc : jsval) (Jc : node → option context → state → out (sample * state)).
Context (HJc : ∀ e r s x s', Jc e r s = Some (Ok (x, s')) → s' = s).

Lemma sample_property_state e r i s kv i' s' : sample_property t Jc e r (i, s) kv = Some (Ok (i', s')) → s' = s.
Proof.
  unfold sample_property. destruct kv as [k v]. intros (skip & _ & H)%then_Ok. destruct skip; [unchanged|].
  apply then_Ok in H as ([x s2] & Hx & H). apply HJc in Hx as ->. cbv beta iota in H. destruct (_ || _); unchanged.
Qed.
Lemma object_sample_state e r s v s' : object_sample t Jc e r s = Some (Ok (v, s')) → s' = s.
Proof.
  unfold object_sample. intros ([i s1] & H1 & ([i2 s2] & H2 & (i3 & _ & [= _ <-])%then_Ok)%then_Ok)%then_Ok.
  assert (s1 = s) as ->.
  { unfold sample_properties in H1. destruct (sub "properties" e) as [[]|a h l]; try (by inversion H1).
    apply (for_in_inv _ (λ _ acc, acc.2 = s)) in H1; [done| |done]. intros pre kv [i' s''] [i'' s3] _ Hs Hp. cbn in *. subst.
    by eapply sample_property_state. }
  unfold sample_additional in H2. destruct (sub "additionalProperties" e) as [[]|a h l]; try (by inversion H2).
  apply then_Ok in H2 as ([x sx] & Hx & ([y sy] & Hy & [= _ <-])%then_Ok). apply HJc in Hx as ->. by apply HJc in Hy.
Qed.
Lemma sample_items_state n a o r k acc s l s' : sample_items Jc n a o r k acc s = Some (Ok (l, s')) → s' = s.
Proof.
  revert k acc s. induction n as [|n IH]; intros k acc s; cbn [sample_items]; (destruct (nltb _ _); [|by intros [= _ <-]]); [done|].
  intros ([x sx] & Hx & H)%then_Ok. apply HJc in Hx as ->. by apply IH in H.
Qed.
Lemma au_state n o e r s m v s' : au t Jc n o e r s = Some m → m = Some (Ok (v, s')) → s' = s.
Proof.
  unfold au. intros H ->. repeat match type of H with context [String.eqb ?a ?b] => destruct (String.eqb a b) end; cbn [orb] in H; try discriminate; injection H as H; try unchanged.
  - unfold array_sample in H. destruct (truthy _); [|unchanged]. apply then_Ok in H as ([l sl] & Hl & [= _ <-]). by apply sample_items_state in Hl.
  - by apply object_sample_state in H.
  - by apply then_Ok in H as (? & _ & [= _ <-]).
Qed.
Lemma Hc_push r e s : Hc r (push r e s) = s.
Proof. destruct r, s; done. Qed.
Lemma free_taken i s : in_use i s = false → free_ref i (take_ref i s) = s.
Proof.
  destruct s as [q x]. unfold in_use. intros H%bool_decide_eq_false. unfold free_ref, take_ref. cbn in *. rewrite String.eqb_refl. cbn. f_equal.
  induction q as [|j q IH]; [done|]. apply not_elem_of_cons in H as [Hj Hq]. cbn. apply String.eqb_neq in Hj as ->. cbn. by rewrite IH.
Qed.
Lemma sample_once_state n e r s x s' : sample_once t doc Jc n e r s = Some (Ok (x, s')) → s' = s.
Proof.
  unfold sample_once. destruct (if r is Some _ then _ else _); [by intros (? & _ & [= _ <-])%then_Ok|].
  destruct (too_deep t r); [intros (? & _ & [= _ <-])%then_Ok; apply Hc_push|]. intros (ref & _ & H)%then_Ok. revert H.
  assert (∀ m, (∀ a b, m (Hc r (push r e s)) = Some (Ok (a, b)) → b = Hc r (push r e s)) → m (Hc r (push r e s)) = Some (Ok (x, s')) → s' = s) as Hm.
  { intros m. rewrite Hc_push. eauto. }
  destruct (truthy ref).
  { unfold by_ref. destruct (js_truthy doc); [|done]. intros (d & _ & (o & _ & H)%then_Ok)%then_Ok. destruct (in_use _ _) eqn:Hi.
    - apply then_Ok in H as (? & _ & [= _ <-]). apply Hc_push.
    - apply then_Ok in H as ([a sa] & Ha & [= _ <-]). apply HJc in Ha as ->. rewrite free_taken by done. apply Hc_push. }
  destruct (is_defined (sub "example" e)); [intros [= _ <-]; apply Hc_push|]. destruct (is_defined (sub "allOf" e)).
  { intros (z & _ & H)%then_Ok. rewrite Hc_push in H. destruct z as [z|]; [unchanged|]. unfold all_of in H.
    apply then_Ok in H as ([o so] & Ho & (l & _ & ([[o2 a] s2] & H & [= _ <-])%then_Ok)%then_Ok). apply HJc in Ho as ->.
    apply (for_in_inv _ (λ _ acc, acc.2 = s)) in H; [done| |done]. intros pre m [[o' a'] s''] [[o'' a''] s3] _ Hs Hp. cbn in *. subst.
    by apply then_Ok in Hp as ([y sy] & ->%HJc & [= _ _ <-]). }
  assert (∀ i, alternative Jc e i r (Hc r (push r e s)) = Some (Ok (x, s')) → s' = s) as Halt.
  { intros i. rewrite Hc_push. intros (z & _ & H)%then_Ok. destruct z as [z|]; [unchanged|].
    apply then_Ok in H as ([a sa] & ->%HJc & ([y sy] & ->%HJc & H)%then_Ok). cbv beta iota in H. destruct (_ && _); unchanged. }
  intros (one & _ & H)%then_Ok. destruct one; [by apply Halt in H|]. apply then_Ok in H as (any & _ & H). destruct any; [by apply Halt in H|].
  destruct (_ && _); [rewrite Hc_push in H; by apply HJc in H|]. unfold plain_sample in H.
  apply then_Ok in H as (i & _ & H). destruct (is_defined i); [injection H as _ <-; apply Hc_push|].
  apply then_Ok in H as (o & _ & H). destruct (au _ _ _ _ _ _ _) as [m|] eqn:Hau; [|injection H as _ <-; apply Hc_push].
  apply then_Ok in H as ([v sv] & Hv & [= _ <-]). rewrite (au_state _ _ _ _ _ _ _ _ Hau Hv). apply Hc_push.
Qed.
End restores.

(** C25: Whatever a schema is made of, a call that returns a sample leaves the
    references in use and the schemas being sampled as they were: every schema that is
    put on is taken off on its way out, every reference is freed. *)
Theorem Jc_restores fuel t doc e r s x s' : Jc fuel t doc e r s = Some (Ok (x, s')) → s' = s.
Proof.
  revert e r s x s'. induction fuel as [|fuel IH]; intros e r s x s'; [done|]. cbn [Jc]. apply sample_once_state. exact IH.
Qed.
Lemma Jc_restores_witness :
  let s := {| Qc := ["/components/schemas/Tag"%string]; Xc := [schema_of "Tag" pets] |} in
  (λ x, value_of (value x.1)) <$> (match Jc 20 (JsObj su) pets (schema_of "Dog" pets) None s with Some (Ok x) => Some x | _ => None end)
    = Some (JsObj [("bark"%string, JsBool true)]) ∧
  ∀ x s', Jc 20 (JsObj su) pets (schema_of "Dog" pets) None s = Some (Ok (x, s')) → s' = s.
Proof. intros s. split; [vm_compute; reflexivity|]. intros x s'. apply Jc_restores. Defined.

(** ** Texts and numbers *)

(** A text of a form: x stands for a digit of base 16, y for one of 8, 9, a and b. *)
Definition is_lower_hex (c : ascii) : bool := between_codes 48 57 c || between_codes 97 102 c.
Fixpoint of_form (form s : string) : bool :=
  match form, s with
  | EmptyString, EmptyString => true
  | String f form, String c s =>
      (if Ascii.eqb f "x" then is_lower_hex c else if Ascii.eqb f "y" then one_of "89ab" c else Ascii.eqb f c) && of_form form s
  | _, _ => false
  end.
Lemma four_bits r : 0 <= r < 2 ^ 32 → 0 <= Z.shiftr r 28 < 16.
Proof. intros H. rewrite Z.shiftr_div_pow2 by lia. split; [apply Z.div_pos; lia|]. apply Z.div_lt_upper_bound; lia. Qed.
Lemma next_word_range w : 0 <= (next_word w).1 < 2 ^ 32.
Proof. destruct w. cbn [next_word fst]. apply Z.mod_pos_bound. done. Qed.
Lemma hex_digits t : 0 <= t < 16 → is_lower_hex (hex_digit t) = true ∧ one_of "89ab" (hex_digit (Z.lor (Z.land 3 t) 8)) = true.
Proof.
  intros H. assert (t ∈ Z.of_nat <$> seq 0 16) as Ht.
  { apply list_elem_of_fmap. exists (Z.to_nat t). split; [lia|]. apply elem_of_seq. lia. }
  clear H. revert t Ht. apply Forall_forall. by repeat constructor.
Qed.
Lemma fill_form form w : of_form form (fill form w) = true.
Proof.
  revert w. induction form as [|c form IH]; intros w; [done|]. cbn [fill].
  pose proof (next_word_range w) as Hr. destruct (next_word w) as [r w']. cbn in Hr. destruct (hex_digits _ (four_bits r Hr)) as [Hx Hy].
  destruct (Ascii.eqb_spec c "x") as [->|Hc]; cbn [orb of_form].
  - by rewrite Hx, IH.
  - destruct (Ascii.eqb_spec c "y") as [->|Hc']; cbn [orb of_form].
    + change (one_of "89ab" (hex_digit (Z.lor (Z.land 3 (Z.shiftr r 28)) 8)) && of_form form (fill form w') = true). by rewrite Hy, IH.
    + apply Ascii.eqb_neq in Hc as ->. by rewrite Ascii.eqb_refl, IH.
Qed.

(** The sample of a uuid is one: four groups of lower case digits of base 16, the
    third of which starts with the version 4 and the fourth with the variant 8, 9, a
    or b, for every name of a property. *)
Theorem uuid_form name : of_form "xxxxxxxx-xxxx-4xxx-yxxx-xxxxxxxxxxxx" (uuid name) = true.
Proof. apply fill_form. Qed.

(** All integers from a to b. *)
Definition from_to (a b : Z) : list Z := codes_from a b.
Lemma from_to_in a b z : a <= z <= b → z ∈ from_to a b.
Proof. intros H. apply list_elem_of_fmap. exists (Z.to_nat (z - a)). split; [lia|]. apply elem_of_seq. lia. Qed.
Lemma for_all_in (f : Z → Z → bool) a b : forallb (λ x, forallb (f x) (from_to a b)) (from_to a b) = true →
  ∀ x y, a <= x <= b → a <= y <= b → f x y = true.
Proof.
  intros H x y Hx%from_to_in Hy%from_to_in. rewrite forallb_forall in H. specialize (H x ltac:(by apply list_elem_of_In)).
  rewrite forallb_forall in H. apply H. by apply list_elem_of_In.
Qed.

(** The sample of a text without format and pattern has no fewer characters than
    minLength and no more than maxLength, for all lengths up to 150; maxLength is not
    0, which the code takes for no limit. *)
Theorem text_lengths n m name :
  0 <= n <= m → 0 < m <= 150 → ∃ s, iu (of_Z n) (JsNum (of_Z m)) name JsUndef = done s ∧ n <= Z.of_nat (String.length s) <= m.
Proof.
  intros Hn Hm.
  assert (∀ x y, 0 <= x <= 150 → 0 <= y <= 150 →
    (if (x <=? y) && (0 <? y) then
       match iu (of_Z x) (JsNum (of_Z y)) name JsUndef with
       | Some (Ok s) => let k := Z.of_nat (String.length s) in (x <=? k) && (k <=? y)
       | _ => false
       end else true) = true) as H.
  { apply for_all_in. vm_compute. reflexivity. }
  specialize (H n m ltac:(lia) ltac:(lia)). rewrite (proj2 (Z.leb_le n m)), (proj2 (Z.ltb_lt 0 m)) in H by lia. cbn [andb] in H.
  destruct (iu _ _ _ _) as [[s|]|]; try done. exists s. split; [done|]. lia.
Qed.
Lemma text_lengths_witness :
  (0 <= 9 <= 14) ∧ ∃ s, iu (of_Z 9) (JsNum (of_Z 14)) None JsUndef = done s ∧ 9 <= Z.of_nat (String.length s) <= 14.
Proof. split; [lia|]. apply text_lengths; lia. Defined.

(** A schema of numbers, and whether it accepts what is sampled for it. *)
Definition limits (l : list (string * jsval)) : jsval := typed_as "number" l.
Definition accepted (e : jsval) : bool := match eu (from_doc [] e) with JsNum x => accepts e x | _ => false end.
Definition between (a b : Z) (x y : bool) : jsval :=
  limits [("minimum", JsNum (of_Z a)); ("maximum", JsNum (of_Z b)); ("exclusiveMinimum", JsBool x); ("exclusiveMaximum", JsBool y)]%string.

(** The sample of a number between two integers other than 0, excluded or not, is
    one of the numbers between them, for all integers up to 40 and down to -40. *)
Theorem number_between a b x y : -40 <= a < b → b <= 40 → a ≠ 0 → b ≠ 0 → accepted (between a b x y) = true.
Proof.
  intros Ha Hb Ha0 Hb0.
  assert (∀ x y a b, -40 <= a <= 40 → -40 <= b <= 40 →
    (if (a <? b) && negb (a =? 0) && negb (b =? 0) then accepted (between a b x y) else true) = true) as H.
  { intros u v. apply for_all_in. destruct u, v; vm_compute; reflexivity. }
  specialize (H x y a b ltac:(lia) ltac:(lia)). rewrite (proj2 (Z.ltb_lt a b)) in H by lia.
  rewrite (proj2 (Z.eqb_neq a 0)), (proj2 (Z.eqb_neq b 0)) in H by done. exact H.
Qed.
Lemma number_between_witness : (-40 <= 1 < 2) ∧ 2 <= 40 ∧ accepted (between 1 2 true true) = true.
Proof. split; [lia|]. split; [lia|]. apply number_between; lia. Defined.

(** A limit of 0 is not seen, nor the second of two lower limits: these samples are
    no values of their schemas. *)
Lemma limits_missed :
  accepted <$> [limits [("minimum", JsNum (of_Z 0)); ("exclusiveMaximum", JsNum (dec 5 1))];
                limits [("minimum", JsNum (of_Z 0)); ("exclusiveMinimum", JsBool true)];
                limits [("minimum", JsNum (of_Z 3)); ("exclusiveMinimum", JsNum (of_Z 5))]]%string = [false; false; false].
Proof. vm_compute. reflexivity. Qed.
(** A password longer than maxLength, and a text where maxLength is 0. *)
Lemma lengths_missed :
  string_sample (from_doc [] (typed_as "string" [("format", JsStr "password"); ("maxLength", JsNum (of_Z 4))])) None = done (Leaf (JsStr "pa$$word"))%string ∧
  string_sample (from_doc [] (typed_as "string" [("maxLength", JsNum (of_Z 0))])) None = done (Leaf (JsStr "string"))%string.
Proof. vm_compute. done. Qed.
