(* ===== verification/SamplerEnds.v ===== *)
(** * Sampling ends

    The sampler ([Sampler]) ends for every document, references that lead back to
    themselves among them, and whatever depth it may go to: a reference that is
    followed is one of the finitely many pointers of the document and is not in use,
    and between two references every call is for a smaller schema. What must be
    excluded is a minItems beyond 2^53, where the loop over the items does not end. *)

From S2P Require Import Prelude PyData JsNumber JsData JsonPointer OpenApi SpecParser AllOf AllOfEnds Patterns Sampler.
Local Open Scope Z_scope.

(** ** Counting up to a number *)

(** Numbers a counter reaches: not beyond 2^53. *)
Definition most_items : num := of_Z (2 ^ 53).
Definition reachable (x : num) : bool := negb (nltb most_items x).

Lemma digits2_lt p n : (Zpos p < 2 ^ Z.of_nat n) → (Pos.to_nat (digits2_pos p) ≤ n)%nat.
Proof.
  revert n. induction p as [p IH|p IH|]; intros [|n] H; cbn [digits2_pos]; rewrite ?Pos2Nat.inj_succ; try lia;
    rewrite Nat2Z.inj_succ, Z.pow_succ_r in H by lia; specialize (IH n ltac:(lia)); lia.
Qed.
Lemma digits2_shift p k : digits2_pos (Pos.iter xO p k) = (k + digits2_pos p)%positive.
Proof.
  induction k as [|k IH] using Pos.peano_ind; [by rewrite Pos.add_1_l|]. rewrite Pos.iter_succ. cbn [digits2_pos]. rewrite IH. lia.
Qed.
Lemma of_Z_small p : Zpos p < 2 ^ 53 → ∃ m e, of_Z (Zpos p) = S754_finite false m e ∧ e <= 0.
Proof.
  intros Hp. pose proof (digits2_lt p 53 Hp) as Hd. remember (digits2_pos p) as d eqn:Ed.
  unfold of_Z, binary_normalize, binary_round. rewrite <- Ed, Z.add_0_r.
  assert (fexp 53 1024 (Zpos d) = Zpos d - 53) as -> by (unfold fexp, emin; lia).
  assert (∀ m e, Zpos (digits2_pos m) + e = Zpos d → e = Zpos d - 53 → binary_round_aux 53 1024 false (Zpos m) e loc_Exact = S754_finite false m e) as Haux.
  { intros m e Hm He. unfold binary_round_aux, shr_fexp. cbn [Zdigits2 shr_record_of_loc]. rewrite Hm.
    assert (fexp 53 1024 (Zpos d) - e = 0) as -> by (unfold fexp, emin; lia). cbn [shr shr_m loc_of_shr_record round_nearest_even Zdigits2].
    rewrite Hm. assert (fexp 53 1024 (Zpos d) - e = 0) as -> by (unfold fexp, emin; lia). cbn [shr shr_m].
    by rewrite (proj2 (Z.leb_le e (1024 - 53))) by lia. }
  unfold shl_align. destruct (Zpos d - 53 - 0) as [|k|k] eqn:Ek; [|lia|].
  - eexists _, _. split; [apply Haux; [by rewrite <- Ed; lia|lia]|lia].
  - eexists _, _. split; [apply Haux; [rewrite digits2_shift, <- Ed; lia|lia]|lia].
Qed.
Lemma reachable_int n : 0 <= n <= 2 ^ 53 → reachable (of_Z n) = true.
Proof.
  intros Hn. destruct (decide (n = 2 ^ 53)) as [->|]; [by vm_compute|]. destruct n as [|p|p]; [done| |lia].
  destruct (of_Z_small p) as (m & e & -> & He); [lia|]. unfold reachable, nltb, SFltb.
  change most_items with (S754_finite false 4503599627370496 1). cbn [SFcompare]. by rewrite (proj2 (Z.compare_gt_iff 1 e)) by lia.
Qed.
Lemma reachable_max x y : reachable x = true → reachable y = true → reachable (nmax x y) = true.
Proof.
  intros Hx Hy. unfold nmax. destruct (is_nan x || is_nan y); [done|].
  assert (reachable (if nltb x y then y else x) = true) by (by destruct (nltb x y)). by destruct x as [[]| | |], y.
Qed.
Lemma lt_finite m n d e : nltb (S754_finite false m d) (S754_finite false n e) = true ↔ d < e ∨ d = e ∧ (m < n)%positive.
Proof.
  unfold nltb, SFltb. cbn [SFcompare]. change (Pos.compare_cont Eq m n) with (m ?= n)%positive.
  destruct (Z.compare_spec d e); [destruct (Pos.compare_spec m n)|..]; split; intros; try done; lia.
Qed.
Lemma beyond_lt k d x y : nltb (S754_finite false k d) x = true → nltb (S754_finite false k d) y = false → is_nan y = false → nltb y x = true.
Proof.
  destruct x as [[]|[]| |[] mx ex], y as [[]|[]| |[] my ey]; try done. intros H1%lt_finite H2 _. apply lt_finite.
  apply not_true_iff_false in H2. rewrite lt_finite in H2. lia.
Qed.
Lemma reachable_min x y : reachable y = true → reachable (nmin x y) = true.
Proof.
  unfold reachable. intros Hy%negb_true_iff. unfold nmin. destruct (is_nan x) eqn:Hx; [done|]. destruct (is_nan y) eqn:Hn; [done|]. cbn [orb].
  assert (negb (nltb most_items (if nltb y x then y else x)) = true).
  { destruct (nltb y x) eqn:E; [by rewrite Hy|]. destruct (nltb most_items x) eqn:Ex; [|done]. by rewrite (beyond_lt _ _ x y Ex Hy Hn) in E. }
  by destruct x as [[]| | |], y.
Qed.
Lemma counter_stops x : reachable x = true → ∃ n, nltb (counter n) x = false.
Proof.
  intros H%negb_true_iff. exists (Z.to_nat (2 ^ 53)). unfold counter. rewrite Z2Nat.id by done. by rewrite Z.min_id.
Qed.

(** ** The pointers of a document *)

Lemma all_characters : ∃ cs : list ascii, ∀ c, c ∈ cs.
Proof.
  exists ((λ n, ascii_of_N (N.of_nat n)) <$> seq 0 256). intros c. apply list_elem_of_fmap. exists (N.to_nat (N_of_ascii c)).
  rewrite N2Nat.id, ascii_N_embedding. split; [done|]. apply elem_of_seq. pose proof (N_ascii_bounded c). lia.
Qed.
Lemma all_short n : ∃ ps : list string, ∀ s, (String.length s ≤ n)%nat → s ∈ ps.
Proof.
  destruct all_characters as [cs Hcs]. induction n as [|n [ps IH]].
  - exists [EmptyString]. intros [|c s] H; [left|cbn in H; lia].
  - exists (EmptyString :: c ← cs; String c <$> ps). intros [|c s] H; [left|]. right.
    apply list_elem_of_bind. exists c. split; [|apply Hcs]. apply list_elem_of_fmap. exists s. split; [done|]. apply IH. cbn in H. lia.
Qed.

Lemma replace_pair_length a b c s : (String.length s ≤ 2 * String.length (replace_pair a b c s))%nat.
Proof.
  remember (String.length s) as n eqn:En. assert (String.length s ≤ n)%nat as H by lia. rewrite En. clear En. revert s H.
  induction n as [|n IH]; intros [|x [|y s]] H; try (cbn in *; lia). cbn [String.length] in H.
  change (replace_pair a b c (String x (String y s))) with
    (if Ascii.eqb x a && Ascii.eqb y b then String c (replace_pair a b c s) else String x (replace_pair a b c (String y s))).
  destruct (_ && _).
  - pose proof (IH s ltac:(lia)). cbn [String.length]. lia.
  - pose proof (IH (String y s) ltac:(cbn [String.length]; lia)) as Hy. cbn [String.length] in Hy |- *. lia.
Qed.
Lemma unescape_length s : (String.length s ≤ 4 * String.length (unescape s))%nat.
Proof.
  unfold unescape. pose proof (replace_pair_length "~" "1" "/" s). pose proof (replace_pair_length "~" "0" "~" (replace_pair "~" "1" "/" s)). lia.
Qed.
Lemma split_length sep s : sum_list ((λ p, S (String.length p)) <$> split_on sep s) = S (String.length s).
Proof.
  induction s as [|c s IH]; [done|]. cbn [split_on]. destruct (split_on sep s) as [|p ps]; [by case_decide|].
  case_decide; cbn in *; lia.
Qed.
(** A pointer is not much longer than its tokens. *)
Lemma parse_length i ks : parse i = Ok ks → (String.length i ≤ S (sum_list ((λ k, 4 * String.length k + 1) <$> ks)))%nat.
Proof.
  unfold parse. set (j := without_hash i). assert (String.length i ≤ S (String.length j))%nat as Hj.
  { unfold j. destruct i as [|c i]; [cbn; lia|]. cbn. destruct (Ascii.eqb c "#"); cbn; lia. }
  destruct j as [|c j]; cbn [parse_tokens]; [intros [= <-]; cbn in *; lia|]. destruct (Ascii.eqb c "/"); [|done]. intros [= <-].
  assert (∀ l, sum_list ((λ p, S (String.length p)) <$> l) ≤ sum_list ((λ k, 4 * String.length k + 1) <$> (unescape <$> l)))%nat as H.
  { induction l as [|p l IH]; [done|]. cbn. pose proof (unescape_length p). cbn in *. lia. }
  specialize (H (split_on "/" j)). rewrite split_length in H. cbn in *. lia.
Qed.

(** There are only so many ways down. *)
Lemma finite_paths : ∀ v, ∃ ps : list (list string), ∀ ks w, walk_tokens v ks = Ok w → ks ∈ ps.
Proof.
  assert (∀ l : list (string * jsval), Forall (λ kv, ∃ ps : list (list string), ∀ ks w, walk_tokens kv.2 ks = Ok w → ks ∈ ps) l →
    ∃ ps : list (list string), ∀ k v ks w, (k, v) ∈ l → walk_tokens v ks = Ok w → (k :: ks) ∈ ps) as Hl.
  { intros l H. induction H as [|[k v] l [ps Hv] _ [ps' IH]]; [exists []; by intros ? ? ? ? ?%not_elem_of_nil|].
    exists ((cons k <$> ps) ++ ps'). intros k' v' ks w [[= -> ->]|Hin]%elem_of_cons Hw; apply elem_of_app; [left|right; eauto].
    apply list_elem_of_fmap. eauto. }
  assert (∀ v (l : list (string * jsval)), (∀ k x, step v k = Ok x → (k, x) ∈ l) →
    Forall (λ kv, ∃ ps : list (list string), ∀ ks w, walk_tokens kv.2 ks = Ok w → ks ∈ ps) l →
    ∃ ps : list (list string), ∀ ks w, walk_tokens v ks = Ok w → ks ∈ ps) as Hv.
  { intros v l Hs Hf. destruct (Hl l Hf) as [ps Hps]. exists ([] :: ps). intros [|k ks] w; [left|]. cbn [walk_tokens].
    destruct (step v k) as [x|] eqn:E; [|done]. cbn. intros Hw. right. eauto. }
  intros v. induction v as [| |b|x|s|l IH|l IH] using jsval_ind; try (apply (Hv _ []); [by intros|constructor]).
  - apply (Hv _ (imap (λ i v, (pretty (Z.of_nat i), v)) l)).
    + intros k x. cbn [step]. destruct (element l k) as [y|] eqn:E; [|done]. intros [= <-]. unfold element in E.
      apply find_some in E as [E _]. apply list_elem_of_In, list_elem_of_omap in E as ([i z] & Hin & Hk).
      apply elem_of_lookup_imap_1 in Hin as (i' & z' & [= -> ->] & Hi). destruct (String.eqb_spec k (pretty (Z.of_nat i'))) as [->|]; [|done].
      injection Hk as <-. apply elem_of_lookup_imap. eauto.
    + apply Forall_forall. intros kv (i & z & -> & Hi)%elem_of_lookup_imap_1. cbn. rewrite Forall_forall in IH. apply IH.
      by eapply list_elem_of_lookup_2.
  - apply (Hv _ l); [|exact IH]. intros k x. cbn [step]. destruct (lookup_key k l) eqn:E; [|done]. intros [= ->]. by apply lookup_key_in.
Qed.
Lemma in_sum {A} (f : A → nat) x l : x ∈ l → (f x ≤ sum_list (f <$> l))%nat.
Proof. induction 1; cbn; lia. Qed.
Lemma finite_pointers doc : ∃ ps : list string, ∀ i e, located doc i = Ok e → i ∈ ps.
Proof.
  destruct (finite_paths doc) as [paths Hp]. set (size := λ ks : list string, S (sum_list ((λ k, 4 * String.length k + 1) <$> ks))%nat).
  destruct (all_short (sum_list (size <$> paths))) as [ps Hps]. exists ps. intros i e. unfold located, JsonPointer.get.
  destruct (parse i) as [ks|] eqn:Ei; [|done]. cbn [mbind result_bind]. destruct (walk_tokens doc ks) as [w|] eqn:Ew; [|done]. intros _.
  apply Hps. apply parse_length in Ei. apply Hp, (in_sum size) in Ew. unfold size in Ew at 1. lia.
Qed.

(** ** The weight of a schema *)

Section node_ind.
Variable P : node → Prop.
Hypothesis (HL : ∀ v, P (Leaf v)) (HT : ∀ a h l, Forall (λ kv, P kv.2) l → P (Tree a h l)).
Fixpoint node_ind (e : node) : P e :=
  match e with
  | Leaf v => HL v
  | Tree a h l => HT a h l ((fix go l : Forall (λ kv, P kv.2) l :=
      match l with [] => Forall_nil_2 _ | kv :: l => Forall_cons_2 _ _ _ (node_ind kv.2) (go l) end) l)
  end.
End node_ind.

(** An entry weighs nothing if it is undefined, and its key nothing if it is an
    index; so the characters of a text weigh nothing. *)
Definition entry_weight (k : string) (v : node) (w : nat) : nat :=
  if is_defined v then (if all_digits k then 0 else 1) + w else 0%nat.
Fixpoint weight (e : node) : nat :=
  match e with
  | Leaf _ => 0
  | Tree _ _ l => S ((fix go (l : entries) : nat := match l with [] => 0 | (k, v) :: l => entry_weight k v (weight v) + go l end) l)
  end%nat.
(** Some keys of a schema are not sampled further: what the code puts there comes from
    elsewhere. *)
Definition every : string → bool := λ _, true.
Definition sampled_key (k : string) : bool := negb (existsb (String.eqb k) ["type"; "readOnly"; "writeOnly"]%string).
Definition weights (p : string → bool) (l : entries) : nat :=
  sum_list ((λ '(k, v), if p k then entry_weight k v (weight v) else 0%nat) <$> l).
Definition schema_weight (e : node) : nat := match e with Leaf _ => 0 | Tree _ _ l => S (weights sampled_key l) end%nat.

(** No minItems beyond what a counter reaches. *)
Definition few (v : node) : bool :=
  match v with Leaf v => reachable (js_number (js_or v (JsNum (of_Z 1)))) | Tree a _ _ => negb a end.
Fixpoint few_items (e : node) : bool :=
  match e with
  | Leaf _ => true
  | Tree _ _ l => (fix go (l : entries) : bool :=
      match l with [] => true | (k, v) :: l => (negb (String.eqb k "minItems") || few v) && few_items v && go l end) l
  end.
Definition entry_few (kv : string * node) : bool := (negb (String.eqb kv.1 "minItems") || few kv.2) && few_items kv.2.
Definition entries_few (p : string → bool) (l : entries) : Prop := ∀ kv, kv ∈ l → p kv.1 = true → entry_few kv = true.

Lemma weight_tree a h l : weight (Tree a h l) = S (weights every l).
Proof. cbn [weight]. f_equal. unfold weights. induction l as [|[k v] l IH]; [done|]. cbn. by rewrite IH. Qed.
Lemma few_items_tree a h l : few_items (Tree a h l) = true ↔ entries_few every l.
Proof.
  cbn [few_items]. unfold entries_few. induction l as [|[k v] l IH].
  - split; [|done]. by intros _ kv ?%not_elem_of_nil.
  - rewrite andb_true_iff, IH. split.
    + intros [H1 H2] kv [->|Hin]%elem_of_cons; [done|by apply H2].
    + intros H. split; [apply (H (k, v)); [left|done]|]. intros kv Hin. apply H. by right.
Qed.

Lemma weights_cons p k v l : weights p ((k, v) :: l) = ((if p k then entry_weight k v (weight v) else 0) + weights p l)%nat.
Proof. done. Qed.
Lemma weights_every p l : (weights p l ≤ weights every l)%nat.
Proof. induction l as [|[k v] l IH]; [done|]. rewrite !weights_cons. cbn [every]. destruct (p k); lia. Qed.
Definition own_weight (p : string → bool) (k : string) (v : option node) : nat :=
  match v with Some v => if p k then entry_weight k v (weight v) else 0 | None => 0 end%nat.
Lemma weights_set p k v l : (weights p (set_key k v l) + own_weight p k (lookup_key k l) = weights p l + own_weight p k (Some v))%nat.
Proof.
  induction l as [|[k' w] l IH]; cbn [set_key lookup_key]; [rewrite weights_cons; cbn; lia|].
  destruct (String.eqb_spec k k') as [<-|]; rewrite !weights_cons; cbn [own_weight] in *; lia.
Qed.
Lemma weights_lookup p k v l : lookup_key k l = Some v → (own_weight p k (Some v) ≤ weights p l)%nat.
Proof. intros H. pose proof (weights_set p k undef l) as Hs. rewrite H in Hs. cbn [own_weight] in *. unfold entry_weight in Hs at 2. cbn in Hs. destruct (p k); lia. Qed.
Lemma weights_in p k v l : (k, v) ∈ l → p k = true → (entry_weight k v (weight v) ≤ weights p l)%nat.
Proof.
  intros H Hp. induction l as [|[k' w] l IH]; [by apply not_elem_of_nil in H|]. rewrite weights_cons.
  apply elem_of_cons in H as [[= <- <-]|H]; [rewrite Hp; lia|]. specialize (IH H). lia.
Qed.
Lemma weights_put p acc l : (weights p (put_all acc l) ≤ weights p acc + weights p l)%nat.
Proof.
  revert acc. induction l as [|[k v] l IH]; intros acc; cbn [put_all foldl]; [lia|]. change (foldl _ ?a l) with (put_all a l).
  pose proof (IH (set_key k v acc)). pose proof (weights_set p k v acc) as Hs. rewrite weights_cons. cbn [own_weight] in Hs. lia.
Qed.
Lemma entries_few_set p k v l : entries_few p l → (p k = true → entry_few (k, v) = true) → entries_few p (set_key k v l).
Proof. intros Hl Hv kv [->|Hin]%set_key_in; [done|]. by apply Hl. Qed.
Lemma entries_few_put p acc l : entries_few p acc → entries_few p l → entries_few p (put_all acc l).
Proof.
  revert acc. induction l as [|[k v] l IH]; intros acc Ha Hl; [done|]. cbn [put_all foldl]. change (foldl _ ?a l) with (put_all a l). apply IH.
  - apply entries_few_set; [done|]. apply (Hl (k, v)). left.
  - intros kv Hin. apply Hl. by right.
Qed.

(** Without a key the schema is lighter by what was under it. *)
Definition other_keys (k : string) (l : entries) : entries := List.filter (λ kv, negb (String.eqb k kv.1)) l.
Lemma weights_undef p k acc l : (weights p (set_key k undef (put_all acc l)) ≤ weights p (set_key k undef acc) + weights p (other_keys k l))%nat.
Proof.
  revert acc. induction l as [|[k' v] l IH]; intros acc; cbn [put_all foldl other_keys List.filter]; [lia|].
  change (foldl _ ?a l) with (put_all a l). change (List.filter _ l) with (other_keys k l). pose proof (IH (set_key k' v acc)) as H.
  cbn [fst]. destruct (String.eqb_spec k k') as [<-|Hk]; cbn [negb].
  - pose proof (weights_set p k undef (set_key k v acc)) as H1. pose proof (weights_set p k undef acc) as H2. pose proof (weights_set p k v acc) as H3.
    rewrite set_key_lookup in H1. lia.
  - pose proof (weights_set p k undef (set_key k' v acc)) as H1. pose proof (weights_set p k undef acc) as H2. pose proof (weights_set p k' v acc) as H3.
    rewrite set_key_other in H1 by done. rewrite weights_cons. cbn [own_weight] in H3. lia.
Qed.
Lemma weights_other p k v l : lookup_key k l = Some v → (weights p (other_keys k l) + own_weight p k (Some v) ≤ weights p l)%nat.
Proof.
  induction l as [|[k' w] l IH]; cbn [lookup_key other_keys List.filter]; [done|]. change (List.filter _ l) with (other_keys k l). cbn [fst].
  destruct (String.eqb_spec k k') as [<-|Hk]; cbn [negb].
  - intros [= ->]. rewrite weights_cons. cbn [own_weight]. clear IH. enough (weights p (other_keys k l) ≤ weights p l)%nat by lia.
    induction l as [|[k2 w2] l IH]; [done|]. cbn [other_keys List.filter fst]. change (List.filter _ l) with (other_keys k l).
    destruct (negb _); rewrite !weights_cons; lia.
  - intros H. rewrite !weights_cons. specialize (IH H). lia.
Qed.

(** The characters of a text. *)
Lemma chars_light p s : weights p (indexed (char_node <$> s)) = 0%nat ∧ entries_few p (indexed (char_node <$> s)).
Proof.
  assert (∀ kv, kv ∈ indexed (char_node <$> s) → all_digits kv.1 = true ∧ ∃ c, kv.2 = char_node c) as H.
  { intros kv (i & v & -> & Hv)%elem_of_lookup_imap_1. apply list_lookup_fmap_Some in Hv as (c & -> & _). split; [apply index_digits|by exists c]. }
  split.
  - revert H. generalize (indexed (char_node <$> s)) as l. induction l as [|[k v] l IH]; [done|]. intros H. rewrite weights_cons.
    destruct (H (k, v)) as [Hk [c Hc]]; [left|]. cbn in Hk, Hc. subst v. unfold entry_weight. rewrite Hk. cbn.
    rewrite IH; [by destruct (p k)|]. intros kv Hin. apply H. by right.
  - intros [k v] Hin _. destruct (H _ Hin) as [Hk [c Hc]]. cbn in Hk, Hc. subst v. unfold entry_few. cbn.
    destruct (String.eqb_spec k "minItems") as [->|]; done.
Qed.
Lemma own_entries_leaf p v : weights p (own_entries (Leaf v)) = 0%nat ∧ entries_few p (own_entries (Leaf v)).
Proof. assert (entries_few p []) by (by intros kv ?%not_elem_of_nil). destruct v; cbn [own_entries]; try done. apply chars_light. Qed.
Lemma own_entries_weight p e : (weights p (own_entries e) ≤ weight e)%nat.
Proof. destruct e as [v|a h l]; [by rewrite (proj1 (own_entries_leaf p v)); lia|]. rewrite weight_tree. pose proof (weights_every p l). cbn [own_entries]. lia. Qed.
Lemma own_entries_few p e : few_items e = true → entries_few p (own_entries e).
Proof. destruct e as [v|a h l]; [intros _; apply own_entries_leaf|]. intros H kv Hin _. by apply (proj1 (few_items_tree a h l) H). Qed.

Lemma merge_into_tree acc a h l : merge_into acc (Tree a h l) = foldl (λ acc '(k, v), set_key k
  (match lookup_key k acc, v with Some (Tree _ _ i), Tree a _ _ => Tree a None (merge_into i v) | _, _ => v end) acc) acc l.
Proof. revert acc. induction l as [|[k v] l IH]; intros acc; [done|]. apply IH. Qed.
Lemma merged_weight p acc e : (weights p (merge_into acc e) ≤ weights p acc + weights p (own_entries e))%nat.
Proof.
  revert p acc. induction e as [v|a h l IH] using node_ind; intros p acc; [apply weights_put|]. rewrite merge_into_tree. cbn [own_entries].
  revert acc. induction IH as [|[k v] l Hv _ IHl]; intros acc; cbn [foldl]; [lia|]. rewrite weights_cons.
  match goal with |- context [foldl ?f ?x l] => specialize (IHl x) end. etrans; [exact IHl|].
  set (x := match lookup_key k acc, v with Some _, _ => _ | None, _ => _ end). pose proof (weights_set p k x acc) as Hs.
  change (if p k then entry_weight k v (weight v) else 0%nat) with (own_weight p k (Some v)).
  enough (own_weight p k (Some x) ≤ own_weight p k (lookup_key k acc) + own_weight p k (Some v))%nat by lia.
  unfold x. destruct (lookup_key k acc) as [[|b hb i]|]; try (cbn [own_weight]; lia). destruct v as [|a2 h2 i2]; [cbn [own_weight]; lia|].
  cbn [own_weight]. destruct (p k); [|lia]. unfold entry_weight. cbn [is_defined]. rewrite !weight_tree. cbn [snd] in Hv.
  specialize (Hv every i). cbn [own_entries] in Hv. lia.
Qed.
Lemma merged_few p acc e : entries_few p acc → entries_few p (own_entries e) → entries_few p (merge_into acc e).
Proof.
  revert p acc. induction e as [v|a h l IH] using node_ind; intros p acc Ha He; [by apply entries_few_put|]. rewrite merge_into_tree. cbn [own_entries] in He.
  revert acc Ha. induction IH as [|[k v] l Hv _ IHl]; intros acc Ha; cbn [foldl]; [done|]. apply IHl; [intros kv Hin; apply He; by right|].
  apply entries_few_set; [done|]. intros Hp. pose proof (He (k, v) ltac:(left) Hp) as Hkv.
  destruct (lookup_key k acc) as [[|b hb i]|] eqn:E; try done. destruct v as [|a2 h2 i2]; [done|].
  apply lookup_key_in in E. pose proof (Ha _ E Hp) as Hi. unfold entry_few in *. cbn [fst snd few] in *.
  apply andb_true_iff in Hkv as [H1 H2%few_items_tree], Hi as [_ H3%few_items_tree]. rewrite H1. apply few_items_tree. by apply Hv.
Qed.

(** ** Smaller schemas *)

Definition schema_few (e : node) : Prop := entries_few sampled_key (own_entries e).
Definition lighter (e' e : node) : Prop := (schema_weight e' < schema_weight e)%nat ∧ schema_few e'.
Lemma schema_weight_fresh l : schema_weight (fresh l) = S (weights sampled_key l).
Proof. done. Qed.
Lemma schema_weight_below e : (schema_weight e ≤ weight e)%nat.
Proof. destruct e as [|a h l]; [done|]. rewrite weight_tree. cbn [schema_weight]. pose proof (weights_every sampled_key l). lia. Qed.
Lemma few_schema e : few_items e = true → schema_few e.
Proof. apply own_entries_few. Qed.

(** What is under a key. *)
Lemma sub_lookup k e : is_defined (sub k e) = true → ∃ a h l, e = Tree a h l ∧ lookup_key k l = Some (sub k e).
Proof.
  destruct e as [|a h l]; [done|]. cbn [sub]. intros H. exists a, h, l. split; [done|]. by destruct (lookup_key k l).
Qed.
Lemma sub_smaller k e : is_defined (sub k e) = true → sampled_key k = true → all_digits k = false →
  (S (S (weight (sub k e))) ≤ schema_weight e)%nat.
Proof.
  intros H Hk Hd. pose proof (sub_lookup _ _ H) as (a & h & l & -> & Hl). pose proof (weights_lookup sampled_key _ _ _ Hl) as Hw.
  cbn [own_weight] in Hw. rewrite Hk in Hw. unfold entry_weight in Hw. rewrite Hd, H in Hw. cbn [schema_weight]. lia.
Qed.
Lemma sub_few k e : schema_few e → is_defined (sub k e) = true → sampled_key k = true → entry_few (k, sub k e) = true.
Proof. intros He (a & h & l & -> & H%lookup_key_in)%sub_lookup Hk. by apply (He _ H). Qed.
Lemma sub_items_few k e : schema_few e → is_defined (sub k e) = true → sampled_key k = true → few_items (sub k e) = true.
Proof. intros He Hd Hk. by apply (sub_few k e He) in Hd as [_ H]%andb_true_iff. Qed.
Lemma truthy_defined e : truthy e = true → is_defined e = true.
Proof. by destruct e as [[]|]. Qed.

(** Some keys undefined. *)
Lemma set_undef_few p k l : entries_few p l → entries_few p (set_key k undef l).
Proof. intros Hl. apply entries_few_set; [done|]. intros _. unfold entry_few. cbn [fst snd few_items]. rewrite andb_true_r. apply orb_true_iff. by right. Qed.
Lemma undef_smaller k e : is_defined (sub k e) = true → sampled_key k = true → all_digits k = false →
  (S (weights sampled_key (set_key k undef (put_all [] (own_entries e)))) < schema_weight e)%nat.
Proof.
  intros H Hk Hd. pose proof (sub_lookup _ _ H) as (a & h & l & -> & Hl). pose proof (weights_other sampled_key _ _ _ Hl) as Ho.
  pose proof (weights_undef sampled_key k [] l) as Hu. cbn [set_key] in Hu. rewrite (weights_cons _ k undef []) in Hu.
  cbn [own_weight] in Ho. rewrite Hk in Ho, Hu. unfold entry_weight in Ho, Hu. rewrite Hd, H in Ho. cbn [is_defined undef defined] in Hu.
  cbn [own_entries schema_weight]. change (weights sampled_key []) with 0%nat in Hu. lia.
Qed.
Lemma undef_twice k k' l : k ≠ k' → (weights sampled_key (set_key k' undef (set_key k undef l)) ≤ weights sampled_key (set_key k undef l) `min` weights sampled_key (set_key k' undef l))%nat.
Proof.
  intros Hk. pose proof (weights_set sampled_key k' undef (set_key k undef l)) as H1. pose proof (weights_set sampled_key k' undef l) as H2.
  pose proof (weights_set sampled_key k undef l) as H3. rewrite set_key_other in H1 by done.
  assert (∀ j, own_weight sampled_key j (Some undef) = 0%nat) as Hu by (intros j; cbn; by destruct (sampled_key j)). rewrite Hu in *. lia.
Qed.
Lemma put_own_few e : schema_few e → entries_few sampled_key (put_all [] (own_entries e)).
Proof. intros He. apply entries_few_put; [|done]. by intros kv ?%not_elem_of_nil. Qed.
Lemma without_allOf e : schema_few e → is_defined (sub "allOf" e) = true → lighter (with_keys e [("allOf"%string, undef)]) e.
Proof. intros He H. split; [by apply undef_smaller|]. by apply set_undef_few, put_own_few. Qed.
Lemma without_alternatives k e : k = "oneOf"%string ∨ k = "anyOf"%string → schema_few e → is_defined (sub k e) = true →
  lighter (with_keys e [("oneOf"%string, undef); ("anyOf"%string, undef)]) e.
Proof.
  intros Hk He H. split; [|by do 2 apply set_undef_few; apply put_own_few]. unfold with_keys. rewrite schema_weight_fresh. cbn [put_all foldl].
  change (foldl _ [] (own_entries e)) with (put_all [] (own_entries e)).
  pose proof (undef_twice "oneOf" "anyOf" (put_all [] (own_entries e)) ltac:(done)).
  pose proof (undef_smaller k e H). destruct Hk as [-> | ->]; specialize (H1 eq_refl eq_refl); lia.
Qed.

(** What is put over keys that are not sampled. *)
Lemma over_lighter base m e : weights sampled_key base = 0%nat → entries_few sampled_key base → few_items m = true →
  (2 + weight m ≤ schema_weight e)%nat → lighter (over base m) e.
Proof.
  intros Hb Hf Hm He. split; [|apply entries_few_put; [done|by apply own_entries_few]]. unfold over. rewrite schema_weight_fresh.
  pose proof (weights_put sampled_key base (own_entries m)). pose proof (own_entries_weight sampled_key m). lia.
Qed.
Lemma entry_weight_value k v : (weight v ≤ entry_weight k v (weight v))%nat.
Proof. unfold entry_weight. destruct (is_defined v) eqn:E; [lia|]. by destruct v. Qed.

(** A part of a value: no heavier, and with few items. *)
Definition part_of (x e : node) : Prop := (weight x ≤ weight e)%nat ∧ (few_items e = true → few_items x = true).
Lemma part_undef e : part_of undef e.
Proof. split; [cbn; lia|done]. Qed.
Lemma part_entry k x a h l : (k, x) ∈ l → part_of x (Tree a h l).
Proof.
  intros H. split.
  - rewrite weight_tree. pose proof (weights_in every k x l H eq_refl). pose proof (entry_weight_value k x). lia.
  - intros Hl%few_items_tree. specialize (Hl _ H eq_refl). by apply andb_true_iff in Hl as [_ Hl].
Qed.
Lemma part_lookup k a h l : part_of (default undef (lookup_key k l)) (Tree a h l).
Proof. destruct (lookup_key k l) eqn:E; [|apply part_undef]. apply lookup_key_in in E. by eapply part_entry. Qed.
Lemma part_char c e : part_of (char_node c) e.
Proof. split; [cbn; lia|done]. Qed.
Lemma part_first e : part_of (first_item e) e.
Proof. destruct e as [v|a h l]; [destruct v; try apply part_undef; cbn; destruct s; [apply part_undef|apply part_char]|apply part_lookup]. Qed.
Lemma part_iterate e l x : iterate e = Ok l → x ∈ l → part_of x e.
Proof.
  destruct e as [v|[] h es]; [destruct v; try done| |done]; cbn [iterate]; intros [= <-] (i & -> & _)%list_elem_of_fmap; [apply part_char|apply part_lookup].
Qed.
Lemma part_item a k : (schema_weight (item_schema a k) ≤ 1 `max` weight a)%nat ∧ (few_items a = true → schema_few (item_schema a k)).
Proof.
  unfold item_schema. set (x := match a with Leaf _ => a | Tree _ _ _ => _ end).
  assert (part_of x a) as [Hw Hf] by (unfold x; destruct a as [|[] h l]; [done|apply part_lookup|done]).
  unfold or_node. destruct (truthy x); [|split; [cbn; lia|by intros _ kv ?%not_elem_of_nil]].
  split; [pose proof (schema_weight_below x); lia|]. intros Ha. by apply few_schema, Hf.
Qed.

(** Without [if] and [then], which are merged in. *)
Lemma without_if_then l :
  List.filter (λ '(k, _), negb (String.eqb k "if" || String.eqb k "then")) l = other_keys "then" (other_keys "if" l).
Proof.
  induction l as [|[k v] l IH]; [done|]. cbn [List.filter other_keys fst]. rewrite (String.eqb_sym "if" k).
  destruct (String.eqb k "if"); cbn [orb negb other_keys List.filter fst]; [exact IH|]. rewrite (String.eqb_sym "then" k).
  destruct (String.eqb k "then"); cbn [negb]; [exact IH|]. by f_equal.
Qed.
Lemma other_lookup k k' (l : entries) : k ≠ k' → lookup_key k' (other_keys k l) = lookup_key k' l.
Proof.
  intros Hk. induction l as [|[j v] l IH]; [done|]. cbn [other_keys List.filter fst lookup_key]. change (List.filter _ l) with (other_keys k l).
  destruct (String.eqb_spec k j) as [<-|]; cbn [negb lookup_key]; [|by rewrite IH]. destruct (String.eqb_spec k' k) as [->|]; [done|exact IH].
Qed.
Lemma other_few k l p : entries_few p l → entries_few p (other_keys k l).
Proof. intros H kv Hin. apply H. apply list_elem_of_In in Hin. apply filter_In in Hin as [Hin _]. by apply list_elem_of_In. Qed.
Lemma conditional_lighter e : schema_few e → is_defined (sub "if" e) = true → is_defined (sub "then" e) = true → lighter (conditional e) e.
Proof.
  intros He Hi Ho. pose proof (sub_items_few _ _ He Hi eq_refl) as Hif. pose proof (sub_items_few _ _ He Ho eq_refl) as Hof.
  pose proof (sub_lookup _ _ Hi) as (a & h & l & -> & Hli). pose proof (sub_lookup _ _ Ho) as (? & ? & ? & [= <- <- <-] & Hlo).
  unfold conditional, Vc. cbn [foldl]. rewrite without_if_then. cbn [own_entries]. set (i := sub "if" _) in *. set (o := sub "then" _) in *.
  set (l' := other_keys "then" (other_keys "if" l)). change (merge_into [] (fresh l')) with (merge_into [] (Tree false None l')).
  assert (entries_few sampled_key []) as Hn by (by intros kv ?%not_elem_of_nil). split.
  - cbn [schema_weight]. pose proof (merged_weight sampled_key (merge_into (merge_into [] (fresh l')) i) o) as H1.
    pose proof (merged_weight sampled_key (merge_into [] (fresh l')) i) as H2. pose proof (merged_weight sampled_key [] (fresh l')) as H3.
    pose proof (own_entries_weight sampled_key i). pose proof (own_entries_weight sampled_key o).
    pose proof (weights_other sampled_key _ _ _ Hli) as H4.
    rewrite <- (other_lookup "if" "then") in Hlo by done. pose proof (weights_other sampled_key _ _ _ Hlo) as H5.
    cbn [own_weight] in H4, H5. change (sampled_key "if") with true in H4. change (sampled_key "then") with true in H5.
    unfold entry_weight in H4, H5. rewrite Hi in H4. rewrite Ho in H5. cbn [own_entries fresh] in H3. change (weights sampled_key []) with 0%nat in H3.
    change (all_digits "if") with false in H4. change (all_digits "then") with false in H5. unfold fresh in *. subst l'. lia.
  - apply merged_few; [apply merged_few; [apply merged_few; [done|]|by apply own_entries_few]|by apply own_entries_few].
    by do 2 apply other_few.
Qed.

(** ** Parts of the document *)

Lemma from_doc_obj p l : from_doc p (JsObj l) = Tree false (Some p) ((λ '(k, v), (k, from_doc (p ++ [k]) v)) <$> l).
Proof. cbn [from_doc]. f_equal. induction l as [|[k v] l IH]; [done|]. cbn. by rewrite IH. Qed.
Lemma from_doc_arr p l : from_doc p (JsArr l) = Tree true (Some p) (imap (λ i v, (pretty (Z.of_nat i), from_doc (p ++ [pretty (Z.of_nat i)]) v)) l).
Proof.
  cbn [from_doc]. f_equal.
  assert (∀ n, (fix go (i : nat) (l : list jsval) : entries := match l with [] => [] | v :: l =>
    (pretty (Z.of_nat i), from_doc (p ++ [pretty (Z.of_nat i)]) v) :: go (S i) l end) n l =
    imap (λ i v, (pretty (Z.of_nat (n + i)), from_doc (p ++ [pretty (Z.of_nat (n + i))]) v)) l) as H; [|exact (H 0%nat)].
  induction l as [|v l IH]; intros n; [done|]. cbn. rewrite IH, Nat.add_0_r. f_equal. apply imap_ext. intros i w _. cbn.
  by rewrite <- Nat.add_succ_r.
Qed.
Lemma few_same p q v : few (from_doc p v) = few (from_doc q v).
Proof. by destruct v. Qed.
Lemma few_items_same v : ∀ p q, few_items (from_doc p v) = true → few_items (from_doc q v) = true.
Proof.
  induction v as [| |b|x|s|l IH|l IH] using jsval_ind; intros p q; try done.
  - rewrite !from_doc_arr, !few_items_tree. intros H kv (i & v & -> & Hi)%elem_of_lookup_imap_1 _. unfold entry_few. cbn [fst snd].
    specialize (H (pretty (Z.of_nat i), from_doc (p ++ [pretty (Z.of_nat i)]) v)). unfold entry_few in H. cbn [fst snd] in H.
    rewrite (few_same _ p). destruct (andb_prop _ _ (H ltac:(apply elem_of_lookup_imap; eauto) eq_refl)) as [H1 H2]. rewrite (few_same _ p) in H1. rewrite H1.
    rewrite Forall_forall in IH. eapply IH; [by eapply list_elem_of_lookup_2|exact H2].
  - rewrite !from_doc_obj, !few_items_tree. intros H kv ([k v] & -> & Hi)%list_elem_of_fmap _. unfold entry_few. cbn [fst snd].
    specialize (H (k, from_doc (p ++ [k]) v)). unfold entry_few in H. cbn [fst snd] in H.
    rewrite (few_same _ p). destruct (andb_prop _ _ (H ltac:(apply list_elem_of_fmap; by exists (k, v)) eq_refl)) as [H1 H2]. rewrite (few_same _ p) in H1. rewrite H1.
    rewrite Forall_forall in IH. eapply (IH (k, v)); [done|exact H2].
Qed.
Lemma few_step v k w : few_items (from_doc [] v) = true → step v k = Ok w → few_items (from_doc [] w) = true.
Proof.
  intros Hv. destruct v as [| |b|x|s|l|l]; try done; cbn [step].
  - destruct (element l k) as [y|] eqn:E; [|done]. intros [= <-]. unfold element in E. apply find_some in E as [E _].
    apply list_elem_of_In, list_elem_of_omap in E as ([i z] & Hin & Hk). destruct (String.eqb k _); [|done]. injection Hk as ->.
    apply elem_of_lookup_imap_1 in Hin as (i' & z' & [= -> ->] & Hi). rewrite from_doc_arr in Hv.
    eapply few_items_same, (part_entry (pretty (Z.of_nat i')) (from_doc ([] ++ [pretty (Z.of_nat i')]) z')); [|exact Hv].
    apply elem_of_lookup_imap. eauto.
  - destruct (lookup_key k l) as [y|] eqn:E; [|done]. intros [= <-]. apply lookup_key_in in E. rewrite from_doc_obj in Hv.
    eapply few_items_same, (part_entry k (from_doc ([] ++ [k]) y)); [|exact Hv]. apply list_elem_of_fmap. by exists (k, y).
Qed.
Lemma few_located doc i e : few_items (from_doc [] doc) = true → located doc i = Ok e → few_items e = true.
Proof.
  unfold located, JsonPointer.get. intros Hd. destruct (parse i) as [ks|]; [|done]. cbn.
  destruct (walk_tokens doc ks) as [w|] eqn:Ew; [|done]. cbn. intros [= <-]. apply (few_items_same w []). revert doc Hd Ew.
  induction ks as [|k ks IH]; intros doc Hd; cbn [walk_tokens]; [by intros [= <-]|]. destruct (step doc k) as [v|] eqn:E; [|done]. cbn.
  apply IH. by eapply few_step.
Qed.

(** ** Every call ends *)

Lemma ends_eventually {A} n (m m' : nat → out A) P : (∀ f, (n ≤ f)%nat → m f = m' f) → ends m' P → ends m P.
Proof. intros H (r & [f Hf] & HP). exists r. split; [|done]. exists (n `max` f)%nat. intros g Hg. rewrite H by lia. apply Hf. lia. Qed.
Lemma ends_const_some {A} (m : out A) : m ≠ None → ends (λ _, m) (λ _, True).
Proof. destruct m as [r|]; [|done]. intros _. by apply ends_const. Qed.

(** Pointers that are not in use. *)
Definition room (ps : list string) (s : state) : nat := length (List.filter (λ i, negb (in_use i s)) ps).
Lemma room_take ps i s : i ∈ ps → in_use i s = false → (room ps (take_ref i s) < room ps s)%nat.
Proof.
  unfold room. intros Hin Hi.
  assert (∀ j, negb (in_use j (take_ref i s)) = true → negb (in_use j s) = true) as Hsub.
  { intros j. unfold in_use. rewrite !negb_true_iff, !bool_decide_eq_false. intros H Hj. apply H. by right. }
  assert (∀ l, (length (List.filter (λ i0, negb (in_use i0 (take_ref i s))) l) ≤ length (List.filter (λ i0, negb (in_use i0 s)) l))%nat) as Hle.
  { induction l as [|j l IH]; [done|]. cbn [List.filter]. destruct (negb (in_use j (take_ref i s))) eqn:E; [rewrite (Hsub j E); cbn [length]; lia|].
    destruct (negb (in_use j s)); cbn [length]; lia. }
  induction ps as [|j ps IH]; [by apply not_elem_of_nil in Hin|]. cbn [List.filter]. apply elem_of_cons in Hin as [<-|Hin].
  - rewrite Hi. unfold in_use at 1. rewrite bool_decide_eq_true_2 by left. cbn [negb length]. pose proof (Hle ps). lia.
  - specialize (IH Hin). destruct (negb (in_use j (take_ref i s))) eqn:E; [rewrite (Hsub j E); cbn [length]; lia|]. destruct (negb (in_use j s)); cbn [length]; lia.
Qed.

Lemma array_length_bound {A} (l : list (string * A)) : Z.of_nat (array_length l) <= 2 ^ 32 - 1.
Proof.
  induction l as [|[k v] l IH]; [cbn; lia|]. cbn [array_length foldr]. change (foldr _ _ l) with (array_length l). destruct (index_of k) as [i|] eqn:E; [|done].
  enough (Z.of_nat i < 2 ^ 32 - 1) by lia. unfold index_of in E. destruct (take_digits _) as [[|c ds] [|]]; try done.
  destruct (_ && _) eqn:Hn; [|done]. injection E as <-. apply andb_true_iff in Hn as [_ Hn%Z.ltb_lt]. lia.
Qed.

Section ends.
Context (t doc : jsval).
(** A call ends, and leaves the state as it was. *)
Definition settles (e : node) (r : option context) (s : state) : Prop := ends (λ f, Jc f t doc e r s) (λ x, x.2 = s).

Section one_call.
Context (e : node) (s : state) (He : schema_few e) (Hsub : ∀ e' r s', Qc s' = Qc s → lighter e' e → settles e' r s').

Lemma part_lighter k x : sampled_key k = true → all_digits k = false → is_defined (sub k e) = true → part_of x (sub k e) → lighter x e.
Proof.
  intros Hk Hd Hs [Hw Hf]. pose proof (sub_smaller _ _ Hs Hk Hd). pose proof (schema_weight_below x). split; [lia|].
  apply few_schema, Hf. by apply sub_items_few.
Qed.
Lemma tree_defined k a h l : sub k e = Tree a h l → is_defined (sub k e) = true.
Proof. by intros ->. Qed.

Lemma property_settles r s' i kv : Qc s' = Qc s → lighter kv.2 e →
  ends (λ f, sample_property t (Jc f t doc) e r (i, s') kv) (λ a, a.2 = s').
Proof.
  intros Hs Hl. destruct kv as [k v]. unfold sample_property.
  apply (ends_then (λ _, _) (λ f (skip : bool), if skip then done (i, s') else _) (λ _, True)).
  - destruct (js_truthy _); [apply ends_const; by intros|by apply ends_done].
  - intros [] _; [by apply ends_done|]. apply (ends_then (λ f, Jc f t doc v _ s') (λ _ '(x, s), _) (λ x, x.2 = s')); [by apply Hsub|].
    intros [x s2] Hx. cbn in Hx. subst s2. destruct (_ || _); by apply ends_done.
Qed.
Lemma object_settles r s' : Qc s' = Qc s → ends (λ f, object_sample t (Jc f t doc) e r s') (λ a, a.2 = s').
Proof.
  intros Hs. unfold object_sample.
  apply (ends_then (λ f, sample_properties t (Jc f t doc) e r s') (λ f a, _) (λ a, a.2 = s')).
  { unfold sample_properties. destruct (sub "properties" e) as [v|a h l] eqn:E.
    - destruct v; try (by apply ends_done). by apply ends_const.
    - apply (ends_for_in (λ f, sample_property t (Jc f t doc) e r)); [done|]. intros [k v] [i s2] Hin Hs2. cbn in Hs2. subst s2.
      apply property_settles; [done|]. apply (part_lighter "properties"); rewrite ?E; [done..|]. by eapply part_entry. }
  intros a1 Ha1. apply (ends_then (λ f, sample_additional (Jc f t doc) e r a1) (λ f a, _) (λ a, a.2 = s')).
  { destruct a1 as [i s2]. cbn in Ha1. subst s2. unfold sample_additional. destruct (sub "additionalProperties" e) as [v|a h l] eqn:E.
    - destruct v; try (by apply ends_done). by apply ends_const.
    - assert (∀ s2, s2 = s' → ends (λ f, Jc f t doc (Tree a h l) (next None r) s2) (λ x, x.2 = s')) as Hj.
      { intros ? ->. apply Hsub; [done|]. apply (part_lighter "additionalProperties"); rewrite ?E; [done..|]. split; [done|by rewrite ?E]. }
      apply (ends_then (λ f, Jc f t doc _ _ s') (λ f '(x, s), _) (λ x, x.2 = s')); [by apply Hj|]. intros [x s2] Hx. cbn in Hx.
      apply (ends_then (λ f, Jc f t doc _ _ s2) (λ _ '(y, s), _) (λ x, x.2 = s')); [by apply Hj|]. intros [y s3] Hy. by apply ends_done. }
  intros [i s2] Hx. cbn in Hx. subst s2. apply (ends_then (λ _, at_most e i) (λ _ i, done (fresh i, s')) (λ _, True)); [|by intros; apply ends_done].
  unfold at_most. destruct (_ && _); [|by apply ends_done].
  apply (ends_then (λ _, for_in (keep_more _) _ i) (λ _ '(l, _), done l) (λ _, True)); [|by intros []; intros; apply ends_done].
  apply (ends_for_in (λ _, keep_more _)); [done|]. intros kv acc _ _. unfold keep_more. destruct (nltb _ _); [|by apply ends_done].
  apply (ends_then (λ _, of_result _) (λ _ (own : bool), done _) (λ _, True)); [by apply ends_const|]. intros; by apply ends_done.
Qed.

Lemma or_node_cases a b : truthy (or_node a b) = true → or_node a b = a ∧ truthy a = true ∨ or_node a b = b ∧ truthy b = true.
Proof. unfold or_node. destruct (truthy a) eqn:E; auto. Qed.
Lemma items_few : truthy (items_of e) = true → reachable (item_count e) = true ∧ ∀ k, lighter (item_schema (items_of e) k) e.
Proof.
  intros Ht. split.
  - unfold item_count. assert (reachable (js_number (js_or (value_of (sub "minItems" e)) (JsNum (of_Z 1)))) = true) as Hm.
    { destruct (is_defined (sub "minItems" e)) eqn:E; [|destruct (sub "minItems" e) as [[]|]; done].
      apply sub_few in E; [|done..]. apply andb_true_iff in E as [E _]. cbn [fst snd orb negb] in E. change (few (sub "minItems" e) = true) in E.
      destruct (sub "minItems" e) as [v|[] h l]; [done|done|]. cbn [value_of js_or js_truthy]. by vm_compute. }
    assert (reachable (nmin (if nullish (sub "maxItems" e) then infinite false else js_number (value_of (sub "maxItems" e)))
      (js_number (js_or (value_of (sub "minItems" e)) (JsNum (of_Z 1))))) = true) as Hn by (by apply reachable_min).
    destruct (items_of e) as [v|[] h l]; [done| |done]. apply reachable_max; [done|]. apply reachable_int. pose proof (array_length_bound l). lia.
  - intros k.
    assert (∀ n x, sampled_key n = true → all_digits n = false → x = sub n e → truthy x = true → lighter (item_schema x k) e) as H.
    { intros n x Hn Hd -> Hx. apply truthy_defined in Hx. pose proof (sub_smaller _ _ Hx Hn Hd). pose proof (part_item (sub n e) k) as [Hw Hf].
      split; [lia|]. by apply Hf, sub_items_few. }
    unfold items_of in *. destruct (or_node_cases _ _ Ht) as [[E Hx]|[E Hx]]; rewrite E; [|by apply (H "contains"%string)].
    destruct (or_node_cases _ _ Hx) as [[E2 Hy]|[E2 Hy]]; rewrite E2; [by apply (H "prefixItems"%string)|by apply (H "items"%string)].
Qed.
Lemma sample_items_settle r s' a o n : Qc s' = Qc s → (∀ k, lighter (item_schema a k) e) → nltb (counter n) o = false →
  ∀ m k j acc, (k + m = n)%nat → ends (λ f, sample_items (Jc f t doc) (f - j) a o r k acc s') (λ x, x.2 = s').
Proof.
  intros Hs Ha Ho m. assert (∀ k acc f J, nltb (counter k) o = false → sample_items J f a o r k acc s' = done (acc, s')) as Hstop.
  { intros k acc f J Hk. destruct f; cbn [sample_items]; by rewrite Hk. }
  induction m as [|m IH]; intros k j acc Hk.
  - rewrite Nat.add_0_r in Hk. subst k. apply (ends_eventually 0 _ (λ _, done (acc, s'))); [intros; by apply Hstop|by apply ends_done].
  - destruct (nltb (counter k) o) eqn:E.
    + apply (ends_eventually (S j) _ (λ f, '(x, s2) ⇐ Jc f t doc (item_schema a k) (next None r) s';
        sample_items (Jc f t doc) (f - S j) a o r (S k) (acc ++ [value x]) s2)).
      { intros f Hf. replace (f - j)%nat with (S (f - S j)) by lia. cbn [sample_items]. by rewrite E. }
      apply (ends_then (λ f, Jc f t doc _ _ s') (λ f '(x, s2), _) (λ x, x.2 = s')); [by apply Hsub|].
      intros [x s2] Hx. cbn in Hx. subst s2. apply IH. lia.
    + apply (ends_eventually 0 _ (λ _, done (acc, s'))); [intros; by apply Hstop|by apply ends_done].
Qed.
Lemma array_settles r s' : Qc s' = Qc s → ends (λ f, array_sample (Jc f t doc) f e r s') (λ a, a.2 = s').
Proof.
  intros Hs. unfold array_sample. destruct (truthy (items_of e)) eqn:Ht; [|by apply ends_done].
  destruct (items_few Ht) as [Hr Hl]. destruct (counter_stops _ Hr) as [n Hn].
  apply (ends_then (λ f, sample_items (Jc f t doc) f _ _ r 0 [] s') (λ _ '(l, s), _) (λ a, a.2 = s')).
  - apply (ends_eventually 0 _ (λ f, sample_items (Jc f t doc) (f - 0) (items_of e) (item_count e) r 0 [] s')); [intros f _; by rewrite Nat.sub_0_r|].
    by apply (sample_items_settle r s' _ _ n Hs Hl Hn n).
  - intros [l s2] Hx. by apply ends_done.
Qed.
Lemma string_ends n : ends (λ _, string_sample e n) (λ _, True).
Proof.
  apply ends_const_some. unfold string_sample. set (i := text _). set (o := default iu (lookup_key i ou)).
  assert (∀ a b c d, o a b c d ≠ None) as Ho.
  { assert (∀ a b c d, iu a b c d ≠ None) as Hiu.
    { intros. unfold iu. destruct (js_truthy d); [apply pattern_ends|]. unfold of_result. by destruct (qc _ _). }
    assert (Forall (λ kv : string * format, ∀ a b c d, kv.2 a b c d ≠ None) ou) as Hou.
    { repeat constructor; try done. intros a b c d. cbn [snd]. unfold password. destruct (nltb _ _); [|done]. unfold of_result. by destruct (qc _ _). }
    intros a b c d. unfold o. destruct (lookup_key i ou) as [g|] eqn:E; [|apply Hiu]. apply lookup_key_in in E.
    rewrite Forall_forall in Hou. by apply (Hou _ E). }
  specialize (Ho (js_number (js_or (value_of (sub "minLength" e)) (JsNum (of_Z 0)))) (value_of (sub "maxLength" e)) n (value_of (sub "pattern" e))).
  by destruct (o _ _ _ _) as [[]|].
Qed.
Lemma au_settles r s' o : Qc s' = Qc s →
  (∀ f, au t (Jc f t doc) f o e r s' = None) ∨ ∃ m, (∀ f, au t (Jc f t doc) f o e r s' = Some (m f)) ∧ ends m (λ a, a.2 = s').
Proof.
  intros Hs. unfold au. repeat match goal with |- context [String.eqb (text _) ?b] => destruct (String.eqb (text (value_of o)) b) end; cbn [orb];
    try (by left); right; eexists; (split; [reflexivity|]); try (by apply ends_done).
  - by apply array_settles.
  - by apply object_settles.
  - apply (ends_then (λ _, string_sample e _) (λ _ v, done (v, s')) (λ _, True)); [apply string_ends|]. intros; by apply ends_done.
Qed.

Lemma plain_settles r s' : Qc s' = Qc s → ends (λ f, plain_sample t (Jc f t doc) f e r s') (λ x, x.2 = Hc r s').
Proof.
  intros Hs. unfold plain_sample. apply (ends_then (λ _, of_result (Kc e)) (λ f i, _) (λ _, True)); [by apply ends_const|]. intros i _.
  destruct (is_defined i); [by apply ends_done|]. set (o := match sub "type" e with Leaf _ => _ | _ => _ end).
  apply (ends_then (λ _, if truthy o then done o else of_result (Gc e)) (λ f o, _) (λ _, True)); [destruct (truthy o); by apply ends_const|]. intros ty _.
  destruct (au_settles r s' ty Hs) as [Hn|(m & Hm & Hends)].
  - apply (ends_eventually 0 _ (λ _, done (sampled_as e null ty, Hc r s'))); [intros f _; by rewrite Hn|by apply ends_done].
  - apply (ends_eventually 0 _ (λ f, '(v, s) ⇐ m f; done (sampled_as e v ty, Hc r s))); [intros f _; by rewrite Hm|].
    apply (ends_then m (λ _ '(v, s), _) _ _ Hends). intros [v s2] Hx. cbn in Hx. subst s2. by apply ends_done.
Qed.
Lemma alternative_settles k r s' : k = "oneOf"%string ∨ k = "anyOf"%string → Qc s' = Qc s → is_defined (sub k e) = true →
  ends (λ f, alternative (Jc f t doc) e (first_alternative k e) r s') (λ x, x.2 = s').
Proof.
  intros Hk Hs Hd. unfold alternative. apply (ends_then (λ _, of_result (Zc e)) (λ f z, _) (λ _, True)); [by apply ends_const|].
  intros [z|] _; [by apply ends_done|]. apply (ends_then (λ f, Jc f t doc _ r s') (λ f '(a, s), _) (λ x, x.2 = s')).
  { apply Hsub; [done|]. by eapply without_alternatives. }
  intros [a s2] Hx. cbn in Hx. subst s2. apply (ends_then (λ f, Jc f t doc _ r s') (λ _ '(x, s), _) (λ x, x.2 = s')).
  { apply Hsub; [done|]. destruct (part_first (sub k e)) as [Hw Hf]. apply over_lighter; [done| |apply Hf|].
    - intros kv. cbn. intros [->|[->|Hn]%elem_of_cons]%elem_of_cons; [done|done|by apply not_elem_of_nil in Hn].
    - apply sub_items_few; [done|done|by destruct Hk as [-> | ->]].
    - pose proof (sub_smaller k e Hd). destruct Hk as [-> | ->]; specialize (H eq_refl eq_refl); lia. }
  intros [x s2] Hx. cbn in Hx. subst s2. destruct (_ && _); by apply ends_done.
Qed.
Lemma all_of_settles r s' : Qc s' = Qc s → is_defined (sub "allOf" e) = true → ends (λ f, all_of (Jc f t doc) e r s') (λ x, x.2 = s').
Proof.
  intros Hs Hd. unfold all_of. apply (ends_then (λ f, Jc f t doc _ None s') (λ f '(o, s), _) (λ x, x.2 = s')).
  { apply Hsub; [done|]. by apply without_allOf. }
  intros [o s2] Hx. cbn in Hx. subst s2. apply (ends_then (λ _, of_result (iterate (sub "allOf" e))) (λ f l, _)
    (λ l, ∀ m, m ∈ l → part_of m (sub "allOf" e))).
  { apply ends_const. intros l Hl m. by apply part_iterate. }
  intros l Hl. apply (ends_then (λ f, for_in (all_of_member (Jc f t doc) r) (o, [], s') l) (λ _ '(o, a, s), _) (λ x, x.2 = s')).
  - apply (ends_for_in (λ f, all_of_member (Jc f t doc) r)); [done|]. intros m [[o1 a] s2] Hin Hx. cbn in Hx. subst s2. unfold all_of_member.
    apply (ends_then (λ f, Jc f t doc _ r s') (λ _ '(x, s), _) (λ x, x.2 = s')).
    + apply Hsub; [done|]. destruct (Hl m Hin) as [Hw Hf]. apply over_lighter; [done| |apply Hf|].
      * intros kv. cbn. intros ->%list_elem_of_singleton. done.
      * by apply sub_items_few.
      * pose proof (sub_smaller _ e Hd eq_refl eq_refl). lia.
    + intros [x s2] Hx. cbn in Hx. subst s2. by apply ends_done.
  - intros [[o1 a] s2] Hx. cbn in Hx. subst s2. by apply ends_done.
Qed.

(** One call, of a schema that is no reference in use. *)
Lemma once_settles r :
  (∀ i o, located doc i = Ok o → in_use i s = false → settles o r (take_ref i (push r e s))) → settles e r s.
Proof.
  intros Href. assert (Hc r (push r e s) = s) as Hp by (by destruct r, s). assert (Qc (push r e s) = Qc s) as Hq by (by destruct r).
  unfold settles. apply ends_more. cbn [Jc]. unfold sample_once. destruct (if r is Some _ then _ else _).
  { apply (ends_then (λ _, of_result (Gc e)) (λ _ g, done (Wc g, s)) (λ _, True)); [by apply ends_const|]. intros; by apply ends_done. }
  destruct (too_deep t r).
  { apply (ends_then (λ _, of_result (Gc e)) (λ _ g, done (Wc g, Hc r (push r e s))) (λ _, True)); [by apply ends_const|]. intros; by apply ends_done. }
  apply (ends_then (λ _, of_result (get_key "$ref" e)) (λ f ref, _) (λ _, True)); [by apply ends_const|]. intros ref _. destruct (truthy ref).
  { unfold by_ref. destruct (js_truthy doc); [|by apply ends_const].
    apply (ends_then (λ _, of_result (decodeURIComponent _)) (λ f d, _) (λ _, True)); [by apply ends_const|]. intros d _.
    apply (ends_then (λ _, of_result (located doc (without_hash d))) (λ f o, _) (λ o, located doc (without_hash d) = Ok o)); [by apply ends_const|].
    intros o Ho. destruct (in_use (without_hash d) (push r e s)) eqn:Hi.
    - apply (ends_then (λ _, of_result (Gc o)) (λ _ g, done (Wc g, _)) (λ _, True)); [by apply ends_const|]. intros; by apply ends_done.
    - apply (ends_then (λ f, Jc f t doc o r _) (λ _ '(a, s), _) (λ x, x.2 = take_ref (without_hash d) (push r e s))).
      + apply Href; [done|]. unfold in_use in *. by rewrite Hq in Hi.
      + intros [a s2] Hx. cbn in Hx. subst s2. apply ends_done. cbn. by rewrite free_taken. }
  destruct (is_defined (sub "example" e)); [by apply ends_done|]. rewrite Hp. destruct (is_defined (sub "allOf" e)) eqn:Hall.
  { apply (ends_then (λ _, of_result (Zc e)) (λ f z, _) (λ _, True)); [by apply ends_const|]. intros [z|] _; [by apply ends_done|]. by apply all_of_settles. }
  assert (∀ k b, offers k e = Ok b → b = true → is_defined (sub k e) = true) as Hoff.
  { intros k b. unfold offers. destruct (truthy (sub k e)) eqn:E; [intros _ _; by apply truthy_defined|by intros [= <-]]. }
  apply (ends_then (λ _, of_result (offers "oneOf" e)) (λ f (one : bool), _) (λ b, offers "oneOf" e = Ok b)); [by apply ends_const|].
  intros [] Hone; [apply alternative_settles; [by left|done|by eapply Hoff]|].
  apply (ends_then (λ _, of_result (offers "anyOf" e)) (λ f (any : bool), _) (λ b, offers "anyOf" e = Ok b)); [by apply ends_const|].
  intros [] Hany; [apply alternative_settles; [by right|done|by eapply Hoff]|].
  destruct (truthy (sub "if" e) && truthy (sub "then" e)) eqn:Hif.
  - apply andb_true_iff in Hif as [H1%truthy_defined H2%truthy_defined]. apply Hsub; [done|]. by apply conditional_lighter.
  - eapply ends_weaken; [by apply plain_settles|]. intros x ->. exact Hp.
Qed.
End one_call.

Lemma all_settle (ps : list string) : (∀ i o, located doc i = Ok o → i ∈ ps) → (∀ i o, located doc i = Ok o → few_items o = true) →
  ∀ e r s, schema_few e → settles e r s.
Proof.
  intros Hps Hfew. assert (∀ n w e r s, (room ps s ≤ n)%nat → (schema_weight e ≤ w)%nat → schema_few e → settles e r s) as H; [|by intros; eapply H].
  intros n. induction (lt_wf n) as [n _ IHn]. intros w. induction (lt_wf w) as [w _ IHw]. intros e r s Hn Hw He.
  assert (∀ a b, Qc a = Qc b → room ps a = room ps b) as Hroom.
  { intros a b Hab. unfold room, in_use. by rewrite Hab. }
  apply once_settles; [done|..].
  - intros e' r' s' Hs [Hlt Hf]. apply (IHw (schema_weight e')); [lia|rewrite (Hroom _ _ Hs); lia|lia|done].
  - intros i o Ho Hi. assert (Qc (push r e s) = Qc s) as Hq by (by destruct r).
    assert (in_use i (push r e s) = false) as Hi' by (unfold in_use in *; by rewrite Hq).
    pose proof (room_take ps i (push r e s) (Hps _ _ Ho) Hi') as Hlt. rewrite (Hroom _ _ Hq) in Hlt.
    apply (IHn (room ps (take_ref i (push r e s))) ltac:(lia) (schema_weight o)); [lia|lia|]. by eapply few_schema, Hfew.
Qed.
End ends.

(** C19: Sampling ends, for every document, with references that lead back to
    themselves and whatever its schemas are made of, and for every depth it is allowed
    to go to: with enough nested calls there is a sample or an error, and more of them
    do not change it, unless a minItems is beyond 2^53, to which the loop over the items
    of an array cannot count. *)
Theorem sampling_ends (doc t : jsval) (e : node) :
  few_items (from_doc [] doc) = true → few_items e = true →
  ∃ r fuel, ∀ fuel', (fuel ≤ fuel')%nat → lu fuel' e t doc = Some r.
Proof.
  intros Hd He. destruct (finite_pointers doc) as [ps Hps].
  pose proof (all_settle (JsObj (assign su (entries_of t))) doc ps Hps (λ i o, few_located doc i o Hd) e None initial (few_schema e He)) as H.
  assert (ends (λ f, lu f e t doc) (λ _, True)) as (r & [f Hf] & _).
  { unfold lu. apply (ends_then (λ f, Jc f _ doc e None initial) (λ _ '(x, _), done (value x)) _ _ H). intros [x s] _. by apply ends_done. }
  by exists r, f.
Qed.
Lemma sampling_ends_witness :
  let loops := document [("A", ref_to "B"); ("B", JsObj [("allOf", JsArr [ref_to "A"; ref_to "C"])]);
                         ("C", typed_as "object" [("properties", JsObj [("c", ref_to "C")])])]%string in
  let e := schema_of "A" loops in
  few_items (from_doc [] loops) = true ∧ few_items e = true ∧
  sample_of 30 "A" (JsObj []) loops = Some (Ok (JsObj [("c"%string, JsObj [])])) ∧
  ∃ r fuel, ∀ fuel', (fuel ≤ fuel')%nat → lu fuel' e (JsObj []) loops = Some r.
Proof.
  intros loops e. assert (few_items (from_doc [] loops) = true) as Hd by reflexivity. assert (few_items e = true) as He by reflexivity.
  split_and!; [exact Hd|exact He|vm_compute; reflexivity|]. by apply sampling_ends.
Defined.
