(* ===== verification/SchemaModel.v ===== *)
(** * Models of schemas

    What the documentation viewer shows of a schema (the classes [Tc], [Uc] and [Lc] of
    redoc.standalone.js): its facts, the fields of an object, the items of an array and
    the alternatives of oneOf, anyOf, if and a discriminator. The document is passed
    on, since the code deletes the oneOf of a schema that is its own alternative. The
    order of names, the expansion of URI templates and the resolution of URLs are
    arguments; names in brackets are those of the bundle. *)

From Stdlib Require Import Sorted.
From S2P Require Import Prelude PyData JsNumber JsData JsonPointer OpenApi SpecParser AllOf Parameters Sampler.
Local Open Scope Z_scope.

(** ** Types *)

(** [rs]: the type a keyword is of. *)
Definition rs : list (string * string) :=
  [("multipleOf", "number"); ("maximum", "number"); ("exclusiveMaximum", "number"); ("minimum", "number");
   ("exclusiveMinimum", "number"); ("maxLength", "string"); ("minLength", "string"); ("pattern", "string");
   ("contentEncoding", "string"); ("contentMediaType", "string"); ("items", "array"); ("maxItems", "array");
   ("minItems", "array"); ("uniqueItems", "array"); ("maxProperties", "object"); ("minProperties", "object");
   ("required", "object"); ("additionalProperties", "object"); ("unevaluatedProperties", "object");
   ("properties", "object"); ("patternProperties", "object")]%string.
Definition detected_type (u : jsval) : jsval :=
  let t := field "type" u in
  if defined t && negb (is_array t) then t
  else match List.find (λ '(k, _), defined (field k u)) rs with Some (_, t) => JsStr t | None => JsStr "any" end.
(** The type with "null" for what is nullable. *)
Definition is_null_type (e : jsval) : bool := match e with JsNull => true | e => is_str "null" e end.
Definition nullable_type (u : jsval) (t : jsval) : jsval :=
  if js_truthy (field "nullable" u) || js_truthy (field "x-nullable" u) then
    match t with
    | JsArr l => if existsb is_null_type l then t else JsArr (l ++ [JsStr "null"])
    | t => JsArr [t; JsStr "null"]
    end
  else t.
Definition piece_text (v : jsval) : string := match v with JsUndef | JsNull => EmptyString | v => text v end.
Definition display_type (t : jsval) : jsval :=
  match t with
  | JsArr l => JsStr (join " or " ((λ e, match e with JsNull => "null"%string | e => piece_text e end) <$> l))
  | t => t
  end.

(** ** Facts of a schema *)

(** What the fields and alternatives may change. *)
Record face := {
  title : jsval; enum : jsval; example : jsval; displayType : jsval; displayFormat : jsval; isPrimitive : bool; typePrefix : string;
  oneOfType : option string; discriminatorProp : jsval }.
Record facts := {
  pointer : jsval; refs : SpecParser.stack; rawSchema : jsval; schema : jsval; isCircular : bool; description : jsval; type : jsval;
  format : jsval; examples : jsval; deprecated : bool; constraints : list string; readOnly : bool; writeOnly : bool; const : jsval;
  copied : list (string * jsval); extensions : list (string * jsval); shown : face }.

(** [ds(e) && Ua.baseName(e) || ""]. *)
Definition base_title (e : jsval) : result jsval :=
  if ds e then n ← baseName (text e) 1; Ok (match n with Some n => JsStr n | None => JsStr EmptyString end) else Ok (JsStr EmptyString).
Definition facts_of (showExtensions : option (bool + list string)) (pointer : jsval) (st : SpecParser.stack) (raw u : jsval) : result facts :=
  let f k := field k u in
  circular ← js_get "x-circular-ref" u;
  base ← base_title pointer;
  cs ← ms u;
  let t := js_or (f "type"%string) (detected_type u) in
  primitive ← is_primitive u t;
  let t' := nullable_type u t in
  Ok {| pointer := pointer; refs := st; rawSchema := raw; schema := u; isCircular := js_truthy circular;
        description := js_or (f "description"%string) (JsStr EmptyString); type := t'; format := f "format"%string;
        examples := f "examples"%string; deprecated := js_truthy (f "deprecated"%string); constraints := cs;
        readOnly := js_truthy (f "readOnly"%string); writeOnly := js_truthy (f "writeOnly"%string);
        const := js_or (f "const"%string) (JsStr EmptyString);
        copied := (λ k, (k, f k)) <$> ["pattern"; "externalDocs"; "default"; "contentEncoding"; "contentMediaType"; "minItems"; "maxItems"]%string;
        extensions := match showExtensions with Some t => ws (entries_of u) t | None => [] end;
        shown := {| title := js_or (f "title"%string) base; enum := js_or (f "enum"%string) (JsArr []); example := f "example"%string;
                    displayType := display_type t'; displayFormat := f "format"%string; isPrimitive := primitive;
                    typePrefix := EmptyString; oneOfType := None; discriminatorProp := JsUndef |} |}.
Definition with_face (b : face) (a : facts) : facts :=
  {| pointer := pointer a; refs := refs a; rawSchema := rawSchema a; schema := schema a; isCircular := isCircular a;
     description := description a; type := type a; format := format a; examples := examples a; deprecated := deprecated a;
     constraints := constraints a; readOnly := readOnly a; writeOnly := writeOnly a; const := const a; copied := copied a;
     extensions := extensions a; shown := b |}.
Definition with_schema (u : jsval) (a : facts) : facts :=
  {| pointer := pointer a; refs := refs a; rawSchema := rawSchema a; schema := u; isCircular := isCircular a;
     description := description a; type := type a; format := format a; examples := examples a; deprecated := deprecated a;
     constraints := constraints a; readOnly := readOnly a; writeOnly := writeOnly a; const := const a; copied := copied a;
     extensions := extensions a; shown := shown a |}.
Definition with_title (t : jsval) (b : face) : face :=
  {| title := t; enum := enum b; example := example b; displayType := displayType b; displayFormat := displayFormat b;
     isPrimitive := isPrimitive b; typePrefix := typePrefix b; oneOfType := oneOfType b; discriminatorProp := discriminatorProp b |}.
Definition with_display (d : jsval) (ty : option string) (b : face) : face :=
  {| title := title b; enum := enum b; example := example b; displayType := d; displayFormat := displayFormat b;
     isPrimitive := isPrimitive b; typePrefix := typePrefix b; oneOfType := ty; discriminatorProp := discriminatorProp b |}.
Definition with_discriminator (d : jsval) (b : face) : face :=
  {| title := title b; enum := enum b; example := example b; displayType := displayType b; displayFormat := displayFormat b;
     isPrimitive := isPrimitive b; typePrefix := typePrefix b; oneOfType := oneOfType b; discriminatorProp := d |}.
Definition with_enum (e : jsval) (b : face) : face :=
  {| title := title b; enum := e; example := example b; displayType := displayType b; displayFormat := displayFormat b;
     isPrimitive := isPrimitive b; typePrefix := typePrefix b; oneOfType := oneOfType b; discriminatorProp := discriminatorProp b |}.

(** [hasType(e)]. *)
Definition hasType (e : string) (a : facts) : bool := has_type e (type a).

(** ** Examples *)

(** An example, named or not, with its text if it is encoded as a form. *)
Record example_model := { mime : string; value : jsval; summary : jsval; example_description : jsval; externalValueUrl : option string }.

Section examples.
(** A template with the value of its variable, and [new URL(e, specUrl).href]. *)
Context (expand : string → jsval → string) (url : jsval → result string) (p : parser).

(** [as(e, t, n)] and [ss(e, t)]. *)
Definition to_string (v : jsval) : result string := match v with JsUndef | JsNull => Raise TypeError | v => Ok (text v) end.
Definition as_ (e : jsval) (t n : string) : result string :=
  match e with
  | JsArr l => ts ← mapM to_string l; Ok (join n ts)
  | JsObj l => Ok (join n ((λ '(k, v), k +:+ n +:+ text v) <$> l))
  | e => s ← to_string e; Ok (t +:+ "=" +:+ s)
  end.
Definition deep_object (e : jsval) (t : string) : result string :=
  match e with JsObj l => Ok (ss l t) | JsNull => Raise TypeError | _ => Ok EmptyString end.
(** One field of a form, with its encoding. *)
Definition form_field (t : jsval) (kv : string * jsval) : result string :=
  let '(n, r) := kv in
  e ← js_get n t;
  let e := js_or e empty in
  let style := if defined (field "style" e) then field "style" e else JsStr "form" in
  let explode := if defined (field "explode" e) then js_truthy (field "explode" e) else true in
  if is_str "form" style then Ok (ls expand n explode r)
  else if is_str "spaceDelimited" style then as_ r n "%20"
  else if is_str "pipeDelimited" style then as_ r n "|"
  else if is_str "deepObject" style then deep_object r n
  else Ok EmptyString.
Definition form_text (e t : jsval) : result jsval :=
  match e with
  | JsObj l => ts ← mapM (form_field (if defined t then t else empty)) l; Ok (JsStr (join "&" ts))
  | JsArr _ => Raise (OtherError ("Payload must have fields: " +:+ text e))
  | e => Ok e
  end.
(** [new Lc(e, t, n, r)]. *)
Definition Lc (fuel : nat) (t : jsval) (n : string) (encoding : jsval) : out example_model :=
  '(i, _) ⇐ deref fuel p t [] false;
  v ⇐ of_result (js_get "value" i);
  u ⇐ of_result (if js_truthy (field "externalValue" i) then Some <$> url (field "externalValue" i) else Ok None);
  v ⇐ of_result (if String.eqb n "application/x-www-form-urlencoded" then form_text v encoding else Ok v);
  done {| mime := n; value := v; summary := field "summary" i; example_description := field "description" i; externalValueUrl := u |}.
(** An array of examples stays; named ones become models. *)
Inductive example_models := Plain (l : jsval) | Named (l : list (string * example_model)).
Definition named_examples (fuel : nat) (t encoding : jsval) : out example_models :=
  match t with
  | JsArr _ => done (Plain t)
  | t => l ⇐ for_in (λ l '(k, v), x ⇐ Lc fuel v k encoding; done (l ++ [(k, x)])) [] (entries_of t); done (Named l)
  end.
End examples.

(** ** Models *)

(** A field or parameter. *)
Record member := {
  kind : jsval; name : jsval; place : jsval; required : bool; member_description : jsval; member_example : jsval;
  member_examples : option example_models; style : jsval; explode : bool; serializationMime : jsval; member_deprecated : bool;
  member_const : jsval; member_extensions : list (string * jsval) }.
(** The facts with the fields, items and alternatives there are. *)
Unset Elimination Schemes.
Inductive shape := Shape (a : facts) (fields : option (list field_model)) (items : option shape) (oneOf : option (list shape))
with field_model := Field (m : member) (s : shape).
Set Elimination Schemes.
Definition facts_in (s : shape) : facts := match s with Shape a _ _ _ => a end.
Definition fields_in (s : shape) : option (list field_model) := match s with Shape _ f _ _ => f end.
Definition items_in (s : shape) : option shape := match s with Shape _ _ i _ => i end.
Definition oneOf_in (s : shape) : option (list shape) := match s with Shape _ _ _ o => o end.
Definition leaf (a : facts) : shape := Shape a None None None.
Definition member_in (f : field_model) : member := match f with Field m _ => m end.
Definition shape_in (f : field_model) : shape := match f with Field _ s => s end.

(** The options that matter here. *)
Record options := {
  simpleOneOfTypeLabel : bool; sortEnumValuesAlphabetically : bool; sortPropsAlphabetically : bool; requiredPropsFirst : bool;
  showExtensions : option (bool + list string) }.

(** ** Changes of the document *)

(** What is at the end of a path changes. *)
Fixpoint change_at (path : list string) (f : jsval → jsval) (v : jsval) : jsval :=
  match path with
  | [] => f v
  | o :: path =>
      match v with
      | JsObj l => JsObj ((λ '(j, w), (j, if String.eqb j o then change_at path f w else w)) <$> l)
      | JsArr l => JsArr (imap (λ i w, if String.eqb (pretty (Z.of_nat i)) o then change_at path f w else w) l)
      | v => v
      end
  end.
Definition with_spec (s : jsval) (p : parser) : parser :=
  {| spec := s; allowMergeRefs := allowMergeRefs p; ignoreNamedSchemas := ignoreNamedSchemas p |}.
(** Where the object is that a reference with nothing beside it is dereferenced to;
    none if it is made anew. *)
Fixpoint home (fuel : nat) (p : parser) (e : jsval) (t : SpecParser.stack) : option (list string) :=
  match fuel, field "$ref" e with
  | S fuel, JsStr s =>
      if match fs (JsStr s) with Some n => bool_decide (n ∈ ignoreNamedSchemas p) | None => false end then None
      else if existsb (same (JsStr s)) t || (max_stack <? length t)%nat then None
      else
        match byRef p (JsStr s), decodeURIComponent (match s with String "#" _ => s | _ => "#" +:+ s end) with
        | Ok i, Ok d =>
            if isRef i then
              match home fuel p i (bc t (field "x-refsStack" i)) with
              | Some q => if allowMergeRefs p && negb (bool_decide (length (entries_of i) = 1%nat)) then None else Some q
              | None => None
              end
            else match parse d with Ok q => Some q | Raise _ => None end
        | _, _ => None
        end
  | _, _ => None
  end.
(** [delete u.oneOf], of the document if the schema is a part of it. *)
Definition delete_oneOf (fuel : nat) (p : parser) (e u : jsval) (t : SpecParser.stack) : parser :=
  match field "allOf" u, home fuel p e t with
  | JsUndef, Some q => with_spec (change_at q (λ v, match v with JsObj l => JsObj (without ["oneOf"%string] l) | v => v end) (spec p)) p
  | _, _ => p
  end.
(** [u.oneOf.find(e => e.$ref === pointer)]. *)
Fixpoint own_alternative (pointer : jsval) (l : list jsval) : result bool :=
  match l with
  | [] => Ok false
  | e :: l => r ← js_get "$ref" e; if same r pointer then Ok true else own_alternative pointer l
  end.

(** ** Names in order *)

Section insertion.
Context {A : Type} (le : A → A → bool).
Fixpoint insert_sorted (x : A) (l : list A) : list A :=
  match l with [] => [x] | y :: l => if le x y then x :: y :: l else y :: insert_sorted x l end.
Fixpoint sorted (l : list A) : list A := match l with [] => [] | x :: l => insert_sorted x (sorted l) end.
End insertion.
(** [this.enum.sort()]: as texts, undefined last. *)
Definition enum_le (a b : jsval) : bool :=
  match a, b with JsUndef, JsUndef => true | JsUndef, _ => false | _, JsUndef => true | a, b => String.leb (text a) (text b) end.
Definition sort_enum (v : jsval) : result jsval :=
  match v with
  | JsArr [] => Ok v
  | JsArr l => Ok (JsArr (sorted enum_le l))
  | JsStr EmptyString => Ok v
  | JsStr _ => Raise TypeError
  | v => if js_truthy (field "length" v) then Raise TypeError else Ok v
  end.

(** [e.indexOf(k) > -1]. *)
Definition lists (k : string) (e : jsval) : result bool :=
  match e with
  | JsUndef => Ok false
  | JsArr l => Ok (existsb (is_str k) l)
  | JsStr s => Ok (match String.index 0 k s with Some _ => true | None => false end)
  | _ => Raise TypeError
  end.
Definition names_of (e : jsval) : list string := match e with JsArr l => omap (λ v, match v with JsStr s => Some s | _ => None end) l | _ => [] end.
Definition at_index (k : string) (e : jsval) : jsval := default JsUndef (lookup_key k (entries_of e)).

Section models.
Context (fuel : nat) (expand : string → jsval → string) (url : jsval → result string) (compare : string → string → Z) (o : options).
(** A model one call further: of a value, with the pointer where it has no reference,
    as an alternative of a discriminator or not, and the references followed. *)
Context (Tc : parser → jsval → string → bool → SpecParser.stack → out (shape * parser)).

(** ** Fields *)

(** [zc]: how a parameter is written by default. *)
Definition zc : list (string * (string * bool)) :=
  [("path", ("simple", false)); ("query", ("form", true)); ("header", ("simple", false)); ("cookie", ("form", true))]%string.
(** [new Uc(e, t, n, r, i)]. *)
Definition Uc (p : parser) (t : jsval) (n : string) (st : SpecParser.stack) : out (field_model * parser) :=
  '(u, _) ⇐ deref fuel p t [] false;
  place ⇐ of_result (js_get "in" u);
  let schema := field "schema" u in
  let content := field "content" u in
  let with_content := negb (js_truthy schema) && js_truthy place && js_truthy content in
  let d := if with_content then match entries_of content with (k, _) :: _ => Some k | [] => None end else None in
  let schema := match d with
                | Some k => let c := at_index k content in if js_truthy c then field "schema" c else c
                | None => if with_content then JsUndef else schema
                end in
  '(s, p) ⇐ Tc p (js_or schema empty) n false st;
  let a := facts_in s in
  let named := js_or (field "examples" u) (examples a) in
  xs ⇐ (if defined (field "examples" u) || defined (examples a)
         then x ⇐ named_examples expand url p fuel named (field "encoding" u); done (Some x) else done None);
  let mime := match d with Some k => negb (String.eqb k EmptyString) | None => false end in
  let usual := lookup_key (text place) zc in
  done (Field {|
    kind := js_or (field "kind" t) (JsStr "field"); name := js_or (field "name" t) (field "name" u); place := place;
    required := js_truthy (field "required" u);
    member_description := if defined (field "description" u) then field "description" u else js_or (description a) (JsStr EmptyString);
    member_example := js_or (field "example" u) (example (shown a)); member_examples := xs;
    style := if mime then JsUndef
             else if js_truthy (field "style" u) then field "style" u
             else if js_truthy place then JsStr (match usual with Some (s, _) => s | None => "form" end) else JsUndef;
    explode := if negb (defined (field "explode" u)) && js_truthy place then match usual with Some (_, b) => b | None => true end
               else js_truthy (field "explode" u);
    serializationMime := match d with Some k => if mime then JsStr k else JsUndef | None => JsUndef end;
    member_deprecated := if defined (field "deprecated" u) then js_truthy (field "deprecated" u) else deprecated a;
    member_const := js_or (js_or (const a) (field "const" u)) (JsStr EmptyString);
    member_extensions := match showExtensions o with Some t => ws (entries_of u) t | None => [] end |} s, p).

(** Fields one after the other. *)
Definition add_field (n : string) (st : SpecParser.stack) (acc : list field_model * parser) (t : jsval) : out (list field_model * parser) :=
  let '(l, p) := acc in '(f, p) ⇐ Uc p t n st; done (l ++ [f], p).

(** A property: its value, or an empty object, with the default the object gives it. *)
Definition property_field (t : jsval) (n : string) (st : SpecParser.stack) (acc : list field_model * parser) (kv : string * jsval) : out (list field_model * parser) :=
  let '(a, s) := kv in
  let s := js_or s empty in
  l ⇐ of_result (lists a (field "required" t));
  let c := field "default" t in
  let d := if negb (defined (field "default" s)) && js_truthy c then at_index a c else field "default" s in
  add_field (n +:+ "/properties/" +:+ a) st acc (JsObj
    [("name", JsStr (if js_truthy (field "properties" t) then a else "[" +:+ a +:+ "]")); ("required", JsBool l);
     ("schema", spread s (JsObj [("default"%string, d)]))]%string).
Definition pattern_field (n : string) (st : SpecParser.stack) (acc : list field_model * parser) (kv : string * jsval) : out (list field_model * parser) :=
  let '(k, v) := kv in
  add_field (n +:+ "/patternProperties/" +:+ k) st acc (JsObj
    [("name", JsStr k); ("required", JsBool false); ("schema", js_or v empty); ("kind", JsStr "patternProperties")]%string).
Definition additional_field (s : jsval) (n : string) (st : SpecParser.stack) (acc : list field_model * parser) : out (list field_model * parser) :=
  let put name schema := add_field (n +:+ "/additionalProperties") st acc (JsObj
    [("name", name); ("required", JsBool false); ("schema", schema); ("kind", JsStr "additionalProperties")]%string) in
  match s with
  | JsNull => throw
  | JsBool true => put (JsStr "property name*") empty
  | JsObj _ | JsArr _ =>
      match js_or (field "x-additionalPropertiesName" s) (JsStr "property name") with
      | JsStr x => put (JsStr (x +:+ "*")) s
      | JsArr l => put (JsArr (l ++ [JsStr "*"])) s
      | _ => throw
      end
  | _ => done acc
  end.
Definition item_name (i : nat) (more : string) : jsval := JsStr ("[" +:+ pretty (Z.of_nat i) +:+ more +:+ "]").
Definition further_items (s : jsval) (n : string) (st : SpecParser.stack) (acc : list field_model * parser) : out (list field_model * parser) :=
  let put i more s acc := add_field (n +:+ "/additionalItems") st acc (JsObj [("name", item_name i more); ("schema", s)]%string) in
  let count := length acc.1 in
  match s with
  | JsBool true => put count "..."%string empty acc
  | JsArr l => for_in (λ acc '(i, s), put (count + i)%nat EmptyString s acc) acc (imap pair l)
  | JsObj _ => put count "..."%string s acc
  | _ => done acc
  end.
Definition name_text (f : field_model) : string := text (name (member_in f)).
Definition ordered (t : jsval) (l : list field_model) : list field_model :=
  let l := if sortPropsAlphabetically o then sorted (λ a b, compare (name_text a) (name_text b) <=? 0) l else l in
  if requiredPropsFirst o then
    payload <$> gs ((λ f, {| OpenApi.name := name_text f; OpenApi.required := required (member_in f); payload := f |}) <$> l)
                   (if sortPropsAlphabetically o then [] else names_of (field "required" t))
  else l.
(** [Rc(e, t, n, r, i)]. *)
Definition Rc (p : parser) (t : jsval) (n : string) (st : SpecParser.stack) : out (list field_model * parser) :=
  let f k := field k t in
  let props := js_or (js_or (js_or (f "properties"%string) (f "prefixItems"%string)) (f "items"%string)) empty in
  '(l, p) ⇐ for_in (property_field t n st) ([], p) (entries_of props);
  acc ⇐ for_in (pattern_field n st) (ordered t l, p) (entries_of (f "patternProperties"%string));
  acc ⇐ additional_field (js_or (f "additionalProperties"%string) (f "unevaluatedProperties"%string)) n st acc;
  further_items (if js_truthy (f "prefixItems"%string) then f "items"%string else f "additionalItems"%string) n st acc.

(** ** Alternatives *)

Definition typed_title (s : shape) : string :=
  let a := shown (facts_in s) in
  let t := typePrefix a +:+ (if js_truthy (title a) then text (title a) +:+ " (" +:+ text (displayType a) +:+ ")" else text (displayType a)) in
  if (match String.index 0 " or " t with Some _ => true | None => false end) then "(" +:+ t +:+ ")" else t.
(** The types of the alternatives, and of theirs. *)
Fixpoint simple_types (s : shape) : list jsval :=
  match s with
  | Shape _ _ _ (Some l) => flat_map (λ r, match oneOf_in r with Some _ => simple_types r | None => let t := type (facts_in r) in if js_truthy t then [t] else [] end) l
  | _ => []
  end.
Definition alternative_title (e r : jsval) : result jsval :=
  if ds (field "$ref" e) && negb (js_truthy (field "title" r)) then
    n ← baseName (text (field "$ref" e)) 1; Ok (match n with Some n => JsStr n | None => JsUndef end)
  else
    Ok (JsStr (text (js_or (field "title" r) (JsStr EmptyString)) +:+ (if defined (field "const" r) then stringify (field "const" r) else EmptyString))).
(** One alternative of oneOf or anyOf: with the schema it is an alternative of. *)
Definition one_of (a : facts) (acc : list shape * parser) (ie : nat * jsval) : out (list shape * parser) :=
  let '(l, p) := acc in let '(n, e) := ie in
  let here := text (pointer a) +:+ "/oneOf/" +:+ pretty (Z.of_nat n) in
  '(r, i) ⇐ deref fuel p e (refs a) true;
  m ⇐ mergeAllOf fuel p r (JsStr here) i;
  _ ⇐ of_result (js_get "$ref" e);
  ti ⇐ of_result (alternative_title e m);
  let base := JsObj (assign (entries_of (schema a)) [("oneOf", JsUndef); ("anyOf", JsUndef)]%string) in
  '(s, p) ⇐ Tc p (JsObj (assign (entries_of m)
      [("title", ti); ("allOf", JsArr [base]); ("discriminator", if js_truthy (field "allOf" r) then JsUndef else field "discriminator" m)]%string))
    (text (js_or (field "$ref" e) (JsStr here))) false i;
  done (l ++ [s], p).
Definition initOneOf (p : parser) (a : facts) (ty : string) (e : jsval) : out (shape * parser) :=
  match e with
  | JsArr l =>
      '(l, p) ⇐ for_in (one_of a) ([], p) (imap pair l);
      let d := if simpleOneOfTypeLabel o then join " or " (piece_text <$> unique [] (simple_types (Shape a None None (Some l))))
               else join " or " (typed_title <$> l) in
      done (Shape (with_face (with_display (JsStr d) (Some ty) (shown a)) a) None None (Some l), p)
  | _ => throw
  end.

(** The cases of [if]. *)
Definition case_title (r : jsval) (d : string) : jsval := js_or (js_or (field "x-displayName" r) (field "title" r)) (JsStr d).
Definition initConditionalOperators (p : parser) (a : facts) (e : jsval) : out (shape * parser) :=
  let rest := JsObj (without ["if"; "else"; "then"]%string (entries_of e)) in
  let r := field "if" e in
  let given k := if defined (field k e) then field k e else empty in
  let case acc '(n, m, ti) :=
    let '(l, p) := acc in
    '(s, p) ⇐ Tc p (JsObj [("allOf", JsArr m); ("title", ti)]%string)
      (text (pointer a) +:+ "/oneOf/" +:+ pretty (Z.of_nat n)) false (refs a);
    done (l ++ [s], p) in
  '(l, p) ⇐ for_in case ([], p) [(0%nat, [rest; given "then"%string; r], case_title r "case 1");
                                 (1%nat, [rest; given "else"%string], case_title (given "else"%string) "case 2")];
  done (Shape (with_face (with_display (displayType (shown a)) (Some "One of"%string) (shown a)) a) None None (Some l), p).

(** ** Discriminators *)

Definition Nc (e : jsval) : jsval := js_or (field "discriminator" e) (field "x-discriminator" e).
(** [findDerived(e)]: the schemas whose allOf refers to one of [e]. *)
Fixpoint refers (e : list jsval) (l : list jsval) : result bool :=
  match l with
  | [] => Ok false
  | t :: l => r ← js_get "$ref" t; if defined r && existsb (same r) e then Ok true else refers e l
  end.
Definition findDerived (p : parser) (e : list jsval) : out (list (string * list jsval)) :=
  let n := js_or (field "schemas" (field "components" (spec p))) empty in
  for_in (λ t '(r, v),
    '(i, _) ⇐ deref fuel p v [] false;
    all ⇐ of_result (js_get "allOf" i);
    match all with
    | JsUndef => done t
    | JsArr l =>
        b ⇐ of_result (refers e l);
        done (if b : bool then set_key ("#/components/schemas/" +:+ r) [js_or (field "x-discriminator-value" i) (JsStr r)] t else t)
    | _ => throw
    end) [] (entries_of n).
(** The alternatives: those derived or listed, unless only the mapping counts, with
    those of the mapping in place of them; every name of a reference. *)
Definition mapped (i : list (string * jsval)) : list (string * list jsval) :=
  foldl (λ a '(k, t), set_key (text t) (default [] (lookup_key (text t) a) ++ [JsStr k]) a) [] i.
Definition listed (e : jsval) (r : list (string * list jsval)) : out (list (string * list jsval)) :=
  if js_truthy e then
    l ⇐ of_result (iter e);
    for_in (λ r t,
      ref ⇐ of_result (js_get "$ref" t);
      if defined ref then n ⇐ of_result (baseName (text ref) 1); done (set_key (text ref) [match n with Some n => JsStr n | None => JsUndef end] r)
      else done r) r l
  else done r.
Definition variants (only : bool) (derived : list (string * list jsval)) (i : list (string * jsval)) : list (string * jsval) :=
  let s := foldl (λ l '(k, v), set_key k v l) (if only then [] else derived) (mapped i) in
  flat_map (λ '(k, ns), pair k <$> ns) s.
(** By the order of the mapping, the others after it by name. *)
Definition variant_le (c : list string) (a b : string * jsval) : bool :=
  let n := indexOf (text a.2) c in let r := indexOf (text b.2) c in
  if (n <? 0) && (r <? 0) then compare (text a.2) (text b.2) <=? 0
  else if n <? 0 then false else if r <? 0 then true else n <=? r.
Definition titled (t : jsval) (s : shape) : shape :=
  match s with Shape a f i l => Shape (with_face (with_title t (shown a)) a) f i l end.
Definition add_variant (a : facts) (acc : list shape * parser) (kn : string * jsval) : out (list shape * parser) :=
  let '(l, p) := acc in let '(k, n) := kn in
  '(s, p) ⇐ Tc p (JsObj [("$ref"%string, JsStr k)]) k true (take (length (refs a) - 1) (refs a));
  done (l ++ [titled n s], p).
Definition initDiscriminator (p : parser) (a : facts) (e : jsval) : out (shape * parser) :=
  let n := Nc e in
  d ⇐ of_result (js_get "propertyName" n);
  parents ⇐ of_result (iter (js_or (field "x-parentRefs" (schema a)) (JsArr [])));
  r ⇐ findDerived p (parents ++ [pointer a]);
  r ⇐ listed (field "oneOf" e) r;
  let i := entries_of (js_or (field "mapping" n) empty) in
  let only := js_truthy (field "x-explicitMappingOnly" n) && (0 <? length i)%nat in
  let l := variants only r i in
  let l := match i with [] => l | _ => sorted (variant_le (fst <$> i)) l end in
  '(l, p) ⇐ for_in (add_variant a) ([], p) l;
  done (Shape (with_face (with_discriminator d (shown a)) a) None None (Some l), p).

(** ** Arrays *)

(** The name of a type, of several: an s after it, unless it has one. *)
Definition plural (t : string) : string :=
  match List.find (λ w, String.prefix w t) ["string"; "object"; "number"; "integer"; "array"; "boolean"]%string with
  | Some w => let r := string_drop (String.length w) t in w +:+ "s" +:+ (match r with String "s" r' => r' | r => r end)
  | None => t
  end.
(** [e.split(" or ")]. *)
Fixpoint split_or (s : string) : list string :=
  match s with
  | EmptyString => [EmptyString]
  | String c t =>
      if String.prefix " or " s then
        EmptyString :: match t with String _ (String _ (String _ r)) => split_or r | _ => [] end
      else match split_or t with w :: ws => String c w :: ws | [] => [String c EmptyString] end
  end.
Definition of_items {A} (items : option shape) (f : face → A) (d : A) : A :=
  match items with Some s => f (shown (facts_in s)) | None => d end.
Definition array_face (u : jsval) (items : option shape) (t : jsval) (b : face) : result face :=
  d ← (if js_truthy (field "prefixItems" u) || is_array (field "items" u) then Ok "items"%string
       else match js_or (of_items items displayType JsUndef) (displayType b) with
            | JsStr s => Ok (join " or " (plural <$> split_or s))
            | _ => Raise TypeError
            end);
  let more := match t with JsArr l => List.filter (λ e, negb (is_str "array" e)) l | _ => [] end in
  Ok {| title := js_or (js_or (title b) (of_items items title JsUndef)) (JsStr EmptyString);
        enum := if of_items items isPrimitive false then of_items items enum JsUndef else enum b;
        example := if negb (defined (example b)) && defined (of_items items example JsUndef) then JsArr [of_items items example JsUndef] else example b;
        displayType := JsStr (match more with [] => d | l => d +:+ " or " +:+ join " or " (piece_text <$> l) end);
        displayFormat := js_or (match items with Some s => format (facts_in s) | None => JsUndef end) (JsStr EmptyString);
        isPrimitive := of_items items isPrimitive (isPrimitive b);
        typePrefix := match of_items items typePrefix EmptyString with EmptyString => "Array of "%string | s => s end;
        oneOfType := oneOfType b; discriminatorProp := discriminatorProp b |}.
Definition array_model (p : parser) (a : facts) (u : jsval) : out (option (list field_model) * option shape * parser) :=
  if is_array (field "items" u) || is_array (field "prefixItems" u) then
    '(l, p) ⇐ Rc p u (text (pointer a)) (refs a); done (Some l, None, p)
  else if js_truthy (field "items" u) then
    '(s, p) ⇐ Tc p (field "items" u) (text (pointer a) +:+ "/items") false (refs a); done (None, Some s, p)
  else done (None, None, p).

(** ** A model *)

Definition sort_enums (s : shape) : result shape :=
  if sortEnumValuesAlphabetically o then
    match s with Shape a f i l => e ← sort_enum (enum (shown a)); Ok (Shape (with_face (with_enum e (shown a)) a) f i l) end
  else Ok s.
(** The kind of schema that is neither circular nor has alternatives. *)
Definition plain_model (p : parser) (a : facts) (u : jsval) : out (shape * parser) :=
  '(s, p) ⇐ (if hasType "object" a then '(l, p) ⇐ Rc p u (text (pointer a)) (refs a); done (Shape a (Some l) None None, p)
             else if hasType "array" a then
               '(l, i, p) ⇐ array_model p a u;
               b ⇐ of_result (array_face u i (type a) (shown a));
               done (Shape (with_face b a) l i None, p)
             else done (leaf a, p));
  s ⇐ of_result (sort_enums s); done (s, p).
(** [init(e, t)]. *)
Definition init (p : parser) (e : jsval) (t : bool) (st : SpecParser.stack) (a : facts) : out (shape * parser) :=
  let u := schema a in
  if isCircular a then done (leaf a, p)
  else if js_truthy (field "if" u) && (js_truthy (field "then" u) || js_truthy (field "else" u)) then initConditionalOperators p a u
  else if t || negb (defined (Nc u)) then
    own ⇐ of_result (match field "oneOf" u with JsArr l => if t then own_alternative (pointer a) l else Ok false | _ => Ok false end);
    let p := if own then delete_oneOf fuel p e (rawSchema a) st else p in
    let u := if own then JsObj (without ["oneOf"%string] (entries_of u)) else u in
    let a := if own then with_schema u a else a in
    if defined (field "oneOf" u) then initOneOf p a "One of" (field "oneOf" u)
    else if defined (field "anyOf" u) then initOneOf p a "Any of" (field "anyOf" u)
    else plain_model p a u
  else initDiscriminator p a u.
(** [new Tc(e, t, n, r, i, o)], one call. *)
Definition model_once (p : parser) (t : jsval) (n : string) (i : bool) (st : SpecParser.stack) : out (shape * parser) :=
  ref ⇐ of_result (js_get "$ref" t);
  let here := js_or ref (JsStr n) in
  '(raw, s) ⇐ deref fuel p t st true;
  let refs := yc s here in
  u ⇐ mergeAllOf fuel p raw here refs;
  a ⇐ of_result (facts_of (showExtensions o) here refs raw u);
  init p t i st a.
End models.

(** [new Tc(e, t, n, r, i, o)], [fuel] calls deep. *)
Fixpoint Tc (fuel : nat) (expand : string → jsval → string) (url : jsval → result string) (compare : string → string → Z) (o : options)
    (p : parser) (t : jsval) (n : string) (i : bool) (st : SpecParser.stack) : out (shape * parser) :=
  match fuel with
  | O => None
  | S fuel => model_once (S fuel) expand url compare o (Tc fuel expand url compare o) p t n i st
  end.

(** ** Facts about fields *)

Lemma deref_plain fuel p e t n v o : isRef e = false → deref fuel p e t n = Some (Ok (v, o)) → v = e.
Proof. destruct fuel as [|fuel]; [done|]. cbn [deref]. intros ->. by intros [= <- _]. Qed.
Lemma js_or_same v : js_or v v = v.
Proof. unfold js_or. by destruct (js_truthy v). Qed.

Section field_facts.
Context (fuel : nat) (expand : string → jsval → string) (url : jsval → result string) (compare : string → string → Z) (o : options).
Context (Tc : parser → jsval → string → bool → SpecParser.stack → out (shape * parser)).

(** The name, kind and requiredness a field is made with. *)
Lemma Uc_member p e n st f p' :
  field "$ref" (JsObj e) = JsUndef → Uc fuel expand url o Tc p (JsObj e) n st = Some (Ok (f, p')) →
  name (member_in f) = field "name" (JsObj e) ∧ required (member_in f) = js_truthy (field "required" (JsObj e)) ∧
  kind (member_in f) = js_or (field "kind" (JsObj e)) (JsStr "field").
Proof.
  intros Hr. unfold Uc. intros ([u t] & Hu & H)%then_Ok. apply deref_plain in Hu as ->; [|by unfold isRef; rewrite Hr].
  apply then_Ok in H as (pl & _ & ([s p2] & _ & (xs & _ & [= <- _])%then_Ok)%then_Ok). cbn [member_in name required kind]. by rewrite js_or_same.
Qed.
Lemma add_field_member n st l p e l' p' :
  field "$ref" (JsObj e) = JsUndef → add_field fuel expand url o Tc n st (l, p) (JsObj e) = Some (Ok (l', p')) →
  ∃ f, l' = l ++ [f] ∧ name (member_in f) = field "name" (JsObj e) ∧ required (member_in f) = js_truthy (field "required" (JsObj e)) ∧
    kind (member_in f) = js_or (field "kind" (JsObj e)) (JsStr "field").
Proof.
  intros Hr. unfold add_field. intros ([f p2] & Hf & [= <- _])%then_Ok. exists f. split; [done|]. by eapply Uc_member.
Qed.

(** The model of a field with a schema is that of the schema. *)
Lemma Uc_shape p e n st f p' l :
  field "$ref" (JsObj e) = JsUndef → field "schema" (JsObj e) = JsObj l → Uc fuel expand url o Tc p (JsObj e) n st = Some (Ok (f, p')) →
  ∃ p2, Tc p (JsObj l) n false st = Some (Ok (shape_in f, p2)).
Proof.
  intros Hr Hs. unfold Uc. intros ([u t] & Hu & H)%then_Ok. apply deref_plain in Hu as ->; [|by unfold isRef; rewrite Hr].
  apply then_Ok in H as (pl & _ & ([s p2] & H & (xs & _ & [= <- _])%then_Ok)%then_Ok). rewrite Hs in H. cbn in H. by exists p2.
Qed.

(** What a property becomes: a field of its name, required if it is listed, with the model of
    its schema, to which the default is added that the object gives it. *)
Definition schema_of (t : jsval) (kv : string * jsval) : jsval :=
  let s := js_or kv.2 empty in
  spread s (JsObj [("default"%string, if negb (defined (field "default" s)) && js_truthy (field "default" t) then at_index kv.1 (field "default" t) else field "default" s)]).
Definition property_name (t : jsval) (k : string) : jsval := JsStr (if js_truthy (field "properties" t) then k else "[" +:+ k +:+ "]").
Definition is_field_of (t : jsval) (n : string) (st : SpecParser.stack) (kv : string * jsval) (f : field_model) : Prop :=
  name (member_in f) = property_name t kv.1 ∧ lists kv.1 (field "required" t) = Ok (required (member_in f)) ∧ kind (member_in f) = JsStr "field"
  ∧ ∃ p1 p2, Tc p1 (schema_of t kv) (n +:+ "/properties/" +:+ kv.1) false st = Some (Ok (shape_in f, p2)).
Lemma properties_fields t n st kvs l p l' p' :
  for_in (property_field fuel expand url o Tc t n st) (l, p) kvs = Some (Ok (l', p')) →
  ∃ fs, l' = l ++ fs ∧ Forall2 (is_field_of t n st) kvs fs.
Proof.
  intros H. apply (for_in_inv _ (λ pre acc, ∃ fs, acc.1 = l ++ fs ∧ Forall2 (is_field_of t n st) pre fs)) in H; [done| |].
  - intros pre [k v] [l1 p1] [l2 p2] _ (fs & Hl & Hfs) Hstep. cbn in Hl. subst l1. cbn [property_field] in Hstep.
    apply then_Ok in Hstep as (b & Hb & Hstep). unfold add_field in Hstep. apply then_Ok in Hstep as ([f p3] & Hf & [= <- _]).
    pose proof Hf as Hshape. eapply Uc_shape in Hshape as [p4 Hshape]; [|reflexivity|reflexivity]. apply Uc_member in Hf as (Hn & Hr & Hk); [|done].
    exists (fs ++ [f]). cbn. rewrite app_assoc. split; [done|]. apply Forall2_app; [done|]. constructor; [|constructor].
    split; [exact Hn|]. split; [|split; [exact Hk|by eexists _, _]]. unfold of_result in Hb. injection Hb as Hb. cbn [fst]. rewrite Hb. cbn in Hr. by rewrite Hr.
  - exists []. by rewrite app_nil_r.
Qed.
(** Fields of other kinds come after. *)
Definition extra (f : field_model) : Prop := kind (member_in f) = JsStr "patternProperties" ∨ kind (member_in f) = JsStr "additionalProperties" ∨ ∃ i more, name (member_in f) = item_name i more.
Lemma patterns_fields n st kvs l p l' p' :
  for_in (pattern_field fuel expand url o Tc n st) (l, p) kvs = Some (Ok (l', p')) → ∃ fs, l' = l ++ fs ∧ Forall extra fs.
Proof.
  intros H. apply (for_in_inv _ (λ _ acc, ∃ fs, acc.1 = l ++ fs ∧ Forall extra fs)) in H; [done| |].
  - intros pre [k v] [l1 p1] [l2 p2] _ (fs & Hl & Hfs) Hstep. cbn in Hl. subst l1. cbn [pattern_field] in Hstep.
    apply add_field_member in Hstep as (f & -> & _ & _ & Hk); [|done]. exists (fs ++ [f]). cbn. rewrite app_assoc. split; [done|].
    apply Forall_app. split; [done|]. constructor; [by left|done].
  - exists []. by rewrite app_nil_r.
Qed.
Lemma additional_fields s n st l p l' p' :
  additional_field fuel expand url o Tc s n st (l, p) = Some (Ok (l', p')) → ∃ fs, l' = l ++ fs ∧ Forall extra fs.
Proof.
  assert (∀ x s, add_field fuel expand url o Tc (n +:+ "/additionalProperties") st (l, p) (JsObj
    [("name", x); ("required", JsBool false); ("schema", s); ("kind", JsStr "additionalProperties")]%string) = Some (Ok (l', p')) →
    ∃ fs, l' = l ++ fs ∧ Forall extra fs) as Hput.
  { intros x y (f & -> & _ & _ & Hk)%add_field_member; [|done]. exists [f]. split; [done|]. constructor; [by right; left|done]. }
  assert (done (l, p) = Some (Ok (l', p')) → ∃ fs, l' = l ++ fs ∧ Forall extra fs) as Hsame by (intros [= <- _]; exists []; by rewrite app_nil_r).
  unfold additional_field. destruct s as [| |[]| | | |]; try done; try apply Hput; destruct (js_or _ _); try done; apply Hput.
Qed.
Lemma further_fields s n st l p l' p' :
  further_items fuel expand url o Tc s n st (l, p) = Some (Ok (l', p')) → ∃ fs, l' = l ++ fs ∧ Forall extra fs.
Proof.
  assert (∀ i more s l p l' p', add_field fuel expand url o Tc (n +:+ "/additionalItems") st (l, p) (JsObj
    [("name", item_name i more); ("schema", s)]%string) = Some (Ok (l', p')) → ∃ fs, l' = l ++ fs ∧ Forall extra fs) as Hput.
  { intros i more y l0 p0 l1 p1 (f & -> & Hn & _ & _)%add_field_member; [|done]. exists [f]. split; [done|]. constructor; [right; right; by exists i, more|done]. }
  assert (done (l, p) = Some (Ok (l', p')) → ∃ fs, l' = l ++ fs ∧ Forall extra fs) as Hsame by (intros [= <- _]; exists []; by rewrite app_nil_r).
  unfold further_items. destruct s as [| |[]| | |k|k]; try done; try apply Hput. intros H.
  apply (for_in_inv _ (λ _ acc, ∃ fs, acc.1 = l ++ fs ∧ Forall extra fs)) in H; [done| |exists []; by rewrite app_nil_r].
  intros pre [i s] [l1 p1] [l2 p2] _ (fs & Hl & Hfs) Hstep. cbn in Hl. subst l1. apply Hput in Hstep as (gs & -> & Hgs).
  exists (fs ++ gs). cbn. rewrite app_assoc. split; [done|]. by apply Forall_app.
Qed.

Lemma insert_sorted_perm {A} le (x : A) l : insert_sorted le x l ≡ₚ x :: l.
Proof. induction l as [|y l IH]; cbn; [done|]. destruct (le x y); [done|]. rewrite IH. apply Permutation_swap. Qed.
Lemma sorted_perm {A} le (l : list A) : sorted le l ≡ₚ l.
Proof. induction l as [|x l IH]; cbn; [done|]. by rewrite insert_sorted_perm, IH. Qed.
Lemma gs_perm {A} (e : list (model A)) t : gs e t ≡ₚ e.
Proof.
  unfold gs. rewrite sort_by_Permutation. apply filter_three. intros m. unfold is_listed, is_unlisted. cbn.
  destruct (OpenApi.required m), (bool_decide _); done.
Qed.
Definition needed (f : field_model) : Prop := required (member_in f) = true.
Definition optional (f : field_model) : Prop := required (member_in f) = false.
Lemma ordered_perm t l : ordered compare o t l ≡ₚ l.
Proof.
  unfold ordered. set (l' := if sortPropsAlphabetically o then _ else l). assert (l' ≡ₚ l) as Hl.
  { unfold l'. destruct (sortPropsAlphabetically o); [apply sorted_perm|done]. }
  destruct (requiredPropsFirst o); [|done]. rewrite gs_perm, <- list_fmap_compose. by rewrite (list_fmap_ext _ id) by done; rewrite list_fmap_id.
Qed.
Lemma ordered_required t l : requiredPropsFirst o = true → ∃ a b, ordered compare o t l = a ++ b ∧ Forall needed a ∧ Forall optional b.
Proof.
  intros Ho. unfold ordered. rewrite Ho. set (l' := if sortPropsAlphabetically o then _ else l).
  set (m := λ f : field_model, {| OpenApi.name := name_text f; OpenApi.required := required (member_in f); payload := f |}).
  set (t' := if sortPropsAlphabetically o then _ else _). unfold gs. rewrite !fmap_app, app_assoc. eexists _, _. split; [reflexivity|].
  assert (∀ (q : model field_model → bool) P, (∀ f, q (m f) = true → P f) → Forall P (payload <$> List.filter q (m <$> l'))) as H.
  { intros q P Hq. apply Forall_forall. intros f (x & -> & Hx)%list_elem_of_fmap. apply list_elem_of_In, filter_In in Hx as [Hx Hqx].
    apply list_elem_of_In, list_elem_of_fmap in Hx as (g & -> & _). by apply Hq. }
  split; [apply Forall_app; split|].
  - assert (payload <$> sort_by (λ x, indexOf (OpenApi.name x) t') (List.filter (is_listed t') (m <$> l')) ≡ₚ payload <$> List.filter (is_listed t') (m <$> l'))
      as -> by (by rewrite sort_by_Permutation). apply H. intros f Hf. by apply andb_true_iff in Hf as [Hf _].
  - apply H. intros f Hf. by apply andb_true_iff in Hf as [Hf _].
  - apply H. intros f Hf. by apply negb_true_iff in Hf.
Qed.

(** What a schema's properties are, or its items where it has none. *)
Definition own_properties (t : jsval) : list (string * jsval) :=
  entries_of (js_or (js_or (js_or (field "properties" t) (field "prefixItems" t)) (field "items" t)) empty).
Lemma Rc_fields p t n st l p' :
  Rc fuel expand url compare o Tc p t n st = Some (Ok (l, p')) →
  ∃ own fs rest, l = fs ++ rest ∧ Forall2 (is_field_of t n st) (own_properties t) own ∧ fs = ordered compare o t own ∧ Forall extra rest.
Proof.
  unfold Rc. intros ([own p1] & H1 & ([l2 p2] & H2 & ([l3 p3] & H3 & H4)%then_Ok)%then_Ok)%then_Ok.
  apply properties_fields in H1 as (fs & -> & Hfs). apply patterns_fields in H2 as (f2 & -> & H2).
  apply additional_fields in H3 as (f3 & -> & H3). apply further_fields in H4 as (f4 & -> & H4).
  exists fs, (ordered compare o t fs), (f2 ++ f3 ++ f4). rewrite !app_assoc. split_and!; [done|done|done|]. by rewrite !Forall_app.
Qed.

(** Fields run out only where the model of a schema does, or an example that is a chain of
    references. *)
Definition runs_out (i : bool) : Prop := (∃ p t n st, Tc p t n i st = None) ∨ ∃ p e, deref fuel p e [] false = None.
Lemma Uc_None p t n st : Uc fuel expand url o Tc p t n st = None → runs_out false.
Proof.
  unfold Uc. intros [H|([u w] & _ & [H|(pl & _ & [H|([s p2] & _ & [H|(? & _ & H)]%then_None)]%then_None)]%then_None)]%then_None; try done.
  - right. by exists p, t.
  - left. by eexists _, _, _, _.
  - destruct (_ || _); [|done]. apply then_None in H as [H|(? & _ & H)]; [|done]. unfold named_examples in H.
    destruct (js_or (field "examples" u) (examples (facts_in s))); try done;
      (apply then_None in H as [H|(? & _ & H)]; [|done]; apply for_in_None in H as ([k v] & b & _ & H); apply then_None in H as [H|(? & _ & H)]; [|done];
       unfold Lc in H; apply then_None in H as [H|([i w'] & _ & [H|(? & _ & [H|(? & _ & [H|(? & _ & H)]%then_None)]%then_None)]%then_None)]; try done; right; by eexists _, _).
Qed.
Lemma add_field_None n st acc t : add_field fuel expand url o Tc n st acc t = None → runs_out false.
Proof. destruct acc as [l p]. unfold add_field. intros [H|([f p2] & _ & H)]%then_None; [by apply Uc_None in H|done]. Qed.
Lemma Rc_None p t n st : Rc fuel expand url compare o Tc p t n st = None → runs_out false.
Proof.
  unfold Rc. intros [H|([l p1] & _ & [H|(acc & _ & [H|(acc2 & _ & H)]%then_None)]%then_None)]%then_None.
  - apply for_in_None in H as ([k v] & b & _ & H). cbn [property_field] in H. apply then_None in H as [H|(? & _ & H)]; [done|by apply add_field_None in H].
  - apply for_in_None in H as ([k v] & b & _ & H). by apply add_field_None in H.
  - unfold additional_field in H. destruct (js_or _ _) as [| |[]| | | |]; try done; try (by apply add_field_None in H);
      destruct (js_or _ _); try done; by apply add_field_None in H.
  - unfold further_items in H. destruct (if js_truthy _ then _ else _) as [| |[]| | | |]; try done; try (by apply add_field_None in H).
    apply for_in_None in H as ([k v] & b & _ & H). by apply add_field_None in H.
Qed.
End field_facts.


(** ** Facts about discriminators *)

Section discriminator_facts.
Context (compare : string → string → Z) (c : list string).
Definition place_of (kn : string * jsval) : Z := indexOf (text kn.2) c.
(** Those of the mapping first, in its order. *)
Definition by_mapping (l : list (string * jsval)) : Prop :=
  ∃ a b, l = a ++ b ∧ Forall (λ x, 0 <= place_of x) a ∧ StronglySorted (λ x y, place_of x <= place_of y) a ∧ Forall (λ x, place_of x < 0) b.
Lemma le_listed x y : 0 <= place_of x → variant_le compare c x y = (place_of y <? 0) || (place_of x <=? place_of y).
Proof. intros Hx. unfold variant_le. fold (place_of x) (place_of y). rewrite (proj2 (Z.ltb_ge (place_of x) 0)) by done. cbn. by destruct (place_of y <? 0). Qed.
Lemma le_unlisted x y : place_of x < 0 → 0 <= place_of y → variant_le compare c x y = false.
Proof. intros Hx Hy. unfold variant_le. fold (place_of x) (place_of y). by rewrite (proj2 (Z.ltb_lt (place_of x) 0)), (proj2 (Z.ltb_ge (place_of y) 0)). Qed.
Lemma insert_unlisted x a b : place_of x < 0 → Forall (λ x, 0 <= place_of x) a → insert_sorted (variant_le compare c) x (a ++ b) = a ++ insert_sorted (variant_le compare c) x b.
Proof. intros Hx. induction 1 as [|y a Hy _ IH]; [done|]. cbn. rewrite le_unlisted by done. by rewrite IH. Qed.
Lemma insert_by_mapping x l : by_mapping l → by_mapping (insert_sorted (variant_le compare c) x l).
Proof.
  intros (a & b & -> & Ha & Hs & Hb). destruct (decide (0 <= place_of x)) as [Hx|Hx].
  - induction Ha as [|y a Hy Ha IH]; cbn [app].
    + exists [x], b. split; [|split_and!; [by constructor|by repeat constructor|done]]. destruct Hb as [|y b Hy Hb]; [done|]. cbn.
      rewrite le_listed by done. by rewrite (proj2 (Z.ltb_lt (place_of y) 0)).
    + apply StronglySorted_inv in Hs as [Hs Hall]. cbn [insert_sorted]. rewrite le_listed by done. rewrite (proj2 (Z.ltb_ge (place_of y) 0)) by done. cbn [orb].
      destruct (Z.leb_spec (place_of x) (place_of y)) as [Hle|Hlt].
      * exists (x :: y :: a), b. split_and!; [done|by repeat constructor| |done]. constructor; [by constructor|]. constructor; [done|].
        eapply Forall_impl; [exact Hall|]. cbn. lia.
      * destruct (IH Hs) as (a' & b' & E & Ha' & Hs' & Hb'). exists (y :: a'), b'. rewrite E. split_and!; [done|by constructor| |done].
        constructor; [done|]. assert (∀ z, z ∈ a' → z ∈ x :: a ++ b) as Hin.
        { intros z Hz. rewrite <- (insert_sorted_perm (variant_le compare c) x (a ++ b)), E. apply elem_of_app. by left. }
        apply Forall_forall. intros z Hz. rewrite Forall_forall in Ha'. pose proof (Ha' z Hz). apply Hin in Hz as [->|[Hz|Hz]%elem_of_app]%elem_of_cons.
        -- lia.
        -- rewrite Forall_forall in Hall. by apply Hall.
        -- rewrite Forall_forall in Hb. pose proof (Hb z Hz). cbn in *. lia.
  - exists a, (insert_sorted (variant_le compare c) x b). split; [apply insert_unlisted; [lia|done]|]. split_and!; [done..|].
    rewrite insert_sorted_perm. constructor; [lia|done].
Qed.
Lemma sorted_by_mapping l : by_mapping (sorted (variant_le compare c) l).
Proof.
  induction l as [|x l IH]; [|by apply insert_by_mapping]. exists [], []. split_and!; by constructor.
Qed.
End discriminator_facts.

Lemma mapped_names i k t : (k, t) ∈ i → ∃ ns, lookup_key (text t) (mapped i) = Some ns ∧ JsStr k ∈ ns.
Proof.
  unfold mapped. set (f := λ a '(k, t), _). intros Hin.
  assert (∀ i acc ref n, (∃ ns, lookup_key ref acc = Some ns ∧ n ∈ ns) → ∃ ns, lookup_key ref (foldl f acc i) = Some ns ∧ n ∈ ns) as Hkeep.
  { clear. induction i as [|[k t] i IH]; intros acc ref n (ns & Hl & Hn); [by exists ns|]. cbn [foldl]. apply IH. unfold f.
    destruct (decide (ref = text t)) as [->|Hr]; [|rewrite set_key_other by done; by exists ns]. rewrite set_key_lookup, Hl. eexists. split; [done|].
    apply elem_of_app. by left. }
  generalize (@nil (string * list jsval)) as acc. induction i as [|[k' t'] i IH]; [by apply not_elem_of_nil in Hin|].
  intros acc. cbn [foldl]. apply elem_of_cons in Hin as [[= <- <-]|Hin]; [|by apply IH]. apply Hkeep. unfold f. rewrite set_key_lookup.
  eexists. split; [done|]. apply elem_of_app. right. left.
Qed.
Lemma mapped_NoDup i : NoDup (fst <$> mapped i).
Proof.
  unfold mapped. assert (NoDup (fst <$> (@nil (string * list jsval)))) as H by constructor. revert H. generalize (@nil (string * list jsval)) as acc.
  induction i as [|[k t] i IH]; intros acc Ha; [done|]. cbn [foldl]. by apply IH, set_key_NoDup.
Qed.
Lemma put_lookup {A} (l m : list (string * A)) k v : NoDup (fst <$> m) → lookup_key k m = Some v → lookup_key k (foldl (λ l '(k, v), set_key k v l) l m) = Some v.
Proof.
  revert l. induction m as [|[k' w] m IH]; intros l; cbn; [done|]. intros [Hk Hm]%NoDup_cons. destruct (String.eqb_spec k k') as [<-|Hn]; [|by apply IH].
  intros [= ->]. clear IH. assert (∀ m l : list (string * A), k ∉ fst <$> m → lookup_key k (foldl (λ l '(k, v), set_key k v l) l m) = lookup_key k l) as H.
  { clear. induction m as [|[j w] m IH]; intros l; cbn; [done|]. intros [Hj Hm]%not_elem_of_cons. rewrite IH by done. by apply set_key_other. }
  rewrite H by done. apply set_key_lookup.
Qed.
Lemma variants_mapped only derived i k t : (k, t) ∈ i → (text t, JsStr k) ∈ variants only derived i.
Proof.
  intros (ns & Hl & Hn)%mapped_names. unfold variants. apply list_elem_of_In, in_flat_map. exists (text t, ns). split.
  - apply list_elem_of_In, lookup_key_in. apply put_lookup; [apply mapped_NoDup|done].
  - apply list_elem_of_In, list_elem_of_fmap. by exists (JsStr k).
Qed.
Definition titles (l : list shape) : list jsval := (λ s, title (shown (facts_in s))) <$> l.
Lemma variants_titles Tc a vs l p l' p' : for_in (add_variant Tc a) (l, p) vs = Some (Ok (l', p')) → titles l' = titles l ++ (snd <$> vs).
Proof.
  intros H. apply (for_in_inv _ (λ pre acc, titles acc.1 = titles l ++ (snd <$> pre))) in H; [done| |by rewrite app_nil_r].
  intros pre [k n] [l1 p1] [l2 p2] _ Hl Hstep. cbn in Hl. cbn [add_variant] in Hstep. apply then_Ok in Hstep as ([s p3] & _ & [= <- _]).
  unfold titles in *. cbn [fst]. rewrite !fmap_app, Hl, <- app_assoc. cbn. by destruct s.
Qed.
(** Each alternative is the model of its reference, under its name. *)
Definition alternative_of (Tc : parser → jsval → string → bool → SpecParser.stack → out (shape * parser)) (a : facts) (kn : string * jsval) (s : shape) : Prop :=
  ∃ p1 p2 s0, Tc p1 (JsObj [("$ref"%string, JsStr kn.1)]) kn.1 true (take (length (refs a) - 1) (refs a)) = Some (Ok (s0, p2)) ∧ s = titled kn.2 s0.
Lemma variants_models Tc a vs l p l' p' : for_in (add_variant Tc a) (l, p) vs = Some (Ok (l', p')) → ∃ k, l' = l ++ k ∧ Forall2 (alternative_of Tc a) vs k.
Proof.
  intros H. apply (for_in_inv _ (λ pre acc, ∃ k, acc.1 = l ++ k ∧ Forall2 (alternative_of Tc a) pre k)) in H; [done| |exists []; by rewrite app_nil_r].
  intros pre [k n] [l1 p1] [l2 p2] _ (ms & Hl & Hms) Hstep. cbn in Hl. cbn [add_variant] in Hstep. apply then_Ok in Hstep as ([s p3] & Hs & [= <- _]).
  exists (ms ++ [titled n s]). cbn. rewrite Hl, app_assoc. split; [done|]. apply Forall2_app; [done|]. constructor; [|done]. by exists p1, p3, s.
Qed.
Lemma discriminator_None fuel compare Tc p a e : initDiscriminator fuel compare Tc p a e = None → runs_out fuel Tc true.
Proof.
  unfold initDiscriminator. cbv zeta. intros [H|(d & _ & [H|(ps & _ & [H|(r & _ & [H|(r2 & _ & [H|([l p2] & _ & H)]%then_None)]%then_None)]%then_None)]%then_None)]%then_None; try done.
  - unfold findDerived in H. apply for_in_None in H as ([k v] & b & _ & H). apply then_None in H as [H|([i w] & _ & [H|(al & _ & H)]%then_None)]; [right; by eexists _, _|done|].
    destruct al; try done. by apply then_None in H as [H|(? & _ & H)].
  - unfold listed in H. destruct (js_truthy _); [|done]. apply then_None in H as [H|(l & _ & H)]; [done|]. apply for_in_None in H as (v & b & _ & H).
    apply then_None in H as [H|(x & _ & H)]; [done|]. destruct (defined x); [|done]. by apply then_None in H as [H|(? & _ & H)].
  - apply for_in_None in H as ([k v] & [l q] & _ & H). cbn [add_variant] in H. apply then_None in H as [H|([s q'] & _ & H)]; [left; by eexists _, _, _, _|done].
Qed.
Lemma indexOf_listed n l : n ∈ l → 0 <= indexOf n l.
Proof. induction l as [|m l IH]; cbn; [by intros ?%not_elem_of_nil|]. destruct (String.eqb_spec n m) as [->|Hn]; [lia|]. intros [->|H]%elem_of_cons; [done|]. specialize (IH H). destruct (Z.ltb_spec (indexOf n l) 0); lia. Qed.


(** ** Recursion *)

Lemma circular_field i : field "x-circular-ref" (circular_of i) = JsBool true.
Proof.
  unfold circular_of, spread. cbn [entries_of field]. change (assign (entries_of i) [("x-circular-ref"%string, JsBool true)]) with (set_key "x-circular-ref" (JsBool true) (entries_of i)).
  by rewrite set_key_lookup.
Qed.
Lemma on_stack_kept s st r : existsb (same (JsStr s)) st = true → existsb (same (JsStr s)) (bc st r) = true.
Proof. intros H. unfold bc. destruct (js_truthy r); [|done]. destruct r; by rewrite existsb_app, H. Qed.

(** What stands beside the reference is merged into what it leads to, not put in an allOf
    with it. *)
Definition merged_siblings_only (e : jsval) : Prop :=
  forallb (λ kv, existsb (String.eqb kv.1) merged_siblings) (without ["$ref"]%string (entries_of e)) = true.
Lemma merged_circular e v : merged_siblings_only e → ∃ l, mergeRefs e (circular_of v) true = JsObj l ∧ at_key "x-circular-ref" l = JsBool true.
Proof.
  unfold merged_siblings_only, mergeRefs. set (o := without _ _). intros Ho. pose proof (circular_field v) as Hc.
  assert (existsb (λ k, negb (existsb (String.eqb k) merged_siblings)) (fst <$> o) = false) as E.
  { apply not_true_iff_false. intros (k & Hk & Hn)%existsb_exists. apply list_elem_of_In, list_elem_of_fmap in Hk as (kv & -> & Hk).
    rewrite forallb_forall in Ho. rewrite Ho in Hn by by apply list_elem_of_In. done. }
  rewrite E. destruct o as [|kv o'] eqn:Eo; [by eexists|]. rewrite <- Eo in *. eexists. split; [done|]. cbn [entries_of].
  rewrite at_key_assign; [exact Hc|]. intros (kv' & Hk & Hin)%list_elem_of_fmap. rewrite forallb_forall in Ho.
  specialize (Ho kv' ltac:(by apply list_elem_of_In)). by rewrite <- Hk in Ho.
Qed.

Lemma facts_circular sh h r w u a c : facts_of sh h r w u = Ok a → js_get "x-circular-ref" u = Ok c → isCircular a = js_truthy c.
Proof.
  unfold facts_of. intros Ha Hc. rewrite Hc in Ha. cbn [mbind result_bind] in Ha. destruct (base_title h) as [b|x]; [|done]. cbn [mbind result_bind] in Ha.
  destruct (ms u) as [cs|x]; [|done]. cbn [mbind result_bind] in Ha. destruct (is_primitive u _) as [b'|x]; [|done]. by injection Ha as <-.
Qed.

(** C27: A reference that is met again below itself, with the references followed on the
    way, is shown as recursive and nothing below it, however few calls are left. Its model
    is there, or an error, and has no fields, items or alternatives, and the document is
    as it was; provided the reference is not to a schema whose name is ignored, and that
    in a document of OpenAPI 3.1 nothing stands beside it but what is merged into the
    schema, a title and a description for example. *)
Theorem recursion_stops fuel expand url compare o p e s n i st :
  field "$ref" e = JsStr s → existsb (same (JsStr s)) st = true →
  (allowMergeRefs p = true → merged_siblings_only e) → (∀ x, fs (JsStr s) = Some x → x ∉ ignoreNamedSchemas p) →
  ∃ r, Tc (S fuel) expand url compare o p e n i st = Some r ∧
    ∀ m p', r = Ok (m, p') → isCircular (facts_in m) = true ∧ fields_in m = None ∧ items_in m = None ∧ oneOf_in m = None ∧ p' = p.
Proof.
  intros Hr Hs Hp Hi. cbn [Tc]. unfold model_once.
  assert (js_get "$ref" e = Ok (JsStr s)) as Hg. { destruct e; try done. cbn in Hr |- *. by rewrite Hr. }
  rewrite Hg. cbn [of_result then_].
  assert (isRef e = true) as He by (destruct e; try done; unfold isRef; by rewrite Hr).
  assert (match fs (JsStr s) with Some x => bool_decide (x ∈ ignoreNamedSchemas p) | None => false end = false) as E.
  { destruct (fs (JsStr s)) as [x|] eqn:E; [|done]. apply bool_decide_eq_false. by apply Hi. }
  cbn [deref]. rewrite He, Hr, E. destruct (byRef p (JsStr s)) as [v|x]; [|by exists (Raise x)]. rewrite (on_stack_kept s st _ Hs). cbn [orb then_].
  assert (∃ l, (if allowMergeRefs p then mergeRefs e (circular_of v) true else circular_of v) = JsObj l ∧ at_key "x-circular-ref" l = JsBool true) as (l & -> & Hl).
  { destruct (allowMergeRefs p); [apply merged_circular; auto|]. eexists. split; [done|]. apply circular_field. }
  cbn [mergeAllOf]. unfold merge_once. cbn [js_get of_result then_]. fold (at_key "x-circular-ref" l). rewrite Hl. cbn [js_truthy then_ done].
  match goal with |- context [facts_of ?x ?h ?r ?w ?u] => destruct (facts_of x h r w u) as [a|er] eqn:Ha; [|by exists (Raise er)] end. cbn [of_result then_].
  assert (isCircular a = true) as Hc.
  { apply (facts_circular _ _ _ _ _ _ (JsBool true) Ha). cbn [js_get]. fold (at_key "x-circular-ref" l). by rewrite Hl. }
  unfold init. rewrite Hc. eexists. split; [done|]. by intros m p' [= <- <-].
Qed.

(** ** A document *)

Definition plain_options : options :=
  {| simpleOneOfTypeLabel := false; sortEnumValuesAlphabetically := false; sortPropsAlphabetically := false; requiredPropsFirst := true; showExtensions := None |}.
Definition by_bytes (a b : string) : Z := match String.compare a b with Lt => -1 | Eq => 0 | Gt => 1 end.
Definition model_in (p : parser) (e : jsval) (st : SpecParser.stack) : out (shape * parser) :=
  Tc 12 (λ _ _, EmptyString) (λ _, Ok EmptyString) by_bytes plain_options p e EmptyString false st.
(** A model in one line: fields with a mark for the required ones, items, alternatives,
    and a mark for what is recursive. *)
Fixpoint outline (n : nat) (s : shape) : string :=
  match n, s with
  | S n, Shape a f i l =>
      text (title (shown a)) +:+ ":" +:+ typePrefix (shown a) +:+ text (displayType (shown a)) +:+ (if isCircular a then "*" else EmptyString) +:+
      (match f with
       | Some l => "{" +:+ join ";" ((λ f, text (name (member_in f)) +:+ (if required (member_in f) then "!" else EmptyString) +:+ "=" +:+ outline n (shape_in f)) <$> l) +:+ "}"
       | None => EmptyString
       end) +:+
      (match i with Some s => "[" +:+ outline n s +:+ "]" | None => EmptyString end) +:+
      (match l with Some l => "(" +:+ join "|" (outline n <$> l) +:+ ")" | None => EmptyString end)
  | _, _ => EmptyString
  end.
Definition outlined (p : parser) (e : jsval) : string := match model_in p e [] with Some (Ok (s, _)) => outline 20 s | _ => "none" end.
Definition zoo : parser := schemas [
  ("Tag", typed_as "object" [("properties", JsObj [("id", typed_as "integer" []); ("name", typed_as "string" [])]); ("required", JsArr [JsStr "name"])]);
  ("Pet", typed_as "object" [("properties", JsObj [("tag", ref_to "Tag"); ("friends", typed_as "array" [("items", ref_to "Friend")])]);
     ("discriminator", JsObj [("propertyName", JsStr "kind"); ("mapping", JsObj [("hound", JsStr "#/components/schemas/Dog"); ("cat", JsStr "#/components/schemas/Cat")])])]);
  ("Bird", JsObj [("allOf", JsArr [ref_to "Pet"])]);
  ("Cat", JsObj [("allOf", JsArr [ref_to "Pet"])]);
  ("Dog", JsObj [("allOf", JsArr [ref_to "Pet"; typed_as "object" [("properties", JsObj [("bark", typed_as "boolean" [])])]])]);
  ("Friend", typed_as "object" [("properties", JsObj [("of", ref_to "Friend")])]);
  ("Self", JsObj [("oneOf", JsArr [ref_to "Self"; ref_to "Tag"]); ("discriminator", JsObj [("propertyName", JsStr "kind")])])]%string.
Example outlines :
  outlined zoo <$> [ref_to "Tag"; ref_to "Friend"; JsObj [("anyOf", JsArr [ref_to "Tag"; typed_as "string" []])];
                    typed_as "array" [("items", typed_as "integer" [])]]%string
  = ["Tag:object{name!=:string;id=:integer}"; "Friend:object{of=Friend:object*}"; ":Tag (object) or string(Tag:object{name!=:string;id=:integer}|:string)";
     ":Array of integers[:integer]"]%string.
Proof. vm_compute. reflexivity. Qed.

(** An array of arrays is shown as an array, a type that is null already is null
    twice, and the model of a schema that is its own alternative takes the
    alternatives out of the document. *)
Lemma array_prefix_lost : outlined zoo (typed_as "array" [("items", typed_as "array" [("items", typed_as "string" [])])])%string
  = ":Array of strings[:Array of strings[:string]]"%string.
Proof. vm_compute. reflexivity. Qed.
Lemma null_twice : display_type (nullable_type (JsObj [("nullable", JsBool true)])%string (JsStr "null")) = JsStr "null or null".
Proof. reflexivity. Qed.
Lemma document_changed :
  (match model_in zoo (ref_to "Self") [] with Some (Ok (_, p)) => JsonPointer.get (spec p) "/components/schemas/Self" | _ => Raise TypeError end)
  = Ok (JsObj [("discriminator", JsObj [("propertyName", JsStr "kind")])])%string.
Proof. vm_compute. reflexivity. Qed.

Definition schema_in (n : string) (p : parser) : jsval := match JsonPointer.get (spec p) ("/components/schemas/" +:+ n) with Ok v => v | Raise _ => JsUndef end.
Definition tag_fields : list field_model :=
  match Rc 8 (λ _ _, EmptyString) (λ _, Ok EmptyString) by_bytes plain_options (Tc 7 (λ _ _, EmptyString) (λ _, Ok EmptyString) by_bytes plain_options)
          zoo (schema_in "Tag" zoo) EmptyString [] with
  | Some (Ok (l, _)) => l | _ => []
  end.

Definition no_facts : facts :=
  {| pointer := JsUndef; refs := []; rawSchema := JsUndef; schema := JsUndef; isCircular := false; description := JsUndef; type := JsUndef;
     format := JsUndef; examples := JsUndef; deprecated := false; constraints := []; readOnly := false; writeOnly := false; const := JsUndef;
     copied := []; extensions := [];
     shown := {| title := JsStr "Pet"; enum := JsArr []; example := JsUndef; displayType := JsStr "object"; displayFormat := JsUndef;
                 isPrimitive := false; typePrefix := EmptyString; oneOfType := None; discriminatorProp := JsUndef |} |}.
Definition pet_model : shape := match model_in zoo (ref_to "Pet") [] with Some (Ok (s, _)) => s | _ => leaf no_facts end.

Lemma recursion_stops_witness :
  let st := [JsStr "#/components/schemas/Friend"]%string in
  let p := {| spec := spec zoo; allowMergeRefs := true; ignoreNamedSchemas := [] |} in
  let e := JsObj [("$ref", JsStr "#/components/schemas/Friend"); ("description", JsStr "A friend.")]%string in
  (λ x, outline 3 x.1) <$> (match model_in p e st with Some (Ok x) => Some x | _ => None end) = Some "Friend:object*"%string ∧
  ∃ r, model_in p e st = Some r ∧
    ∀ m p', r = Ok (m, p') → isCircular (facts_in m) = true ∧ fields_in m = None ∧ items_in m = None ∧ oneOf_in m = None ∧ p' = p.
Proof.
  intros st p e. split; [vm_compute; reflexivity|].
  apply (recursion_stops 11 (λ _ _, EmptyString) (λ _, Ok EmptyString) by_bytes plain_options p e "#/components/schemas/Friend" EmptyString false st);
    [reflexivity..|intros x _ ?%not_elem_of_nil; done].
Defined.
