(* ===== verification/MediaTypes.v ===== *)
(** * Bodies of requests and responses

    The media types of a body with their examples, given or sampled (the classes [uu],
    [hu], [mu] and [Eu] of redoc.standalone.js), and the security schemes of an operation
    ([Gl]). Which objects the sampler may tell apart is an argument, since values have
    no identity here; names in brackets are those of the bundle. *)

From S2P Require Import Prelude PyData JsNumber JsData Css JsonPointer OpenApi SpecParser AllOf Parameters Sampler SchemaModel.
Local Open Scope Z_scope.

(** The options that matter here. *)
Record body_options := {
  schema_options : SchemaModel.options; onlyRequiredInSamples : bool; generatedPayloadSamplesMaxDepth : num;
  unstable_ignoreMimeParameters : bool; expand_response : string → bool }.

Record media_type := { media_name : string; isRequestType : bool; media_schema : option shape; media_examples : option (list (string * example_model)) }.
Record body := { body_description : jsval; body_required : jsval; content : option (list media_type) }.
Record response := {
  code : string; expanded : bool; response_summary : jsval; response_description : jsval; response_type : string;
  headers : list field_model; response_content : option (list media_type); response_extensions : list (string * jsval) }.

Section bodies.
Context (fuel : nat) (expand : string → jsval → string) (url : jsval → result string) (compare : string → string → Z) (o : body_options).
(** A value with the places of its objects in the document. *)
Context (label : jsval → node).

Definition schema_model (p : parser) (t : jsval) : out (shape * parser) :=
  Tc fuel expand url compare (schema_options o) p t EmptyString false [].
Definition example_of (p : parser) (v : jsval) (name : string) (encoding : jsval) : out example_model :=
  Lc expand url p fuel (JsObj [("value"%string, v)]) name encoding.

(** ** Samples *)

Definition sampler_options (request : bool) : jsval :=
  JsObj [("skipReadOnly", JsBool request); ("skipWriteOnly", JsBool (negb request));
         ("skipNonRequired", JsBool (request && onlyRequiredInSamples o)); ("maxSampleDepth", JsNum (generatedPayloadSamplesMaxDepth o))]%string.
(** The discriminator of a sample is the title of its alternative; an object of the
    document is changed there. *)
Definition discriminate (p : parser) (k : string) (t : jsval) (v : node) : node * parser :=
  match v with
  | Tree a h l =>
      (Tree a h (set_key k (Leaf t) l),
       match h with
       | Some q => with_spec (change_at q (λ w, match w with JsObj l => JsObj (set_key k t l) | w => w end) (spec p)) p
       | None => p
       end)
  | v => (v, p)
  end.
Definition alternative_sample (request : bool) (name : string) (encoding d : jsval) (acc : list (string * example_model) * parser) (r : shape) :
    out (list (string * example_model) * parser) :=
  let '(l, p) := acc in
  v ⇐ lu fuel (label (rawSchema (facts_in r))) (sampler_options request) (spec p);
  let ti := title (shown (facts_in r)) in
  let '(v, p) := if js_truthy d then discriminate p (text d) ti v else (v, p) in
  x ⇐ example_of p (value_of v) name encoding;
  done (set_key (text ti) x l, p).
(** [generateExample(e, t)]. *)
Definition generateExample (p : parser) (s : option shape) (request : bool) (name : string) (t : jsval) :
    out (option (list (string * example_model)) * parser) :=
  match s with
  | None => done (None, p)
  | Some s =>
      match oneOf_in s with
      | Some l =>
          '(l, p) ⇐ for_in (alternative_sample request name (field "encoding" t) (discriminatorProp (shown (facts_in s)))) ([], p) l;
          done (Some l, p)
      | None =>
          v ⇐ lu fuel (label (field "schema" t)) (sampler_options request) (spec p);
          x ⇐ example_of p (value_of v) name (field "encoding" t);
          done (Some [("default"%string, x)], p)
      end
  end.

(** ** Media types *)

(** [new uu(e, t, n, r, i)]. *)
Definition uu (p : parser) (name : string) (request : bool) (r : jsval) : out (media_type * parser) :=
  s ⇐ of_result (js_get "schema" r);
  '(s, p) ⇐ (if js_truthy s then '(m, p) ⇐ schema_model p s; done (Some m, p) else done (None, p));
  '(xs, p) ⇐ (if defined (field "examples" r) then
                 l ⇐ for_in (λ l '(k, v), x ⇐ Lc expand url p fuel v name (field "encoding" r); done (set_key k x l)) [] (entries_of (field "examples" r));
                 done (Some l, p)
               else if defined (field "example" r) then
                 '(v, _) ⇐ deref fuel p (field "example" r) [] false;
                 x ⇐ example_of p v name (field "encoding" r);
                 done (Some [("default"%string, x)], p)
               else if os name then generateExample p s request name r
               else done (None, p));
  done ({| media_name := name; isRequestType := request; media_schema := s; media_examples := xs |}, p).

(** The name of a media type without its parameters, and the types that share one
    merged in turn. *)
Definition until_semicolon (s : string) : string := match split_on ";" s with n :: _ => n | [] => EmptyString end.
Definition base_name (n : string) : string := trim (until_semicolon n).
Definition group (t : list (string * jsval)) (nr : string * jsval) : list (string * jsval) :=
  let '(n, r) := nr in let i := base_name n in
  set_key i (match lookup_key i t with Some v => if js_truthy v then JsObj (assign (entries_of v) (entries_of r)) else r | None => r end) t.
Definition grouped (l : list (string * jsval)) : list (string * jsval) := foldl group [] l.
(** [new hu(e, t, n, r)], and [hasSample]. *)
Definition hu (p : parser) (t : jsval) (request : bool) : out (list media_type * parser) :=
  match t with
  | JsUndef | JsNull => throw
  | t =>
      for_in (λ acc '(i, r), let '(l, p) := acc in '(m, p) ⇐ uu p i request r; done (l ++ [m], p)) ([], p)
        (if unstable_ignoreMimeParameters o then grouped (entries_of t) else entries_of t)
  end.
Definition hasSample (l : list media_type) : bool := existsb (λ m, match media_examples m with Some _ => true | None => false end) l.
(** The active media type, by its index. *)
Definition active (l : list media_type) (activeMimeIdx : nat) : option media_type := l !! activeMimeIdx.

(** ** Requests and responses *)

(** The examples beside the content of a body. *)
Definition with_examples (k : string) (t : jsval) (n : jsval) : jsval :=
  JsObj (foldl (λ t '(e, x), set_key e (JsObj (assign (entries_of (default JsUndef (lookup_key e t))) [(k, x)])) t) (entries_of t) (entries_of n)).
Definition body_content (e : jsval) : jsval :=
  let t := field "content" e in
  if js_truthy (field "x-examples" e) then with_examples "examples" t (field "x-examples" e)
  else if js_truthy (field "x-example" e) then with_examples "example" t (field "x-example" e)
  else t.
(** [new mu({parser, infoOrRef, options, isEvent})]. *)
Definition mu (p : parser) (e : jsval) (isEvent : bool) : out (body * parser) :=
  '(i, _) ⇐ deref fuel p e [] false;
  d ⇐ of_result (js_get "description" i);
  let a := body_content i in
  '(c, p) ⇐ (if defined a then '(l, p) ⇐ hu p a (negb isEvent); done (Some l, p) else done (None, p));
  done ({| body_description := js_or d (JsStr EmptyString); body_required := field "required" i; content := c |}, p).

(** [new Eu({parser, code, defaultAsError, infoOrRef, options, isEvent})]. *)
Definition Eu (p : parser) (code : string) (defaultAsError : bool) (e : jsval) (isEvent : bool) : out (response * parser) :=
  '(a, _) ⇐ deref fuel p e [] false;
  c ⇐ of_result (js_get "content" a);
  '(c, p) ⇐ (if defined c then '(l, p) ⇐ hu p c isEvent; done (Some l, p) else done (None, p));
  let d := js_or (field "description" a) (JsStr EmptyString) in
  let x := field "x-summary" a in
  ty ⇐ of_result (es (JsStr code) defaultAsError);
  hs ⇐ of_result (match field "headers" a with JsUndef => Ok [] | JsNull => Raise TypeError | h => Ok (entries_of h) end);
  '(l, p) ⇐ for_in (λ acc '(t, n), let '(l, p) := acc in
      '(f, p) ⇐ Uc fuel expand url (schema_options o) (Tc fuel expand url compare (schema_options o)) p
                   (JsObj (assign (entries_of n) [("name"%string, JsStr t)])) EmptyString [];
      done (l ++ [f], p)) ([], p) hs;
  done ({| code := code; expanded := expand_response o code;
           response_summary := if defined x then x else d; response_description := if defined x then d else JsStr EmptyString;
           response_type := ty; headers := l; response_content := c;
           response_extensions := match showExtensions (schema_options o) with Some t => ws (entries_of a) t | None => [] end |}, p).

(** ** Security *)

(** [new Gl(e, t).schemes]: those that exist, with their names and scopes. *)
Definition Gl (p : parser) (e : jsval) : out (list jsval) :=
  let n := js_or (field "securitySchemes" (field "components" (spec p))) empty in
  for_in (λ l '(r, s),
    '(i, _) ⇐ deref fuel p (at_index r n) [] false;
    if js_truthy i then
      done (l ++ [JsObj (assign (entries_of i) [("id", JsStr r); ("sectionId", JsStr r); ("displayName", js_or (field "x-displayName" i) (JsStr r));
                                                 ("scopes", js_or s (JsArr []))]%string)])
    else done l) [] (entries_of e).
End bodies.

(** ** Facts *)

Lemma grouped_keys l t n : n ∈ fst <$> foldl group t l ↔ n ∈ fst <$> t ∨ ∃ m r, (m, r) ∈ l ∧ base_name m = n.
Proof.
  revert t. induction l as [|[m r] l IH]; intros t; cbn [foldl].
  - split; [by left|]. intros [H|(? & ? & H & _)]; [done|by apply not_elem_of_nil in H].
  - rewrite IH. unfold group. rewrite set_key_keys. split.
    + intros [[H| ->]|(m' & r' & H & E)]; [by left|right; exists m, r; split; [left|done]|right; exists m', r'; split; [by right|done]].
    + intros [H|(m' & r' & [[= -> ->]|H]%elem_of_cons & E)]; [by left; left|left; right; by subst|right; eauto].
Qed.
Lemma grouped_NoDup l : NoDup (fst <$> grouped l).
Proof.
  unfold grouped. assert (NoDup (fst <$> (@nil (string * jsval)))) as H by constructor. revert H. generalize (@nil (string * jsval)) as t.
  induction l as [|[m r] l IH]; intros t Ht; [done|]. cbn [foldl]. by apply IH, set_key_NoDup.
Qed.
Lemma grouped_other l t n : (∀ m r, (m, r) ∈ l → base_name m ≠ n) → lookup_key n (foldl group t l) = lookup_key n t.
Proof.
  revert t. induction l as [|[m r] l IH]; intros t H; [done|]. cbn [foldl]. rewrite IH by (intros m' r' Hin; apply (H m' r'); by right).
  apply set_key_other. intros E. symmetry in E. revert E. apply (H m r). left.
Qed.

(** What a type says is said by the type it is merged into. *)
Lemma assign_keys k l m : k ∈ fst <$> assign l m ↔ k ∈ fst <$> l ∨ k ∈ fst <$> m.
Proof.
  revert l. induction m as [|[j v] m IH]; intros l; unfold assign; cbn [foldl].
  - set_solver.
  - fold (assign (set_key j v l) m). rewrite IH, set_key_keys. set_solver.
Qed.
Definition says (n k : string) (t : list (string * jsval)) : Prop := ∃ v, lookup_key n t = Some v ∧ k ∈ fst <$> entries_of v.
Lemma falsy_silent v : js_truthy v = false → entries_of v = [].
Proof. destruct v as [| | | |s| |]; try done. cbn. by destruct s. Qed.
Lemma group_says n r t k : k ∈ fst <$> entries_of r → says (base_name n) k (group t (n, r)).
Proof.
  intros H. unfold says, group. rewrite set_key_lookup. eexists. split; [done|].
  destruct (lookup_key (base_name n) t) as [v|]; [|done]. destruct (js_truthy v); [|done]. apply assign_keys. by right.
Qed.
Lemma group_keeps n k t nr : says n k t → says n k (group t nr).
Proof.
  destruct nr as [m r]. intros (v & E & H). unfold says, group. destruct (decide (n = base_name m)) as [->|Hn].
  - rewrite set_key_lookup, E. eexists. split; [done|]. destruct (js_truthy v) eqn:Ev.
    + apply assign_keys. by left.
    + rewrite (falsy_silent _ Ev) in H. by apply elem_of_nil in H.
  - rewrite set_key_other by done. eauto.
Qed.
Lemma grouped_says l t m r k : (m, r) ∈ l → k ∈ fst <$> entries_of r → says (base_name m) k (foldl group t l).
Proof.
  revert t. induction l as [|nr l IH]; intros t Hin Hk; [by apply elem_of_nil in Hin|]. cbn [foldl].
  apply elem_of_cons in Hin as [<-|Hin]; [|by apply IH].
  assert (says (base_name m) k (group t (m, r))) as H by by apply group_says.
  revert H. generalize (group t (m, r)) as u. clear IH Hk. induction l as [|nr l IH]; intros u H; [done|]. cbn [foldl]. by apply IH, group_keeps.
Qed.

(** A name has no parameters left. *)
Lemma until_semicolon_plain s : has_char ";" (until_semicolon s) = false.
Proof.
  unfold until_semicolon. induction s as [|c s IH]; [done|]. cbn [split_on]. case_bool_decide as Hc; [done|].
  destruct (split_on ";" s) as [|w ws]; cbn [has_char]; by rewrite bool_decide_eq_false_2 by done.
Qed.
Lemma skip_space_plain c s : has_char c s = false → has_char c (skip_space s) = false.
Proof. induction s as [|d s IH]; [done|]. cbn [skip_space]. destruct (is_space d); [|done]. intros [_ H]%orb_false_iff. by apply IH. Qed.
Lemma trim_end_plain c s : has_char c s = false → has_char c (trim_end s) = false.
Proof.
  induction s as [|d s IH]; [done|]. intros [Hd H]%orb_false_iff. cbn [trim_end]. specialize (IH H).
  destruct (trim_end s); [destruct (is_space d); [done|]|]; cbn [has_char] in *; by rewrite Hd.
Qed.
Lemma base_name_plain n : has_char ";" (base_name n) = false.
Proof. apply trim_end_plain, skip_space_plain, until_semicolon_plain. Qed.

(** When the parameters of media types are ignored there is one media type for every
    name, and no name has parameters; no media type is lost, nor any key of one, be it
    shared with others of that name, and one whose name no other has is as it was. *)
Theorem parameters_ignored l :
  NoDup (fst <$> grouped l) ∧ (∀ n, n ∈ fst <$> grouped l ↔ ∃ m r, (m, r) ∈ l ∧ base_name m = n) ∧
  (∀ n, n ∈ fst <$> grouped l → has_char ";" n = false) ∧
  (∀ m r k, (m, r) ∈ l → k ∈ fst <$> entries_of r → says (base_name m) k (grouped l)) ∧
  ∀ before m r after, l = before ++ (m, r) :: after → (∀ n s, (n, s) ∈ before ++ after → base_name n ≠ base_name m) →
    lookup_key (base_name m) (grouped l) = Some r.
Proof.
  assert (∀ n, n ∈ fst <$> grouped l ↔ ∃ m r, (m, r) ∈ l ∧ base_name m = n) as K.
  { intros n. unfold grouped. rewrite grouped_keys. split; [|by right]. intros [H|H]; [by apply not_elem_of_nil in H|done]. }
  split; [apply grouped_NoDup|]. split; [done|]. split; [|split].
  - intros n (m & r & _ & <-)%K. apply base_name_plain.
  - intros m r k. apply grouped_says.
  - intros before m r after -> H. unfold grouped. rewrite foldl_app. cbn [foldl]. rewrite grouped_other by (intros n s Hin; apply (H n s), elem_of_app; by right).
    unfold group at 1. rewrite set_key_lookup. fold (grouped before).
    assert (lookup_key (base_name m) (grouped before) = None) as ->; [|done]. unfold grouped.
    rewrite grouped_other; [done|]. intros n s Hin. apply (H n s), elem_of_app. by left.
Qed.

(** ** Examples of a body *)

Definition plain_body : body_options :=
  {| schema_options := plain_options; onlyRequiredInSamples := false; generatedPayloadSamplesMaxDepth := of_Z 10;
     unstable_ignoreMimeParameters := false; expand_response := λ _, false |}.
Definition cats : parser := schemas [
  ("Pet", JsObj [("discriminator", JsObj [("propertyName", JsStr "kind"); ("mapping", JsObj [("cat", JsStr "#/components/schemas/Cat")])])]);
  ("Cat", typed_as "object" [("example", JsObj [("name", JsStr "Tom")])])]%string.
Definition examples_in (place : list string) (p : parser) (t : jsval) : option (list (string * jsval) * parser) :=
  match uu 12 (λ _ _, EmptyString) (λ _, Ok EmptyString) by_bytes plain_body (from_doc place) p "application/json" true t with
  | Some (Ok (m, p)) => Some ((λ '(k, x), (k, value x)) <$> default [] (media_examples m), p)
  | _ => None
  end.
(** The name of the alternative is written into the example of the document. *)
Lemma example_changed :
  match examples_in ["components"; "schemas"; "Cat"] cats (JsObj [("schema", ref_to "Pet")]) with
  | Some (l, p) => l = [("cat", JsObj [("name", JsStr "Tom"); ("kind", JsStr "cat")])] ∧
      JsonPointer.get (spec p) "/components/schemas/Cat/example" = Ok (JsObj [("name", JsStr "Tom"); ("kind", JsStr "cat")])
  | None => False
  end%string.
Proof. vm_compute. done. Qed.
(** Of alternatives without a title only the last is sampled. *)
Lemma untitled_lost :
  fst <$> examples_in [] cats (JsObj [("schema", JsObj [("oneOf", JsArr [typed_as "string" []; typed_as "integer" []])])])
  = Some [(EmptyString, JsNum (of_Z 0))]%string.
Proof. vm_compute. reflexivity. Qed.
